(* ===== verification/_CoqProject ===== *)
-Q . S2P
Prelude.v
Error.v
Io.v
Frame.v
Firmware.v
Capability.v
Algorithm.v
Protocol.v
KeyCore.v
Toy.v
Wire.v
Objects.v
Authorization.v
SessionObjects.v
Requests.v
Layouts.v
SecureChannel.v
DeviceState.v
ObjectStore.v
ObjectCommands.v
KeyUse.v
Wrapping.v
WrappingProperties.v
KeyUseProperties.v
SessionObjectCommands.v
SessionObjectProperties.v
Attestation.v
Dispatch.v
AccessControl.v
CommandEffects.v
StoreProperties.v
QueryProperties.v
DeviceInvariant.v
AuditProperties.v
Sessions.v
Persistence.v
ToyState.v
PersistenceProperties.v
SessionSteps.v
SessionProperties.v
HostSession.v
InProcess.v
WorkerProtocol.v
Display.v
UsbIdentity.v
BulkTransfers.v
Worker.v
WorkerProperties.v
Connector.v
ConnectorProperties.v
I2c.v
Arguments.v
FrontEnds.v
Programs.v
HostRequests.v
Qualification.v
Credentials.v
AsymmetricHandshake.v
Scenarios.v
KeyScenarios.v
PublicKeyScenarios.v
RsaWrapScenarios.v
ExtensionScenarios.v
Suite.v
ClientRuns.v
ClientCommands.v
Cleanup.v
Backup.v
Isolation.v
IsolationProperties.v
Lifecycle.v
QualificationTool.v
ScenarioRuns.v
