(* ===== verification/Prelude.v ===== *)
(** * virtual-yubihsm: a verification library

    The repository implements a YubiHSM 2 in software. This library translates its
    Rust code into executable definitions and proves what they guarantee.

    ** The program

    - The device (crates/virtual-yubihsm-core) is a state machine from an encoded
      frame to an encoded frame. A plain frame is answered at once or opens a
      session; a session message is authenticated, decrypted, executed with the
      rights of the session's authentication key, and answered encrypted. A command
      passes authorization, a table of handlers, the log and size guards, and the
      audit. Durable changes mark the device, and a runtime around it
      (persistent_runtime.rs) advances an epoch and awaits the mutation before the
      answer leaves.
    - The USB worker (src/) serves one device on two bulk endpoints of a function
      file system, with threads for the endpoints, the eject button and the display,
      under a supervisor that it talks to in records (worker_protocol.rs).
    - The I2C front end (crates/virtual-yubihsm-i2c) serves one device to a target
      driver and answers a recovery frame of its own.
    - The qualification client (crates/yubihsm-qualification) opens sessions over
      any transport, in particular the connector's HTTP transport and the device in
      the same process, and runs test cases.

    ** How it is modelled

    A function of the source is a definition of the same name. [Result] with panics
    is [outcome] below; [Eff S E A] is a computation that reads and writes a state
    [S]; [&mut self] methods of the device run in [Dev], the device with the world
    around it. Bytes are integers below 256 in a list, integers are [Z] with their
    wrap-around or overflow check written out, [HashMap]s are [gmap]s. [wp] is the
    predicate transformer of these computations, used for invariants of long
    handlers. Cargo features are the class [Build].

    The device:
    - [Error], [Frame], [Wire]: error.rs, frame.rs, wire.rs.
    - [Firmware], [Algorithm], [Capability], [Protocol]: firmware.rs, algorithm.rs,
      capability.rs, protocol.rs.
    - [Objects], [Authorization], [SessionObjects], [Requests], [SecureChannel]:
      object.rs, authorization.rs, session_object.rs, request.rs, session.rs with
      secure_channel_crypto.rs.
    - device.rs by subject: [DeviceState] (the device, options, audit log, listing),
      [ObjectStore] and [ObjectCommands] (lookup, insertion, creation), [KeyUse]
      (signing, decryption, agreement, MAC, OTP), [Wrapping], [Attestation],
      [SessionObjectCommands], [Dispatch] (authorization and the handler table),
      [Sessions] (session table and entry points).
    - [Persistence]: the durable state of device.rs and persistent_runtime.rs.

    The front ends and the client:
    - [Io]: I/O errors, UTF-8, numbers in text.
    - [WorkerProtocol], [UsbIdentity], [Display], [Worker]: worker_protocol.rs,
      usb_identity.rs, display.rs, functionfs.rs with buttons.rs.
    - [I2c], [Arguments], [Programs]: recovery.rs and linux.rs of the I2C crate; the
      command lines and the main functions of both programs.
    - [HostSession], [HostRequests], [Credentials], [InProcess], [Connector]: the
      qualification client, with credentials.rs.
    - [Qualification] (the read-only cases), [Scenarios] (the maintenance operations
      and the session, object, option and authorization cases), [KeyScenarios]
      (HMAC, AES, wrapping and audit), [PublicKeyScenarios], [RsaWrapScenarios],
      [ExtensionScenarios] (the other cases) and [Suite] (the profiles and [run]): the
      test suite of lib.rs. [QualificationTool]: the program of main.rs, from its
      command line to its exit.

    The remaining files hold specifications and proofs: [Layouts] (where the fields
    of a request stand in its bytes), [AccessControl] (the rights that each command
    needs on the objects its request names), [CommandEffects] (what a command
    changes of what its request names), [StoreProperties], [QueryProperties], [DeviceInvariant],
    [AuditProperties], [KeyUseProperties], [WrappingProperties],
    [SessionObjectProperties], [SessionSteps] (the session table as a state
    machine), [SessionProperties], [PersistenceProperties], [BulkTransfers] (packets
    on a bulk endpoint), [WorkerProperties], [ConnectorProperties], [FrontEnds],
    [AsymmetricHandshake]. [ClientRuns] specifies a command by its outcome and its
    effect on the device ([ClientRuns.handled], or [ClientRuns.ran] where the command
    also uses the clock or the random source) and says what the client of a session
    gets; [ClientCommands] does so for the commands of [Cleanup], [Backup] and
    [Lifecycle]. [Isolation] follows each handler on two devices at once, and
    [IsolationProperties] lifts this to commands and to conversations.
    [ScenarioRuns] runs the whole suite, and the tool, on a factory device.

    ** What is shown

    - Mediation: a change of the device comes from a verified message of a live
      session ([SessionProperties.changes_need_a_verified_session],
      [SessionProperties.unverified_messages_execute_nothing],
      [SecureChannel.request_authentication]); a command runs only when the
      access-control model allows it ([StoreProperties.commands_are_mediated],
      [Authorization.authorization_sound_complete]); no command gives an object more
      than its session may delegate ([StoreProperties.no_privilege_escalation]).
    - Isolation: objects outside the domains of a session do not matter to it. Their
      contents change no answer of a whole conversation
      ([IsolationProperties.hidden_contents_do_not_matter]), their presence does not
      show in the answer of a command that succeeds
      ([IsolationProperties.hidden_objects_are_unobservable]), and nothing but a reset
      changes them ([IsolationProperties.hidden_objects_are_untouched]). What a
      session does learn is which identifiers are in use when it creates an object,
      how many objects there are, and, from the order of the checks of an export,
      that a hidden object exists ([IsolationProperties.hidden_target_is_told_apart]).
    - Refinement: frames do the steps of an abstract session table
      ([SessionProperties.frames_step_the_session_table]), commands have the effects
      of [CommandEffects], capability bitmaps are sets
      ([Capability.bitmap_refines_sets]), and a session over a transport is
      transparent ([InProcess.sessions_are_transparent],
      [InProcess.handshake_opens_a_session],
      [AsymmetricHandshake.asymmetric_handshake_opens_a_session]).
    - Invariants: the device ([SessionProperties.device_invariant]), the session
      table, the volatile objects, options that are fixed, generation counters.
    - Durability: acknowledged changes are durable, durable changes are marked, a
      saved device is restored, audited commands are logged.
    - Codecs: round trips of the secure channel, of wrapped objects, of OTP
      credentials, of the client's requests, of the worker's records, of HTTP
      responses and of command lines; the bound on secure responses.
    - Front ends: whatever the environment does, the device changes only by the
      frames that were read, each handled once and in order
      ([FrontEnds.front_ends_only_execute]); responses reach the USB host whole and
      in order ([WorkerProperties.responses_reach_the_host]); an eject is published
      once and only for a button that was pressed
      ([WorkerProperties.control_loop_is_safe]); the indicator follows the commands
      that the display thread received ([Display.display_follows_the_bus]).
    - The whole path, from the client through an encrypted session and the dispatcher
      to the store: the clean-up removes exactly its own objects from the device
      ([Cleanup.cleanup_removes_its_objects]), and on any device that serves the
      session the life of an opaque object passes and leaves the device as it was but
      for one generation ([Lifecycle.opaque_object_lifecycle_passes]). An object
      exported from one device through a session, and imported through a session of
      another that holds the same wrap key, is there as it was, marked as imported
      ([Backup.object_moves_between_devices]).
    - The suite: a report names exactly the cases that ran and passed, and an error
      names the case that failed ([Suite.reports_are_earned]); the smoke profile
      passes on the device ([ScenarioRuns.smoke_profile_passes]). The lemmas of
      [ScenarioRuns] evaluate the repository's own tests: all twenty-two cases of the
      ephemeral profile and all of the extensions pass on a factory device.

    ** Parameters

    Code outside the repository is a class: [Platform] (clock, randomness, the rest of
    the world), [SoftwareKeyCore] (the key library), [X509] and [Der] (certificates),
    [StateCodec], [StateWriter] and [StateRuntime] (the encoding and the storage of
    durable state), [ControlSocket], [WorkerSystem], [UsbGadget], [WorkerThreads],
    [DisplayBackend], [Indicator], [Frames], [I2cSystem], [TcpStream], [P256Library],
    the key store, smart-card service and applet client of [Credentials], the
    verifying side of the key library with the certificate parser ([HostCrypto]), the
    process environment, and the signal handlers. What a theorem
    relies on is a class of laws: random output has the asked length ([RandomLaws]),
    keys are derived with the right length ([KdfLaws]), sealing, storage, CBOR and
    encryption are invertible ([SealLaws], [KeyStorageLaws], [CborLaws],
    [ChannelLaws]), the state codec is invertible ([StateCodecLaws]), the indicator
    does what it is told ([IndicatorLaws]), key agreement is symmetric
    ([KeyAgreementLaws]), and the endpoint file delivers what it
    accepts ([BulkLaws]). [IndicatorLaws] and [ControlLaws] also name what a theorem
    observes of the world: the commands received so far, and the button levels, sent
    records and display commands so far. [Toy] and [ToyState] instantiate them with small
    functions, on which the witnesses evaluate.

    ** Loops and fuel

    Loops over data are structural recursion. The three retry loops over the random
    source (an unused object identifier, an unused session-object handle, a scalar of
    the host) run for
    [Fuel] draws and are [Diverge] after them, since the code has no bound either;
    the theorems hold for every amount of fuel, and the witnesses use eight draws,
    where the toy source succeeds with the first. The services (worker, endpoint
    threads, button, display, I2C loop) run for a number of rounds that the theorems
    quantify over. [decode_chunks] is bounded by the length of its input, and
    [ConnectorProperties.chunked_decoding_ends] shows that this is enough. The
    response thread is shown to end when its channel closes.

    ** Not modelled

    - The text of the errors that the key library gives the client, where its
      interface names none.
    - Log output, which no result depends on; drawing, GPIO and gadget libraries,
      which are not in the repository; build scripts and tests.
    - Side channels and the erasure of secrets: a value has no memory to clear.

    This file holds the outcomes, the effects, the automation and the generic lemmas
    that the components share. *)

From Stdlib Require Export ZArith Lia.
From stdpp Require Export base tactics list gmap strings numbers sorting.

#[global] Open Scope Z_scope.

(** ** Outcomes of a Rust function

    A function of type [Result<A>] returns [Ok] or [Err]; it can also panic (an
    index out of bounds, an arithmetic overflow when overflow checks are on) or,
    for the retry loops over the random source, still be running when the fuel
    of the model is used up ([Diverge]). *)

Inductive outcome (E A : Type) : Type :=
| Ok (a : A)
| Err (e : E)
| Panic
| Diverge.

Arguments Ok {E A} a.
Arguments Err {E A} e.
Arguments Panic {E A}.
Arguments Diverge {E A}.

#[export] Instance outcome_eq_dec {E A} `{EqDecision E, EqDecision A} :
  EqDecision (outcome E A).
Proof. solve_decision. Defined.

#[export] Instance outcome_ret {E} : MRet (outcome E) := λ A a, Ok a.
#[export] Instance outcome_bind {E} : MBind (outcome E) := λ A B f m,
  match m with
  | Ok a => f a
  | Err e => Err e
  | Panic => Panic
  | Diverge => Diverge
  end.
#[export] Instance outcome_fmap {E} : FMap (outcome E) := λ A B f m,
  match m with
  | Ok a => Ok (f a)
  | Err e => Err e
  | Panic => Panic
  | Diverge => Diverge
  end.

(** [Option::ok_or]. *)
Definition ok_or {E A} (o : option A) (e : E) : outcome E A :=
  match o with Some a => Ok a | None => Err e end.

(** [if c { return Err(e) }]. *)
Definition reject_if {E} (c : bool) (e : E) : outcome E unit :=
  if c then Err e else Ok tt.

(** [Result::is_ok] and [Result::ok]. *)
Definition is_ok {E A} (r : outcome E A) : bool :=
  match r with Ok _ => true | _ => false end.

(** [Option::unwrap]: [None] panics. *)
Definition unwrap {E A} (o : option A) : outcome E A :=
  match o with Some a => Ok a | None => Panic end.

(** ** Computations over a state

    [Eff S E A] is a fallible computation that reads and updates a state [S].
    A failing computation keeps the state it reached, as Rust does with
    [&mut self]. *)

Definition Eff (S E A : Type) : Type := S → outcome E A * S.

#[export] Instance eff_ret {S E} : MRet (Eff S E) := λ A a s, (Ok a, s).
#[export] Instance eff_bind {S E} : MBind (Eff S E) := λ A B f m s,
  match m s with
  | (Ok a, s') => f a s'
  | (Err e, s') => (Err e, s')
  | (Panic, s') => (Panic, s')
  | (Diverge, s') => (Diverge, s')
  end.

(** A pure outcome inside a computation. *)
Definition lift {S E A} (r : outcome E A) : Eff S E A := λ s, (r, s).
Definition get_state {S E} : Eff S E S := λ s, (Ok s, s).
Definition set_state {S E} (s : S) : Eff S E unit := λ _, (Ok tt, s).
Definition fail {S E A} (e : E) : Eff S E A := λ s, (Err e, s).

(** A computation on the second component of a pair that may look at, but not
    change, the first one: a [&self] method called from a [&mut self] one. *)
Definition reading {D W E A} (m : D → Eff W E A) : Eff (D * W) E A :=
  λ s, let '(r, w) := m s.1 s.2 in (r, (s.1, w)).

(** A computation on the second component alone. *)
Definition on_world {D W E A} (m : Eff W E A) : Eff (D * W) E A := reading (λ _, m).

(** A total update of the first component. *)
Definition modify {D W E} (f : D → D) : Eff (D * W) E unit :=
  λ s, (Ok tt, (f s.1, s.2)).

Definition get_left {D W E} : Eff (D * W) E D := λ s, (Ok s.1, s).

(** [closure()] followed by code that inspects its result. *)
Definition attempt {S E A} (m : Eff S E A) : Eff S E (outcome E A) :=
  λ s, let '(r, s') := m s in
       match r with
       | Panic => (Panic, s')
       | Diverge => (Diverge, s')
       | r => (Ok r, s')
       end.

(** ** Machine integers and byte strings

    A [w]-bit unsigned integer is a [Z] below [2^w]; a byte string is a list of
    such integers. Wrap-around is written out where the code has it. *)

Abbreviation bytes := (list Z).

Definition u8 (z : Z) : Prop := 0 ≤ z < 256.
Definition u16 (z : Z) : Prop := 0 ≤ z < 65536.
Definition u64 (z : Z) : Prop := 0 ≤ z < 18446744073709551616.
Definition u16_max : Z := 65535.

#[export] Instance u8_dec z : Decision (u8 z).
Proof. unfold u8. apply _. Defined.
#[export] Instance u16_dec z : Decision (u16 z).
Proof. unfold u16. apply _. Defined.
#[export] Instance u64_dec z : Decision (u64 z).
Proof. unfold u64. apply _. Defined.

(** [slice.len()] as a [usize]. *)
Definition len {A} (l : list A) : Z := Z.of_nat (length l).

(** [split_at], [&l[..n]] and [&l[n..]], for [0 <= n <= len l]. *)
Definition ztake {A} (n : Z) (l : list A) : list A := take (Z.to_nat n) l.
Definition zdrop {A} (n : Z) (l : list A) : list A := drop (Z.to_nat n) l.

(** [&l[a..b]], which panics when the range is not within the slice. *)
Definition slice {E A} (l : list A) (a b : Z) : outcome E (list A) :=
  if (0 <=? a) && (a <=? b) && (b <=? len l)
  then Ok (ztake (b - a) (zdrop a l)) else Panic.

(** [l[i]]. *)
Definition index {E A} (l : list A) (i : Z) : outcome E A :=
  if 0 <=? i then unwrap (l !! Z.to_nat i) else Panic.

(** [vec![0; n]]. *)
Definition zeros (n : Z) : bytes := replicate (Z.to_nat n) 0.

(** [out[offset..offset + src.len()].copy_from_slice(src)]. *)
Definition copy_from_slice {E} (out : bytes) (offset : Z) (src : bytes) : outcome E bytes :=
  if (0 <=? offset) && (offset + len src <=? len out)
  then Ok (ztake offset out ++ src ++ zdrop (offset + len src) out) else Panic.

(** [u16::try_from(n).ok()] and [usize::checked_add]. *)
Definition u16_try_from (n : Z) : option Z := if (0 <=? n) && (n <=? u16_max) then Some n else None.
Definition checked_add (a b : Z) : option Z :=
  if a + b <? 18446744073709551616 then Some (a + b) else None.

(** [n as u16] and [n as u8]. *)
Definition as_u16 (n : Z) : Z := n mod 65536.
Definition as_u8 (n : Z) : Z := n mod 256.

(** [Option::is_some_and] and [Option::is_none_or]. *)
Definition is_some_and {A} (o : option A) (f : A → bool) : bool :=
  match o with Some a => f a | None => false end.
Definition is_none_or {A} (o : option A) (f : A → bool) : bool :=
  match o with Some a => f a | None => true end.

(** [uN::to_be_bytes] and [uN::from_be_bytes], [n] bytes wide. *)
Fixpoint to_be_bytes (n : nat) (v : Z) : bytes :=
  match n with
  | O => []
  | S n' => to_be_bytes n' (v / 256) ++ [v mod 256]
  end.

Definition from_be_bytes (l : bytes) : Z := foldl (λ acc b, acc * 256 + b) 0 l.

Definition u16_to_be_bytes : Z → bytes := to_be_bytes 2.
Definition u32_to_be_bytes : Z → bytes := to_be_bytes 4.
Definition u64_to_be_bytes : Z → bytes := to_be_bytes 8.

Abbreviation bytes_ok := (Forall u8).

(** The bytes of a literal [b"..."]. *)
Definition ascii_bytes (s : string) : bytes :=
  map (λ c, Z.of_nat (Ascii.nat_of_ascii c)) (String.list_ascii_of_string s).

(** ** Generic lemmas on lengths and slices *)

Lemma len_nonneg {A} (l : list A) : 0 ≤ len l.
Proof. unfold len. lia. Qed.

Lemma len_app {A} (l k : list A) : len (l ++ k) = len l + len k.
Proof. unfold len. rewrite length_app. lia. Qed.

Lemma len_cons {A} (x : A) (l : list A) : len (x :: l) = 1 + len l.
Proof. unfold len. simpl length. lia. Qed.

Lemma len_nil {A} : len ([] : list A) = 0.
Proof. done. Qed.

Lemma len_zero {A} (l : list A) : len l = 0 → l = [].
Proof. destruct l; [done|]. rewrite len_cons. pose proof (len_nonneg l). lia. Qed.

Lemma len_one {A} (l : list A) : len l = 1 → ∃ x, l = [x].
Proof.
  destruct l as [|x l]; [done|]. rewrite len_cons. intros H.
  rewrite (len_zero l) by lia. eauto.
Qed.

Lemma len_two {A} (l : list A) : len l = 2 → ∃ x y, l = [x; y].
Proof.
  destruct l as [|x l]; [done|]. rewrite len_cons. intros H.
  destruct (len_one l) as [y ->]; [lia|]. eauto.
Qed.

Lemma len_ztake {A} n (l : list A) : 0 ≤ n ≤ len l → len (ztake n l) = n.
Proof. unfold len, ztake. rewrite length_take. lia. Qed.

Lemma len_zdrop {A} n (l : list A) : 0 ≤ n ≤ len l → len (zdrop n l) = len l - n.
Proof. unfold len, zdrop. rewrite length_drop. lia. Qed.

Lemma len_zeros n : 0 ≤ n → len (zeros n) = n.
Proof. unfold len, zeros. rewrite length_replicate. lia. Qed.

Lemma ztake_zdrop {A} n (l : list A) : ztake n l ++ zdrop n l = l.
Proof. apply take_drop. Qed.

Lemma ztake_app {A} (l k : list A) : ztake (len l) (l ++ k) = l.
Proof. unfold ztake, len. rewrite Nat2Z.id. apply take_app_length. Qed.

Lemma zdrop_app {A} (l k : list A) : zdrop (len l) (l ++ k) = k.
Proof. unfold zdrop, len. rewrite Nat2Z.id. apply drop_app_length. Qed.

Lemma ztake_app_eq {A} n (l k : list A) : n = len l → ztake n (l ++ k) = l.
Proof. intros ->. apply ztake_app. Qed.

Lemma zdrop_app_eq {A} n (l k : list A) : n = len l → zdrop n (l ++ k) = k.
Proof. intros ->. apply zdrop_app. Qed.

Lemma ztake_all {A} n (l : list A) : n = len l → ztake n l = l.
Proof. intros ->. unfold ztake, len. rewrite Nat2Z.id. by apply firstn_all. Qed.

Lemma ztake_0 {A} (l : list A) : ztake 0 l = [].
Proof. done. Qed.
Lemma zdrop_0 {A} (l : list A) : zdrop 0 l = l.
Proof. done. Qed.

Lemma slice_ok {E A} (l : list A) a b :
  0 ≤ a ≤ b → b ≤ len l → slice (E := E) l a b = Ok (ztake (b - a) (zdrop a l)).
Proof.
  intros ??. unfold slice. by rewrite !(proj2 (Z.leb_le _ _)) by lia.
Qed.

(** A slice of a concatenation, by the lengths of its parts. *)
Lemma slice_mid {E A} (a b c : list A) i j :
  i = len a → j = len a + len b → slice (E := E) (a ++ b ++ c) i j = Ok b.
Proof.
  intros -> ->. pose proof (len_nonneg a). pose proof (len_nonneg b). pose proof (len_nonneg c).
  rewrite slice_ok; [|lia|rewrite !len_app; lia].
  rewrite zdrop_app. f_equal. apply ztake_app_eq. lia.
Qed.

Lemma slice_parts {E A} (l a b c : list A) i j :
  l = a ++ b ++ c → i = len a → j = len a + len b → slice (E := E) l i j = Ok b.
Proof. intros ->. apply slice_mid. Qed.

Lemma index_ok {E A} (l : list A) i x :
  0 ≤ i → l !! Z.to_nat i = Some x → index (E := E) l i = Ok x.
Proof. intros ? Hx. unfold index. rewrite (proj2 (Z.leb_le _ _)) by lia. by rewrite Hx. Qed.

Lemma index_lt {E A} (l : list A) i : 0 ≤ i < len l → ∃ x, index (E := E) l i = Ok x.
Proof.
  unfold len. intros Hi. destruct (lookup_lt_is_Some_2 l (Z.to_nat i)) as [x Hx]; [lia|].
  exists x. apply index_ok; [lia|done].
Qed.

Lemma copy_from_slice_ok {E} (a b c src : bytes) :
  len src = len b → copy_from_slice (E := E) (a ++ b ++ c) (len a) src = Ok (a ++ src ++ c).
Proof.
  intros Hb. unfold copy_from_slice. pose proof (len_nonneg a). pose proof (len_nonneg c).
  rewrite !len_app, (proj2 (Z.leb_le 0 _)), (proj2 (Z.leb_le _ _)) by lia. cbn.
  rewrite ztake_app. do 3 f_equal. rewrite app_assoc. apply zdrop_app_eq. rewrite len_app. lia.
Qed.

(** ** Big-endian integers *)

Lemma length_to_be_bytes n v : length (to_be_bytes n v) = n.
Proof. revert v. induction n; intros v; simpl; [done|]. rewrite length_app, IHn. simpl; lia. Qed.

Lemma len_to_be_bytes n v : len (to_be_bytes n v) = Z.of_nat n.
Proof. unfold len. by rewrite length_to_be_bytes. Qed.

Lemma to_be_bytes_ok n v : bytes_ok (to_be_bytes n v).
Proof.
  revert v. induction n; intros v; simpl; [constructor|].
  apply Forall_app. split; [apply IHn|]. constructor; [|constructor].
  unfold u8. apply Z.mod_pos_bound. lia.
Qed.

Lemma from_be_bytes_snoc l b : from_be_bytes (l ++ [b]) = from_be_bytes l * 256 + b.
Proof. unfold from_be_bytes. by rewrite foldl_app. Qed.

Lemma from_to_be_bytes n v :
  from_be_bytes (to_be_bytes n v) = v mod 256 ^ Z.of_nat n.
Proof.
  revert v. induction n; intros v; cbn [to_be_bytes].
  - by rewrite Z.mod_1_r.
  - rewrite from_be_bytes_snoc, IHn, Nat2Z.inj_succ, Z.pow_succ_r by lia.
    assert (0 < 256 ^ Z.of_nat n) by (apply Z.pow_pos_nonneg; lia).
    rewrite (Z.rem_mul_r v 256 (256 ^ Z.of_nat n)) by lia. ring.
Qed.

Lemma from_be_bytes_bound l :
  bytes_ok l → 0 ≤ from_be_bytes l < 256 ^ Z.of_nat (length l).
Proof.
  induction l as [|b l IH] using rev_ind; intros Hl; [cbn; lia|].
  apply Forall_app in Hl as [Hl Hb]. rewrite Forall_singleton in Hb.
  rewrite from_be_bytes_snoc, length_app, Nat.add_comm. cbn [length Nat.add].
  rewrite Nat2Z.inj_succ, Z.pow_succ_r by lia.
  specialize (IH Hl). unfold u8 in Hb. nia.
Qed.

Lemma to_from_be_bytes l :
  bytes_ok l → to_be_bytes (length l) (from_be_bytes l) = l.
Proof.
  induction l as [|b l IH] using rev_ind; intros Hl; [done|].
  apply Forall_app in Hl as [Hl Hb]. rewrite Forall_singleton in Hb.
  rewrite from_be_bytes_snoc, length_app, Nat.add_comm. cbn [length Nat.add to_be_bytes].
  unfold u8 in Hb. f_equal.
  - rewrite Z.div_add_l by lia. rewrite Z.div_small by lia. rewrite Z.add_0_r. auto.
  - f_equal. rewrite Z.add_comm, Z.mod_add by lia. by apply Z.mod_small.
Qed.

Lemma from_to_be_bytes_u16 v : u16 v → from_be_bytes (u16_to_be_bytes v) = v.
Proof. intros. unfold u16_to_be_bytes. rewrite from_to_be_bytes. by apply Z.mod_small. Qed.

Lemma from_to_be_bytes_u64 v : u64 v → from_be_bytes (u64_to_be_bytes v) = v.
Proof. intros. unfold u64_to_be_bytes. rewrite from_to_be_bytes. by apply Z.mod_small. Qed.

Lemma len_u16_to_be_bytes v : len (u16_to_be_bytes v) = 2.
Proof. apply len_to_be_bytes. Qed.
Lemma len_u32_to_be_bytes v : len (u32_to_be_bytes v) = 4.
Proof. apply len_to_be_bytes. Qed.
Lemma len_u64_to_be_bytes v : len (u64_to_be_bytes v) = 8.
Proof. apply len_to_be_bytes. Qed.

(** Two-byte values from their bytes. *)
Lemma from_be_bytes_2 a b : from_be_bytes [a; b] = a * 256 + b.
Proof. done. Qed.

(** ** Bytewise bit operations *)

Lemma u8_bits a : 0 ≤ a → u8 a ↔ ∀ l, 8 ≤ l → Z.testbit a l = false.
Proof. intros. by apply (Z.bounded_iff_bits_nonneg' 8). Qed.

Lemma u8_testbit_high a n : u8 a → 8 ≤ n → Z.testbit a n = false.
Proof. intros Ha. apply u8_bits; [unfold u8 in Ha; lia|done]. Qed.

Lemma u8_land a b : u8 a → u8 b → u8 (Z.land a b).
Proof.
  intros Ha Hb. apply u8_bits; [apply Z.land_nonneg; unfold u8 in *; lia|].
  intros l Hl. by rewrite Z.land_spec, (u8_testbit_high a), andb_false_l.
Qed.

Lemma u8_lor a b : u8 a → u8 b → u8 (Z.lor a b).
Proof.
  intros Ha Hb. apply u8_bits; [apply Z.lor_nonneg; unfold u8 in *; lia|].
  intros l Hl. by rewrite Z.lor_spec, !u8_testbit_high.
Qed.

(** ** Reasoning about computations

    [wp m Q s]: the computation [m], run from [s], ends with an outcome and a
    state that satisfy [Q]. *)

Definition wp {S E A} (m : Eff S E A) (Q : outcome E A → S → Prop) (s : S) : Prop :=
  Q (m s).1 (m s).2.

Section wp_rules.
Context {E : Type}.

Lemma wp_intro {S A} (m : Eff S E A) Q s r s' :
  m s = (r, s') → Q r s' → wp m Q s.
Proof. unfold wp. intros Hm HQ. by rewrite Hm. Qed.

Lemma wp_elim {S A} (m : Eff S E A) Q s r s' :
  wp m Q s → m s = (r, s') → Q r s'.
Proof. unfold wp. intros HQ Hm. by rewrite Hm in HQ. Qed.

Lemma wp_mono {S A} (m : Eff S E A) (Q R : outcome E A → S → Prop) s :
  wp m Q s → (∀ r s', Q r s' → R r s') → wp m R s.
Proof. unfold wp. auto. Qed.

Lemma wp_conj {S A} (m : Eff S E A) (Q R : outcome E A → S → Prop) s :
  wp m Q s → wp m R s → wp m (λ r s', Q r s' ∧ R r s') s.
Proof. unfold wp. auto. Qed.

Lemma wp_ret {S A} (a : A) (Q : outcome E A → S → Prop) s :
  Q (Ok a) s → wp (mret a) Q s.
Proof. done. Qed.

Lemma wp_bind {S A B} (m : Eff S E A) (f : A → Eff S E B) Q s :
  wp m (λ r s', match r with
                | Ok a => wp (f a) Q s'
                | Err e => Q (Err e) s'
                | Panic => Q Panic s'
                | Diverge => Q Diverge s'
                end) s →
  wp (m ≫= f) Q s.
Proof. unfold wp, mbind, eff_bind. by destruct (m s) as [[] ?]. Qed.

Lemma wp_lift {S A} (r : outcome E A) (Q : outcome E A → S → Prop) s :
  Q r s → wp (lift r) Q s.
Proof. done. Qed.

Lemma wp_fail {S A} e (Q : outcome E A → S → Prop) s :
  Q (Err e) s → wp (fail e) Q s.
Proof. done. Qed.

Lemma wp_reading {D W A} (m : D → Eff W E A) (Q : outcome E A → D * W → Prop) s :
  (∀ w', Q (m s.1 s.2).1 (s.1, w')) → wp (reading m) Q s.
Proof. unfold wp, reading. intros H. destruct (m s.1 s.2) as [r w]. apply H. Qed.

Lemma wp_on_world {D W A} (m : Eff W E A) (Q : outcome E A → D * W → Prop) s :
  (∀ w', Q (m s.2).1 (s.1, w')) → wp (on_world m) Q s.
Proof. intros HQ. by apply (wp_reading (λ _, m)). Qed.

(** The rules for the head of a chain of binds: a pure step, a step on the
    world, a read of the device. The failing outcomes share one obligation. *)
Lemma wp_lift_bind {S A B} (r : outcome E A) (f : A → Eff S E B) Q s :
  (∀ a, r = Ok a → wp (f a) Q s) → (∀ o : outcome E B, is_ok o = false → Q o s) →
  wp (lift r ≫= f) Q s.
Proof.
  intros Hok Hbad. apply wp_bind, wp_lift.
  destruct r; [by apply Hok|by apply Hbad..].
Qed.

Lemma wp_world_bind {D W A B} (m : Eff W E A) (f : A → Eff (D * W) E B) Q s :
  (∀ a w w', m w = (Ok a, w') → wp (f a) Q (s.1, w')) →
  (∀ (o : outcome E B) w', is_ok o = false → Q o (s.1, w')) →
  wp (on_world m ≫= f) Q s.
Proof.
  intros Hok Hbad. apply wp_bind. unfold wp at 1, on_world, reading.
  destruct (m s.2) as [[a|e| |] w'] eqn:Hm; [by eapply Hok|by apply Hbad..].
Qed.

Lemma wp_get_bind {D W A} (f : D → Eff (D * W) E A) Q s :
  wp (f s.1) Q s → wp (get_left ≫= f) Q s.
Proof. intros H. by apply wp_bind. Qed.

Lemma wp_bind_assoc {S A B C} (m : Eff S E A) (f : A → Eff S E B) (g : B → Eff S E C) Q s :
  wp (m ≫= λ a, f a ≫= g) Q s → wp ((m ≫= f) ≫= g) Q s.
Proof. unfold wp, mbind, eff_bind. by destruct (m s) as [[] ?]. Qed.

Lemma wp_ret_bind {S A B} (a : A) (f : A → Eff S E B) Q s :
  wp (f a) Q s → wp (mret a ≫= f) Q s.
Proof. done. Qed.

Lemma wp_fail_bind {S A B} e (f : A → Eff S E B) Q s :
  Q (Err e) s → wp (fail e ≫= f) Q s.
Proof. done. Qed.

Lemma wp_modify {D W} (f : D → D) (Q : outcome E unit → D * W → Prop) s :
  Q (Ok tt) (f s.1, s.2) → wp (modify f) Q s.
Proof. done. Qed.

Lemma wp_get_left {D W} (Q : outcome E D → D * W → Prop) s :
  Q (Ok s.1) s → wp get_left Q s.
Proof. done. Qed.
Lemma wp_attempt {S A} (m : Eff S E A) Q s :
  wp m (λ r s', match r with
                | Panic => Q Panic s'
                | Diverge => Q Diverge s'
                | r => Q (Ok r) s'
                end) s →
  wp (attempt m) Q s.
Proof. unfold wp, attempt. by destruct (m s) as [[] ?]. Qed.
End wp_rules.

(** Inversion of a successful or of a failing [bind] of pure outcomes. *)
Lemma outcome_bind_ok {E A B} (m : outcome E A) (f : A → outcome E B) b :
  m ≫= f = Ok b ↔ ∃ a, m = Ok a ∧ f a = Ok b.
Proof. destruct m; cbn; naive_solver. Qed.

Lemma ok_or_ok {E A} (o : option A) (e : E) a : ok_or o e = Ok a ↔ o = Some a.
Proof. destruct o; cbn; naive_solver. Qed.

Lemma reject_if_ok {E} c (e : E) u : reject_if c e = Ok u ↔ c = false.
Proof. destruct c, u; cbn; naive_solver. Qed.

Lemma eff_bind_ok {S E A B} (m : Eff S E A) (f : A → Eff S E B) s b s' :
  (m ≫= f) s = (Ok b, s') ↔ ∃ a s1, m s = (Ok a, s1) ∧ f a s1 = (Ok b, s').
Proof. unfold mbind, eff_bind. destruct (m s) as [[] ?]; naive_solver. Qed.

Lemma lift_bind_ok {S E A B} (r : outcome E A) (f : A → Eff S E B) s b s' :
  (lift r ≫= f) s = (Ok b, s') ↔ ∃ a, r = Ok a ∧ f a s = (Ok b, s').
Proof. rewrite eff_bind_ok. unfold lift. naive_solver. Qed.

Lemma lift_bind {S E A B} (r : outcome E A) (f : A → Eff S E B) s :
  (lift r ≫= f) s =
  match r with
  | Ok a => f a s
  | Err e => (Err e, s)
  | Panic => (Panic, s)
  | Diverge => (Diverge, s)
  end.
Proof. by destruct r. Qed.

(** Running a chain forward: a step that succeeds. *)
Lemma eff_run {S E A B} (m : Eff S E A) (f : A → Eff S E B) s a s1 :
  m s = (Ok a, s1) → (m ≫= f) s = f a s1.
Proof. unfold mbind, eff_bind. by intros ->. Qed.

Lemma lift_run {S E A B} (r : outcome E A) (f : A → Eff S E B) s a :
  r = Ok a → (lift r ≫= f) s = f a s.
Proof. by intros ->. Qed.

Lemma world_run {D W E A B} (m : Eff W E A) (f : A → Eff (D * W) E B) d w a w1 :
  m w = (Ok a, w1) → (on_world m ≫= f) (d, w) = f a (d, w1).
Proof. intros Hm. apply eff_run. unfold on_world, reading. cbn. by rewrite Hm. Qed.

(** Split a successful chain of binds into its steps. *)
Ltac inv_ok :=
  repeat match goal with
  | H : Ok _ = Ok _ |- _ => injection H as H; try subst
  | H : Err _ = Ok _ |- _ => discriminate H
  | H : Panic = Ok _ |- _ => discriminate H
  | H : Diverge = Ok _ |- _ => discriminate H
  | H : Some _ = Some _ |- _ => injection H as H; try subst
  | H : Some _ = None |- _ => discriminate H
  | H : None = Some _ |- _ => discriminate H
  | H : (_, _) = (_, _) |- _ => injection H as H; try subst
  | H : @mbind (outcome _) _ _ _ _ _ = Ok _ |- _ => apply outcome_bind_ok in H
  | H : @mbind (Eff _ _) _ _ _ _ _ _ = (Ok _, _) |- _ => apply eff_bind_ok in H
  | H : ok_or _ _ = Ok _ |- _ => apply ok_or_ok in H
  | H : reject_if _ _ = Ok _ |- _ => apply reject_if_ok in H
  | H : mret _ = Ok _ |- _ => injection H as H; try subst
  | H : ∃ _, _ |- _ => destruct H
  | H : _ ∧ _ |- _ => destruct H
  | x : unit |- _ => destruct x
  end.

(** One step of a computation under [wp]: reduce the head of a chain of binds
    and split on the outcome of its pure part. *)
Ltac wp_step :=
  match goal with
  | |- wp (mret _) _ _ => apply wp_ret
  | |- wp (fail _) _ _ => apply wp_fail
  | |- wp (_ ≫= _) _ _ => apply wp_bind
  | |- wp (lift ?r) _ _ => apply wp_lift; first [is_var r | destruct r eqn:?]
  | |- wp (modify _) _ _ => apply wp_modify
  | |- wp get_left _ _ => apply wp_get_left
  | |- wp (if ?c then _ else _) _ _ => destruct c eqn:?
  | |- wp (match ?x with _ => _ end) _ _ => destruct x eqn:?
  end.

(** Walk through a handler: every step of the chain is executed, its success is
    recorded as a hypothesis, and its failures are closed by [bad]. *)
Ltac wp_walk_with bad :=
  repeat (cbv zeta;
    match goal with
    | |- wp (get_left ≫= _) _ _ => apply wp_get_bind; cbn [fst snd]
    | |- wp (mret _ ≫= _) _ _ => apply wp_ret_bind
    | |- wp (fail _ ≫= _) _ _ => apply wp_fail_bind; bad
    | |- wp ((_ ≫= _) ≫= _) _ _ => apply wp_bind_assoc
    | |- wp (lift _ ≫= _) _ _ => apply wp_lift_bind; [intros ? ?|intros; bad]
    | |- wp (on_world _ ≫= _) _ _ => apply wp_world_bind; [intros ? ? ? ?; cbn [fst snd]|intros; bad]
    | |- wp (match ?x with _ => _ end) _ _ => destruct x eqn:?
    | |- wp (match ?x with _ => _ end ≫= _) _ _ => destruct x eqn:?
    end).

(** Boolean guards as propositions. *)
Ltac bool_prop :=
  repeat match goal with
  | H : (_ && _) = true |- _ => apply andb_true_iff in H as [? ?]
  | H : (_ || _) = false |- _ => apply orb_false_iff in H as [? ?]
  | H : negb _ = true |- _ => apply negb_true_iff in H
  | H : negb _ = false |- _ => apply negb_false_iff in H
  | H : (_ =? _) = true |- _ => apply Z.eqb_eq in H
  | H : (_ =? _) = false |- _ => apply Z.eqb_neq in H
  | H : (_ <=? _) = true |- _ => apply Z.leb_le in H
  | H : (_ <=? _) = false |- _ => apply Z.leb_gt in H
  | H : (_ <? _) = true |- _ => apply Z.ltb_lt in H
  | H : (_ <? _) = false |- _ => apply Z.ltb_ge in H
  | H : bool_decide _ = true |- _ => apply bool_decide_eq_true in H
  | H : bool_decide _ = false |- _ => apply bool_decide_eq_false in H
  end.

(** Lengths and slices of concatenations, computed by rewriting. *)
Create HintDb yhsm.
Create HintDb yhsm_len.
#[export] Hint Rewrite @len_app @len_cons @len_nil @len_to_be_bytes
  len_u16_to_be_bytes len_u32_to_be_bytes len_u64_to_be_bytes : yhsm_len.
#[export] Hint Resolve len_nonneg to_be_bytes_ok : yhsm.

Ltac len_lia := autorewrite with yhsm_len in *; lia.

(** A closed decidable proposition, by evaluation. *)
Ltac by_computation :=
  lazymatch goal with
  | |- ?P => apply (bool_decide_eq_true_1 P); vm_compute; reflexivity
  end.
