(* ===== verification/Error.v ===== *)
(** * Device errors (crates/virtual-yubihsm-core/src/error.rs)

    The errors of the wire protocol, their byte values and their text. *)

From S2P Require Import Prelude.

Inductive DeviceError : Set :=
| InvalidCommand
| InvalidData
| InvalidSession
| AuthenticationFailed
| SessionsFull
| SessionFailed
| StorageFailed
| WrongLength
| InsufficientPermissions
| LogFull
| ObjectNotFound
| InvalidId
| SshCaConstraintViolation
| InvalidOtp
| DemoMode
| ObjectExists.

#[export] Instance DeviceError_eq_dec : EqDecision DeviceError.
Proof. solve_decision. Defined.

Abbreviation Result := (outcome DeviceError).

(** [error as u8]. *)
Definition to_byte (e : DeviceError) : Z :=
  match e with
  | InvalidCommand => 0x01
  | InvalidData => 0x02
  | InvalidSession => 0x03
  | AuthenticationFailed => 0x04
  | SessionsFull => 0x05
  | SessionFailed => 0x06
  | StorageFailed => 0x07
  | WrongLength => 0x08
  | InsufficientPermissions => 0x09
  | LogFull => 0x0a
  | ObjectNotFound => 0x0b
  | InvalidId => 0x0c
  | SshCaConstraintViolation => 0x0e
  | InvalidOtp => 0x0f
  | DemoMode => 0x10
  | ObjectExists => 0x11
  end.

Definition from_byte (value : Z) : option DeviceError :=
  match value with
  | 0x01 => Some InvalidCommand
  | 0x02 => Some InvalidData
  | 0x03 => Some InvalidSession
  | 0x04 => Some AuthenticationFailed
  | 0x05 => Some SessionsFull
  | 0x06 => Some SessionFailed
  | 0x07 => Some StorageFailed
  | 0x08 => Some WrongLength
  | 0x09 => Some InsufficientPermissions
  | 0x0a => Some LogFull
  | 0x0b => Some ObjectNotFound
  | 0x0c => Some InvalidId
  | 0x0e => Some SshCaConstraintViolation
  | 0x0f => Some InvalidOtp
  | 0x10 => Some DemoMode
  | 0x11 => Some ObjectExists
  | _ => None
  end.

(** [impl fmt::Display]. *)
Definition display (e : DeviceError) : string :=
  match e with
  | InvalidCommand => "invalid command"
  | InvalidData => "invalid data"
  | InvalidSession => "invalid session"
  | AuthenticationFailed => "authentication failed"
  | SessionsFull => "sessions full"
  | SessionFailed => "session failed"
  | StorageFailed => "storage failed"
  | WrongLength => "wrong length"
  | InsufficientPermissions => "insufficient permissions"
  | LogFull => "log full"
  | ObjectNotFound => "object not found"
  | InvalidId => "invalid object id"
  | SshCaConstraintViolation => "SSH CA constraint violation"
  | InvalidOtp => "invalid OTP"
  | DemoMode => "demo mode"
  | ObjectExists => "object already exists"
  end.

Lemma error_from_to_byte e : from_byte (to_byte e) = Some e.
Proof. by destruct e. Qed.

Lemma error_to_byte_u8 e : u8 (to_byte e) ∧ to_byte e ≠ 0.
Proof. destruct e; cbn; unfold u8; lia. Qed.

#[export] Instance to_byte_inj : Inj (=) (=) to_byte.
Proof. intros e1 e2 H%(f_equal from_byte). rewrite !error_from_to_byte in H. congruence. Qed.

(** The optional error of a finished command as its audit result code. *)
Definition result_code {A} (r : Result A) : Z :=
  match r with Err e => to_byte e | _ => 0 end.
