(* ===== verification/Io.v ===== *)
(** * I/O errors and text

    [std::io::Error], the validation of UTF-8 of [std::str], and the decimal and
    hexadecimal numbers of [std::fmt] and [str::parse], as the front ends use
    them. *)

From S2P Require Import Prelude Error.

(** ** [io::Error] *)

Inductive IoKind : Set :=
| NotFound | PermissionDenied | WouldBlock | Interrupted | UnexpectedEof | WriteZero | BrokenPipe
| InvalidInput | InvalidDataKind | Unsupported | OtherKind.

#[export] Instance IoKind_eq_dec : EqDecision IoKind.
Proof. solve_decision. Defined.

(** The kind, the message, and the number of the system error it comes from. *)
Record IoError : Set := IoErr {
  io_kind : IoKind;
  io_message : string;
  raw_os_error : option Z;
}.

(** [io::Error::new]. *)
Definition mkIoError (kind : IoKind) (message : string) : IoError := IoErr kind message None.

Abbreviation IoResult := (outcome IoError).

(** A system call or a library operation inside a computation. *)
Definition io_check {W} (f : W → option IoError * W) : Eff W IoError unit := λ w,
  let '(r, w) := f w in (match r with None => Ok tt | Some e => Err e end, w).
Definition io_call {W A} (f : W → (A + IoError) * W) : Eff W IoError A := λ w,
  let '(r, w) := f w in (match r with inl a => Ok a | inr e => Err e end, w).

(** [map_err] from a device error to an I/O error. *)
Definition io_error {A} (kind : IoKind) (message : string) (r : outcome DeviceError A) : IoResult A :=
  match r with
  | Ok a => Ok a
  | Err e => Err (mkIoError kind (message +:+ Error.display e))
  | Panic => Panic
  | Diverge => Diverge
  end.

(** The message names the operation and the file. *)
Definition with_path (error : IoError) (operation path : string) : IoError :=
  mkIoError (io_kind error) (operation +:+ " " +:+ path +:+ ": " +:+ io_message error).

(** [Err(io::Error::new(InvalidData, message))]. *)
Definition data_error (message : string) : IoError := mkIoError InvalidDataKind message.
Definition invalid {A} (message : string) : IoResult A := Err (data_error message).

(** ** UTF-8 *)

Definition continuation (b : Z) : bool := (0x80 <=? b) && (b <=? 0xbf).

(** [str::from_utf8]: the code points of a well-formed byte string. *)
Fixpoint from_utf8 (l : bytes) : option (list Z) :=
  match l with
  | [] => Some []
  | a :: l1 =>
      if a <? 0x80 then cons a <$> from_utf8 l1
      else
        match l1 with
        | b :: l2 =>
            if (0xc2 <=? a) && (a <=? 0xdf) && continuation b
            then cons ((a - 0xc0) * 64 + (b - 0x80)) <$> from_utf8 l2
            else
              match l2 with
              | c :: l3 =>
                  if (((a =? 0xe0) && (0xa0 <=? b) && (b <=? 0xbf))
                      || ((0xe1 <=? a) && (a <=? 0xef) && negb (a =? 0xed) && continuation b)
                      || ((a =? 0xed) && (0x80 <=? b) && (b <=? 0x9f))) && continuation c
                  then cons ((a - 0xe0) * 4096 + (b - 0x80) * 64 + (c - 0x80)) <$> from_utf8 l3
                  else
                    match l3 with
                    | d :: l4 =>
                        if (((a =? 0xf0) && (0x90 <=? b) && (b <=? 0xbf))
                            || ((0xf1 <=? a) && (a <=? 0xf3) && continuation b)
                            || ((a =? 0xf4) && (0x80 <=? b) && (b <=? 0x8f)))
                           && continuation c && continuation d
                        then cons ((a - 0xf0) * 262144 + (b - 0x80) * 4096 + (c - 0x80) * 64
                                   + (d - 0x80)) <$> from_utf8 l4
                        else None
                    | [] => None
                    end
              | [] => None
              end
        | [] => None
        end
  end.

(** The bytes that [String::from_utf8_lossy] takes at a time: a character, or the
    longest prefix of one, which is replaced. *)
Definition utf8_step (l : bytes) : nat * bool :=
  match l with
  | [] => (0%nat, true)
  | a :: l =>
      let second (low high : Z) := match l with b :: _ => (low <=? b) && (b <=? high) | [] => false end in
      let third := match l with _ :: c :: _ => continuation c | _ => false end in
      let fourth := match l with _ :: _ :: d :: _ => continuation d | _ => false end in
      let three (low high : Z) :=
        if negb (second low high) then (1%nat, false)
        else if negb third then (2%nat, false) else (3%nat, true) in
      let four (low high : Z) :=
        if negb (second low high) then (1%nat, false)
        else if negb third then (2%nat, false)
        else if negb fourth then (3%nat, false) else (4%nat, true) in
      if a <? 0x80 then (1%nat, true)
      else if a <? 0xc2 then (1%nat, false)
      else if a <=? 0xdf then (if second 0x80 0xbf then (2%nat, true) else (1%nat, false))
      else if a <=? 0xef
      then three (if a =? 0xe0 then 0xa0 else 0x80) (if a =? 0xed then 0x9f else 0xbf)
      else if a <=? 0xf4
      then four (if a =? 0xf0 then 0x90 else 0x80) (if a =? 0xf4 then 0x8f else 0xbf)
      else (1%nat, false)
  end.

Fixpoint utf8_lossy (fuel : nat) (l : bytes) : bytes :=
  match fuel, l with
  | S fuel, _ :: _ =>
      let '(n, valid) := utf8_step l in
      (if valid then take n l else [0xef; 0xbf; 0xbd]) ++ utf8_lossy fuel (drop n l)
  | _, _ => []
  end.

(** [String::from_utf8_lossy]; each step takes at least one byte. *)
Definition from_utf8_lossy (l : bytes) : bytes := utf8_lossy (List.length l) l.

(** ASCII text is its own sequence of code points. *)
Definition is_ascii (b : Z) : bool := (0 <=? b) && (b <? 0x80).

Lemma from_utf8_ascii l : forallb is_ascii l = true → from_utf8 l = Some l.
Proof.
  induction l as [|a l IH]; [done|]. cbn [forallb from_utf8]. intros [Ha Hl]%andb_true_iff.
  unfold is_ascii in Ha. apply andb_true_iff in Ha as [_ ->]. by rewrite IH.
Qed.

Lemma from_utf8_ascii_app l k :
  forallb is_ascii l = true → from_utf8 (l ++ k) = app l <$> from_utf8 k.
Proof.
  induction l as [|a l IH]; cbn [forallb app].
  { intros _. by destruct (from_utf8 k). }
  intros [Ha Hl]%andb_true_iff. unfold is_ascii in Ha. apply andb_true_iff in Ha as [_ Ha].
  cbn [app from_utf8]. rewrite Ha, IH by done. by destruct (from_utf8 k).
Qed.

(** ** Numbers *)

Definition digit_value (c : Z) : option Z :=
  if (0x30 <=? c) && (c <=? 0x39) then Some (c - 0x30)
  else if (0x41 <=? c) && (c <=? 0x46) then Some (c - 0x41 + 10)
  else if (0x61 <=? c) && (c <=? 0x66) then Some (c - 0x61 + 10)
  else None.

(** The digits of a number in a base, most significant first, below a limit. *)
Fixpoint parse_digits (base limit acc : Z) (l : list Z) : option Z :=
  match l with
  | [] => Some acc
  | c :: l =>
      v ← digit_value c;
      if (v <? base) && (acc * base + v <? limit) then parse_digits base limit (acc * base + v) l
      else None
  end.

(** [uN::from_str_radix]: an optional sign, then at least one digit. *)
Definition from_str_radix (base limit : Z) (l : list Z) : option Z :=
  let digits := match l with 0x2b :: rest => rest | _ => l end in
  match digits with
  | [] => None
  | _ => parse_digits base limit 0 digits
  end.

(** The digits of an unsigned number in a base of at most 16. *)
Definition hex_digit (d : Z) : Z := if d <? 10 then 0x30 + d else 0x61 + (d - 10).
Fixpoint digits (base : Z) (fuel : nat) (n : Z) : list Z :=
  match fuel with
  | O => []
  | S fuel =>
      if n <? base then [hex_digit n] else digits base fuel (n / base) ++ [hex_digit (n mod base)]
  end.

(** [Display] of an unsigned number of at most 64 bits, and [{:x}]. *)
Definition decimal_digits (n : Z) : list Z := digits 10 20 n.
Definition hex_digits : nat → Z → list Z := digits 16.

(** A [String] of UTF-8 bytes, and [{:02x}] of a byte. *)
Definition text (b : bytes) : string :=
  String.string_of_list_ascii (map (λ c, Ascii.ascii_of_nat (Z.to_nat c)) b).
Definition hex_byte (b : Z) : string := text [hex_digit (b / 16); hex_digit (b mod 16)].

Definition decimal (n : Z) : string := text (decimal_digits n).

(** [{:02x?}] of bytes. *)
Definition hex_bytes (l : bytes) : string :=
  ("[" +:+ String.concat ", " (map hex_byte l) +:+ "]")%string.

(** [starts_with] of a slice. *)
Fixpoint starts_with (p l : list Z) : bool :=
  match p, l with
  | [], _ => true
  | a :: p, b :: l => (a =? b) && starts_with p l
  | _, [] => false
  end.

(** [str::contains] of a text. *)
Fixpoint contains_text (p l : list Z) : bool :=
  starts_with p l || match l with [] => false | _ :: l => contains_text p l end.

(** [str::strip_prefix], and [Path::is_absolute]. *)
Fixpoint strip_prefix (prefix s : string) : option string :=
  match prefix, s with
  | EmptyString, _ => Some s
  | String a prefix, String b s => if Ascii.eqb a b then strip_prefix prefix s else None
  | String _ _, EmptyString => None
  end.

Definition is_absolute (path : string) : bool :=
  match path with String c _ => Ascii.eqb c (Ascii.ascii_of_nat 47) | EmptyString => false end.

(** [{:?}] of text: quotes, backslashes and control characters are escaped. *)
Definition debug_char (c : Z) : bytes :=
  if c =? 0x22 then [0x5c; 0x22] else if c =? 0x5c then [0x5c; 0x5c]
  else if c =? 9 then [0x5c; 0x74] else if c =? 10 then [0x5c; 0x6e]
  else if c =? 13 then [0x5c; 0x72] else if c =? 0 then [0x5c; 0x30]
  else if (c <? 0x20) || (c =? 0x7f) then [0x5c; 0x75; 0x7b] ++ hex_digits 2 c ++ [0x7d]
  else [c].

Definition debug (s : string) : string :=
  text ([0x22] ++ concat (map debug_char (ascii_bytes s)) ++ [0x22]).

(** [{:x}] of a 16-bit number. *)
Definition hex_word (n : Z) : string := text (hex_digits 4 (n mod 65536)).

Lemma digit_value_hex d : 0 ≤ d < 16 → digit_value (hex_digit d) = Some d.
Proof.
  intros Hd. unfold hex_digit, digit_value. destruct (Z.ltb_spec d 10).
  - rewrite (proj2 (Z.leb_le _ _)), (proj2 (Z.leb_le _ _)) by lia. cbn. f_equal. lia.
  - rewrite (proj2 (Z.leb_le 0x30 _)), (proj2 (Z.leb_gt _ 0x39)) by lia. cbn [andb].
    rewrite (proj2 (Z.leb_le 0x41 _)), (proj2 (Z.leb_gt _ 0x46)) by lia. cbn [andb].
    rewrite !(proj2 (Z.leb_le _ _)) by lia. cbn. f_equal. lia.
Qed.

Lemma parse_digits_app base limit acc l k :
  parse_digits base limit acc (l ++ k)
  = (v ← parse_digits base limit acc l; parse_digits base limit v k).
Proof.
  revert acc. induction l as [|c l IH]; intros acc; [done|]. cbn.
  destruct (digit_value c) as [v|]; [|done]. cbn. by destruct (_ && _).
Qed.

(** The digits of a number are read back, and are as few as its size needs. *)
Lemma parse_digits_digits base limit fuel n :
  2 ≤ base ≤ 16 → 0 ≤ n < limit → n < base ^ Z.of_nat fuel →
  parse_digits base limit 0 (digits base fuel n) = Some n.
Proof.
  intros Hb. revert n. induction fuel as [|fuel IH]; intros n Hn Hf; [cbn in *; f_equal; lia|].
  rewrite Nat2Z.inj_succ, Z.pow_succ_r in Hf by lia. cbn [digits].
  destruct (Z.ltb_spec n base).
  - cbn [parse_digits]. rewrite digit_value_hex by lia. cbn [mbind option_bind].
    by rewrite Z.mul_0_l, Z.add_0_l, (proj2 (Z.ltb_lt n base)), (proj2 (Z.ltb_lt n limit)) by lia.
  - pose proof (Z.div_mod n base). pose proof (Z.mod_pos_bound n base).
    assert (0 ≤ n / base) by (apply Z.div_pos; lia).
    assert (n / base < base ^ Z.of_nat fuel) by (apply Z.div_lt_upper_bound; lia).
    assert (n / base < limit) by (apply Z.div_lt_upper_bound; nia).
    rewrite parse_digits_app, IH by lia.
    cbn [mbind option_bind parse_digits]. rewrite digit_value_hex by lia. cbn [mbind option_bind].
    rewrite (proj2 (Z.ltb_lt _ base)), (proj2 (Z.ltb_lt _ limit)) by lia. cbn [andb]. f_equal. lia.
Qed.

Lemma digits_length base fuel n k :
  2 ≤ base → 0 ≤ n < base ^ Z.of_nat (S k) → (length (digits base fuel n) ≤ S k)%nat.
Proof.
  intros Hb. revert n k. induction fuel as [|fuel IH]; intros n k Hn; [cbn; lia|]. cbn [digits].
  destruct (Z.ltb_spec n base); [cbn; lia|].
  rewrite Nat2Z.inj_succ, Z.pow_succ_r in Hn by lia.
  destruct k as [|k]; [cbn in Hn; lia|].
  rewrite length_app. cbn [length]. specialize (IH (n / base) k).
  assert (0 ≤ n / base) by (apply Z.div_pos; lia).
  assert (n / base < base ^ Z.of_nat (S k)) by (apply Z.div_lt_upper_bound; lia).
  lia.
Qed.

Lemma digits_forall (P : Z → Prop) base fuel n :
  2 ≤ base → 0 ≤ n → (∀ d, 0 ≤ d < base → P (hex_digit d)) → Forall P (digits base fuel n).
Proof.
  intros Hb Hn HP. revert n Hn. induction fuel as [|fuel IH]; intros n Hn; [constructor|]. cbn [digits].
  destruct (Z.ltb_spec n base); [by repeat constructor; apply HP; lia|].
  pose proof (Z.mod_pos_bound n base).
  apply Forall_app. split; [apply IH, Z.div_pos; lia|]. repeat constructor; apply HP; lia.
Qed.

Lemma digits_ascii base fuel n :
  2 ≤ base ≤ 16 → 0 ≤ n → Forall (λ c, 0x30 ≤ c < 0x80) (digits base fuel n).
Proof.
  intros Hb Hn. apply digits_forall; [lia..|]. intros d Hd.
  unfold hex_digit. destruct (Z.ltb_spec d 10); lia.
Qed.

Lemma digits_cons base fuel n : ∃ d l, digits base (S fuel) n = d :: l.
Proof. cbn [digits]. destruct (n <? base); [eauto|]. destruct (digits base fuel (n / base)); cbn; eauto. Qed.

Lemma decode_digits base limit fuel n :
  2 ≤ base ≤ 16 → 0 ≤ n < limit → n < base ^ Z.of_nat (S fuel) →
  from_str_radix base limit (digits base (S fuel) n) = Some n.
Proof.
  intros Hb Hn Hf. unfold from_str_radix.
  destruct (digits_cons base fuel n) as (d & l & He).
  assert (0x30 ≤ d < 0x80) as Hd.
  { pose proof (digits_ascii base (S fuel) n Hb ltac:(lia)) as Ha. rewrite He in Ha. by inversion Ha. }
  rewrite He. assert (d ≠ 0x2b) by lia.
  replace (match d :: l with 0x2b :: rest => rest | _ => d :: l end) with (d :: l)
    by (destruct d as [|d|d]; [done| |done]; do 6 (destruct d as [d|d|]; try done)).
  rewrite <- He. apply parse_digits_digits; lia.
Qed.

Lemma parse_digits_bound base limit acc l v :
  2 ≤ base → 0 ≤ acc < limit → parse_digits base limit acc l = Some v → 0 ≤ v < limit.
Proof.
  intros Hb. revert acc. induction l as [|c l IH]; intros acc Ha; cbn [parse_digits]; [by intros [= <-]|].
  destruct (digit_value c) as [d|] eqn:Hd; [|done]. cbn [mbind option_bind].
  destruct ((d <? base) && (acc * base + d <? limit)) eqn:Hc; [|done].
  apply andb_true_iff in Hc as [_ Hc%Z.ltb_lt]. apply IH. split; [|done].
  assert (0 ≤ d); [|nia].
  unfold digit_value in Hd. repeat case_match; simplify_eq; bool_prop; lia.
Qed.

Lemma from_str_radix_bound base limit l v :
  2 ≤ base → 0 < limit → from_str_radix base limit l = Some v → 0 ≤ v < limit.
Proof.
  unfold from_str_radix. intros Hb Hl. destruct (match l with 0x2b :: _ => _ | _ => _ end); [done|].
  apply parse_digits_bound; lia.
Qed.
