(* ===== verification/Frame.v ===== *)
(** * Protocol frames (crates/virtual-yubihsm-core/src/frame.rs)

    A frame is a command byte, a two-byte big-endian length and the data. *)

From S2P Require Import Prelude Error.

Definition HEADER_LENGTH : Z := 3.
Definition MAX_FRAME_LENGTH : Z := 8192.
Definition MAX_DATA_LENGTH : Z := MAX_FRAME_LENGTH - HEADER_LENGTH.
Definition RESPONSE_BIT : Z := 0x80.
Definition ERROR_COMMAND : Z := 0x7f.

Record Frame : Type := mkFrame { command : Z; data : bytes }.

#[export] Instance Frame_eq_dec : EqDecision Frame.
Proof. solve_decision. Defined.

Definition new (command : Z) (data : bytes) : Result Frame :=
  _ ← reject_if (MAX_DATA_LENGTH <? len data) WrongLength;
  mret (mkFrame command data).

Definition parse (encoded : bytes) : Result Frame :=
  _ ← reject_if (len encoded <? HEADER_LENGTH) WrongLength;
  high ← index encoded 1;
  low ← index encoded 2;
  let length := from_be_bytes [high; low] in
  _ ← reject_if ((MAX_DATA_LENGTH <? length) || negb (len encoded =? HEADER_LENGTH + length))
        WrongLength;
  command ← index encoded 0;
  data ← slice encoded HEADER_LENGTH (len encoded);
  new command data.

Definition encode (self : Frame) : bytes :=
  [command self] ++ u16_to_be_bytes (len (data self) mod 65536) ++ data self.

Definition response (request_command : Z) (data : bytes) : Frame :=
  mkFrame (Z.lor request_command RESPONSE_BIT) data.

Definition error (e : DeviceError) : Frame := mkFrame ERROR_COMMAND [to_byte e].

(** ** Lemmas *)

Lemma new_ok c d f : new c d = Ok f ↔ f = mkFrame c d ∧ len d ≤ MAX_DATA_LENGTH.
Proof.
  unfold new, reject_if. destruct (_ <? _) eqn:H; bool_prop; cbn; split.
  - done.
  - lia.
  - intros. inv_ok. done.
  - intros [-> _]. done.
Qed.

Lemma new_fits c d : len d ≤ MAX_DATA_LENGTH → new c d = Ok (mkFrame c d).
Proof. intros. by apply new_ok. Qed.

Lemma len_encode f : len (encode f) = HEADER_LENGTH + len (data f).
Proof. unfold encode, HEADER_LENGTH. len_lia. Qed.

Lemma encode_header c d :
  len d ≤ MAX_DATA_LENGTH →
  encode (mkFrame c d) = c :: (len d / 256) :: (len d mod 256) :: d.
Proof.
  unfold MAX_DATA_LENGTH, MAX_FRAME_LENGTH, HEADER_LENGTH. intros.
  pose proof (len_nonneg d). unfold encode, u16_to_be_bytes. cbn [command data].
  rewrite Z.mod_small by lia. cbn [to_be_bytes app].
  rewrite (Z.mod_small (len d / 256)); [done|].
  split; [apply Z.div_pos; lia | apply Z.div_lt_upper_bound; lia].
Qed.

Lemma parse_cons c h l d :
  parse (c :: h :: l :: d) =
  if (MAX_DATA_LENGTH <? h * 256 + l) || negb (len d =? h * 256 + l)
  then Err WrongLength else new c d.
Proof.
  unfold parse. pose proof (len_nonneg d).
  replace (len (c :: h :: l :: d)) with (3 + len d) by len_lia.
  change (index (c :: h :: l :: d) 0) with (Ok (E := DeviceError) c).
  change (index (c :: h :: l :: d) 1) with (Ok (E := DeviceError) h).
  change (index (c :: h :: l :: d) 2) with (Ok (E := DeviceError) l).
  unfold reject_if, HEADER_LENGTH. rewrite (proj2 (Z.ltb_ge _ _)) by lia.
  cbn [mbind outcome_bind]. rewrite from_be_bytes_2.
  replace (3 + len d =? 3 + (h * 256 + l)) with (len d =? h * 256 + l)
    by (destruct (len d =? _) eqn:Hd; symmetry; bool_prop; [apply Z.eqb_eq|apply Z.eqb_neq]; lia).
  destruct (_ || _); [done|]. cbn [mbind outcome_bind].
  rewrite slice_ok by len_lia. cbn [mbind outcome_bind].
  f_equal. replace (3 + len d - 3) with (len d) by lia. by apply ztake_all.
Qed.

Lemma parse_short e : len e < 3 → parse e = Err WrongLength.
Proof. intros. unfold parse. by rewrite (proj2 (Z.ltb_lt _ _)). Qed.

Lemma cons3_of_len (e : bytes) : 3 ≤ len e → ∃ c h l d, e = c :: h :: l :: d.
Proof.
  destruct e as [|c [|h [|l d]]]; intros H; [len_lia..|]. by eauto.
Qed.

Lemma encode_parse_ok c d : len d ≤ MAX_DATA_LENGTH →
  parse (encode (mkFrame c d)) = Ok (mkFrame c d).
Proof.
  intros Hd. rewrite encode_header, parse_cons by done.
  pose proof (len_nonneg d).
  replace (len d / 256 * 256 + len d mod 256) with (len d)
    by (rewrite (Z.div_mod (len d) 256) at 1; lia).
  rewrite (proj2 (Z.ltb_ge _ _)) by lia. rewrite Z.eqb_refl. cbn.
  by apply new_ok.
Qed.

Lemma parse_ok_inv e f :
  parse e = Ok f →
  ∃ h l, e = command f :: h :: l :: data f ∧ len (data f) = h * 256 + l ∧
         len (data f) ≤ MAX_DATA_LENGTH.
Proof.
  intros H. destruct (Z_lt_dec (len e) 3) as [|Hl]; [by rewrite parse_short in H|].
  destruct (cons3_of_len e) as (c & h & l & d & ->); [lia|].
  rewrite parse_cons in H. destruct (_ || _) eqn:Hb; [done|].
  apply new_ok in H as [-> ?]. bool_prop. cbn. eauto.
Qed.

(** Parsing never panics. *)
Lemma parse_total e : ∃ r, parse e = r ∧ (r = Err WrongLength ∨ ∃ f, r = Ok f).
Proof.
  destruct (Z_lt_dec (len e) 3); [rewrite parse_short by done; eauto|].
  destruct (cons3_of_len e) as (c & h & l & d & ->); [lia|].
  rewrite parse_cons. destruct (_ || _); [eauto|].
  unfold new, reject_if. destruct (_ <? _); cbn; eauto.
Qed.

(** ** Properties *)

(** [Frame::parse] inverts [Frame::encode] on every frame that fits the
    implementation's bound, and conversely every accepted byte string is the
    encoding of the frame it parses to: parsing and encoding are mutually
    inverse on the frames of the wire. *)
Theorem frame_round_trip (f : Frame) (e : bytes) :
  bytes_ok e →
  (len (data f) ≤ MAX_DATA_LENGTH → parse (encode f) = Ok f) ∧
  (parse e = Ok f → encode f = e ∧ len e ≤ MAX_FRAME_LENGTH).
Proof.
  intros He. split; [destruct f; apply encode_parse_ok|].
  intros (h & l & -> & Hlen & Hmax)%parse_ok_inv. destruct f as [c d]; cbn [command data] in *.
  inversion_clear He as [|?? Hc He']. inversion_clear He' as [|?? Hh He''].
  inversion_clear He'' as [|?? Hlo He']. unfold u8 in *.
  rewrite encode_header by done. rewrite Hlen.
  rewrite Z.div_add_l, Z.div_small by lia.
  rewrite (Z.add_comm (h * 256)), Z.mod_add, Z.mod_small by lia.
  unfold MAX_DATA_LENGTH, MAX_FRAME_LENGTH, HEADER_LENGTH in *.
  split; [do 2 f_equal; lia | len_lia].
Qed.

Lemma frame_round_trip_witness :
  parse (encode (mkFrame 0x42 [1; 2; 3])) = Ok (mkFrame 0x42 [1; 2; 3]) ∧
  encode (mkFrame 0x42 [1; 2; 3]) = [0x42; 0; 3; 1; 2; 3].
Proof.
  assert (bytes_ok [0x42; 0; 3; 1; 2; 3]) as He by by by_computation.
  split.
  - apply (frame_round_trip _ _ He). by apply Z.leb_le.
  - apply (frame_round_trip (mkFrame 0x42 [1; 2; 3]) _ He). by vm_compute.
Defined.
