(* ===== verification/Firmware.v ===== *)
(** * Firmware profiles (crates/virtual-yubihsm-core/src/firmware.rs)

    The Cargo features select, at compile time, the command and algorithm
    surface of the device. They are a parameter of everything that depends on
    them, together with the overflow-checks setting of the build profile. *)

From S2P Require Import Prelude.

Class Build := {
  firmware_full : bool;
  firmware_protected_derivation : bool;
  test_firmware_prefixed_ecdh : bool;
  test_firmware_session_objects : bool;
  overflow_checks : bool;
}.

Inductive FirmwareProfile : Set :=
| YubiHsm2
| ProtectedDerivation
| Full
| TestPrefixedEcdh
| TestSessionObjects.

Definition compiled `{Build} : FirmwareProfile :=
  if firmware_full then Full
  else if firmware_protected_derivation
          || (test_firmware_prefixed_ecdh && test_firmware_session_objects)
  then ProtectedDerivation
  else if test_firmware_prefixed_ecdh then TestPrefixedEcdh
  else if test_firmware_session_objects then TestSessionObjects
  else YubiHsm2.

Definition extended_curves (self : FirmwareProfile) : bool :=
  match self with Full => true | _ => false end.

Definition post_quantum (self : FirmwareProfile) : bool :=
  match self with Full => true | _ => false end.

Definition prefixed_ecdh (self : FirmwareProfile) : bool :=
  match self with
  | ProtectedDerivation | Full | TestPrefixedEcdh => true
  | _ => false
  end.

Definition session_objects (self : FirmwareProfile) : bool :=
  match self with
  | ProtectedDerivation | Full | TestSessionObjects => true
  | _ => false
  end.

Definition direct_rsa_wrap (self : FirmwareProfile) : bool :=
  match self with Full => true | _ => false end.

(** The builds used by witnesses: the default one, and the baseline. *)
Definition default_build : Build :=
  {| firmware_full := true; firmware_protected_derivation := false;
     test_firmware_prefixed_ecdh := false; test_firmware_session_objects := false;
     overflow_checks := true |}.

Definition baseline_build : Build :=
  {| firmware_full := false; firmware_protected_derivation := false;
     test_firmware_prefixed_ecdh := false; test_firmware_session_objects := false;
     overflow_checks := false |}.
