(* ===== verification/Capability.v ===== *)
(** * Capabilities (crates/virtual-yubihsm-core/src/capability.rs)

    The capability bits of the protocol and the eight-byte big-endian bitmap
    that carries them, with the bitmap operations related to finite sets of bit
    numbers. *)

From S2P Require Import Prelude Firmware.

Inductive Capability : Set :=
| GetOpaque
| PutOpaque
| PutAuthenticationKey
| PutAsymmetricKey
| GenerateAsymmetricKey
| SignPkcs
| SignPss
| SignEcdsa
| SignEddsa
| DecryptPkcs
| DecryptOaep
| DeriveEcdh
| ExportWrapped
| ImportWrapped
| PutWrapKey
| GenerateWrapKey
| ExportableUnderWrap
| SetOption
| GetOption
| GetPseudoRandom
| PutMacKey
| GenerateHmacKey
| SignHmac
| VerifyHmac
| GetLogEntries
| SignSshCertificate
| GetTemplate
| PutTemplate
| ResetDevice
| DecryptOtp
| CreateOtpAead
| RandomizeOtpAead
| RewrapFromOtpAeadKey
| RewrapToOtpAeadKey
| SignAttestationCertificate
| PutOtpAeadKey
| GenerateOtpAeadKey
| WrapData
| UnwrapData
| DeleteOpaque
| DeleteAuthenticationKey
| DeleteAsymmetricKey
| DeleteWrapKey
| DeleteHmacKey
| DeleteTemplate
| DeleteOtpAeadKey
| ChangeAuthenticationKey
| PutSymmetricKey
| GenerateSymmetricKey
| DeleteSymmetricKey
| DecryptEcb
| EncryptEcb
| DecryptCbc
| EncryptCbc
| PutPublicWrapKey
| DeletePublicWrapKey
| DeriveEcdhKdf
| SessionObjects
| SignMlDsa
| EncapsulateMlKem
| DecapsulateMlKem
| EncapsulateHybridKem
| DecapsulateHybridKem.

#[export] Instance Capability_eq_dec : EqDecision Capability.
Proof. solve_decision. Defined.

(** [capability as usize]. *)
Definition to_bit (c : Capability) : Z :=
  match c with
  | GetOpaque => 0x00
  | PutOpaque => 0x01
  | PutAuthenticationKey => 0x02
  | PutAsymmetricKey => 0x03
  | GenerateAsymmetricKey => 0x04
  | SignPkcs => 0x05
  | SignPss => 0x06
  | SignEcdsa => 0x07
  | SignEddsa => 0x08
  | DecryptPkcs => 0x09
  | DecryptOaep => 0x0a
  | DeriveEcdh => 0x0b
  | ExportWrapped => 0x0c
  | ImportWrapped => 0x0d
  | PutWrapKey => 0x0e
  | GenerateWrapKey => 0x0f
  | ExportableUnderWrap => 0x10
  | SetOption => 0x11
  | GetOption => 0x12
  | GetPseudoRandom => 0x13
  | PutMacKey => 0x14
  | GenerateHmacKey => 0x15
  | SignHmac => 0x16
  | VerifyHmac => 0x17
  | GetLogEntries => 0x18
  | SignSshCertificate => 0x19
  | GetTemplate => 0x1a
  | PutTemplate => 0x1b
  | ResetDevice => 0x1c
  | DecryptOtp => 0x1d
  | CreateOtpAead => 0x1e
  | RandomizeOtpAead => 0x1f
  | RewrapFromOtpAeadKey => 0x20
  | RewrapToOtpAeadKey => 0x21
  | SignAttestationCertificate => 0x22
  | PutOtpAeadKey => 0x23
  | GenerateOtpAeadKey => 0x24
  | WrapData => 0x25
  | UnwrapData => 0x26
  | DeleteOpaque => 0x27
  | DeleteAuthenticationKey => 0x28
  | DeleteAsymmetricKey => 0x29
  | DeleteWrapKey => 0x2a
  | DeleteHmacKey => 0x2b
  | DeleteTemplate => 0x2c
  | DeleteOtpAeadKey => 0x2d
  | ChangeAuthenticationKey => 0x2e
  | PutSymmetricKey => 0x2f
  | GenerateSymmetricKey => 0x30
  | DeleteSymmetricKey => 0x31
  | DecryptEcb => 0x32
  | EncryptEcb => 0x33
  | DecryptCbc => 0x34
  | EncryptCbc => 0x35
  | PutPublicWrapKey => 0x36
  | DeletePublicWrapKey => 0x37
  | DeriveEcdhKdf => 0x38
  | SessionObjects => 0x39
  | SignMlDsa => 0x3a
  | EncapsulateMlKem => 0x3b
  | DecapsulateMlKem => 0x3c
  | EncapsulateHybridKem => 0x3d
  | DecapsulateHybridKem => 0x3e
  end.

Definition supported_by_firmware `{Build} (self : Capability) : bool :=
  match self with
  | DeriveEcdhKdf => prefixed_ecdh compiled
  | SessionObjects => session_objects compiled
  | SignMlDsa | EncapsulateMlKem | DecapsulateMlKem
  | EncapsulateHybridKem | DecapsulateHybridKem => post_quantum compiled
  | _ => true
  end.

(** The bitmap: an array of eight bytes. *)
Record CapabilitySet : Set := from_bytes { to_bytes : list Z }.

#[export] Instance CapabilitySet_eq_dec : EqDecision CapabilitySet.
Proof. solve_decision. Defined.

Definition NONE : CapabilitySet := from_bytes (replicate 8 0).
Definition ALL : CapabilitySet := from_bytes (replicate 8 0xff).

(** The array type [[u8; 8]]. *)
Definition set_ok (s : CapabilitySet) : Prop :=
  length (to_bytes s) = 8%nat ∧ bytes_ok (to_bytes s).

#[export] Instance set_ok_dec s : Decision (set_ok s).
Proof. unfold set_ok. apply _. Defined.

(** [self.0[7 - bit / 8]] and [1 << (bit % 8)]. *)
Definition byte_at (s : CapabilitySet) (bit : Z) : Z :=
  nth (Z.to_nat (7 - bit / 8)) (to_bytes s) 0.
Definition bit_mask (bit : Z) : Z := Z.shiftl 1 (bit mod 8).

Definition contains (self : CapabilitySet) (capability : Capability) : bool :=
  let bit := to_bit capability in
  negb (Z.land (byte_at self bit) (bit_mask bit) =? 0).

Definition contains_all (self required : CapabilitySet) : bool :=
  forallb (λ '(available, required), Z.land available required =? required)
    (zip (to_bytes self) (to_bytes required)).

Definition is_subset_of (self available : CapabilitySet) : bool :=
  contains_all available self.

Definition insert (self : CapabilitySet) (capability : Capability) : CapabilitySet :=
  let bit := to_bit capability in
  from_bytes (<[Z.to_nat (7 - bit / 8) := Z.lor (byte_at self bit) (bit_mask bit)]>
                (to_bytes self)).

Definition remove (self : CapabilitySet) (capability : Capability) : CapabilitySet :=
  let bit := to_bit capability in
  from_bytes (<[Z.to_nat (7 - bit / 8) :=
                  Z.land (byte_at self bit) (Z.lxor 0xff (bit_mask bit))]> (to_bytes self)).

Definition from_capabilities (values : list Capability) : CapabilitySet :=
  foldl insert NONE values.

(** The extension bits hidden by firmware profiles that do not implement them. *)
Definition extension_capabilities : list Capability :=
  [DeriveEcdhKdf; SessionObjects; SignMlDsa; EncapsulateMlKem; DecapsulateMlKem;
   EncapsulateHybridKem; DecapsulateHybridKem].

Definition retain_firmware_supported `{Build} (self : CapabilitySet) : CapabilitySet :=
  foldl (λ s c, if supported_by_firmware c then s else remove s c) self
    extension_capabilities.

Definition intersection (self other : CapabilitySet) : CapabilitySet :=
  from_bytes (zip_with Z.land (to_bytes self) (to_bytes other)).

(** ** The bitmap as a set of bit numbers *)

Definition has_bit (s : CapabilitySet) (n : Z) : bool :=
  Z.testbit (byte_at s n) (n mod 8).

(** The bits of a bitmap, as a finite set of numbers below 64. *)
Definition bits (s : CapabilitySet) : gset Z :=
  list_to_set (filter (λ n, has_bit s n = true) (Z.of_nat <$> seq 0 64)).

Lemma elem_of_bits s n : n ∈ bits s ↔ 0 ≤ n < 64 ∧ has_bit s n = true.
Proof.
  unfold bits. rewrite elem_of_list_to_set, list_elem_of_filter, list_elem_of_fmap.
  split.
  - intros [? (k & -> & [_ ?]%elem_of_seq)]. split; [lia|done].
  - intros [? ?]. split; [done|]. exists (Z.to_nat n). split; [lia|].
    apply elem_of_seq. lia.
Qed.

Lemma to_bit_bound c : 0 ≤ to_bit c < 63.
Proof. destruct c; cbn; lia. Qed.

#[export] Instance to_bit_inj : Inj (=) (=) to_bit.
Proof. intros c1 c2 H. destruct c1; destruct c2; first [reflexivity | discriminate H]. Qed.

Lemma land_shiftl_one x k : 0 ≤ k → (Z.land x (Z.shiftl 1 k) =? 0) = negb (Z.testbit x k).
Proof.
  intros Hk. assert (Z.land x (Z.shiftl 1 k) = if Z.testbit x k then Z.shiftl 1 k else 0) as ->.
  - apply Z.bits_inj'. intros n Hn. rewrite Z.land_spec, Z.shiftl_spec by done.
    destruct (Z.eq_dec n k) as [->|Hne].
    + rewrite Z.sub_diag, andb_true_r. destruct (Z.testbit x k); [|by rewrite Z.testbit_0_l].
      by rewrite Z.shiftl_spec, Z.sub_diag by done.
    + assert (Z.testbit 1 (n - k) = false) as Hz.
      { destruct (Z_lt_dec n k); [by rewrite Z.testbit_neg_r by lia|].
        change 1 with (2 ^ 0). apply Z.pow2_bits_false. lia. }
      rewrite Hz, andb_false_r. destruct (Z.testbit x k); [|by rewrite Z.testbit_0_l].
      by rewrite Z.shiftl_spec, Hz by done.
  - destruct (Z.testbit x k); [|done]. rewrite Z.shiftl_1_l.
    apply Z.eqb_neq. pose proof (Z.pow_pos_nonneg 2 k). lia.
Qed.

Lemma contains_has_bit s c : contains s c = has_bit s (to_bit c).
Proof.
  unfold contains, has_bit, bit_mask.
  rewrite land_shiftl_one by (apply Z.mod_pos_bound; lia). apply negb_involutive.
Qed.

Lemma byte_at_u8 s n : set_ok s → u8 (byte_at s n).
Proof.
  intros [_ Hb]. unfold byte_at. destruct (nth_in_or_default (Z.to_nat (7 - n / 8)) (to_bytes s) 0)
    as [Hin| ->]; [|unfold u8; lia].
  rewrite Forall_forall in Hb. by apply Hb, list_elem_of_In.
Qed.

Lemma byte_index n : 0 ≤ n < 64 → (Z.to_nat (7 - n / 8) < 8)%nat.
Proof. intros. assert (0 ≤ n / 8 < 8) by (split; [apply Z.div_pos|apply Z.div_lt_upper_bound]; lia). lia. Qed.

(** Two different bit numbers in the same byte have different positions. *)
Lemma same_byte n m : 0 ≤ n < 64 → 0 ≤ m < 64 →
  Z.to_nat (7 - n / 8) = Z.to_nat (7 - m / 8) → n ≠ m → n mod 8 ≠ m mod 8.
Proof.
  intros. assert (0 ≤ n / 8 < 8) by (split; [apply Z.div_pos|apply Z.div_lt_upper_bound]; lia).
  assert (0 ≤ m / 8 < 8) by (split; [apply Z.div_pos|apply Z.div_lt_upper_bound]; lia).
  pose proof (Z.div_mod n 8). pose proof (Z.div_mod m 8). lia.
Qed.

(** Updating one byte of the bitmap changes the bits of that byte only. *)
Lemma byte_at_update s i v n :
  length (to_bytes s) = 8%nat → (i < 8)%nat →
  byte_at (from_bytes (<[i := v]> (to_bytes s))) n =
  if decide (i = Z.to_nat (7 - n / 8)) then v else byte_at s n.
Proof.
  intros Hl Hi. unfold byte_at. cbn [to_bytes]. rewrite !nth_lookup. case_decide as Hd.
  - subst. by rewrite list_lookup_insert_eq by lia.
  - by rewrite list_lookup_insert_ne.
Qed.

Lemma bit_mask_spec n m : 0 ≤ m → Z.testbit (bit_mask n) m = bool_decide (m = n mod 8).
Proof.
  intros Hm. unfold bit_mask. rewrite Z.shiftl_1_l.
  rewrite Z.pow2_bits_eqb by (apply Z.mod_pos_bound; lia).
  destruct (Z.eqb_spec (n mod 8) m); symmetry; [apply bool_decide_eq_true|apply bool_decide_eq_false]; lia.
Qed.

Lemma testbit_ff m : 0 ≤ m < 8 → Z.testbit 0xff m = true.
Proof. intros. by change 0xff with (Z.ones 8); apply Z.ones_spec_low. Qed.

Lemma bit_mask_u8 n : u8 (bit_mask n).
Proof.
  unfold bit_mask. rewrite Z.shiftl_1_l. pose proof (Z.mod_pos_bound n 8 ltac:(lia)).
  split; [apply Z.pow_nonneg; lia|]. change 256 with (2 ^ 8).
  apply Z.pow_lt_mono_r; lia.
Qed.

Lemma insert_ok s c : set_ok s → set_ok (insert s c).
Proof.
  intros Hs. pose proof (byte_at_u8 s (to_bit c) Hs). destruct Hs as [Hl Hb].
  split; cbn [insert to_bytes]; [by rewrite length_insert|].
  apply Forall_insert; [done|]. by apply u8_lor; [|apply bit_mask_u8].
Qed.

Lemma remove_ok s c : set_ok s → set_ok (remove s c).
Proof.
  intros Hs. pose proof (byte_at_u8 s (to_bit c) Hs). destruct Hs as [Hl Hb].
  split; cbn [remove to_bytes]; [by rewrite length_insert|].
  apply Forall_insert; [done|].
  assert (∀ x, u8 x → u8 (Z.land x (Z.lxor 0xff (bit_mask (to_bit c))))) as Hx; [|by apply Hx].
  intros x Hx. apply u8_bits; [apply Z.land_nonneg; unfold u8 in Hx; lia|].
  intros l Hl'. by rewrite Z.land_spec, u8_testbit_high.
Qed.

Lemma has_bit_insert s c n : set_ok s → 0 ≤ n < 64 →
  has_bit (insert s c) n = bool_decide (n = to_bit c) || has_bit s n.
Proof.
  intros [Hl _] Hn. pose proof (to_bit_bound c) as Hc. unfold has_bit, insert. cbn zeta.
  rewrite byte_at_update by (try done; apply byte_index; lia).
  pose proof (Z.mod_pos_bound n 8 ltac:(lia)).
  case_decide as Hd.
  - rewrite Z.lor_spec, bit_mask_spec by lia. unfold byte_at at 1. rewrite Hd.
    fold (byte_at s n). case_bool_decide as Hb.
    + rewrite orb_true_r. symmetry. apply orb_true_iff. left. apply bool_decide_eq_true.
      destruct (Z.eq_dec n (to_bit c)); [done|].
      by destruct (same_byte (to_bit c) n); try lia.
    + rewrite orb_false_r. case_bool_decide; [by subst|done].
  - case_bool_decide; [by subst|done].
Qed.

Lemma has_bit_remove s c n : set_ok s → 0 ≤ n < 64 →
  has_bit (remove s c) n = negb (bool_decide (n = to_bit c)) && has_bit s n.
Proof.
  intros [Hl _] Hn. pose proof (to_bit_bound c) as Hc. unfold has_bit, remove. cbn zeta.
  rewrite byte_at_update by (try done; apply byte_index; lia).
  pose proof (Z.mod_pos_bound n 8 ltac:(lia)).
  case_decide as Hd.
  - rewrite Z.land_spec, Z.lxor_spec, testbit_ff, bit_mask_spec by lia.
    unfold byte_at at 1. rewrite Hd. fold (byte_at s n). case_bool_decide as Hb.
    + rewrite andb_false_r. case_bool_decide; [done|].
      by destruct (same_byte (to_bit c) n); try lia.
    + rewrite andb_true_r. case_bool_decide; [by subst|done].
  - case_bool_decide; [by subst|done].
Qed.

Lemma has_bit_intersection s t n : set_ok s → set_ok t → 0 ≤ n < 64 →
  has_bit (intersection s t) n = has_bit s n && has_bit t n.
Proof.
  intros [Hs _] [Ht _] Hn. unfold has_bit, byte_at, intersection. cbn [to_bytes].
  rewrite !nth_lookup. pose proof (byte_index n Hn) as Hi.
  destruct (lookup_lt_is_Some_2 (to_bytes s) (Z.to_nat (7 - n / 8))) as [x Hx]; [lia|].
  destruct (lookup_lt_is_Some_2 (to_bytes t) (Z.to_nat (7 - n / 8))) as [y Hy]; [lia|].
  rewrite lookup_zip_with, Hx, Hy. cbn. apply Z.land_spec.
Qed.

(** The bytes of two bitmaps, paired. *)
Lemma land_subset a r : u8 a → u8 r →
  (Z.land a r =? r) = true ↔ ∀ m, 0 ≤ m < 8 → Z.testbit r m = true → Z.testbit a m = true.
Proof.
  intros Ha Hr. rewrite Z.eqb_eq. split.
  - intros H m _ Hm. rewrite <- H, Z.land_spec in Hm. by apply andb_true_iff in Hm as [? _].
  - intros H. apply Z.bits_inj'. intros m Hm. rewrite Z.land_spec.
    destruct (Z_lt_dec m 8).
    + specialize (H m ltac:(lia)). destruct (Z.testbit r m), (Z.testbit a m); naive_solver.
    + by rewrite !u8_testbit_high by (done || lia).
Qed.

Lemma contains_all_bits s r : set_ok s → set_ok r →
  contains_all s r = true ↔ bits r ⊆ bits s.
Proof.
  intros [Hsl Hsb] [Hrl Hrb]. unfold contains_all. rewrite forallb_forall.
  assert (∀ i, (i < 8)%nat → ∃ a b, to_bytes s !! i = Some a ∧ to_bytes r !! i = Some b ∧
    u8 a ∧ u8 b) as Hlk.
  { intros i Hi. destruct (lookup_lt_is_Some_2 (to_bytes s) i) as [a Ha]; [lia|].
    destruct (lookup_lt_is_Some_2 (to_bytes r) i) as [b Hb]; [lia|].
    exists a, b. split; [done|]. split; [done|].
    split; [exact (Forall_lookup_1 u8 _ _ _ Hsb Ha)|exact (Forall_lookup_1 u8 _ _ _ Hrb Hb)]. }
  split.
  - intros H n [Hn Hb]%elem_of_bits. apply elem_of_bits. split; [done|].
    destruct (Hlk (Z.to_nat (7 - n / 8))) as (a & b & Ha & Hb' & ? & ?); [by apply byte_index|].
    revert Hb. unfold has_bit, byte_at. rewrite !nth_lookup, Ha, Hb'. cbn.
    apply land_subset; [done|done| |apply Z.mod_pos_bound; lia].
    apply (H (a, b)), list_elem_of_In, list_elem_of_lookup.
    exists (Z.to_nat (7 - n / 8)). by rewrite lookup_zip_with, Ha, Hb'.
  - intros H [a b] [i Hi]%list_elem_of_In%list_elem_of_lookup.
    rewrite lookup_zip_with in Hi.
    destruct (to_bytes s !! i) as [a'|] eqn:Ha, (to_bytes r !! i) as [b'|] eqn:Hb;
      cbn in Hi; inv_ok.
    assert (i < 8)%nat by (apply lookup_lt_Some in Ha; lia).
    apply land_subset;
      [exact (Forall_lookup_1 u8 _ _ _ Hsb Ha)|exact (Forall_lookup_1 u8 _ _ _ Hrb Hb)|].
    intros m Hm Hbit. set (n := 8 * (7 - Z.of_nat i) + m).
    assert (n / 8 = 7 - Z.of_nat i) as Hdiv by (symmetry; apply (Z.div_unique _ _ _ m); lia).
    assert (n mod 8 = m) as Hmod by (symmetry; apply (Z.mod_unique _ _ (7 - Z.of_nat i)); lia).
    assert (n ∈ bits s) as [_ Hs]%elem_of_bits.
    { apply H, elem_of_bits. split; [lia|]. unfold has_bit, byte_at.
      rewrite Hdiv, Hmod, nth_lookup. replace (Z.to_nat (7 - (7 - Z.of_nat i))) with i by lia.
      by rewrite Hb. }
    revert Hs. unfold has_bit, byte_at. rewrite Hdiv, Hmod, nth_lookup.
    replace (Z.to_nat (7 - (7 - Z.of_nat i))) with i by lia. by rewrite Ha.
Qed.

Lemma contains_bits s c : contains s c = true ↔ to_bit c ∈ bits s.
Proof.
  rewrite contains_has_bit, elem_of_bits. pose proof (to_bit_bound c). naive_solver lia.
Qed.

Lemma is_subset_contains s t c : set_ok s → set_ok t →
  is_subset_of s t = true → contains s c = true → contains t c = true.
Proof.
  intros ?? Hsub. rewrite !contains_bits. by apply contains_all_bits in Hsub; [apply Hsub|..].
Qed.

Lemma NONE_ok : set_ok NONE.
Proof. by_computation. Qed.
Lemma ALL_ok : set_ok ALL.
Proof. by_computation. Qed.

#[export] Hint Resolve NONE_ok ALL_ok insert_ok remove_ok : yhsm.

Lemma retain_ok `{Build} s : set_ok s → set_ok (retain_firmware_supported s).
Proof.
  unfold retain_firmware_supported. generalize extension_capabilities as l.
  intros l. revert s. induction l as [|c l IH]; intros s Hs; [done|]. cbn. apply IH.
  destruct (supported_by_firmware c); auto with yhsm.
Qed.

(** Removal of the unsupported capabilities of a list. *)
Lemma contains_retain_list `{Build} l s c : set_ok s →
  contains (foldl (λ s c, if supported_by_firmware c then s else remove s c) s l) c = true ↔
  contains s c = true ∧ (c ∈ l → supported_by_firmware c = true).
Proof.
  revert s. induction l as [|c' l IH]; intros s Hs; cbn [foldl].
  { split; [|naive_solver]. intros. split; [done|]. by intros ?%elem_of_nil. }
  rewrite elem_of_cons. destruct (supported_by_firmware c') eqn:Hc'.
  - rewrite IH by done. naive_solver.
  - rewrite IH by auto with yhsm. rewrite !contains_has_bit.
    rewrite has_bit_remove by (try done; pose proof (to_bit_bound c); lia).
    case_bool_decide as Hb.
    + apply (inj to_bit) in Hb as <-. cbn. naive_solver congruence.
    + cbn. assert (c ≠ c') by congruence. naive_solver.
Qed.

(** ** Properties *)

(** C31: the eight-byte bitmap implements finite sets of capability numbers:
    insertion, removal, intersection, membership and the subset test used by
    every permission check are the set operations, and each keeps the array a
    well-formed array of eight bytes. *)
Theorem bitmap_refines_sets (s t : CapabilitySet) (c : Capability) :
  set_ok s → set_ok t →
  bits (insert s c) = {[to_bit c]} ∪ bits s ∧
  bits (remove s c) = bits s ∖ {[to_bit c]} ∧
  bits (intersection s t) = bits s ∩ bits t ∧
  (is_subset_of s t = true ↔ bits s ⊆ bits t) ∧
  (contains s c = true ↔ to_bit c ∈ bits s) ∧
  set_ok (insert s c) ∧ set_ok (remove s c).
Proof.
  intros Hs Ht. pose proof (to_bit_bound c).
  split; [|split; [|split; [|split; [|split; [|auto with yhsm]]]]].
  - apply set_eq. intros n. rewrite elem_of_union, elem_of_singleton, !elem_of_bits.
    split; [intros [Hn Hb]|intros [->|[Hn Hb]]].
    + rewrite has_bit_insert in Hb by done. apply orb_true_iff in Hb as [?%bool_decide_eq_true|?]; auto.
    + split; [lia|]. rewrite has_bit_insert by (done || lia). by rewrite bool_decide_true.
    + split; [done|]. rewrite has_bit_insert by done. by rewrite Hb, orb_true_r.
  - apply set_eq. intros n. rewrite elem_of_difference, elem_of_singleton, !elem_of_bits.
    split; [intros [Hn Hb]|intros [[Hn Hb] Hne]].
    + rewrite has_bit_remove in Hb by done. apply andb_true_iff in Hb as [Hneg Hb].
      apply negb_true_iff, bool_decide_eq_false in Hneg. auto.
    + split; [done|]. rewrite has_bit_remove, Hb by done. by rewrite bool_decide_false.
  - apply set_eq. intros n. rewrite elem_of_intersection, !elem_of_bits.
    split; [intros [Hn Hb]|intros [[Hn Hb] [_ Hb']]].
    + rewrite has_bit_intersection in Hb by done. by apply andb_true_iff in Hb as [? ?].
    + split; [done|]. by rewrite has_bit_intersection, Hb, Hb' by done.
  - by apply contains_all_bits.
  - apply contains_bits.
Qed.

Lemma bitmap_refines_sets_witness :
  let s := from_bytes [0; 0x80; 0; 0; 0; 0; 0; 0x80] in
  bits (insert s GetOpaque) = {[to_bit GetOpaque]} ∪ bits s ∧
  to_bytes (insert s GetOpaque) = [0; 0x80; 0; 0; 0; 0; 0; 0x81].
Proof.
  intros s. split; [|reflexivity].
  apply (bitmap_refines_sets s NONE GetOpaque); by_computation.
Defined.

(** Hiding the extension bits of a profile removes exactly the capabilities
    that the compiled firmware does not implement. *)
Theorem retain_firmware_supported_spec `{Build} (s : CapabilitySet) (c : Capability) :
  set_ok s →
  contains (retain_firmware_supported s) c = true ↔
  contains s c = true ∧ supported_by_firmware c = true.
Proof.
  intros Hs. unfold retain_firmware_supported. rewrite contains_retain_list by done.
  split; intros [? Hc]; (split; [done|]); [|done].
  destruct (decide (c ∈ extension_capabilities)) as [|Hnot]; [auto|].
  destruct c; try done; exfalso; apply Hnot; by_computation.
Qed.

Lemma retain_firmware_supported_spec_witness :
  contains (@retain_firmware_supported baseline_build ALL) SignEcdsa = true.
Proof.
  apply (@retain_firmware_supported_spec baseline_build ALL SignEcdsa); [by_computation|].
  split; reflexivity.
Defined.
