(* ===== verification/Algorithm.v ===== *)
(** * Algorithms (crates/virtual-yubihsm-core/src/algorithm.rs)

    The algorithm registry: identifiers, the firmware surface, and the lengths
    of key material and of reported object sizes. *)

From S2P Require Import Prelude Error Firmware.

(** Parameter sets of [software_key_core] that the registry names. *)
Inductive MlDsaParameterSet : Set := SetMlDsa44 | SetMlDsa65 | SetMlDsa87.
Inductive MlKemParameterSet : Set := SetMlKem512 | SetMlKem768 | SetMlKem1024.
Inductive HybridKemConstruction : Set :=
| MlKem768P256 | MlKem768X25519 | MlKem1024P384.

#[export] Instance MlDsaParameterSet_eq_dec : EqDecision MlDsaParameterSet.
Proof. solve_decision. Defined.
#[export] Instance MlKemParameterSet_eq_dec : EqDecision MlKemParameterSet.
Proof. solve_decision. Defined.
#[export] Instance HybridKemConstruction_eq_dec : EqDecision HybridKemConstruction.
Proof. solve_decision. Defined.

Inductive Algorithm : Set :=
| RsaPkcs1Sha1
| RsaPkcs1Sha256
| RsaPkcs1Sha384
| RsaPkcs1Sha512
| RsaPssSha1
| RsaPssSha256
| RsaPssSha384
| RsaPssSha512
| Rsa2048
| Rsa3072
| Rsa4096
| EcP256
| EcP384
| EcP521
| EcK256
| EcBrainpoolP256
| EcBrainpoolP384
| EcBrainpoolP512
| HmacSha1
| HmacSha256
| HmacSha384
| HmacSha512
| EcdsaSha1
| Ecdh
| RsaOaepSha1
| RsaOaepSha256
| RsaOaepSha384
| RsaOaepSha512
| Aes128CcmWrap
| OpaqueData
| OpaqueX509Certificate
| Mgf1Sha1
| Mgf1Sha256
| Mgf1Sha384
| Mgf1Sha512
| TemplateSsh
| Aes128YubicoOtp
| Aes128YubicoAuthentication
| Aes192YubicoOtp
| Aes256YubicoOtp
| Aes192CcmWrap
| Aes256CcmWrap
| EcdsaSha256
| EcdsaSha384
| EcdsaSha512
| Ed25519
| EcP224
| RsaPkcs1Decrypt
| EcP256YubicoAuthentication
| Aes128
| Aes192
| Aes256
| AesEcb
| AesCbc
| AesKwp
| X25519
| X448
| Ed448
| MlDsa44
| MlDsa65
| MlDsa87
| MlKem512
| MlKem768
| MlKem1024
| HybridMlKem768P256
| HybridMlKem768X25519
| HybridMlKem1024P384.

#[export] Instance Algorithm_eq_dec : EqDecision Algorithm.
Proof. solve_decision. Defined.

(** [algorithm as u8]. *)
Definition to_byte (a : Algorithm) : Z :=
  match a with
  | RsaPkcs1Sha1 => 1
  | RsaPkcs1Sha256 => 2
  | RsaPkcs1Sha384 => 3
  | RsaPkcs1Sha512 => 4
  | RsaPssSha1 => 5
  | RsaPssSha256 => 6
  | RsaPssSha384 => 7
  | RsaPssSha512 => 8
  | Rsa2048 => 9
  | Rsa3072 => 10
  | Rsa4096 => 11
  | EcP256 => 12
  | EcP384 => 13
  | EcP521 => 14
  | EcK256 => 15
  | EcBrainpoolP256 => 16
  | EcBrainpoolP384 => 17
  | EcBrainpoolP512 => 18
  | HmacSha1 => 19
  | HmacSha256 => 20
  | HmacSha384 => 21
  | HmacSha512 => 22
  | EcdsaSha1 => 23
  | Ecdh => 24
  | RsaOaepSha1 => 25
  | RsaOaepSha256 => 26
  | RsaOaepSha384 => 27
  | RsaOaepSha512 => 28
  | Aes128CcmWrap => 29
  | OpaqueData => 30
  | OpaqueX509Certificate => 31
  | Mgf1Sha1 => 32
  | Mgf1Sha256 => 33
  | Mgf1Sha384 => 34
  | Mgf1Sha512 => 35
  | TemplateSsh => 36
  | Aes128YubicoOtp => 37
  | Aes128YubicoAuthentication => 38
  | Aes192YubicoOtp => 39
  | Aes256YubicoOtp => 40
  | Aes192CcmWrap => 41
  | Aes256CcmWrap => 42
  | EcdsaSha256 => 43
  | EcdsaSha384 => 44
  | EcdsaSha512 => 45
  | Ed25519 => 46
  | EcP224 => 47
  | RsaPkcs1Decrypt => 48
  | EcP256YubicoAuthentication => 49
  | Aes128 => 50
  | Aes192 => 51
  | Aes256 => 52
  | AesEcb => 53
  | AesCbc => 54
  | AesKwp => 55
  | X25519 => 56
  | X448 => 57
  | Ed448 => 58
  | MlDsa44 => 59
  | MlDsa65 => 60
  | MlDsa87 => 61
  | MlKem512 => 62
  | MlKem768 => 63
  | MlKem1024 => 64
  | HybridMlKem768P256 => 65
  | HybridMlKem768X25519 => 66
  | HybridMlKem1024P384 => 67
  end.

Definition OFFICIAL : list Algorithm :=
  [RsaPkcs1Sha1; RsaPkcs1Sha256; RsaPkcs1Sha384; RsaPkcs1Sha512;
   RsaPssSha1; RsaPssSha256; RsaPssSha384; RsaPssSha512;
   Rsa2048; Rsa3072; Rsa4096; EcP256;
   EcP384; EcP521; EcK256; EcBrainpoolP256;
   EcBrainpoolP384; EcBrainpoolP512; HmacSha1; HmacSha256;
   HmacSha384; HmacSha512; EcdsaSha1; Ecdh;
   RsaOaepSha1; RsaOaepSha256; RsaOaepSha384; RsaOaepSha512;
   Aes128CcmWrap; OpaqueData; OpaqueX509Certificate; Mgf1Sha1;
   Mgf1Sha256; Mgf1Sha384; Mgf1Sha512; TemplateSsh;
   Aes128YubicoOtp; Aes128YubicoAuthentication; Aes192YubicoOtp; Aes256YubicoOtp;
   Aes192CcmWrap; Aes256CcmWrap; EcdsaSha256; EcdsaSha384;
   EcdsaSha512; Ed25519; EcP224; RsaPkcs1Decrypt;
   EcP256YubicoAuthentication; Aes128; Aes192; Aes256;
   AesEcb; AesCbc; AesKwp].

(** [from_byte] transmutes a byte of the inclusive range 1..=67: the enumeration
    in the order of its discriminants, with the out-of-range bytes rejected. *)
Definition ALL_ALGORITHMS : list Algorithm :=
  [RsaPkcs1Sha1; RsaPkcs1Sha256; RsaPkcs1Sha384; RsaPkcs1Sha512;
   RsaPssSha1; RsaPssSha256; RsaPssSha384; RsaPssSha512;
   Rsa2048; Rsa3072; Rsa4096; EcP256;
   EcP384; EcP521; EcK256; EcBrainpoolP256;
   EcBrainpoolP384; EcBrainpoolP512; HmacSha1; HmacSha256;
   HmacSha384; HmacSha512; EcdsaSha1; Ecdh;
   RsaOaepSha1; RsaOaepSha256; RsaOaepSha384; RsaOaepSha512;
   Aes128CcmWrap; OpaqueData; OpaqueX509Certificate; Mgf1Sha1;
   Mgf1Sha256; Mgf1Sha384; Mgf1Sha512; TemplateSsh;
   Aes128YubicoOtp; Aes128YubicoAuthentication; Aes192YubicoOtp; Aes256YubicoOtp;
   Aes192CcmWrap; Aes256CcmWrap; EcdsaSha256; EcdsaSha384;
   EcdsaSha512; Ed25519; EcP224; RsaPkcs1Decrypt;
   EcP256YubicoAuthentication; Aes128; Aes192; Aes256;
   AesEcb; AesCbc; AesKwp; X25519;
   X448; Ed448; MlDsa44; MlDsa65;
   MlDsa87; MlKem512; MlKem768; MlKem1024;
   HybridMlKem768P256; HybridMlKem768X25519; HybridMlKem1024P384].

Definition from_byte (value : Z) : option Algorithm :=
  if (value =? 0) || (to_byte HybridMlKem1024P384 <? value) then None
  else ALL_ALGORITHMS !! Z.to_nat (value - 1).

Definition supported_by_firmware `{Build} (self : Algorithm) : bool :=
  match self with
  | X25519 | X448 | Ed448 => extended_curves compiled
  | MlDsa44 | MlDsa65 | MlDsa87 | MlKem512 | MlKem768 | MlKem1024
  | HybridMlKem768P256 | HybridMlKem768X25519 | HybridMlKem1024P384 =>
      post_quantum compiled
  | _ => true
  end.

Definition ml_dsa (self : Algorithm) : option MlDsaParameterSet :=
  match self with
  | MlDsa44 => Some SetMlDsa44
  | MlDsa65 => Some SetMlDsa65
  | MlDsa87 => Some SetMlDsa87
  | _ => None
  end.

Definition ml_kem (self : Algorithm) : option MlKemParameterSet :=
  match self with
  | MlKem512 => Some SetMlKem512
  | MlKem768 => Some SetMlKem768
  | MlKem1024 => Some SetMlKem1024
  | _ => None
  end.

Definition hybrid_kem (self : Algorithm) : option HybridKemConstruction :=
  match self with
  | HybridMlKem768P256 => Some MlKem768P256
  | HybridMlKem768X25519 => Some MlKem768X25519
  | HybridMlKem1024P384 => Some MlKem1024P384
  | _ => None
  end.

Definition is_rsa_key (self : Algorithm) : bool :=
  match self with Rsa2048 | Rsa3072 | Rsa4096 => true | _ => false end.

Definition is_weierstrass_key (self : Algorithm) : bool :=
  match self with
  | EcP224 | EcP256 | EcP384 | EcP521 | EcK256
  | EcBrainpoolP256 | EcBrainpoolP384 | EcBrainpoolP512 => true
  | _ => false
  end.

(** Serialized private-key material length. *)
Definition asymmetric_key_length (self : Algorithm) : option Z :=
  match self with
  | MlDsa44 | MlDsa65 | MlDsa87 => Some 32
  | MlKem512 | MlKem768 | MlKem1024 => Some 64
  | HybridMlKem768P256 | HybridMlKem768X25519 | HybridMlKem1024P384 => Some 32
  | Rsa2048 => Some 256
  | Rsa3072 => Some 384
  | Rsa4096 => Some 512
  | EcP224 => Some 28
  | EcP256 | EcK256 | EcBrainpoolP256 | Ed25519 | X25519 => Some 32
  | X448 => Some 56
  | Ed448 => Some 57
  | EcP384 | EcBrainpoolP384 => Some 48
  | EcP521 => Some 66
  | EcBrainpoolP512 => Some 64
  | _ => None
  end.

(** Object size reported through [GetObjectInfo]. *)
Definition asymmetric_object_length (self : Algorithm) : option Z :=
  match self with
  | MlDsa44 | MlDsa65 | MlDsa87 => Some 32
  | MlKem512 | MlKem768 | MlKem1024 => Some 64
  | HybridMlKem768P256 | HybridMlKem768X25519 | HybridMlKem1024P384 => Some 32
  | Rsa2048 => Some 896
  | Rsa3072 => Some 1344
  | Rsa4096 => Some 1792
  | EcP224 => Some 84
  | EcP256 | EcK256 | EcBrainpoolP256 => Some 96
  | EcP384 | EcBrainpoolP384 => Some 144
  | EcP521 => Some 198
  | EcBrainpoolP512 => Some 192
  | Ed25519 => Some 128
  | X25519 => Some 64
  | X448 => Some 112
  | Ed448 => Some 228
  | _ => None
  end.

Definition hmac_object_length (self : Algorithm) : option Z :=
  match self with
  | HmacSha1 | HmacSha256 => Some 128
  | HmacSha384 | HmacSha512 => Some 256
  | _ => None
  end.

Definition aes_key_length (self : Algorithm) : option Z :=
  match self with
  | Aes128 | Aes128CcmWrap | Aes128YubicoOtp => Some 16
  | Aes192 | Aes192CcmWrap | Aes192YubicoOtp => Some 24
  | Aes256 | Aes256CcmWrap | Aes256YubicoOtp => Some 32
  | _ => None
  end.

(** ** Lemmas *)

Lemma algorithm_from_to_byte a : from_byte (to_byte a) = Some a.
Proof. by destruct a. Qed.

#[export] Instance to_byte_inj : Inj (=) (=) to_byte.
Proof. intros a1 a2 H%(f_equal from_byte). rewrite !algorithm_from_to_byte in H. congruence. Qed.

Lemma algorithm_to_byte_bound a : 1 ≤ to_byte a ≤ 67.
Proof. destruct a; cbn; lia. Qed.

Lemma algorithm_from_byte_ok v a : 0 ≤ v → from_byte v = Some a → v = to_byte a.
Proof.
  unfold from_byte. intros Hv H. destruct (_ || _) eqn:Hb; [done|]. bool_prop.
  assert (∀ n, (n < 67)%nat → to_byte <$> (ALL_ALGORITHMS !! n) = Some (Z.of_nat n + 1)) as Hall.
  { assert (Forall (λ n, to_byte <$> (ALL_ALGORITHMS !! n) = Some (Z.of_nat n + 1)) (seq 0 67))
      as Hs by by_computation.
    rewrite Forall_forall in Hs. intros n Hn. apply Hs, elem_of_seq. lia. }
  cbn in *. specialize (Hall (Z.to_nat (v - 1)) ltac:(lia)). rewrite H in Hall. cbn in Hall.
  injection Hall as ->. lia.
Qed.

Lemma asymmetric_lengths a n : asymmetric_object_length a = Some n →
  ∃ k, asymmetric_key_length a = Some k ∧ 28 ≤ k ≤ n ∧ n + 8 < 65536.
Proof. destruct a; cbn; intros; inv_ok; eexists; (split; [reflexivity|lia]). Qed.

(** ** Properties *)

(** The registry is contiguous: [from_byte] accepts exactly the bytes 1 to
    67, the byte of the algorithm it returns is the byte it was given, the
    published algorithms are 1 to 55 in order, and the two length tables agree
    with the documented formulas for RSA moduli ([7n/2]) and Weierstrass
    coordinates ([3c]). *)
Theorem algorithm_registry (v : Z) (a : Algorithm) :
  u8 v →
  (from_byte v = Some a ↔ to_byte a = v) ∧
  (is_Some (from_byte v) ↔ 1 ≤ v ≤ 67) ∧
  (to_byte <$> OFFICIAL) = (λ n, Z.of_nat n + 1) <$> seq 0 55 ∧
  (is_rsa_key a = true →
     ∃ n, asymmetric_key_length a = Some n ∧ asymmetric_object_length a = Some (7 * n / 2)) ∧
  (is_weierstrass_key a = true →
     ∃ c, asymmetric_key_length a = Some c ∧ asymmetric_object_length a = Some (3 * c)).
Proof.
  intros Hv. split; [|split; [|split; [reflexivity|split]]].
  - split; [intros H; symmetry; apply algorithm_from_byte_ok; [unfold u8 in Hv; lia|done]|].
    intros <-. apply algorithm_from_to_byte.
  - split.
    + intros [b Hb]. apply algorithm_from_byte_ok in Hb as ->; [apply algorithm_to_byte_bound|unfold u8 in Hv; lia].
    + intros Hr. unfold from_byte. destruct (_ || _) eqn:Hb.
      * exfalso. apply orb_true_iff in Hb as [?%Z.eqb_eq|Hb%Z.ltb_lt]; [lia|]. cbn in Hb. lia.
      * apply lookup_lt_is_Some_2. cbn. lia.
  - destruct a; cbn; intros; try done; eexists; (split; [reflexivity|done]).
  - destruct a; cbn; intros; try done; eexists; (split; [reflexivity|done]).
Qed.

Lemma algorithm_registry_witness :
  from_byte 58 = Some Ed448 ∧ u8 58.
Proof.
  assert (u8 58) as H by by_computation. split; [|exact H].
  apply (algorithm_registry 58 Ed448 H). reflexivity.
Defined.
