(* ===== verification/Protocol.v ===== *)
(** * Command registry (crates/virtual-yubihsm-core/src/protocol.rs)

    The top-level command codes, the nested session-object commands, and the
    session capability each command requires. *)

From S2P Require Import Prelude Firmware Capability.

Module CommandCode.

Inductive CommandCode : Set :=
| Echo
| CreateSession
| AuthenticateSession
| SessionMessage
| GetDeviceInfo
| ResetDevice
| GetDevicePublicKey
| SessionObject
| DeriveEcdhKdf
| SignMlDsa
| EncapsulateMlKem
| DecapsulateMlKem
| EncapsulateHybridKem
| DecapsulateHybridKem
| CloseSession
| GetStorageInfo
| PutOpaque
| GetOpaque
| PutAuthenticationKey
| PutAsymmetricKey
| GenerateAsymmetricKey
| SignPkcs1
| ListObjects
| DecryptPkcs1
| ExportWrapped
| ImportWrapped
| PutWrapKey
| GetLogEntries
| GetObjectInfo
| SetOption
| GetOption
| GetPseudoRandom
| PutHmacKey
| SignHmac
| GetPublicKey
| SignPss
| SignEcdsa
| DeriveEcdh
| DeleteObject
| DecryptOaep
| GenerateHmacKey
| GenerateWrapKey
| VerifyHmac
| SignSshCertificate
| PutTemplate
| GetTemplate
| DecryptOtp
| CreateOtpAead
| RandomizeOtpAead
| RewrapOtpAead
| SignAttestationCertificate
| PutOtpAeadKey
| GenerateOtpAeadKey
| SetLogIndex
| WrapData
| UnwrapData
| SignEddsa
| BlinkDevice
| ChangeAuthenticationKey
| PutSymmetricKey
| GenerateSymmetricKey
| DecryptEcb
| EncryptEcb
| DecryptCbc
| EncryptCbc
| PutPublicWrapKey
| GetRsaWrappedKey
| PutRsaWrappedKey
| ExportRsaWrapped
| ImportRsaWrapped.

#[global] Instance CommandCode_eq_dec : EqDecision CommandCode.
Proof. solve_decision. Defined.

(** [{:?}] of a command. *)
Definition debug (command : CommandCode) : string :=
  match command with
  | Echo => "Echo" | CreateSession => "CreateSession"
  | AuthenticateSession => "AuthenticateSession" | SessionMessage => "SessionMessage"
  | GetDeviceInfo => "GetDeviceInfo" | ResetDevice => "ResetDevice"
  | GetDevicePublicKey => "GetDevicePublicKey" | SessionObject => "SessionObject"
  | DeriveEcdhKdf => "DeriveEcdhKdf" | SignMlDsa => "SignMlDsa"
  | EncapsulateMlKem => "EncapsulateMlKem" | DecapsulateMlKem => "DecapsulateMlKem"
  | EncapsulateHybridKem => "EncapsulateHybridKem" | DecapsulateHybridKem => "DecapsulateHybridKem"
  | CloseSession => "CloseSession" | GetStorageInfo => "GetStorageInfo"
  | PutOpaque => "PutOpaque" | GetOpaque => "GetOpaque"
  | PutAuthenticationKey => "PutAuthenticationKey" | PutAsymmetricKey => "PutAsymmetricKey"
  | GenerateAsymmetricKey => "GenerateAsymmetricKey" | SignPkcs1 => "SignPkcs1"
  | ListObjects => "ListObjects" | DecryptPkcs1 => "DecryptPkcs1"
  | ExportWrapped => "ExportWrapped" | ImportWrapped => "ImportWrapped"
  | PutWrapKey => "PutWrapKey" | GetLogEntries => "GetLogEntries"
  | GetObjectInfo => "GetObjectInfo" | SetOption => "SetOption"
  | GetOption => "GetOption" | GetPseudoRandom => "GetPseudoRandom"
  | PutHmacKey => "PutHmacKey" | SignHmac => "SignHmac"
  | GetPublicKey => "GetPublicKey" | SignPss => "SignPss"
  | SignEcdsa => "SignEcdsa" | DeriveEcdh => "DeriveEcdh"
  | DeleteObject => "DeleteObject" | DecryptOaep => "DecryptOaep"
  | GenerateHmacKey => "GenerateHmacKey" | GenerateWrapKey => "GenerateWrapKey"
  | VerifyHmac => "VerifyHmac" | SignSshCertificate => "SignSshCertificate"
  | PutTemplate => "PutTemplate" | GetTemplate => "GetTemplate"
  | DecryptOtp => "DecryptOtp" | CreateOtpAead => "CreateOtpAead"
  | RandomizeOtpAead => "RandomizeOtpAead" | RewrapOtpAead => "RewrapOtpAead"
  | SignAttestationCertificate => "SignAttestationCertificate" | PutOtpAeadKey => "PutOtpAeadKey"
  | GenerateOtpAeadKey => "GenerateOtpAeadKey" | SetLogIndex => "SetLogIndex"
  | WrapData => "WrapData" | UnwrapData => "UnwrapData"
  | SignEddsa => "SignEddsa" | BlinkDevice => "BlinkDevice"
  | ChangeAuthenticationKey => "ChangeAuthenticationKey" | PutSymmetricKey => "PutSymmetricKey"
  | GenerateSymmetricKey => "GenerateSymmetricKey" | DecryptEcb => "DecryptEcb"
  | EncryptEcb => "EncryptEcb" | DecryptCbc => "DecryptCbc"
  | EncryptCbc => "EncryptCbc" | PutPublicWrapKey => "PutPublicWrapKey"
  | GetRsaWrappedKey => "GetRsaWrappedKey" | PutRsaWrappedKey => "PutRsaWrappedKey"
  | ExportRsaWrapped => "ExportRsaWrapped" | ImportRsaWrapped => "ImportRsaWrapped"
  end.

(** [command as u8]. *)
Definition to_byte (c : CommandCode) : Z :=
  match c with
  | Echo => 0x01
  | CreateSession => 0x03
  | AuthenticateSession => 0x04
  | SessionMessage => 0x05
  | GetDeviceInfo => 0x06
  | ResetDevice => 0x08
  | GetDevicePublicKey => 0x0a
  | SessionObject => 0x0b
  | DeriveEcdhKdf => 0x0c
  | SignMlDsa => 0x0d
  | EncapsulateMlKem => 0x0e
  | DecapsulateMlKem => 0x0f
  | EncapsulateHybridKem => 0x10
  | DecapsulateHybridKem => 0x11
  | CloseSession => 0x40
  | GetStorageInfo => 0x41
  | PutOpaque => 0x42
  | GetOpaque => 0x43
  | PutAuthenticationKey => 0x44
  | PutAsymmetricKey => 0x45
  | GenerateAsymmetricKey => 0x46
  | SignPkcs1 => 0x47
  | ListObjects => 0x48
  | DecryptPkcs1 => 0x49
  | ExportWrapped => 0x4a
  | ImportWrapped => 0x4b
  | PutWrapKey => 0x4c
  | GetLogEntries => 0x4d
  | GetObjectInfo => 0x4e
  | SetOption => 0x4f
  | GetOption => 0x50
  | GetPseudoRandom => 0x51
  | PutHmacKey => 0x52
  | SignHmac => 0x53
  | GetPublicKey => 0x54
  | SignPss => 0x55
  | SignEcdsa => 0x56
  | DeriveEcdh => 0x57
  | DeleteObject => 0x58
  | DecryptOaep => 0x59
  | GenerateHmacKey => 0x5a
  | GenerateWrapKey => 0x5b
  | VerifyHmac => 0x5c
  | SignSshCertificate => 0x5d
  | PutTemplate => 0x5e
  | GetTemplate => 0x5f
  | DecryptOtp => 0x60
  | CreateOtpAead => 0x61
  | RandomizeOtpAead => 0x62
  | RewrapOtpAead => 0x63
  | SignAttestationCertificate => 0x64
  | PutOtpAeadKey => 0x65
  | GenerateOtpAeadKey => 0x66
  | SetLogIndex => 0x67
  | WrapData => 0x68
  | UnwrapData => 0x69
  | SignEddsa => 0x6a
  | BlinkDevice => 0x6b
  | ChangeAuthenticationKey => 0x6c
  | PutSymmetricKey => 0x6d
  | GenerateSymmetricKey => 0x6e
  | DecryptEcb => 0x6f
  | EncryptEcb => 0x70
  | DecryptCbc => 0x71
  | EncryptCbc => 0x72
  | PutPublicWrapKey => 0x73
  | GetRsaWrappedKey => 0x74
  | PutRsaWrappedKey => 0x75
  | ExportRsaWrapped => 0x76
  | ImportRsaWrapped => 0x77
  end.

Definition supported_by_firmware `{Build} (self : CommandCode) : bool :=
  match self with
  | DeriveEcdhKdf => prefixed_ecdh compiled
  | SessionObject => session_objects compiled
  | SignMlDsa | EncapsulateMlKem | DecapsulateMlKem
  | EncapsulateHybridKem | DecapsulateHybridKem => post_quantum compiled
  | _ => true
  end.

Definition from_byte (value : Z) : option CommandCode :=
  match value with
  | 0x01 => Some Echo
  | 0x03 => Some CreateSession
  | 0x04 => Some AuthenticateSession
  | 0x05 => Some SessionMessage
  | 0x06 => Some GetDeviceInfo
  | 0x08 => Some ResetDevice
  | 0x0a => Some GetDevicePublicKey
  | 0x0b => Some SessionObject
  | 0x0c => Some DeriveEcdhKdf
  | 0x0d => Some SignMlDsa
  | 0x0e => Some EncapsulateMlKem
  | 0x0f => Some DecapsulateMlKem
  | 0x10 => Some EncapsulateHybridKem
  | 0x11 => Some DecapsulateHybridKem
  | 0x40 => Some CloseSession
  | 0x41 => Some GetStorageInfo
  | 0x42 => Some PutOpaque
  | 0x43 => Some GetOpaque
  | 0x44 => Some PutAuthenticationKey
  | 0x45 => Some PutAsymmetricKey
  | 0x46 => Some GenerateAsymmetricKey
  | 0x47 => Some SignPkcs1
  | 0x48 => Some ListObjects
  | 0x49 => Some DecryptPkcs1
  | 0x4a => Some ExportWrapped
  | 0x4b => Some ImportWrapped
  | 0x4c => Some PutWrapKey
  | 0x4d => Some GetLogEntries
  | 0x4e => Some GetObjectInfo
  | 0x4f => Some SetOption
  | 0x50 => Some GetOption
  | 0x51 => Some GetPseudoRandom
  | 0x52 => Some PutHmacKey
  | 0x53 => Some SignHmac
  | 0x54 => Some GetPublicKey
  | 0x55 => Some SignPss
  | 0x56 => Some SignEcdsa
  | 0x57 => Some DeriveEcdh
  | 0x58 => Some DeleteObject
  | 0x59 => Some DecryptOaep
  | 0x5a => Some GenerateHmacKey
  | 0x5b => Some GenerateWrapKey
  | 0x5c => Some VerifyHmac
  | 0x5d => Some SignSshCertificate
  | 0x5e => Some PutTemplate
  | 0x5f => Some GetTemplate
  | 0x60 => Some DecryptOtp
  | 0x61 => Some CreateOtpAead
  | 0x62 => Some RandomizeOtpAead
  | 0x63 => Some RewrapOtpAead
  | 0x64 => Some SignAttestationCertificate
  | 0x65 => Some PutOtpAeadKey
  | 0x66 => Some GenerateOtpAeadKey
  | 0x67 => Some SetLogIndex
  | 0x68 => Some WrapData
  | 0x69 => Some UnwrapData
  | 0x6a => Some SignEddsa
  | 0x6b => Some BlinkDevice
  | 0x6c => Some ChangeAuthenticationKey
  | 0x6d => Some PutSymmetricKey
  | 0x6e => Some GenerateSymmetricKey
  | 0x6f => Some DecryptEcb
  | 0x70 => Some EncryptEcb
  | 0x71 => Some DecryptCbc
  | 0x72 => Some EncryptCbc
  | 0x73 => Some PutPublicWrapKey
  | 0x74 => Some GetRsaWrappedKey
  | 0x75 => Some PutRsaWrappedKey
  | 0x76 => Some ExportRsaWrapped
  | 0x77 => Some ImportRsaWrapped
  | _ => None
  end.

Definition required_session_capability (self : CommandCode) : option Capability :=
  match self with
  | PutOpaque => Some Capability.PutOpaque
  | GetOpaque => Some Capability.GetOpaque
  | PutAuthenticationKey => Some Capability.PutAuthenticationKey
  | PutAsymmetricKey => Some Capability.PutAsymmetricKey
  | GenerateAsymmetricKey => Some Capability.GenerateAsymmetricKey
  | SignPkcs1 => Some Capability.SignPkcs
  | DecryptPkcs1 => Some Capability.DecryptPkcs
  | ExportWrapped | ExportRsaWrapped | GetRsaWrappedKey => Some Capability.ExportWrapped
  | ImportWrapped | ImportRsaWrapped => Some Capability.ImportWrapped
  | PutWrapKey => Some Capability.PutWrapKey
  | PutRsaWrappedKey => Some Capability.ImportWrapped
  | GetLogEntries => Some Capability.GetLogEntries
  | SetOption | SetLogIndex => Some Capability.SetOption
  | GetOption => Some Capability.GetOption
  | GetPseudoRandom => Some Capability.GetPseudoRandom
  | PutHmacKey => Some Capability.PutMacKey
  | SignHmac => Some Capability.SignHmac
  | SignPss => Some Capability.SignPss
  | SignEcdsa => Some Capability.SignEcdsa
  | DeriveEcdh => Some Capability.DeriveEcdh
  | DeriveEcdhKdf => Some Capability.DeriveEcdhKdf
  | SessionObject => Some Capability.SessionObjects
  | DecryptOaep => Some Capability.DecryptOaep
  | GenerateHmacKey => Some Capability.GenerateHmacKey
  | GenerateWrapKey => Some Capability.GenerateWrapKey
  | VerifyHmac => Some Capability.VerifyHmac
  | SignSshCertificate => Some Capability.SignSshCertificate
  | PutTemplate => Some Capability.PutTemplate
  | GetTemplate => Some Capability.GetTemplate
  | DecryptOtp => Some Capability.DecryptOtp
  | CreateOtpAead => Some Capability.CreateOtpAead
  | RandomizeOtpAead => Some Capability.RandomizeOtpAead
  | SignAttestationCertificate => Some Capability.SignAttestationCertificate
  | PutOtpAeadKey => Some Capability.PutOtpAeadKey
  | GenerateOtpAeadKey => Some Capability.GenerateOtpAeadKey
  | WrapData => Some Capability.WrapData
  | UnwrapData => Some Capability.UnwrapData
  | SignEddsa => Some Capability.SignEddsa
  | SignMlDsa => Some Capability.SignMlDsa
  | EncapsulateMlKem => Some Capability.EncapsulateMlKem
  | DecapsulateMlKem => Some Capability.DecapsulateMlKem
  | EncapsulateHybridKem => Some Capability.EncapsulateHybridKem
  | DecapsulateHybridKem => Some Capability.DecapsulateHybridKem
  | ChangeAuthenticationKey => Some Capability.ChangeAuthenticationKey
  | PutSymmetricKey => Some Capability.PutSymmetricKey
  | GenerateSymmetricKey => Some Capability.GenerateSymmetricKey
  | DecryptEcb => Some Capability.DecryptEcb
  | EncryptEcb => Some Capability.EncryptEcb
  | DecryptCbc => Some Capability.DecryptCbc
  | EncryptCbc => Some Capability.EncryptCbc
  | PutPublicWrapKey => Some Capability.PutPublicWrapKey
  | ResetDevice => Some Capability.ResetDevice
  | RewrapOtpAead | DeleteObject | Echo | CreateSession | AuthenticateSession
  | SessionMessage | GetDeviceInfo | GetDevicePublicKey | CloseSession
  | GetStorageInfo | ListObjects | GetObjectInfo | GetPublicKey | BlinkDevice => None
  end.

Lemma command_from_to_byte c : from_byte (to_byte c) = Some c.
Proof. by destruct c. Qed.

#[global] Instance to_byte_inj : Inj (=) (=) to_byte.
Proof. intros a1 a2 H%(f_equal from_byte). rewrite !command_from_to_byte in H. congruence. Qed.

Lemma command_to_byte_bound c : 1 ≤ to_byte c < 120.
Proof. destruct c; cbn; lia. Qed.

Lemma command_from_byte_ok v c : u8 v → from_byte v = Some c → v = to_byte c.
Proof.
  intros Hv H.
  assert (Forall (λ n, from_option (λ c, to_byte c =? Z.of_nat n) true
                         (from_byte (Z.of_nat n)) = true) (seq 0 256)) as Hs by by_computation.
  rewrite Forall_forall in Hs. unfold u8 in Hv.
  specialize (Hs (Z.to_nat v) ltac:(apply elem_of_seq; lia)). cbn beta in Hs.
  rewrite Z2Nat.id, H in Hs by lia. symmetry. by apply Z.eqb_eq.
Qed.

End CommandCode.

Module SessionObjectCommand.

Inductive SessionObjectCommand : Set :=
| Read
| VerifyCmac
| ConcatenateKey
| ConcatenateData
| Extract
| Sha256
| CounterKdf
| GenerateAsymmetricKey
| DeriveEcdh
| DeleteObject.

#[global] Instance SessionObjectCommand_eq_dec : EqDecision SessionObjectCommand.
Proof. solve_decision. Defined.

Definition to_byte (c : SessionObjectCommand) : Z :=
  match c with
  | Read => 0x01
  | VerifyCmac => 0x02
  | ConcatenateKey => 0x03
  | ConcatenateData => 0x04
  | Extract => 0x05
  | Sha256 => 0x06
  | CounterKdf => 0x07
  | GenerateAsymmetricKey => 0x46
  | DeriveEcdh => 0x57
  | DeleteObject => 0x58
  end.

Definition from_byte (value : Z) : option SessionObjectCommand :=
  match value with
  | 0x01 => Some Read
  | 0x02 => Some VerifyCmac
  | 0x03 => Some ConcatenateKey
  | 0x04 => Some ConcatenateData
  | 0x05 => Some Extract
  | 0x06 => Some Sha256
  | 0x07 => Some CounterKdf
  | 0x46 => Some GenerateAsymmetricKey
  | 0x57 => Some DeriveEcdh
  | 0x58 => Some DeleteObject
  | _ => None
  end.

End SessionObjectCommand.

(** ** Properties *)

(** Command bytes decode to the command they encode and to nothing else,
    no command byte is an error or a response byte, and a nested session-object
    selector coincides with a top-level command code only for the three
    operations that have the same meaning (generate, derive, delete). *)
Theorem command_registry (v : Z) (c : CommandCode.CommandCode)
    (s : SessionObjectCommand.SessionObjectCommand) :
  u8 v →
  (CommandCode.from_byte v = Some c ↔ CommandCode.to_byte c = v) ∧
  Z.land (CommandCode.to_byte c) 0x80 = 0 ∧ CommandCode.to_byte c ≠ 0x7f ∧
  SessionObjectCommand.from_byte (SessionObjectCommand.to_byte s) = Some s ∧
  (SessionObjectCommand.to_byte s = CommandCode.to_byte c →
     0x40 <= CommandCode.to_byte c →
     (s, c) ∈ [(SessionObjectCommand.GenerateAsymmetricKey, CommandCode.GenerateAsymmetricKey);
               (SessionObjectCommand.DeriveEcdh, CommandCode.DeriveEcdh);
               (SessionObjectCommand.DeleteObject, CommandCode.DeleteObject)]).
Proof.
  intros Hv. split; [|split; [by destruct c|split; [by destruct c|split; [by destruct s|]]]].
  - split; [intros ?%CommandCode.command_from_byte_ok; auto|].
    intros <-. apply CommandCode.command_from_to_byte.
  - intros H Hc. destruct s; cbn in H; destruct c; cbn in H, Hc; try lia;
      by rewrite !elem_of_cons; auto.
Qed.

Lemma command_registry_witness :
  CommandCode.from_byte 0x46 = Some CommandCode.GenerateAsymmetricKey.
Proof.
  apply (command_registry 0x46 CommandCode.GenerateAsymmetricKey
           SessionObjectCommand.Read); [by_computation|reflexivity].
Defined.
