(* ===== verification/KeyCore.v ===== *)
(** * The interfaces of the libraries the device calls

    [software_key_core] (keys and cryptographic computations), [getrandom],
    [std::time::Instant] and [ciborium] are not part of the repository. They are
    parameters of the model: a class of operations with the signatures the code
    uses, over an opaque world that carries the entropy source and the clock.
    What the code relies on is stated by the law classes at the end, used only
    by the theorems that name them. *)

From S2P Require Import Prelude Error Firmware Algorithm.

(** ** Public enumerations of the libraries, as the code names them *)

Inductive EcCurve : Set :=
| P224 | P256 | P384 | P521 | Secp256k1 | BrainpoolP256 | BrainpoolP384 | BrainpoolP512.
Inductive EdwardsCurve : Set := CurveEd25519 | CurveEd448.
Inductive MontgomeryCurve : Set := CurveX25519 | CurveX448.

Inductive KeyKind : Set :=
| KindEc (curve : EcCurve)
| KindEdwards (curve : EdwardsCurve)
| KindRsa (modulus_bits : Z)
| KindMlDsa (parameters : MlDsaParameterSet).

Inductive SoftwarePublicKey : Set :=
| PublicEc (curve : EcCurve) (uncompressed : bytes)
| PublicEdwards (curve : EdwardsCurve) (public_key : bytes)
| PublicRsa (modulus exponent : bytes)
| PublicMlDsa (parameters : MlDsaParameterSet) (public_key : bytes).

Inductive SignatureScheme : Set :=
| EcdsaP224Sha224 | EcdsaP256Sha256 | EcdsaP384Sha384 | EcdsaP521Sha512
| EcdsaSecp256k1Sha256 | EcdsaBrainpoolP256Sha256 | EcdsaBrainpoolP384Sha384
| EcdsaBrainpoolP512Sha512 | SchemeEd25519 | SchemeEd448 | RsaPkcs1Sha256 | RsaPssSha256.

Inductive HashAlgorithm : Set :=
| Sha1 | Sha224 | Sha256 | Sha384 | Sha512 | Sha3_224 | Sha3_256 | Sha3_384 | Sha3_512.
Inductive RsaHashAlgorithm : Set := RsaSha1 | RsaSha256 | RsaSha384 | RsaSha512.
Inductive MlDsaRandomization : Set := Deterministic | Randomized | HedgePreferred.

Inductive SoftwareSymmetricError : Set :=
| InvalidKeyLength | InvalidIvLength | InvalidDataLength | SymmetricAuthenticationFailed.

(** [RsaPublicValidationError] and [RsaPrivateValidationError]. *)
Inductive RsaValidationError : Set := InvalidRsaKey | RandomnessUnavailable.

Record IntegerFormat : Set := { width_bits : Z; little_endian : bool }.
Inductive LengthMethod : Set := LengthKey | LengthSegments.
Inductive CounterKdfField : Set :=
| FieldBytes (value : bytes)
| FieldCounter (format : IntegerFormat)
| FieldLength (format : IntegerFormat) (method : LengthMethod).

(** The variants of [ciborium::Value] the code builds or inspects. *)
Inductive CborValue : Type :=
| CborInteger (value : Z)
| CborBytes (value : bytes)
| CborText (value : string)
| CborArray (values : list CborValue)
| CborOther.

#[export] Instance CborValue_eq_dec : EqDecision CborValue.
Proof.
  refine (fix go (a b : CborValue) : Decision (a = b) :=
    match a, b with
    | CborInteger x, CborInteger y => cast_if (decide (x = y))
    | CborBytes x, CborBytes y => cast_if (decide (x = y))
    | CborText x, CborText y => cast_if (decide (x = y))
    | CborArray x, CborArray y => cast_if (@list_eq_dec _ go x y)
    | CborOther, CborOther => left eq_refl
    | _, _ => right _
    end); clear go; abstract congruence.
Defined.

(** Values built from unsigned integers, byte and text strings and arrays. *)
Fixpoint plain_cbor (v : CborValue) : bool :=
  match v with
  | CborInteger n => (0 <=? n) && (n <? 18446744073709551616)
  | CborBytes _ | CborText _ => true
  | CborArray l => forallb plain_cbor l
  | CborOther => false
  end.

#[export] Instance EcCurve_eq_dec : EqDecision EcCurve. Proof. solve_decision. Defined.
#[export] Instance EdwardsCurve_eq_dec : EqDecision EdwardsCurve. Proof. solve_decision. Defined.
#[export] Instance MontgomeryCurve_eq_dec : EqDecision MontgomeryCurve.
Proof. solve_decision. Defined.
#[export] Instance KeyKind_eq_dec : EqDecision KeyKind. Proof. solve_decision. Defined.
#[export] Instance SignatureScheme_eq_dec : EqDecision SignatureScheme.
Proof. solve_decision. Defined.

(** ** Operations *)

Class Platform := {
  World : Type;
  (** [getrandom::fill] of a buffer of the given length. *)
  getrandom_fill : Z → World → option bytes * World;
  (** [Instant::now()], in milliseconds. *)
  instant_now : World → Z * World;
}.

Class SoftwareKeyCore `{Platform} := {
  SoftwareSigningKey : Type;
  RsaPrivateKey : Type;
  MlDsaPrivateKey : Type;
  SoftwareMontgomeryKey : Type;
  MlKemPrivateKey : Type;
  HybridKemPrivateKey : Type;

  (** The variants [SoftwareSigningKey::Rsa] and [SoftwareSigningKey::MlDsa]. *)
  signing_of_rsa : RsaPrivateKey → SoftwareSigningKey;
  signing_as_rsa : SoftwareSigningKey → option RsaPrivateKey;
  signing_of_ml_dsa : MlDsaPrivateKey → SoftwareSigningKey;
  signing_as_ml_dsa : SoftwareSigningKey → option MlDsaPrivateKey;

  key_kind : SoftwareSigningKey → KeyKind;
  serialized : SoftwareSigningKey → option bytes;
  private_value : SoftwareSigningKey → option bytes;
  public_key : SoftwareSigningKey → SoftwarePublicKey;
  rsa_crt_primes : SoftwareSigningKey → option (bytes * bytes);
  from_serialized_for_kind : KeyKind → bytes → option SoftwareSigningKey;
  generate_for_kind : KeyKind → World → option SoftwareSigningKey * World;
  restore_rsa_primes : bytes → bytes → bytes → option SoftwareSigningKey;
  from_rsa_primes : bytes → bytes → bytes → World → option SoftwareSigningKey * World;
  to_pkcs8_der : SoftwareSigningKey → option bytes;
  from_pkcs8_der_for_kind : KeyKind → bytes → option SoftwareSigningKey;
  edwards_private_key_length : EdwardsCurve → Z;
  scheme_ec_curve : SignatureScheme → option EcCurve;

  modulus_bits_of : RsaPrivateKey → Z;
  validate_for_import : RsaPrivateKey → World → (RsaPrivateKey + RsaValidationError) * World;
  validate_rsa_public_key : bytes → bytes → Z → World → option RsaValidationError * World;
  validate_public : SoftwarePublicKey → bool;

  sign_rsa_pkcs1v15_digest : SoftwareSigningKey → RsaHashAlgorithm → bytes → World → option bytes * World;
  sign_rsa_pkcs1v15_payload : SoftwareSigningKey → bytes → World → option bytes * World;
  sign_rsa_pss_digest :
    SoftwareSigningKey → RsaHashAlgorithm → RsaHashAlgorithm → Z → bytes → World → option bytes * World;
  (** [sign_prehash] followed by [to_ecdsa_der]. *)
  sign_prehash : SoftwareSigningKey → SignatureScheme → bytes → World → option bytes * World;
  to_ecdsa_der : EcCurve → bytes → option bytes;
  sign_message : SoftwareSigningKey → SignatureScheme → bytes → World → option bytes * World;
  decrypt_rsa_pkcs1v15 : SoftwareSigningKey → bytes → World → option bytes * World;
  decrypt_rsa_oaep_digest :
    SoftwareSigningKey → bytes → bytes → RsaHashAlgorithm → World → option bytes * World;
  encrypt_rsa_pkcs1v15 : SoftwarePublicKey → bytes → World → option bytes * World;
  encrypt_rsa_oaep_digest :
    SoftwarePublicKey → bytes → bytes → RsaHashAlgorithm → World → option bytes * World;
  derive_with_signing_key : SoftwareSigningKey → bytes → option bytes;

  montgomery_from_serialized : MontgomeryCurve → bytes → option SoftwareMontgomeryKey;
  montgomery_generate : MontgomeryCurve → World → option SoftwareMontgomeryKey * World;
  montgomery_serialized : SoftwareMontgomeryKey → bytes;
  montgomery_curve : SoftwareMontgomeryKey → MontgomeryCurve;
  montgomery_public_key : SoftwareMontgomeryKey → bytes;
  montgomery_derive : SoftwareMontgomeryKey → bytes → option bytes;

  ml_kem_from_serialized : MlKemParameterSet → bytes → option MlKemPrivateKey;
  ml_kem_generate : MlKemParameterSet → World → option MlKemPrivateKey * World;
  ml_kem_serialized : MlKemPrivateKey → bytes;
  ml_kem_expanded : MlKemPrivateKey → bytes;
  ml_kem_parameter_set : MlKemPrivateKey → MlKemParameterSet;
  ml_kem_public_key : MlKemPrivateKey → bytes;
  ml_kem_encapsulate : MlKemParameterSet → bytes → World → option (bytes * bytes) * World;
  ml_kem_decapsulate : MlKemPrivateKey → bytes → option bytes;
  ml_kem_expanded_length : MlKemParameterSet → Z;
  ml_kem_ciphertext_length : MlKemParameterSet → Z;

  hybrid_from_seed_slice : HybridKemConstruction → bytes → option HybridKemPrivateKey;
  hybrid_generate : HybridKemConstruction → World → option HybridKemPrivateKey * World;
  hybrid_seed : HybridKemPrivateKey → bytes;
  hybrid_construction : HybridKemPrivateKey → HybridKemConstruction;
  hybrid_public_key : HybridKemPrivateKey → option bytes;
  hybrid_kem_encapsulate : HybridKemConstruction → bytes → World → option (bytes * bytes) * World;
  hybrid_decapsulate : HybridKemPrivateKey → bytes → option bytes;
  hybrid_ciphertext_length : HybridKemConstruction → Z;

  ml_dsa_from_serialized : MlDsaParameterSet → bytes → option MlDsaPrivateKey;
  ml_dsa_generate : MlDsaParameterSet → World → option MlDsaPrivateKey * World;
  ml_dsa_expanded_length : MlDsaParameterSet → Z;
  MlDsaPrehash : Type;
  ml_dsa_prehash_from_id : Z → option MlDsaPrehash;
  ml_dsa_prehash_digest_length : MlDsaPrehash → Z;
  ml_dsa_sign :
    MlDsaPrivateKey → bytes → bytes → MlDsaRandomization → World → option bytes * World;
  ml_dsa_sign_prehash :
    MlDsaPrivateKey → bytes → bytes → MlDsaPrehash → MlDsaRandomization → World →
    option bytes * World;

  digest : HashAlgorithm → bytes → bytes;
  hmac : HashAlgorithm → bytes → bytes → option bytes;
  x963_kdf : HashAlgorithm → bytes → bytes → Z → option bytes;
  cmac_counter_kdf : bytes → list CounterKdfField → Z → option bytes;
  rsa_hash_output_length : RsaHashAlgorithm → Z;

  scp03_key : bytes → Z → bytes → option bytes;
  scp03_cryptogram : bytes → Z → bytes → option bytes;
  x963_kdf_sha256 : bytes → bytes → Z → option bytes;
  pad_iso7816 : bytes → bytes;
  unpad_iso7816 : bytes → option bytes;
  yubico_password_kdf : bytes → bytes;

  aes_cmac : bytes → bytes → bytes + SoftwareSymmetricError;
  encrypt_aes_block : bytes → bytes → bytes + SoftwareSymmetricError;
  encrypt_aes_cbc : bytes → bytes → bytes → bytes + SoftwareSymmetricError;
  decrypt_aes_cbc : bytes → bytes → bytes → bytes + SoftwareSymmetricError;
  encrypt_aes_ecb : bytes → bytes → bytes + SoftwareSymmetricError;
  decrypt_aes_ecb : bytes → bytes → bytes + SoftwareSymmetricError;
  encrypt_aes_ccm : bytes → bytes → bytes → bytes + SoftwareSymmetricError;
  decrypt_aes_ccm : bytes → bytes → bytes → bytes + SoftwareSymmetricError;
  encrypt_yubico_otp_aead : bytes → bytes → bytes → bytes + SoftwareSymmetricError;
  decrypt_yubico_otp_aead : bytes → bytes → bytes → bytes + SoftwareSymmetricError;
  wrap_aes_kwp : bytes → bytes → bytes + SoftwareSymmetricError;
  unwrap_aes_kwp : bytes → bytes → bytes + SoftwareSymmetricError;

  cbor_value_to_bytes : CborValue → option bytes;
  (** The decoded value and the number of bytes consumed. *)
  cbor_value_from_bytes : bytes → option (CborValue * Z);
}.

(** Constants of [software_key_core]. *)
Definition AES_BLOCK_SIZE : Z := 16.
Definition AES_CCM_NONCE_SIZE : Z := 13.
Definition AES_CCM_TAG_SIZE : Z := 16.

(** How many times the model draws from the entropy source in the retry
    loops of the code before it gives up with [Diverge]; the loops of the code
    are not bounded. *)
Class Fuel := fuel : nat.

(** ** Effects over the world *)

Section effects.
Context `{Platform}.

(** [getrandom::fill(&mut buffer).map_err(|_| StorageFailed)]. *)
Definition random_bytes (n : Z) : Eff World DeviceError bytes := λ w,
  let '(r, w') := getrandom_fill n w in (ok_or r StorageFailed, w').

(** [Instant::now()]. *)
Definition now : Eff World DeviceError Z := λ w,
  let '(t, w') := instant_now w in (Ok t, w').

(** A library operation that uses the world, with its outcome. *)
Definition effect {A} (f : World → outcome DeviceError A * World) : Eff World DeviceError A := f.

(** A fallible library operation that draws randomness, with its error mapped. *)
Definition call {A} (f : World → option A * World) (e : DeviceError) :
    Eff World DeviceError A := λ w,
  let '(r, w') := f w in (ok_or r e, w').
End effects.

(** [.map_err(|_| e)] on a pure library result. *)
Definition sum_ok {A B} (r : A + B) (e : DeviceError) : Result A :=
  match r with inl a => Ok a | inr _ => Err e end.

(** ** What the code relies on *)

(** The random source fills the whole buffer. *)
Class RandomLaws `{Platform} : Prop := {
  getrandom_length n w b w' : 0 ≤ n → getrandom_fill n w = (Some b, w') → len b = n ∧ bytes_ok b;
}.

(** [yubico_password_kdf] returns an array of 32 bytes. *)
Class KdfLaws `{SoftwareKeyCore} : Prop := {
  password_kdf_length p : len (yubico_password_kdf p) = 32;
}.

(** Authenticated encryption opens what it sealed, and adds a tag of fixed
    length; AES-ECB decryption inverts encryption. *)
Class SealLaws `{SoftwareKeyCore} : Prop := {
  decrypt_encrypt_ccm k n d c :
    encrypt_aes_ccm k n d = inl c → decrypt_aes_ccm k n c = inl d ∧ len c = len d + AES_CCM_TAG_SIZE;
  decrypt_encrypt_otp_aead k n d c :
    encrypt_yubico_otp_aead k n d = inl c →
    decrypt_yubico_otp_aead k n c = inl d ∧ len c = len d + 8;
  decrypt_encrypt_ecb k d c :
    encrypt_aes_ecb k d = inl c → decrypt_aes_ecb k c = inl d ∧ len c = len d;
}.

(** A private key is restored from its serialization for its own kind; an RSA
    key with the usual exponent from its two primes, padded to half the modulus. *)
Class KeyStorageLaws `{SoftwareKeyCore} : Prop := {
  serialized_restores k b :
    serialized k = Some b → from_serialized_for_kind (key_kind k) b = Some k;
  rsa_primes_restore k bits modulus p q n m :
    key_kind k = KindRsa bits → public_key k = PublicRsa modulus [1; 0; 1] →
    rsa_crt_primes k = Some (p, q) → 0 ≤ n → 0 ≤ m →
    len (zeros n ++ p) = bits / 16 → len (zeros m ++ q) = bits / 16 →
    restore_rsa_primes (zeros n ++ p) (zeros m ++ q) [1; 0; 1] = Some k;
  montgomery_restores k :
    montgomery_from_serialized (montgomery_curve k) (montgomery_serialized k) = Some k;
  ml_kem_restores k : ml_kem_from_serialized (ml_kem_parameter_set k) (ml_kem_serialized k) = Some k;
  hybrid_restores k : hybrid_from_seed_slice (hybrid_construction k) (hybrid_seed k) = Some k;
}.

(** [ciborium] reads back what it wrote, and reports how much it read. *)
Class CborLaws `{SoftwareKeyCore} : Prop := {
  cbor_round_trip v b :
    plain_cbor v = true → cbor_value_to_bytes v = Some b →
    cbor_value_from_bytes b = Some (v, len b);
}.

(** Symmetric primitives of the secure channel: lengths, and decryption inverts
    encryption. *)
Class ChannelLaws `{SoftwareKeyCore} : Prop := {
  scp03_key_length k c x s : scp03_key k c x = Some s → len s = 16;
  scp03_cryptogram_length k c x s : scp03_cryptogram k c x = Some s → len s = 8;
  aes_cmac_length k d t : aes_cmac k d = inl t → len t = 16;
  aes_cmac_total k d : len k = 16 → ∃ t, aes_cmac k d = inl t;
  encrypt_aes_block_length k d t : encrypt_aes_block k d = inl t → len t = 16;
  encrypt_aes_block_total k d : len k = 16 → len d = 16 → ∃ t, encrypt_aes_block k d = inl t;
  encrypt_aes_cbc_total k iv d :
    len k = 16 → len iv = 16 → len d mod 16 = 0 → ∃ c, encrypt_aes_cbc k iv d = inl c;
  encrypt_aes_cbc_length k iv d c : encrypt_aes_cbc k iv d = inl c → len c = len d;
  decrypt_encrypt_cbc k iv d c : encrypt_aes_cbc k iv d = inl c → decrypt_aes_cbc k iv c = inl d;
  unpad_pad d : unpad_iso7816 (pad_iso7816 d) = Some d;
  (** ISO 7816-4: one marker byte, then zeros to the next block boundary. *)
  pad_length d : len (pad_iso7816 d) = ((len d + 1 + 15) / 16) * 16;
}.
