(* ===== verification/Toy.v ===== *)
(** * A concrete platform for the witnesses

    The libraries' interfaces instantiated with small executable functions that
    satisfy the laws of the interfaces: a counter for the entropy source, a
    checksum for the MAC, ISO 7816-4 padding, ciphers that keep their input and
    keys that are their own serialization. They only serve to evaluate theorems
    at a concrete input. *)

From S2P Require Import Prelude Error Firmware Algorithm KeyCore.

(** The seed of the entropy source and the clock. *)
#[export] Instance toy_platform : Platform := {|
  World := (Z * Z);
  getrandom_fill n w := (Some (to_be_bytes (Z.to_nat n) (w.1 + 1)), (w.1 + 1, w.2));
  instant_now w := (w.2, w);
|}.

Definition toy_sum (l : bytes) : Z := foldl Z.add 0 l.

(** Sixteen bytes that depend on the key and the data. *)
Definition toy_mac (key data : bytes) : bytes :=
  to_be_bytes 16 (toy_sum key + 3 * toy_sum data + 5 * len data).

Definition toy_pad (d : bytes) : bytes :=
  d ++ 0x80 :: zeros ((len d + 1 + 15) / 16 * 16 - (len d + 1)).

Fixpoint strip_zeros (l : bytes) : bytes :=
  match l with 0 :: l => strip_zeros l | l => l end.

Definition toy_unpad (d : bytes) : option bytes :=
  match strip_zeros (reverse d) with
  | 0x80 :: r => Some (reverse r)
  | _ => None
  end.

Definition toy_cipher (key iv d : bytes) : bytes + SoftwareSymmetricError :=
  if negb (len key =? 16) && negb (len key =? 24) && negb (len key =? 32) then inr InvalidKeyLength
  else if negb (len iv =? 16) then inr InvalidIvLength
  else if negb (len d mod 16 =? 0) then inr InvalidDataLength
  else inl d.

(** The published vectors of AES, and of a Yubico OTP under the key 0..15: the toy
    cipher exchanges plaintext and ciphertext, and leaves other blocks alone. *)
Definition toy_range (n : nat) : bytes := map Z.of_nat (seq 0 n).
Definition toy_plaintext : bytes := map (Z.mul 0x11) (toy_range 16).
Definition toy_vectors : list (bytes * (bytes * bytes)) :=
  [(toy_range 16, (toy_plaintext,
    [0x69; 0xc4; 0xe0; 0xd8; 0x6a; 0x7b; 0x04; 0x30; 0xd8; 0xcd; 0xb7; 0x80; 0x70; 0xb4; 0xc5; 0x5a]));
   (toy_range 24, (toy_plaintext,
    [0xdd; 0xa9; 0x7c; 0xa4; 0x86; 0x4c; 0xdf; 0xe0; 0x6e; 0xaf; 0x70; 0xa0; 0xec; 0x0d; 0x71; 0x91]));
   (toy_range 32, (toy_plaintext,
    [0x8e; 0xa2; 0xb7; 0xca; 0x51; 0x67; 0x45; 0xbf; 0xea; 0xfc; 0x49; 0x90; 0x4b; 0x49; 0x60; 0x89]));
   (toy_range 16, ([1; 2; 3; 4; 5; 6; 1; 0; 1; 0; 1; 1; 0; 0; 0x36; 0xfe],
    [0x2f; 0x5d; 0x71; 0xa4; 0x91; 0x5d; 0xec; 0x30; 0x4a; 0xa1; 0x3c; 0xcf; 0x97; 0xbb; 0x0d; 0xbb]))].

Definition toy_swap (key : bytes) (vector : bytes * (bytes * bytes)) (d : bytes) : bytes :=
  if bool_decide (vector.1 = key) then
    if bool_decide (d = vector.2.1) then vector.2.2
    else if bool_decide (d = vector.2.2) then vector.2.1 else d
  else d.

Definition toy_ecb (swaps : bytes → bytes) (key d : bytes) : bytes + SoftwareSymmetricError :=
  match toy_cipher key (zeros 16) d with inl d => inl (swaps d) | inr e => inr e end.
Definition toy_encrypt_ecb (key d : bytes) : bytes + SoftwareSymmetricError :=
  toy_ecb (λ d, foldl (λ d v, toy_swap key v d) d toy_vectors) key d.
Definition toy_decrypt_ecb (key d : bytes) : bytes + SoftwareSymmetricError :=
  toy_ecb (λ d, foldr (toy_swap key) d toy_vectors) key d.

(** A block of the length of the modulus that ends with the data and its length. *)
Definition toy_rsa_encrypt (k : SoftwarePublicKey) (d : bytes) : option bytes :=
  match k with
  | PublicRsa modulus _ => Some (zeros (len modulus - len d - 2) ++ d ++ u16_to_be_bytes (len d))
  | _ => None
  end.
Definition toy_rsa_decrypt (d : bytes) : bytes :=
  let n := from_be_bytes (zdrop (len d - 2) d) in
  zdrop (len d - 2 - n) (ztake (len d - 2) d).

Definition toy_digest_length (h : HashAlgorithm) : Z :=
  match h with
  | Sha1 => 20
  | Sha224 | Sha3_224 => 28
  | Sha256 | Sha3_256 => 32
  | Sha384 | Sha3_384 => 48
  | Sha512 | Sha3_512 => 64
  end.

Definition toy_seal (key nonce d : bytes) : bytes + SoftwareSymmetricError :=
  inl (d ++ toy_mac key (nonce ++ d)).

Definition toy_open (key nonce d : bytes) : bytes + SoftwareSymmetricError :=
  let n := len d - 16 in
  if (n <? 0) || negb (bool_decide (zdrop n d = toy_mac key (nonce ++ ztake n d)))
  then inr SymmetricAuthenticationFailed else inl (ztake n d).

(** Deterministic key generation from the seed. *)
Definition toy_generate {A} (f : bytes → A) (n : Z) (w : Z * Z) : option A * (Z * Z) :=
  (Some (f (to_be_bytes (Z.to_nat n) (w.1 + 1))), (w.1 + 1, w.2)).

Definition toy_kind_length (k : KeyKind) : Z :=
  match k with
  | KindEc P224 => 28
  | KindEc (P256 | Secp256k1 | BrainpoolP256) => 32
  | KindEc (P384 | BrainpoolP384) => 48
  | KindEc P521 => 66
  | KindEc BrainpoolP512 => 64
  | KindEdwards CurveEd25519 => 32
  | KindEdwards CurveEd448 => 57
  | KindRsa n => n / 8
  | KindMlDsa _ => 32
  end.

Definition toy_public (k : KeyKind * bytes) : SoftwarePublicKey :=
  match k.1 with
  | KindEc c => PublicEc c (0x04 :: k.2 ++ k.2)
  | KindEdwards c => PublicEdwards c k.2
  | KindRsa _ => PublicRsa k.2 [1; 0; 1]
  | KindMlDsa p => PublicMlDsa p k.2
  end.

(** A point repeats the private key; an agreement depends on both keys alike. *)
Definition toy_coordinate (p : bytes) : bytes := ztake ((len p - 1) / 2) (zdrop 1 p).
Definition toy_agreement (k p : bytes) : bytes := to_be_bytes 32 (toy_sum k + toy_sum p).

(** A prefix code for the values of the wrapped-object format. *)
Fixpoint toy_cbor (v : CborValue) : bytes :=
  match v with
  | CborInteger n => [0; n]
  | CborBytes b => 1 :: len b :: b
  | CborText s => 2 :: len (ascii_bytes s) :: ascii_bytes s
  | CborArray l => 3 :: Z.of_nat (length l) :: concat (map toy_cbor l)
  | CborOther => [4]
  end.

Fixpoint toy_text (b : bytes) : string :=
  match b with
  | [] => EmptyString
  | c :: b => String (Ascii.ascii_of_nat (Z.to_nat c)) (toy_text b)
  end.

Fixpoint toy_items (decode : bytes → option (CborValue * bytes)) (n : nat) (l : bytes) :
    option (list CborValue * bytes) :=
  match n with
  | O => Some ([], l)
  | S n => '(v, l) ← decode l; '(vs, l) ← toy_items decode n l; Some (v :: vs, l)
  end.

Fixpoint toy_uncbor (fuel : nat) (l : bytes) : option (CborValue * bytes) :=
  match fuel, l with
  | S fuel, 0 :: n :: l => Some (CborInteger n, l)
  | S fuel, 1 :: n :: l => Some (CborBytes (ztake n l), zdrop n l)
  | S fuel, 2 :: n :: l => Some (CborText (toy_text (ztake n l)), zdrop n l)
  | S fuel, 3 :: n :: l =>
      '(vs, l) ← toy_items (toy_uncbor fuel) (Z.to_nat n) l; Some (CborArray vs, l)
  | S fuel, 4 :: l => Some (CborOther, l)
  | _, _ => None
  end.

(** A signing key is its kind and its serialized bytes; the bytes of an RSA key
    are its two primes. *)
#[export] Instance toy_key_core : SoftwareKeyCore := {|
  SoftwareSigningKey := KeyKind * bytes;
  RsaPrivateKey := Z * bytes;
  MlDsaPrivateKey := MlDsaParameterSet * bytes;
  SoftwareMontgomeryKey := MontgomeryCurve * bytes;
  MlKemPrivateKey := MlKemParameterSet * bytes;
  HybridKemPrivateKey := HybridKemConstruction * bytes;
  signing_of_rsa k := (KindRsa k.1, k.2);
  signing_as_rsa k := match k.1 with KindRsa n => Some (n, k.2) | _ => None end;
  signing_of_ml_dsa k := (KindMlDsa k.1, k.2);
  signing_as_ml_dsa k := match k.1 with KindMlDsa p => Some (p, k.2) | _ => None end;
  key_kind k := k.1;
  serialized k := if len k.2 =? toy_kind_length k.1 then Some k.2 else None;
  private_value k := Some k.2;
  public_key := toy_public;
  rsa_crt_primes k :=
    if bool_decide (k.1 = KindRsa (8 * len k.2))
    then Some (ztake (len k.2 / 2) k.2, zdrop (len k.2 / 2) k.2) else None;
  from_serialized_for_kind kind b := if len b =? toy_kind_length kind then Some (kind, b) else None;
  generate_for_kind kind := toy_generate (pair kind) (toy_kind_length kind);
  restore_rsa_primes p q e := Some (KindRsa (8 * len (p ++ q)), p ++ q);
  from_rsa_primes p q e := λ w, (Some (KindRsa (8 * len (p ++ q)), p ++ q), w);
  to_pkcs8_der k := Some k.2;
  from_pkcs8_der_for_kind kind b := if len b =? toy_kind_length kind then Some (kind, b) else None;
  edwards_private_key_length c := match c with CurveEd25519 => 32 | CurveEd448 => 57 end;
  scheme_ec_curve s :=
    match s with
    | EcdsaP224Sha224 => Some P224 | EcdsaP256Sha256 => Some P256
    | EcdsaP384Sha384 => Some P384 | EcdsaP521Sha512 => Some P521
    | EcdsaSecp256k1Sha256 => Some Secp256k1
    | EcdsaBrainpoolP256Sha256 => Some BrainpoolP256
    | EcdsaBrainpoolP384Sha384 => Some BrainpoolP384
    | EcdsaBrainpoolP512Sha512 => Some BrainpoolP512
    | _ => None
    end;
  modulus_bits_of k := k.1;
  validate_for_import k := λ w, (inl k, w);
  validate_rsa_public_key n e b := λ w, (None, w);
  validate_public k := true;
  sign_rsa_pkcs1v15_digest k h d := λ w, (Some (toy_mac k.2 d), w);
  sign_rsa_pkcs1v15_payload k d := λ w, (Some (toy_mac k.2 d), w);
  sign_rsa_pss_digest k h m s d := λ w, (Some (toy_mac k.2 d), w);
  sign_prehash k s d := λ w, (Some (toy_mac k.2 d), w);
  to_ecdsa_der c s := Some s;
  sign_message k s d := λ w, (Some (toy_mac k.2 d), w);
  decrypt_rsa_pkcs1v15 k d := λ w, (Some (toy_rsa_decrypt d), w);
  decrypt_rsa_oaep_digest k d l h := λ w, (Some (toy_rsa_decrypt d), w);
  encrypt_rsa_pkcs1v15 k d := λ w, (toy_rsa_encrypt k d, w);
  encrypt_rsa_oaep_digest k d l h := λ w, (toy_rsa_encrypt k d, w);
  derive_with_signing_key k p := Some (toy_agreement k.2 (toy_coordinate p));
  montgomery_from_serialized c b := Some (c, b);
  montgomery_generate c :=
    toy_generate (pair c) (match c with CurveX25519 => 32 | CurveX448 => 56 end);
  montgomery_serialized k := k.2;
  montgomery_curve k := k.1;
  montgomery_public_key k := k.2;
  montgomery_derive k p := Some (to_be_bytes (length k.2) (toy_sum k.2 + toy_sum p));
  ml_kem_from_serialized p b := Some (p, b);
  ml_kem_generate p := toy_generate (pair p) 64;
  ml_kem_serialized k := k.2;
  ml_kem_expanded k := k.2;
  ml_kem_parameter_set k := k.1;
  ml_kem_public_key k := k.2;
  ml_kem_encapsulate p k := λ w, (Some (k, k), w);
  ml_kem_decapsulate k c := Some c;
  ml_kem_expanded_length p := 64;
  ml_kem_ciphertext_length p := 64;
  hybrid_from_seed_slice c b := Some (c, b);
  hybrid_generate c := toy_generate (pair c) 32;
  hybrid_seed k := k.2;
  hybrid_construction k := k.1;
  hybrid_public_key k := Some k.2;
  hybrid_kem_encapsulate c k := λ w, (Some (k, k), w);
  hybrid_decapsulate k c := Some c;
  hybrid_ciphertext_length c := 32;
  ml_dsa_from_serialized p b := if len b =? 32 then Some (p, b) else None;
  ml_dsa_generate p := toy_generate (pair p) 32;
  ml_dsa_expanded_length p := 64;
  MlDsaPrehash := Z;
  ml_dsa_prehash_from_id n := if (1 <=? n) && (n <=? 12) then Some n else None;
  ml_dsa_prehash_digest_length n := 32;
  ml_dsa_sign k c m r := λ w, (Some (toy_mac k.2 m), w);
  ml_dsa_sign_prehash k c m p r := λ w, (Some (toy_mac k.2 m), w);
  digest h d := ztake (toy_digest_length h) (toy_mac [] d ++ toy_mac [1] d ++ toy_mac [2] d ++ toy_mac [3] d);
  hmac h k d := Some (toy_mac k d ++ toy_mac d k);
  x963_kdf h k i n := Some (to_be_bytes (Z.to_nat n) (toy_sum k + 3 * toy_sum i));
  cmac_counter_kdf k f n := Some (to_be_bytes (Z.to_nat n) (toy_sum k));
  rsa_hash_output_length h :=
    match h with RsaSha1 => 20 | RsaSha256 => 32 | RsaSha384 => 48 | RsaSha512 => 64 end;
  scp03_key k c x := Some (to_be_bytes 16 (toy_sum k + 3 * c + 5 * toy_sum x));
  scp03_cryptogram k c x := Some (to_be_bytes 8 (toy_sum k + 3 * c + 5 * toy_sum x));
  x963_kdf_sha256 k i n := Some (to_be_bytes (Z.to_nat n) (toy_sum k + 3 * toy_sum i));
  pad_iso7816 := toy_pad;
  unpad_iso7816 := toy_unpad;
  yubico_password_kdf p := to_be_bytes 32 (toy_sum p);
  aes_cmac k d := inl (toy_mac k d);
  encrypt_aes_block k d := inl (toy_mac k d);
  encrypt_aes_cbc := toy_cipher;
  decrypt_aes_cbc := toy_cipher;
  encrypt_aes_ecb := toy_encrypt_ecb;
  decrypt_aes_ecb := toy_decrypt_ecb;
  encrypt_aes_ccm := toy_seal;
  decrypt_aes_ccm := toy_open;
  encrypt_yubico_otp_aead k n d := inl (d ++ ztake 8 (toy_mac k (n ++ d)));
  decrypt_yubico_otp_aead k n d :=
    let m := len d - 8 in
    if (m <? 0) || negb (bool_decide (zdrop m d = ztake 8 (toy_mac k (n ++ ztake m d))))
    then inr SymmetricAuthenticationFailed else inl (ztake m d);
  wrap_aes_kwp k d := toy_seal k [] d;
  unwrap_aes_kwp k d := toy_open k [] d;
  cbor_value_to_bytes v := Some (toy_cbor v);
  cbor_value_from_bytes b :=
    '(v, rest) ← toy_uncbor (length b) b; Some (v, len b - len rest);
|}.

(** ** The laws hold *)

#[export] Instance toy_random_laws : RandomLaws.
Proof.
  split. intros n w b w' Hn. cbn. intros [= <- <-].
  split; [rewrite len_to_be_bytes; lia|apply to_be_bytes_ok].
Qed.

#[export] Instance toy_kdf_laws : KdfLaws.
Proof. split. intros p. apply len_to_be_bytes. Qed.

Lemma zeros_cons_free n (b : bytes) l : 0 ≤ n → len (zeros n ++ b) = l → len b = l → zeros n = [].
Proof. intros Hn. rewrite len_app, len_zeros by done. intros ??. assert (n = 0) as -> by lia. done. Qed.

#[export] Instance toy_key_storage_laws : KeyStorageLaws.
Proof.
  split; cbn.
  - intros [k b] b'. cbn. case_match; [|done]. intros [= <-]. by case_match.
  - intros [k b] bits modulus p q n m. cbn. intros -> _. case_bool_decide as Hk; [|done].
    injection Hk as ->. intros [= <- <-] Hn Hm Hp Hq. pose proof (len_nonneg b).
    assert (8 * len b / 16 = len b / 2) as Hh.
    { replace (8 * len b) with (len b * 8) by lia. change 16 with (2 * 8).
      by rewrite Z.div_mul_cancel_r. }
    rewrite Hh in *. pose proof (Z.div_mod (len b) 2). pose proof (Z.mod_pos_bound (len b) 2).
    rewrite (zeros_cons_free n _ _ Hn Hp) by (apply len_ztake; lia).
    rewrite len_app, len_zeros, len_zdrop in Hq by lia.
    assert (m = 0) as -> by lia. change (zeros 0) with ([] : bytes). cbn [app]. rewrite ztake_zdrop. by repeat f_equal.
  - by intros [].
  - by intros [].
  - by intros [].
Qed.

Lemma toy_mac_length k d : len (toy_mac k d) = 16.
Proof. apply len_to_be_bytes. Qed.

Lemma toy_tag_opens (tag : bytes → bytes) n d :
  (∀ d, len (tag d) = n) →
  let c := d ++ tag d in
  (len c - n <? 0) = false ∧ ztake (len c - n) c = d ∧ zdrop (len c - n) c = tag d ∧
  len c = len d + n.
Proof.
  intros Ht c. pose proof (len_nonneg d). assert (len c = len d + n) as Hc
    by (unfold c; by rewrite len_app, Ht).
  split; [apply Z.ltb_ge; lia|]. split; [|split; [|done]]; unfold c in *; rewrite Hc.
  - apply ztake_app_eq. lia.
  - apply zdrop_app_eq. lia.
Qed.

Lemma toy_cipher_inl k iv d c : toy_cipher k iv d = inl c → c = d.
Proof. unfold toy_cipher. repeat (case_match; try discriminate). by intros [= ->]. Qed.

Lemma toy_swap_involutive key v d : toy_swap key v (toy_swap key v d) = d.
Proof. unfold toy_swap. repeat case_bool_decide; congruence. Qed.

Lemma toy_swaps_undone key l d : foldr (toy_swap key) (foldl (λ d v, toy_swap key v d) d l) l = d.
Proof. revert d. induction l as [|v l IH]; intros d; [done|]. cbn. by rewrite IH, toy_swap_involutive. Qed.

Lemma toy_swaps_length key l d :
  Forall (λ v : bytes * (bytes * bytes), len v.2.1 = len v.2.2) l →
  len (foldl (λ d v, toy_swap key v d) d l) = len d.
Proof.
  intros Hl. revert d. induction Hl as [|v l Hv _ IH]; intros d; [done|]. cbn. rewrite IH.
  unfold toy_swap. repeat case_bool_decide; by subst.
Qed.

Lemma toy_cipher_length key iv d d' : len d = len d' → toy_cipher key iv d = inl d → toy_cipher key iv d' = inl d'.
Proof. unfold toy_cipher. intros ->. repeat case_match; try done. Qed.

Lemma toy_ecb_round_trip k d c :
  toy_encrypt_ecb k d = inl c → toy_decrypt_ecb k c = inl d ∧ len c = len d.
Proof.
  unfold toy_encrypt_ecb, toy_decrypt_ecb, toy_ecb.
  destruct (toy_cipher k (zeros 16) d) as [d1|] eqn:Hc; [|done]. intros <-%(inj inl).
  pose proof (toy_cipher_inl _ _ _ _ Hc) as ->.
  pose proof (toy_swaps_length k toy_vectors d ltac:(by repeat constructor)) as Hl.
  rewrite (toy_cipher_length _ _ d) by done. split; [|done]. f_equal. apply toy_swaps_undone.
Qed.

#[export] Instance toy_seal_laws : SealLaws.
Proof.
  split.
  - intros k n d c [= <-]. cbn -[toy_mac]. unfold toy_open.
    destruct (toy_tag_opens (λ d, toy_mac k (n ++ d)) 16 d) as (H1 & H2 & H3 & H4);
      [intros; apply toy_mac_length|]. cbv zeta in *. rewrite H1, H2, H3.
    by rewrite bool_decide_true by done.
  - intros k n d c. cbn -[toy_mac ztake]. intros [= <-].
    destruct (toy_tag_opens (λ d, ztake 8 (toy_mac k (n ++ d))) 8 d) as (H1 & H2 & H3 & H4).
    { intros. apply len_ztake. rewrite toy_mac_length. lia. }
    cbv zeta in *. rewrite H1, H2, H3. by rewrite bool_decide_true by done.
  - exact toy_ecb_round_trip.
Qed.

Lemma strip_zeros_app n l : strip_zeros (replicate n 0 ++ 0x80 :: l) = 0x80 :: l.
Proof. by induction n. Qed.

Lemma toy_unpad_pad d : toy_unpad (toy_pad d) = Some d.
Proof.
  unfold toy_unpad, toy_pad, zeros. rewrite reverse_app, reverse_cons, reverse_replicate.
  rewrite <- app_assoc. cbn [app]. rewrite strip_zeros_app. by rewrite reverse_involutive.
Qed.

Lemma toy_pad_length d : len (toy_pad d) = ((len d + 1 + 15) / 16) * 16.
Proof.
  unfold toy_pad. rewrite len_app, len_cons. pose proof (len_nonneg d).
  pose proof (Z.div_mod (len d + 1 + 15) 16). pose proof (Z.mod_pos_bound (len d + 1 + 15) 16).
  rewrite len_zeros by lia. lia.
Qed.

Lemma toy_cipher_total k iv d :
  len k = 16 → len iv = 16 → len d mod 16 = 0 → toy_cipher k iv d = inl d.
Proof. intros Hk Hiv Hd. unfold toy_cipher. by rewrite Hk, Hiv, Hd. Qed.

#[export] Instance toy_channel_laws : ChannelLaws.
Proof.
  split; cbn -[to_be_bytes toy_mac]; intros.
  - apply (inj Some) in H as <-. apply len_to_be_bytes.
  - apply (inj Some) in H as <-. apply len_to_be_bytes.
  - apply (inj inl) in H as <-. apply len_to_be_bytes.
  - eauto.
  - apply (inj inl) in H as <-. apply len_to_be_bytes.
  - eauto.
  - rewrite toy_cipher_total by done. eauto.
  - by apply toy_cipher_inl in H as ->.
  - by pose proof (toy_cipher_inl _ _ _ _ H) as ->.
  - apply toy_unpad_pad.
  - apply toy_pad_length.
Qed.

Fixpoint cbor_depth (v : CborValue) : nat :=
  match v with
  | CborArray l => S (list_max (map cbor_depth l))
  | _ => 1
  end.

Lemma toy_text_ascii s : toy_text (ascii_bytes s) = s.
Proof.
  induction s as [|c s IH]; [done|]. cbn. rewrite Nat2Z.id, Ascii.ascii_nat_embedding.
  f_equal. exact IH.
Qed.

Lemma cbor_ind' (P : CborValue → Prop) :
  (∀ n, P (CborInteger n)) → (∀ b, P (CborBytes b)) → (∀ s, P (CborText s)) →
  (∀ l, Forall P l → P (CborArray l)) → P CborOther → ∀ v, P v.
Proof.
  intros Hi Hb Ht Ha Ho. fix go 1.
  intros [n|b|s|l|]; [apply Hi|apply Hb|apply Ht| |apply Ho].
  apply Ha. induction l as [|v l IH]; constructor; [apply go|exact IH].
Qed.

Lemma toy_items_ok decode l rest :
  Forall (λ v, ∀ rest, decode (toy_cbor v ++ rest) = Some (v, rest)) l →
  toy_items decode (length l) (concat (map toy_cbor l) ++ rest) = Some (l, rest).
Proof.
  induction 1 as [|v l Hv _ IH]; [done|]. cbn. rewrite <- app_assoc, Hv. cbn. by rewrite IH.
Qed.

Lemma toy_uncbor_ok v fuel rest :
  (cbor_depth v ≤ fuel)%nat → toy_uncbor fuel (toy_cbor v ++ rest) = Some (v, rest).
Proof.
  revert fuel rest. induction v as [n|b|s|l IH|] using cbor_ind'; intros [|fuel] rest Hf;
    cbn in Hf; try lia; cbn -[ztake zdrop]; try done.
  - by rewrite ztake_app_eq, zdrop_app_eq.
  - rewrite ztake_app_eq, zdrop_app_eq by done. by rewrite toy_text_ascii.
  - rewrite Nat2Z.id, toy_items_ok; [done|].
    assert (list_max (map cbor_depth l) ≤ fuel)%nat as Hm%list_max_le by lia.
    rewrite Forall_map in Hm. eapply Forall_impl; [exact (proj2 (Forall_and _ _) (conj IH Hm))|].
    cbn. intros v [Hv ?] r. by apply Hv.
Qed.

Lemma cbor_depth_length v : (cbor_depth v ≤ length (toy_cbor v))%nat.
Proof.
  induction v as [n|b|s|l IH|] using cbor_ind'; cbn; try lia.
  assert (list_max (map cbor_depth l) ≤ length (concat (map toy_cbor l)))%nat; [|lia].
  induction IH as [|v l Hv _ IH]; [cbn; lia|].
  cbn [map concat]. rewrite length_app. cbn [list_max fold_right].
  change (fold_right Nat.max 0%nat (map cbor_depth l)) with (list_max (map cbor_depth l)). lia.
Qed.

#[export] Instance toy_cbor_laws : CborLaws.
Proof.
  split. intros v b _. cbn. intros [= <-].
  pose proof (toy_uncbor_ok v (length (toy_cbor v)) [] (cbor_depth_length v)) as H.
  rewrite app_nil_r in H. rewrite H. cbn. f_equal. f_equal. unfold len. cbn. lia.
Qed.

Definition toy_world : World := (41, 1000).

(** Draws from the entropy source in the retry loops. *)
Definition toy_fuel : Fuel := 8%nat.
