(* ===== verification/Wire.v ===== *)
(** * The request reader (crates/virtual-yubihsm-core/src/wire.rs)

    A bounds-checked reader over the remaining bytes of a command payload. Its
    state is the slice not read yet; a failed read leaves it unchanged. The
    trait [Decode] is a class, and [decode] is the boundary that rejects
    trailing input. *)

From S2P Require Import Prelude Error.

Abbreviation Reader := (Eff bytes DeviceError).

Class Decode (T : Type) := decode_fields : Reader T.
Definition decoder {T} (fields : Reader T) : Decode T := fields.

Definition remaining_len : Reader Z := λ remaining, (Ok (len remaining), remaining).

Definition read_slice (length : Z) : Reader bytes := λ remaining,
  if len remaining <? length then (Err WrongLength, remaining)
  else (Ok (ztake length remaining), zdrop length remaining).

(** [read_array::<N>]: a slice of [N] bytes always converts to [&[u8; N]]. *)
Definition read_array (n : Z) : Reader bytes :=
  value ← read_slice n;
  if len value =? n then mret value else fail WrongLength.

Definition read_u8 : Reader Z :=
  value ← read_array 1;
  lift (index value 0).

Definition read_u16 : Reader Z :=
  value ← read_array 2;
  mret (from_be_bytes value).

Definition read_u64 : Reader Z :=
  value ← read_array 8;
  mret (from_be_bytes value).

Definition read_u8_sized_slice : Reader bytes :=
  length ← read_u8;
  read_slice length.

Definition read_u16_sized_slice : Reader bytes :=
  length ← read_u16;
  read_slice length.

Definition read_remainder : Reader bytes := λ remaining, (Ok remaining, []).

Definition finish : Reader unit := λ remaining,
  (reject_if (negb (len remaining =? 0)) WrongLength, remaining).

Definition decode {T} `{Decode T} (encoded : bytes) : Result T :=
  match decode_fields encoded with
  | (Ok value, remaining) => _ ← (finish remaining).1; Ok value
  | (Err e, _) => Err e
  | (Panic, _) => Panic
  | (Diverge, _) => Diverge
  end.
Arguments decode T {_} encoded.

(** ** Lemmas: reading what was written

    Each primitive consumes exactly the bytes of its field. *)

Lemma read_slice_app n (a b : bytes) : len a = n → read_slice n (a ++ b) = (Ok a, b).
Proof.
  intros <-. unfold read_slice. rewrite len_app. pose proof (len_nonneg b).
  rewrite (proj2 (Z.ltb_ge _ _)) by lia. by rewrite ztake_app, zdrop_app.
Qed.

Lemma read_array_app n (a b : bytes) : len a = n → read_array n (a ++ b) = (Ok a, b).
Proof.
  intros Hn. unfold read_array, mbind, eff_bind. rewrite (read_slice_app n) by done.
  by rewrite Hn, Z.eqb_refl.
Qed.

Lemma read_u8_cons x b : read_u8 (x :: b) = (Ok x, b).
Proof.
  unfold read_u8, mbind, eff_bind. change (x :: b) with ([x] ++ b).
  by rewrite (read_array_app 1) by done.
Qed.

Lemma read_u16_app v b : u16 v → read_u16 (u16_to_be_bytes v ++ b) = (Ok v, b).
Proof.
  intros Hv. unfold read_u16, mbind, eff_bind. rewrite (read_array_app 2) by len_lia.
  unfold mret, eff_ret. by rewrite from_to_be_bytes_u16.
Qed.

Lemma read_u64_app v b : u64 v → read_u64 (u64_to_be_bytes v ++ b) = (Ok v, b).
Proof.
  intros Hv. unfold read_u64, mbind, eff_bind. rewrite (read_array_app 8) by len_lia.
  unfold mret, eff_ret. by rewrite from_to_be_bytes_u64.
Qed.

Lemma read_u16_cons a c b : read_u16 (a :: c :: b) = (Ok (a * 256 + c), b).
Proof.
  unfold read_u16, mbind, eff_bind. change (a :: c :: b) with ([a; c] ++ b).
  by rewrite (read_array_app 2) by done.
Qed.

(** ** Lemmas: what a successful read consumed *)

Lemma read_slice_ok n r v r' : 0 ≤ n → read_slice n r = (Ok v, r') → r = v ++ r' ∧ len v = n.
Proof.
  unfold read_slice. intros Hn. destruct (_ <? _) eqn:Hb; intros; inv_ok; bool_prop.
  split; [by rewrite ztake_zdrop|]. apply len_ztake. lia.
Qed.

Lemma read_array_ok n r v r' : 0 ≤ n → read_array n r = (Ok v, r') → r = v ++ r' ∧ len v = n.
Proof.
  intros Hn H. unfold read_array in H. inv_ok. destruct (_ =? _) eqn:Hb; [|done].
  injection H0 as -> ->. by apply read_slice_ok.
Qed.

Lemma read_u8_ok r v r' : read_u8 r = (Ok v, r') → r = v :: r'.
Proof.
  unfold read_u8. intros H. inv_ok. apply read_array_ok in H as [-> Hl]; [|lia].
  apply len_one in Hl as [y ->]. cbn in H0. injection H0 as -> ->. done.
Qed.

Lemma read_u16_ok r v r' : read_u16 r = (Ok v, r') →
  ∃ a b, r = a :: b :: r' ∧ v = a * 256 + b.
Proof.
  unfold read_u16. intros H. inv_ok. apply read_array_ok in H as [-> Hl]; [|lia].
  apply len_two in Hl as (a & b & ->). injection H0 as <- <-. eexists _, _. done.
Qed.

(** The reader never panics or diverges, and only moves forward. *)
Definition total {A} (m : Reader A) : Prop :=
  ∀ s, match m s with (Ok _, s') => s' `suffix_of` s | (Err _, _) => True | _ => False end.

Lemma total_bind {A B} (m : Reader A) (f : A → Reader B) :
  total m → (∀ a, total (f a)) → total (m ≫= f).
Proof.
  intros Hm Hf s. specialize (Hm s). unfold mbind, eff_bind.
  destruct (m s) as [[a| | |] s']; try done. specialize (Hf a s').
  destruct (f a s') as [[] ?]; try done. by etrans.
Qed.

Lemma total_ret {A} (a : A) : total (mret a).
Proof. intros s. by exists []. Qed.
Lemma total_fail {A} e : total (fail e : Reader A).
Proof. done. Qed.
Lemma total_ok_or {A} (o : option A) e : total (lift (ok_or o e)).
Proof. intros s. destruct o; [by exists []|done]. Qed.
Lemma total_reject_if c e : total (lift (reject_if c e)).
Proof. intros s. destruct c; [done|by exists []]. Qed.

Lemma total_read_slice n : total (read_slice n).
Proof.
  intros s. unfold read_slice. destruct (_ <? _); [done|].
  exists (ztake n s). by rewrite ztake_zdrop.
Qed.
Lemma total_read_array n : total (read_array n).
Proof.
  apply total_bind; [apply total_read_slice|]. intros a. destruct (_ =? _);
    [apply total_ret|apply total_fail].
Qed.
Lemma total_read_u8 : total read_u8.
Proof.
  intros s. unfold read_u8, mbind, eff_bind. pose proof (total_read_array 1 s) as Ht.
  destruct (read_array 1 s) as [[v|e| |] s'] eqn:Hr; [|done..].
  apply read_array_ok in Hr as [-> Hl]; [|lia]. destruct v; [done|exact Ht].
Qed.
Lemma total_read_u16 : total read_u16.
Proof. apply total_bind; [apply total_read_array|intros; apply total_ret]. Qed.
Lemma total_read_u64 : total read_u64.
Proof. apply total_bind; [apply total_read_array|intros; apply total_ret]. Qed.
Lemma total_read_remainder : total read_remainder.
Proof. intros s. apply suffix_nil. Qed.
Lemma total_remaining_len : total remaining_len.
Proof. intros s. by exists []. Qed.

#[export] Hint Resolve total_ret total_fail total_ok_or total_reject_if
  total_read_slice total_read_array total_read_u8 total_read_u16 total_read_u64
  total_read_remainder total_remaining_len : yhsm.

(** Decide totality of a straight-line decoder. *)
Ltac solve_total :=
  repeat first
    [ apply total_ret | apply total_fail | apply total_read_slice | apply total_read_array
    | apply total_read_u8 | apply total_read_u16 | apply total_read_u64
    | apply total_read_remainder | apply total_remaining_len | apply total_ok_or
    | apply total_reject_if
    | solve [auto with yhsm]
    | apply total_bind; [|intros ?]
    | progress cbv zeta
    | match goal with |- total (match ?x with _ => _ end) => destruct x end
    | match goal with |- total (if ?x then _ else _) => destruct x end ].

Lemma decode_total {T} `{Decode T} e :
  total (decode_fields (T := T)) → (∃ v, decode T e = Ok v) ∨ (∃ err, decode T e = Err err).
Proof.
  intros Ht. specialize (Ht e). unfold decode.
  destruct (decode_fields e) as [[v|err| |] r]; try done; [|by eauto].
  unfold finish, reject_if. destruct (negb _); cbn; eauto.
Qed.

Lemma decode_ok {T} `{Decode T} e v :
  decode T e = Ok v ↔ decode_fields e = (Ok v, []).
Proof.
  unfold decode. destruct (decode_fields e) as [[v'|err| |] r]; try naive_solver.
  unfold finish, reject_if. destruct (len r =? 0) eqn:Hr; bool_prop; cbn.
  - apply len_zero in Hr as ->. naive_solver.
  - split; [done|]. intros [= -> ->]. by rewrite len_nil in Hr.
Qed.
