(* ===== verification/Objects.v ===== *)
(** * Objects (crates/virtual-yubihsm-core/src/object.rs)

    Object types, keys and metadata, the runtime key material, and its
    conversion from and to the stored representation. *)

From S2P Require Import Prelude Error Firmware Algorithm Capability KeyCore.

Definition LABEL_LENGTH : Z := 40.

Inductive ObjectType : Set :=
| Opaque
| AuthenticationKey
| AsymmetricKey
| WrapKey
| HmacKey
| Template
| OtpAeadKey
| SymmetricKey
| PublicWrapKey.

#[export] Instance ObjectType_eq_dec : EqDecision ObjectType.
Proof. solve_decision. Defined.

Module ObjectTypes.

(** [object_type as u8]. *)
Definition to_byte (t : ObjectType) : Z :=
  match t with
  | Opaque => 0x01
  | AuthenticationKey => 0x02
  | AsymmetricKey => 0x03
  | WrapKey => 0x04
  | HmacKey => 0x05
  | Template => 0x06
  | OtpAeadKey => 0x07
  | SymmetricKey => 0x08
  | PublicWrapKey => 0x09
  end.

Definition from_byte (value : Z) : option ObjectType :=
  match value with
  | 0x01 => Some Opaque
  | 0x02 => Some AuthenticationKey
  | 0x03 => Some AsymmetricKey
  | 0x04 => Some WrapKey
  | 0x05 => Some HmacKey
  | 0x06 => Some Template
  | 0x07 => Some OtpAeadKey
  | 0x08 => Some SymmetricKey
  | 0x09 => Some PublicWrapKey
  | _ => None
  end.

Definition deletion_capability (self : ObjectType) : Capability :=
  match self with
  | Opaque => DeleteOpaque
  | AuthenticationKey => DeleteAuthenticationKey
  | AsymmetricKey => DeleteAsymmetricKey
  | WrapKey => DeleteWrapKey
  | HmacKey => DeleteHmacKey
  | Template => DeleteTemplate
  | OtpAeadKey => DeleteOtpAeadKey
  | SymmetricKey => DeleteSymmetricKey
  | PublicWrapKey => DeletePublicWrapKey
  end.

Lemma object_type_from_to_byte t : from_byte (to_byte t) = Some t.
Proof. by destruct t. Qed.

Lemma object_type_from_byte_ok v t : from_byte v = Some t → v = to_byte t.
Proof.
  unfold from_byte. intros H. repeat (case_match; try discriminate); by inv_ok.
Qed.

#[global] Instance to_byte_inj : Inj (=) (=) to_byte.
Proof. intros a b H%(f_equal from_byte). rewrite !object_type_from_to_byte in H. congruence. Qed.

Lemma object_type_to_byte_bound t : 1 ≤ to_byte t ≤ 9.
Proof. destruct t; cbn; lia. Qed.

(** [{:?}] of an object type. *)
Definition debug (t : ObjectType) : string :=
  match t with
  | Opaque => "Opaque"
  | AuthenticationKey => "AuthenticationKey"
  | AsymmetricKey => "AsymmetricKey"
  | WrapKey => "WrapKey"
  | HmacKey => "HmacKey"
  | Template => "Template"
  | OtpAeadKey => "OtpAeadKey"
  | SymmetricKey => "SymmetricKey"
  | PublicWrapKey => "PublicWrapKey"
  end.
End ObjectTypes.

#[export] Instance ObjectType_countable : Countable ObjectType.
Proof.
  apply (inj_countable (λ t, Z.to_nat (ObjectTypes.to_byte t))
           (λ n, ObjectTypes.from_byte (Z.of_nat n))).
  by intros [].
Defined.

Record ObjectKey : Set := mkObjectKey { key_type : ObjectType; key_id : Z }.

#[export] Instance ObjectKey_eq_dec : EqDecision ObjectKey.
Proof. solve_decision. Defined.

#[export] Instance ObjectKey_countable : Countable ObjectKey.
Proof.
  apply (inj_countable' (λ k, (key_type k, key_id k)) (λ p, mkObjectKey p.1 p.2)).
  by intros [].
Defined.

(** The derived order: by type, in the order of the variants, then by id. *)
Definition key_le (a b : ObjectKey) : Prop :=
  ObjectTypes.to_byte (key_type a) < ObjectTypes.to_byte (key_type b) ∨
  key_type a = key_type b ∧ key_id a ≤ key_id b.

#[export] Instance key_le_dec a b : Decision (key_le a b).
Proof. unfold key_le. apply _. Defined.

#[export] Instance key_le_total : Total key_le.
Proof.
  intros [t i] [u j]. unfold key_le. cbn.
  destruct (Z.lt_total (ObjectTypes.to_byte t) (ObjectTypes.to_byte u)) as [|[Heq|]];
    [auto| |auto].
  apply (inj ObjectTypes.to_byte) in Heq as ->. destruct (Z.le_total i j); auto.
Qed.

#[export] Instance key_le_trans : Transitive key_le.
Proof. intros [t i] [u j] [v k]. unfold key_le. cbn. intuition (subst; auto with lia). Qed.

#[export] Instance key_le_antisym : AntiSymm (=) key_le.
Proof.
  intros [t i] [u j]. unfold key_le. cbn. intros [?|[-> ?]] [?|[? ?]]; subst; try lia.
  f_equal. lia.
Qed.

Record ObjectInfo : Set := mkObjectInfo {
  capabilities : CapabilitySet;
  id : Z;
  length : Z;
  domains : Z;
  object_type : ObjectType;
  algorithm : Z;
  sequence : Z;
  origin : Z;
  label : bytes;
  delegated_capabilities : CapabilitySet;
}.

#[export] Instance ObjectInfo_eq_dec : EqDecision ObjectInfo.
Proof. solve_decision. Defined.

(** The machine types of the fields. *)
Record info_ok (i : ObjectInfo) : Prop := {
  capabilities_ok : set_ok (capabilities i);
  id_ok : u16 (id i);
  length_ok : u16 (length i);
  domains_ok : u16 (domains i);
  algorithm_ok : u8 (algorithm i);
  sequence_ok : u8 (sequence i);
  origin_ok : u8 (origin i);
  label_ok : bytes_ok (label i);
  delegated_ok : set_ok (delegated_capabilities i);
}.

Module Info.

Definition validate (self : ObjectInfo) : Result unit :=
  _ ← reject_if ((id self =? 0) || (id self =? u16_max)) InvalidId;
  _ ← reject_if ((domains self =? 0) || (LABEL_LENGTH <? len (label self))) InvalidData;
  mret tt.

Definition key (self : ObjectInfo) : ObjectKey := mkObjectKey (object_type self) (id self).

(** The bytes are written into a zeroed buffer of 66 bytes; a label that does
    not fit panics. *)
Definition encode (self : ObjectInfo) : Result bytes :=
  let output := zeros 66 in
  output ← copy_from_slice output 0 (to_bytes (capabilities self));
  output ← copy_from_slice output 8 (u16_to_be_bytes (id self));
  output ← copy_from_slice output 10 (u16_to_be_bytes (length self));
  output ← copy_from_slice output 12 (u16_to_be_bytes (domains self));
  output ← copy_from_slice output 14 [ObjectTypes.to_byte (object_type self)];
  output ← copy_from_slice output 15 [algorithm self];
  output ← copy_from_slice output 16 [sequence self];
  output ← copy_from_slice output 17 [origin self];
  output ← copy_from_slice output 18 (label self);
  copy_from_slice output 58 (to_bytes (delegated_capabilities self)).

End Info.

(** Updates of one field. *)
Definition set_length (l : Z) (i : ObjectInfo) : ObjectInfo :=
  mkObjectInfo (capabilities i) (id i) l (domains i) (object_type i) (algorithm i)
    (sequence i) (origin i) (label i) (delegated_capabilities i).
Definition set_sequence (s : Z) (i : ObjectInfo) : ObjectInfo :=
  mkObjectInfo (capabilities i) (id i) (length i) (domains i) (object_type i) (algorithm i)
    s (origin i) (label i) (delegated_capabilities i).
Definition set_origin (o : Z) (i : ObjectInfo) : ObjectInfo :=
  mkObjectInfo (capabilities i) (id i) (length i) (domains i) (object_type i) (algorithm i)
    (sequence i) o (label i) (delegated_capabilities i).
Definition set_id (n : Z) (i : ObjectInfo) : ObjectInfo :=
  mkObjectInfo (capabilities i) n (length i) (domains i) (object_type i) (algorithm i)
    (sequence i) (origin i) (label i) (delegated_capabilities i).
Definition set_algorithm (a : Z) (i : ObjectInfo) : ObjectInfo :=
  mkObjectInfo (capabilities i) (id i) (length i) (domains i) (object_type i) a
    (sequence i) (origin i) (label i) (delegated_capabilities i).
Definition set_capabilities (c d : CapabilitySet) (i : ObjectInfo) : ObjectInfo :=
  mkObjectInfo c (id i) (length i) (domains i) (object_type i) (algorithm i)
    (sequence i) (origin i) (label i) d.

Inductive AuthenticationKeyMaterial : Set :=
| Symmetric (keys : bytes)
| Asymmetric (point : bytes).

#[export] Instance AuthenticationKeyMaterial_eq_dec : EqDecision AuthenticationKeyMaterial.
Proof. solve_decision. Defined.

(** The persisted representation of key material. *)
Inductive StoredObjectMaterial : Set :=
| StoredAuthentication (value : AuthenticationKeyMaterial)
| StoredSecret (value : bytes)
| StoredOpaque (value : bytes)
| StoredPublic (value : bytes)
| StoredOtpAeadKey (nonce_id key : bytes).

#[export] Instance StoredObjectMaterial_eq_dec : EqDecision StoredObjectMaterial.
Proof. solve_decision. Defined.

Record StoredObjectRecord : Set := mkStored {
  stored_info : ObjectInfo;
  stored_material : StoredObjectMaterial;
}.

#[export] Instance StoredObjectRecord_eq_dec : EqDecision StoredObjectRecord.
Proof. solve_decision. Defined.

Definition stored_len (self : StoredObjectMaterial) : Z :=
  match self with
  | StoredAuthentication (Symmetric value) | StoredAuthentication (Asymmetric value)
  | StoredSecret value | StoredOpaque value | StoredPublic value => len value
  | StoredOtpAeadKey _ key => len key
  end.

Definition ec_private_length (curve : EcCurve) : Z :=
  match curve with
  | P224 => 28
  | P256 | Secp256k1 | BrainpoolP256 => 32
  | P384 | BrainpoolP384 => 48
  | P521 => 66
  | BrainpoolP512 => 64
  end.

Definition left_pad (value : bytes) (length : Z) : Result bytes :=
  _ ← reject_if (length <? len value) InvalidData;
  mret (zeros (length - len value) ++ value).

Definition key_kind (algorithm : Algorithm) : Result KeyKind :=
  match Algorithm.ml_dsa algorithm with
  | Some parameters => Ok (KindMlDsa parameters)
  | None =>
      match algorithm with
      | Algorithm.EcP224 => Ok (KindEc P224)
      | Algorithm.EcP256 => Ok (KindEc P256)
      | Algorithm.EcP384 => Ok (KindEc P384)
      | Algorithm.EcP521 => Ok (KindEc P521)
      | Algorithm.EcK256 => Ok (KindEc Secp256k1)
      | Algorithm.EcBrainpoolP256 => Ok (KindEc BrainpoolP256)
      | Algorithm.EcBrainpoolP384 => Ok (KindEc BrainpoolP384)
      | Algorithm.EcBrainpoolP512 => Ok (KindEc BrainpoolP512)
      | Algorithm.Ed25519 => Ok (KindEdwards CurveEd25519)
      | Algorithm.Ed448 => Ok (KindEdwards CurveEd448)
      | Algorithm.Rsa2048 => Ok (KindRsa 2048)
      | Algorithm.Rsa3072 => Ok (KindRsa 3072)
      | Algorithm.Rsa4096 => Ok (KindRsa 4096)
      | _ => Err InvalidData
      end
  end.

(** [Algorithm::from_byte(b).is_some_and(Algorithm::is_rsa_key)]. *)
Definition is_rsa_algorithm (algorithm : Z) : bool :=
  is_some_and (Algorithm.from_byte algorithm) Algorithm.is_rsa_key.

Section material.
Context `{SoftwareKeyCore}.

(** The runtime representation: parsed private keys. *)
Inductive ObjectMaterial : Type :=
| Authentication (value : AuthenticationKeyMaterial)
| SigningKey (key : SoftwareSigningKey)
| MontgomeryKey (key : SoftwareMontgomeryKey)
| MlKemKey (key : MlKemPrivateKey)
| HybridKemKey (key : HybridKemPrivateKey)
| Secret (value : bytes)
| OpaqueMaterial (value : bytes)
| Public (value : bytes)
| OtpAeadKeyMaterial (nonce_id key : bytes).

Definition material_len (self : ObjectMaterial) : Z :=
  match self with
  | Authentication (Symmetric value) | Authentication (Asymmetric value)
  | Secret value | OpaqueMaterial value | Public value => len value
  | SigningKey key =>
      match KeyCore.key_kind key with
      | KindEc curve => ec_private_length curve
      | KindEdwards curve => edwards_private_key_length curve
      | KindRsa modulus_bits => modulus_bits / 8
      | KindMlDsa _ => 32
      end
  | MontgomeryKey key => len (montgomery_serialized key)
  | MlKemKey _ => 64
  | HybridKemKey _ => 32
  | OtpAeadKeyMaterial _ key => len key
  end.

(** [impl PartialEq for ObjectMaterial]. *)
Definition material_eq (self other : ObjectMaterial) : bool :=
  match self, other with
  | Authentication a, Authentication b => bool_decide (a = b)
  | SigningKey a, SigningKey b =>
      bool_decide (KeyCore.key_kind a = KeyCore.key_kind b)
      && bool_decide (serialized a = serialized b)
  | MontgomeryKey a, MontgomeryKey b =>
      bool_decide (montgomery_serialized a = montgomery_serialized b)
  | MlKemKey a, MlKemKey b =>
      bool_decide (ml_kem_parameter_set a = ml_kem_parameter_set b)
      && bool_decide (ml_kem_expanded a = ml_kem_expanded b)
  | HybridKemKey a, HybridKemKey b =>
      bool_decide (hybrid_construction a = hybrid_construction b)
      && bool_decide (hybrid_seed a = hybrid_seed b)
  | Secret a, Secret b | OpaqueMaterial a, OpaqueMaterial b | Public a, Public b =>
      bool_decide (a = b)
  | OtpAeadKeyMaterial a_nonce a_key, OtpAeadKeyMaterial b_nonce b_key =>
      bool_decide (a_nonce = b_nonce) && bool_decide (a_key = b_key)
  | _, _ => false
  end.

Record ObjectRecord : Type := mkObjectRecord {
  info : ObjectInfo;
  material : ObjectMaterial;
}.

Definition typed_private_material (info : ObjectInfo) (encoded : bytes) :
    Result ObjectMaterial :=
  algorithm ← ok_or (Algorithm.from_byte (algorithm info)) InvalidData;
  match Algorithm.ml_kem algorithm, Algorithm.hybrid_kem algorithm with
  | Some parameters, _ =>
      MlKemKey <$> ok_or (ml_kem_from_serialized parameters encoded) InvalidData
  | None, Some construction =>
      HybridKemKey <$> ok_or (hybrid_from_seed_slice construction encoded) InvalidData
  | None, None =>
      if bool_decide (algorithm = Algorithm.X25519 ∨ algorithm = Algorithm.X448) then
        let curve :=
          if bool_decide (algorithm = Algorithm.X25519) then CurveX25519 else CurveX448 in
        MontgomeryKey <$> ok_or (montgomery_from_serialized curve encoded) InvalidData
      else if Algorithm.is_rsa_key algorithm then
        expected ← ok_or (Algorithm.asymmetric_key_length algorithm) InvalidData;
        _ ← reject_if (negb (len encoded =? expected) || negb (expected mod 2 =? 0)) InvalidData;
        let p := ztake (expected / 2) encoded in
        let q := zdrop (expected / 2) encoded in
        SigningKey <$> ok_or (restore_rsa_primes p q [1; 0; 1]) InvalidData
      else
        kind ← key_kind algorithm;
        SigningKey <$> ok_or (from_serialized_for_kind kind encoded) InvalidData
  end.

(** The types whose secret bytes are a private asymmetric key. *)
Definition holds_private_key (info : ObjectInfo) : bool :=
  bool_decide (object_type info = AsymmetricKey)
  || (bool_decide (object_type info = WrapKey) && is_rsa_algorithm (algorithm info)).

Definition to_stored (self : ObjectRecord) : Result StoredObjectRecord :=
  material ←
    match material self with
    | Authentication value => mret (StoredAuthentication value)
    | SigningKey key =>
        algorithm ← ok_or (Algorithm.from_byte (algorithm (info self))) InvalidData;
        if Algorithm.is_rsa_key algorithm then
          primes ← ok_or (rsa_crt_primes key) InvalidData;
          key_length ← ok_or (Algorithm.asymmetric_key_length algorithm) InvalidData;
          let component_length := key_length / 2 in
          p ← left_pad primes.1 component_length;
          q ← left_pad primes.2 component_length;
          mret (StoredSecret (p ++ q))
        else
          encoded ← ok_or (serialized key) InvalidData;
          mret (StoredSecret encoded)
    | MontgomeryKey key => mret (StoredSecret (montgomery_serialized key))
    | MlKemKey key => mret (StoredSecret (ml_kem_serialized key))
    | HybridKemKey key => mret (StoredSecret (hybrid_seed key))
    | Secret value => mret (StoredSecret value)
    | OpaqueMaterial value => mret (StoredOpaque value)
    | Public value => mret (StoredPublic value)
    | OtpAeadKeyMaterial nonce_id key => mret (StoredOtpAeadKey nonce_id key)
    end;
  mret (mkStored (info self) material).

Definition from_stored (stored : StoredObjectRecord) : Result ObjectRecord :=
  material ←
    match stored_material stored with
    | StoredAuthentication value => mret (Authentication value)
    | StoredSecret value =>
        if holds_private_key (stored_info stored)
        then typed_private_material (stored_info stored) value
        else mret (Secret value)
    | StoredOpaque value => mret (OpaqueMaterial value)
    | StoredPublic value => mret (Public value)
    | StoredOtpAeadKey nonce_id key => mret (OtpAeadKeyMaterial nonce_id key)
    end;
  mret (mkObjectRecord (stored_info stored) material).

Definition promote_private_material (self : ObjectRecord) : Result ObjectRecord :=
  match material self with
  | Secret value =>
      if holds_private_key (info self) then
        material ← typed_private_material (info self) value;
        mret (mkObjectRecord (info self) material)
      else mret self
  | _ => mret self
  end.

Definition expected_info_length (self : ObjectRecord) : Result Z :=
  let algorithm := Algorithm.from_byte (algorithm (info self)) in
  match object_type (info self) with
  | AuthenticationKey => Ok (material_len (material self) + 8)
  | AsymmetricKey => ok_or (algorithm ≫= Algorithm.asymmetric_object_length) InvalidData
  | WrapKey =>
      match algorithm with
      | Some algorithm =>
          if Algorithm.is_rsa_key algorithm then
            ok_or (Algorithm.asymmetric_object_length algorithm ≫= λ length,
                     checked_add length 8) InvalidData
          else
            match algorithm with
            | Algorithm.Aes128CcmWrap | Algorithm.Aes192CcmWrap | Algorithm.Aes256CcmWrap =>
                Ok (material_len (material self) + 8)
            | _ => Err InvalidData
            end
      | None => Err InvalidData
      end
  | HmacKey => ok_or (algorithm ≫= Algorithm.hmac_object_length) InvalidData
  | OtpAeadKey => Ok (material_len (material self) + 4)
  | PublicWrapKey => Ok (material_len (material self) + 8)
  | _ => Ok (material_len (material self))
  end.

Definition normalize_info_length (self : ObjectRecord) : Result ObjectRecord :=
  expected ← expected_info_length self;
  length ← ok_or (u16_try_from expected) WrongLength;
  mret (mkObjectRecord (set_length length (info self)) (material self)).

Definition stores_private_asymmetric_key (self : ObjectRecord) : bool :=
  bool_decide (object_type (info self) = AsymmetricKey ∨ object_type (info self) = WrapKey)
  && is_some_and (Algorithm.from_byte (algorithm (info self))) (λ algorithm,
       bool_decide (object_type (info self) = AsymmetricKey)
       || Algorithm.is_rsa_key algorithm).

Definition validate (self : ObjectRecord) : Result unit :=
  _ ← Info.validate (info self);
  _ ← reject_if
        (stores_private_asymmetric_key self
         && negb (bool_decide
              (Algorithm.from_byte (algorithm (info self)) ≫= Algorithm.asymmetric_key_length
               = Some (material_len (material self))))) InvalidData;
  expected ← expected_info_length self;
  _ ← reject_if (negb (length (info self) =? expected)) InvalidData;
  mret tt.
End material.

(** ** Lemmas *)

(** The wire layout of the metadata. *)
Definition info_layout (i : ObjectInfo) : bytes :=
  to_bytes (capabilities i) ++ u16_to_be_bytes (id i) ++ u16_to_be_bytes (length i) ++
  u16_to_be_bytes (domains i) ++
  [ObjectTypes.to_byte (object_type i); algorithm i; sequence i; origin i] ++
  label i ++ zeros (LABEL_LENGTH - len (label i)) ++ to_bytes (delegated_capabilities i).

Lemma validate_ok i : Info.validate i = Ok tt ↔
  id i ≠ 0 ∧ id i ≠ u16_max ∧ domains i ≠ 0 ∧ len (label i) ≤ LABEL_LENGTH.
Proof.
  unfold Info.validate. split.
  - intros H. apply outcome_bind_ok in H as ([] & H1 & H). apply outcome_bind_ok in H as ([] & H2 & _).
    apply (reject_if_ok _ InvalidId) in H1. apply (reject_if_ok _ InvalidData) in H2.
    bool_prop. done.
  - intros (? & ? & ? & ?). by rewrite !(proj2 (Z.eqb_neq _ _)), (proj2 (Z.ltb_ge _ _)) by done.
Qed.

Lemma len_to_bytes s : set_ok s → len (to_bytes s) = 8.
Proof. intros [Hl _]. unfold len. by rewrite Hl. Qed.

Lemma len_info_layout i :
  set_ok (capabilities i) → set_ok (delegated_capabilities i) →
  len (label i) ≤ LABEL_LENGTH → len (info_layout i) = 66.
Proof.
  intros. unfold info_layout, LABEL_LENGTH in *.
  rewrite !len_app, len_zeros by lia. len_lia || (rewrite !len_to_bytes by done; len_lia).
Qed.

(** One write of [encode]: the bytes before and after the field are kept. *)
Lemma copy_step {E} (out a b c src : bytes) off :
  out = a ++ b ++ c → off = len a → len src = len b →
  copy_from_slice (E := E) out off src = Ok (a ++ src ++ c).
Proof. intros -> ->. apply copy_from_slice_ok. Qed.

Lemma zeros_split n m : 0 ≤ n ≤ m → zeros m = zeros n ++ zeros (m - n).
Proof.
  intros. unfold zeros. rewrite <- replicate_add. f_equal. lia.
Qed.

#[local] Ltac field_side :=
  first [reflexivity | by rewrite <- ?app_assoc | rewrite ?len_app; len_lia].

Lemma encode_info i :
  set_ok (capabilities i) → set_ok (delegated_capabilities i) →
  len (label i) ≤ LABEL_LENGTH → Info.encode i = Ok (info_layout i).
Proof.
  intros Hc%len_to_bytes Hd%len_to_bytes Hl. unfold Info.encode, LABEL_LENGTH in *. cbn zeta.
  pose proof (len_nonneg (label i)).
  pose proof (len_u16_to_be_bytes (id i)) as Hi.
  pose proof (len_u16_to_be_bytes (length i)) as Hn.
  pose proof (len_u16_to_be_bytes (domains i)) as Ho.
  unfold info_layout, LABEL_LENGTH.
  generalize dependent (u16_to_be_bytes (id i)). generalize dependent (u16_to_be_bytes (length i)).
  generalize dependent (u16_to_be_bytes (domains i)). intros d Hd' l Hl' n Hn'.
  set (c := to_bytes (capabilities i)) in *. set (t := ObjectTypes.to_byte (object_type i)).
  assert (len (c ++ n ++ l ++ d) = 14) as Hh by (rewrite !len_app; lia).
  rewrite (copy_step _ [] (zeros 8) (zeros 58)) by done. cbn [mbind outcome_bind app].
  rewrite (copy_step _ c (zeros 2) (zeros 56)) by field_side. cbn [mbind outcome_bind].
  rewrite (copy_step _ (c ++ n) (zeros 2) (zeros 54)) by field_side. cbn [mbind outcome_bind].
  rewrite (copy_step _ (c ++ n ++ l) (zeros 2) (zeros 52)) by field_side.
  cbn [mbind outcome_bind].
  replace ((c ++ n ++ l) ++ d ++ zeros 52) with ((c ++ n ++ l ++ d) ++ zeros 52)
    by (by rewrite <- !app_assoc).
  set (h := c ++ n ++ l ++ d) in *.
  rewrite (copy_step _ h [0] (zeros 51)) by field_side. cbn [mbind outcome_bind].
  rewrite (copy_step _ (h ++ [t]) [0] (zeros 50)) by field_side. cbn [mbind outcome_bind].
  rewrite (copy_step _ (h ++ [t; algorithm i]) [0] (zeros 49)) by field_side.
  cbn [mbind outcome_bind].
  rewrite (copy_step _ (h ++ [t; algorithm i; sequence i]) [0] (zeros 48)) by field_side.
  cbn [mbind outcome_bind].
  set (m := [t; algorithm i; sequence i; origin i]).
  rewrite (copy_step _ (h ++ m) (zeros (len (label i)))
             (zeros (40 - len (label i)) ++ zeros 8)).
  2:{ rewrite (zeros_split (len (label i)) 48), (zeros_split (40 - len (label i)) (48 - _)) by lia.
      replace (48 - len (label i) - (40 - len (label i))) with 8 by lia.
      unfold m. by rewrite <- !app_assoc. }
  2:{ by rewrite len_app, Hh. }
  2:{ rewrite len_zeros; lia. }
  cbn [mbind outcome_bind].
  rewrite (copy_step _ (h ++ m ++ label i ++ zeros (40 - len (label i))) (zeros 8) []).
  - unfold h, m. by rewrite app_nil_r, <- !app_assoc.
  - by rewrite <- !app_assoc, app_nil_r.
  - rewrite !len_app, Hh, len_zeros by lia. unfold m. len_lia.
  - done.
Qed.

(** A label without NUL bytes is recovered from its padded form. *)
Lemma padded_label_inj (a b : bytes) n :
  Forall (λ x, x ≠ 0) a → Forall (λ x, x ≠ 0) b →
  len a ≤ n → len b ≤ n → a ++ zeros (n - len a) = b ++ zeros (n - len b) → a = b.
Proof.
  revert b n. induction a as [|x a IH]; intros [|y b] n Ha Hb Hna Hnb Heq; [done|..].
  - rewrite len_cons in Hnb. pose proof (len_nonneg b). cbn [app] in Heq. rewrite len_nil in Heq.
    unfold zeros in Heq. destruct (Z.to_nat (n - 0)) eqn:Hn; [lia|]. cbn in Heq.
    injection Heq as <- _. by inversion Hb.
  - rewrite len_cons in Hna. pose proof (len_nonneg a). cbn [app] in Heq. rewrite len_nil in Heq.
    unfold zeros in Heq. destruct (Z.to_nat (n - 0)) eqn:Hn; [lia|]. cbn in Heq.
    injection Heq as -> _. by inversion Ha.
  - rewrite !len_cons in *. cbn [app] in Heq. injection Heq as -> Heq. f_equal.
    inversion_clear Ha. inversion_clear Hb. apply (IH b (n - 1)); try done; try lia.
    rewrite <- !Z.sub_add_distr. done.
Qed.

Lemma u16_bytes_inj a b : u16 a → u16 b → u16_to_be_bytes a = u16_to_be_bytes b → a = b.
Proof. intros Ha Hb H%(f_equal from_be_bytes). by rewrite !from_to_be_bytes_u16 in H. Qed.

Lemma app_len_inj {A} (a b c d : list A) : len a = len b → a ++ c = b ++ d → a = b ∧ c = d.
Proof. unfold len. intros. apply app_inj_1; [lia|done]. Qed.

Lemma info_layout_inj i j :
  info_ok i → info_ok j → len (label i) ≤ LABEL_LENGTH → len (label j) ≤ LABEL_LENGTH →
  Forall (λ x, x ≠ 0) (label i) → Forall (λ x, x ≠ 0) (label j) →
  info_layout i = info_layout j → i = j.
Proof.
  intros [] [] ???? Heq. unfold info_layout in Heq.
  apply app_len_inj in Heq as [? Heq]; [|by rewrite !len_to_bytes].
  do 3 (apply app_len_inj in Heq as [?%u16_bytes_inj Heq]; [|done..]).
  apply app_len_inj in Heq as [Hf Heq]; [|done]. injection Hf as ?%(inj _) ???.
  rewrite !app_assoc in Heq. apply app_len_inj in Heq as [? ?]; [|unfold LABEL_LENGTH in *;
    rewrite !len_app, !len_zeros; unfold LABEL_LENGTH in *; lia].
  assert (label i = label j) by (by eapply padded_label_inj).
  destruct i, j; cbn in *. destruct capabilities0, capabilities1,
    delegated_capabilities0, delegated_capabilities1; cbn in *. congruence.
Qed.

(** ** Properties *)

(** The 66-byte object description: a valid object is encoded without a
    panic in exactly 66 bytes, in the order of the wire format, and two objects
    whose labels hold no NUL byte have the same encoding only when they are the
    same object. *)
Theorem object_info_encoding (i j : ObjectInfo) :
  info_ok i → info_ok j → Info.validate i = Ok tt → Info.validate j = Ok tt →
  (∃ e, Info.encode i = Ok e ∧ e = info_layout i ∧ len e = 66) ∧
  (Forall (λ x, x ≠ 0) (label i) → Forall (λ x, x ≠ 0) (label j) →
     Info.encode i = Info.encode j → i = j).
Proof.
  intros Hi Hj (_ & _ & _ & Hli)%validate_ok (_ & _ & _ & Hlj)%validate_ok.
  pose proof (encode_info i (capabilities_ok _ Hi) (delegated_ok _ Hi) Hli) as Hei.
  pose proof (encode_info j (capabilities_ok _ Hj) (delegated_ok _ Hj) Hlj) as Hej.
  split.
  - exists (info_layout i). split; [done|split; [done|]].
    apply len_info_layout; [by destruct Hi..|done].
  - intros ?? Heq. rewrite Hei, Hej in Heq. injection Heq as ?. by apply info_layout_inj.
Qed.

Definition example_info : ObjectInfo :=
  mkObjectInfo ALL 7 16 1 Opaque 30 0 2 [97; 98] NONE.

Lemma example_info_ok : info_ok example_info.
Proof. split; by_computation. Qed.

Lemma object_info_encoding_witness :
  Info.encode example_info = Ok (info_layout example_info).
Proof.
  destruct (object_info_encoding example_info example_info example_info_ok example_info_ok
              eq_refl eq_refl) as [(e & He & -> & _) _]. exact He.
Defined.
