(* ===== verification/Authorization.v ===== *)
(** * Authorization (crates/virtual-yubihsm-core/src/authorization.rs)

    The immutable permission snapshot of an established session, and the checks
    that every command makes against it. *)

From S2P Require Import Prelude Error Firmware Algorithm Capability KeyCore Toy Objects.

Record SessionAuthorization : Set := mkAuthorization {
  authentication_key_id : Z;
  session_capabilities : CapabilitySet;
  session_delegated_capabilities : CapabilitySet;
  session_domains : Z;
}.

#[export] Instance SessionAuthorization_eq_dec : EqDecision SessionAuthorization.
Proof. solve_decision. Defined.

Record authorization_ok (a : SessionAuthorization) : Prop := {
  session_capabilities_ok : set_ok (session_capabilities a);
  session_delegated_ok : set_ok (session_delegated_capabilities a);
  session_domains_ok : u16 (session_domains a);
}.

Definition require_capability (self : SessionAuthorization) (capability : Capability) :
    Result unit :=
  if contains (session_capabilities self) capability then Ok tt
  else Err InsufficientPermissions.

Definition can_see (self : SessionAuthorization) (object : ObjectInfo) : bool :=
  negb (Z.land (session_domains self) (domains object) =? 0).

Definition require_visible (self : SessionAuthorization) (object : ObjectInfo) : Result unit :=
  if can_see self object then Ok tt else Err ObjectNotFound.

Definition authorize_use (self : SessionAuthorization) (object : ObjectInfo)
    (session_capability object_capability : Capability) : Result unit :=
  _ ← require_visible self object;
  _ ← require_capability self session_capability;
  if contains (capabilities object) object_capability then Ok tt
  else Err InsufficientPermissions.

(** [!domains] on [u16]. *)
Definition not_u16 (x : Z) : Z := Z.lxor u16_max x.

Definition authorize_create (self : SessionAuthorization) (requested : ObjectInfo)
    (command_capability : Capability) : Result unit :=
  _ ← require_capability self command_capability;
  _ ← Info.validate requested;
  _ ← reject_if
        (negb (Z.land (domains requested) (not_u16 (session_domains self)) =? 0)
         || negb (is_subset_of (capabilities requested) (session_delegated_capabilities self))
         || negb (is_subset_of (delegated_capabilities requested)
                    (session_delegated_capabilities self)))
        InsufficientPermissions;
  mret tt.

Definition authorize_delete (self : SessionAuthorization) (object : ObjectInfo) : Result unit :=
  let capability := ObjectTypes.deletion_capability (object_type object) in
  _ ← require_visible self object;
  require_capability self capability.

Section records.
Context `{SoftwareKeyCore}.

Definition authorize_wrapped_export (self : SessionAuthorization)
    (object wrap_key : ObjectRecord) : Result unit :=
  _ ← authorize_use self (info wrap_key) Capability.ExportWrapped Capability.ExportWrapped;
  _ ← require_visible self (info object);
  _ ← reject_if
        (negb (contains (capabilities (info object)) ExportableUnderWrap)
         || negb (is_subset_of (capabilities (info object))
                    (delegated_capabilities (info wrap_key))))
        InsufficientPermissions;
  mret tt.

Definition authorize_wrapped_creation (self : SessionAuthorization)
    (requested : ObjectInfo) (wrap_key : ObjectRecord) : Result unit :=
  _ ← authorize_create self requested Capability.ImportWrapped;
  _ ← reject_if
        (negb (is_subset_of (capabilities requested)
                 (delegated_capabilities (info wrap_key))))
        InsufficientPermissions;
  mret tt.
End records.

(** ** Specification: the rights of a session

    A session's rights are its capability bits, the bits it may delegate and
    the domains it can reach, as sets. *)

(** The domain numbers of a mask. *)
Definition domain_set (mask : Z) : gset Z :=
  list_to_set (filter (λ n, Z.testbit mask n = true) (Z.of_nat <$> seq 0 16)).

Lemma elem_of_domain_set mask n :
  n ∈ domain_set mask ↔ 0 ≤ n < 16 ∧ Z.testbit mask n = true.
Proof.
  unfold domain_set. rewrite elem_of_list_to_set, list_elem_of_filter, list_elem_of_fmap.
  split.
  - intros [? (k & -> & [_ ?]%elem_of_seq)]. split; [lia|done].
  - intros [? ?]. split; [done|]. exists (Z.to_nat n). split; [lia|].
    apply elem_of_seq. lia.
Qed.

Lemma u16_testbit_high a n : u16 a → 16 ≤ n → Z.testbit a n = false.
Proof.
  intros [? Ha] ?. destruct (Z.eq_dec a 0) as [->|]; [apply Z.testbit_0_l|].
  apply Z.bits_above_log2; [lia|].
  assert (Z.log2 a < 16); [|lia]. apply Z.log2_lt_pow2; [lia|exact Ha].
Qed.

Lemma land_domains a b : u16 a → u16 b →
  Z.land a b ≠ 0 ↔ ∃ n, n ∈ domain_set a ∧ n ∈ domain_set b.
Proof.
  intros Ha Hb. split.
  - intros Hne. destruct (decide (∃ n, n ∈ domain_set a ∧ n ∈ domain_set b)) as [|Hno]; [done|].
    destruct Hne. apply Z.bits_inj'. intros n Hn. rewrite Z.land_spec, Z.testbit_0_l.
    apply not_true_iff_false. intros [H1 H2]%andb_true_iff. apply Hno. exists n.
    assert (n < 16).
    { destruct (Z_lt_dec n 16); [done|]. by rewrite (u16_testbit_high a) in H1 by (done || lia). }
    rewrite !elem_of_domain_set. done.
  - intros (n & [Hn H1]%elem_of_domain_set & [_ H2]%elem_of_domain_set) Hz.
    assert (Z.testbit (Z.land a b) n = true) as H by by rewrite Z.land_spec, H1, H2.
    by rewrite Hz, Z.testbit_0_l in H.
Qed.

Lemma not_u16_testbit x n : 0 ≤ n < 16 → Z.testbit (not_u16 x) n = negb (Z.testbit x n).
Proof.
  intros. unfold not_u16. rewrite Z.lxor_spec. unfold u16_max.
  change 65535 with (Z.ones 16). rewrite Z.ones_spec_low by lia. by destruct (Z.testbit x n).
Qed.

Lemma land_not_domains a b : u16 a →
  Z.land a (not_u16 b) = 0 ↔ domain_set a ⊆ domain_set b.
Proof.
  intros Ha. split.
  - intros Hz n [Hn H1]%elem_of_domain_set. apply elem_of_domain_set. split; [done|].
    assert (Z.testbit (Z.land a (not_u16 b)) n = false) as H by by rewrite Hz, Z.testbit_0_l.
    rewrite Z.land_spec, H1, not_u16_testbit in H by done.
    by destruct (Z.testbit b n).
  - intros Hsub. apply Z.bits_inj'. intros n Hn. rewrite Z.land_spec, Z.testbit_0_l.
    destruct (Z_lt_dec n 16); [|by rewrite u16_testbit_high by (done || lia)].
    rewrite not_u16_testbit by lia. destruct (Z.testbit a n) eqn:H1; [|done].
    assert (n ∈ domain_set b) as [_ ->]%elem_of_domain_set; [|done].
    apply Hsub, elem_of_domain_set. done.
Qed.

(** What a session may create: an object within its domains whose capabilities
    and delegated capabilities are among those it may delegate. *)
Record within_rights (a : SessionAuthorization) (i : ObjectInfo) : Prop := {
  within_domains : domain_set (domains i) ⊆ domain_set (session_domains a);
  within_capabilities : bits (capabilities i) ⊆ bits (session_delegated_capabilities a);
  within_delegated :
    bits (delegated_capabilities i) ⊆ bits (session_delegated_capabilities a);
}.

Lemma require_capability_ok a c :
  require_capability a c = Ok tt ↔ contains (session_capabilities a) c = true.
Proof. unfold require_capability. by destruct (contains _ _). Qed.

Lemma require_visible_ok a i : require_visible a i = Ok tt ↔ can_see a i = true.
Proof. unfold require_visible. by destruct (can_see _ _). Qed.

Lemma can_see_domains a i : u16 (session_domains a) → u16 (domains i) →
  can_see a i = true ↔ ∃ n, n ∈ domain_set (session_domains a) ∧ n ∈ domain_set (domains i).
Proof.
  intros. unfold can_see. rewrite negb_true_iff, Z.eqb_neq. by apply land_domains.
Qed.

Lemma authorize_use_ok a i sc oc :
  authorize_use a i sc oc = Ok tt ↔
  can_see a i = true ∧ contains (session_capabilities a) sc = true ∧
  contains (capabilities i) oc = true.
Proof.
  unfold authorize_use, require_visible, require_capability.
  destruct (can_see _ _); cbn; [|naive_solver].
  destruct (contains (session_capabilities a) sc); cbn; [|naive_solver].
  destruct (contains _ _); naive_solver.
Qed.

Lemma authorize_create_ok a i c :
  authorize_create a i c = Ok tt ↔
  contains (session_capabilities a) c = true ∧ Info.validate i = Ok tt ∧
  Z.land (domains i) (not_u16 (session_domains a)) = 0 ∧
  is_subset_of (capabilities i) (session_delegated_capabilities a) = true ∧
  is_subset_of (delegated_capabilities i) (session_delegated_capabilities a) = true.
Proof.
  unfold authorize_create. split.
  - intros H. apply outcome_bind_ok in H as ([] & Hc%require_capability_ok & H).
    apply outcome_bind_ok in H as ([] & Hv & H).
    apply outcome_bind_ok in H as ([] & Hr%reject_if_ok & _).
    bool_prop. done.
  - intros (Hc & Hv & Hd & H1 & H2). apply require_capability_ok in Hc.
    by rewrite Hc, Hv, Hd, H1, H2.
Qed.

(** The part of [authorize_create] that bounds what is delegated. *)
Definition granted (a : SessionAuthorization) (i : ObjectInfo) : Prop :=
  Z.land (domains i) (not_u16 (session_domains a)) = 0 ∧
  is_subset_of (capabilities i) (session_delegated_capabilities a) = true ∧
  is_subset_of (delegated_capabilities i) (session_delegated_capabilities a) = true.

Lemma authorize_create_granted a i c :
  authorize_create a i c = Ok tt → granted a i ∧ contains (session_capabilities a) c = true.
Proof. intros (? & ? & ? & ? & ?)%authorize_create_ok. by split. Qed.

Lemma granted_within a i :
  authorization_ok a → info_ok i → granted a i ↔ within_rights a i.
Proof.
  intros [] []. unfold granted, is_subset_of.
  rewrite land_not_domains, !contains_all_bits by done. split; [intros (? & ? & ?)|intros []]; by split.
Qed.

Lemma authorize_create_within a i c :
  authorization_ok a → info_ok i → authorize_create a i c = Ok tt →
  within_rights a i ∧ contains (session_capabilities a) c = true ∧ Info.validate i = Ok tt.
Proof.
  intros [] [] (? & ? & Hd & H1 & H2)%authorize_create_ok. split; [|done]. split.
  - by apply land_not_domains.
  - by apply contains_all_bits.
  - by apply contains_all_bits.
Qed.

Lemma authorize_delete_ok a i :
  authorize_delete a i = Ok tt ↔
  can_see a i = true ∧
  contains (session_capabilities a) (ObjectTypes.deletion_capability (object_type i)) = true.
Proof.
  unfold authorize_delete, require_visible, require_capability.
  destruct (can_see _ _); cbn; [|naive_solver]. destruct (contains _ _); naive_solver.
Qed.

Lemma authorize_wrapped_export_ok `{SoftwareKeyCore} a target wrap_key :
  authorize_wrapped_export a target wrap_key = Ok tt ↔
  authorize_use a (info wrap_key) Capability.ExportWrapped Capability.ExportWrapped = Ok tt ∧
  can_see a (info target) = true ∧
  contains (capabilities (info target)) ExportableUnderWrap = true ∧
  is_subset_of (capabilities (info target)) (delegated_capabilities (info wrap_key)) = true.
Proof.
  unfold authorize_wrapped_export. split.
  - intros H'. apply outcome_bind_ok in H' as ([] & Hu & H').
    apply outcome_bind_ok in H' as ([] & Hv%require_visible_ok & H').
    apply outcome_bind_ok in H' as ([] & Hr%reject_if_ok & _). bool_prop. done.
  - intros (-> & Hv%require_visible_ok & Hc & Hs). cbn [mbind outcome_bind].
    by rewrite Hv, Hc, Hs.
Qed.

Lemma authorize_wrapped_creation_ok `{SoftwareKeyCore} a i wrap_key :
  authorize_wrapped_creation a i wrap_key = Ok tt ↔
  authorize_create a i Capability.ImportWrapped = Ok tt ∧
  is_subset_of (capabilities i) (delegated_capabilities (info wrap_key)) = true.
Proof.
  unfold authorize_wrapped_creation. split.
  - intros H'. apply outcome_bind_ok in H' as ([] & Hu & H').
    apply outcome_bind_ok in H' as ([] & Hr%reject_if_ok & _). by bool_prop.
  - intros (-> & Hs). cbn [mbind outcome_bind]. by rewrite Hs.
Qed.

(** The three checks of single objects, as sets. *)
Section checks.
Context (a : SessionAuthorization) (i : ObjectInfo) (Ha : authorization_ok a) (Hi : info_ok i).

(** The session shares a domain with the object. *)
Definition shares_domain (i : ObjectInfo) : Prop :=
  ∃ n, n ∈ domain_set (session_domains a) ∧ n ∈ domain_set (domains i).

Lemma can_see_shares : can_see a i = true ↔ shares_domain i.
Proof. pose proof Ha as []. pose proof Hi as []. by apply can_see_domains. Qed.

Lemma authorize_use_sets sc oc :
  authorize_use a i sc oc = Ok tt ↔
  shares_domain i ∧ to_bit sc ∈ bits (session_capabilities a) ∧ to_bit oc ∈ bits (capabilities i).
Proof. by rewrite authorize_use_ok, can_see_shares, !contains_bits. Qed.

Lemma authorize_create_sets sc :
  authorize_create a i sc = Ok tt ↔
  to_bit sc ∈ bits (session_capabilities a) ∧ Info.validate i = Ok tt ∧ within_rights a i.
Proof.
  split.
  - intros H%authorize_create_within; [|done..]. rewrite <- contains_bits. naive_solver.
  - pose proof Ha as [? ? ?]. pose proof Hi as []. intros (Hc & Hval & []). apply authorize_create_ok.
    rewrite contains_bits. unfold is_subset_of. rewrite !contains_all_bits by done.
    rewrite land_not_domains by done. done.
Qed.
End checks.

(** ** Properties *)

(** C21: the permission checks of a session mean what the access-control model
    says, as sets: seeing an object needs a shared domain; using one needs that and
    the capability on both sides; creating one needs the command's capability, a
    valid description, domains among the session's and both capability sets among
    those the session may delegate; deleting one needs a shared domain and the
    deletion capability of its type, whatever the object's own capabilities;
    exporting one under a wrap key needs the use of the wrap key, a shared domain
    with the object, an object that may be exported, and a wrap key that delegates
    all of its capabilities; creating one from a wrapped form needs, besides what
    creation needs, such a wrap key. *)
Theorem authorization_sound_complete `{SoftwareKeyCore} (a : SessionAuthorization) (i : ObjectInfo)
    (target wrap_key : ObjectRecord) (sc oc : Capability) :
  authorization_ok a → info_ok i → info_ok (info target) → info_ok (info wrap_key) →
  let session := bits (session_capabilities a) in
  (require_capability a sc = Ok tt ↔ to_bit sc ∈ session) ∧
  (require_visible a i = Ok tt ↔ shares_domain a i) ∧
  (authorize_use a i sc oc = Ok tt ↔
     shares_domain a i ∧ to_bit sc ∈ session ∧ to_bit oc ∈ bits (capabilities i)) ∧
  (authorize_create a i sc = Ok tt ↔
     to_bit sc ∈ session ∧ Info.validate i = Ok tt ∧ within_rights a i) ∧
  (authorize_delete a i = Ok tt ↔
     shares_domain a i ∧ to_bit (ObjectTypes.deletion_capability (object_type i)) ∈ session) ∧
  (authorize_wrapped_export a target wrap_key = Ok tt ↔
     shares_domain a (info wrap_key) ∧ to_bit Capability.ExportWrapped ∈ session ∧
     to_bit Capability.ExportWrapped ∈ bits (capabilities (info wrap_key)) ∧
     shares_domain a (info target) ∧
     to_bit Capability.ExportableUnderWrap ∈ bits (capabilities (info target)) ∧
     bits (capabilities (info target)) ⊆ bits (delegated_capabilities (info wrap_key))) ∧
  (authorize_wrapped_creation a i wrap_key = Ok tt ↔
     to_bit Capability.ImportWrapped ∈ session ∧ Info.validate i = Ok tt ∧ within_rights a i ∧
     bits (capabilities i) ⊆ bits (delegated_capabilities (info wrap_key))) ∧
  (¬ shares_domain a i → require_visible a i = Err ObjectNotFound ∧
     authorize_use a i sc oc = Err ObjectNotFound ∧ authorize_delete a i = Err ObjectNotFound).
Proof.
  intros Ha Hi Ht Hk session. pose proof Hi as []. pose proof Ht as []. pose proof Hk as [].
  split; [by rewrite require_capability_ok, contains_bits|].
  split; [by rewrite require_visible_ok, can_see_shares|].
  split; [by apply authorize_use_sets|]. split; [by apply authorize_create_sets|].
  split; [by rewrite authorize_delete_ok, can_see_shares, contains_bits|].
  split; [|split].
  - rewrite authorize_wrapped_export_ok, (authorize_use_sets a (info wrap_key)), can_see_shares by done.
    rewrite contains_bits. unfold is_subset_of. rewrite contains_all_bits by done. naive_solver.
  - rewrite authorize_wrapped_creation_ok, authorize_create_sets by done.
    unfold is_subset_of. rewrite contains_all_bits by done. naive_solver.
  - rewrite <- (can_see_shares a i Ha Hi). intros Hf%not_true_iff_false.
    unfold authorize_use, authorize_delete, require_visible. by rewrite Hf.
Qed.

Definition example_session : SessionAuthorization := mkAuthorization 1 ALL ALL 0x0003.

Lemma example_session_ok : authorization_ok example_session.
Proof. split; by_computation. Qed.

(** The example object, and a wrap key that delegates everything. *)
Definition example_target : ObjectRecord :=
  mkObjectRecord (set_capabilities ALL NONE example_info) (OpaqueMaterial []).
Definition example_wrap_key : ObjectRecord :=
  mkObjectRecord (set_capabilities ALL ALL example_info) (OpaqueMaterial []).

Lemma authorization_sound_complete_witness :
  authorize_create example_session example_info Capability.PutOpaque = Ok tt ∧
  authorize_wrapped_export example_session example_target example_wrap_key = Ok tt.
Proof.
  destruct (authorization_sound_complete example_session example_info example_target example_wrap_key
    Capability.PutOpaque Capability.GetOpaque example_session_ok example_info_ok)
    as (_ & _ & _ & Hc & _ & Hx & _); [split; by_computation..|].
  split.
  - apply Hc. split; [by_computation|]. split; [by vm_compute|]. split; by_computation.
  - apply Hx. split; [exists 0; split; by_computation|]. split; [by_computation|]. split; [by_computation|].
    split; [exists 0; split; by_computation|]. split; by_computation.
Defined.

