(* ===== verification/SessionObjects.v ===== *)
(** * Volatile session objects (crates/virtual-yubihsm-core/src/session_object.rs)

    Secrets and P-256 keys that live in one session, under unguessable 64-bit
    handles. *)

From S2P Require Import Prelude Error Firmware Algorithm KeyCore.

Definition MAX_SESSION_OBJECTS : Z := 64.
Definition FLAG_READABLE : Z := 1.
Definition FLAG_DERIVE : Z := 2.
Definition FLAG_VERIFY : Z := 4.

Inductive SessionObjectKind : Set :=
| GenericSecret
| Aes
| P256PrivateKind.

#[export] Instance SessionObjectKind_eq_dec : EqDecision SessionObjectKind.
Proof. solve_decision. Defined.

Definition kind_to_byte (k : SessionObjectKind) : Z :=
  match k with GenericSecret => 1 | Aes => 2 | P256PrivateKind => 3 end.

Definition kind_from_byte (value : Z) : option SessionObjectKind :=
  match value with
  | 1 => Some GenericSecret
  | 2 => Some Aes
  | 3 => Some P256PrivateKind
  | _ => None
  end.

Section session_objects.
Context `{SoftwareKeyCore}.

Inductive SessionObjectMaterial : Type :=
| SecretValue (value : bytes)
| P256Private (key : SoftwareSigningKey).

Record SessionObject : Type := mkSessionObject {
  kind : SessionObjectKind;
  flags : Z;
  object_material : SessionObjectMaterial;
}.

Definition secret (kind : SessionObjectKind) (flags : Z) (value : bytes) :
    option SessionObject :=
  if (len value =? 0) || (1024 <? len value)
     || (bool_decide (kind = Aes)
         && negb ((len value =? 16) || (len value =? 24) || (len value =? 32)))
     || bool_decide (kind = P256PrivateKind)
  then None
  else Some (mkSessionObject kind flags (SecretValue value)).

Definition p256_private (flags : Z) (key : SoftwareSigningKey) : option SessionObject :=
  if negb (bool_decide (key_kind key = KindEc P256)) then None
  else Some (mkSessionObject P256PrivateKind flags (P256Private key)).

Definition secret_value (self : SessionObject) : option bytes :=
  match object_material self with SecretValue value => Some value | _ => None end.

Definition p256_key (self : SessionObject) : option SoftwareSigningKey :=
  match object_material self with P256Private key => Some key | _ => None end.

Definition object_public_key (self : SessionObject) : option bytes :=
  key ← p256_key self;
  match public_key key with
  | PublicEc _ uncompressed => Some uncompressed
  | _ => None
  end.

(** The handle table of one session. *)
#[local] Abbreviation SessionObjects := (gmap Z SessionObject).

Definition get (self : SessionObjects) (handle : Z) : option SessionObject := self !! handle.

(** The retry loop draws handles until one is nonzero and not taken; [fuel]
    bounds the number of draws. *)
Fixpoint insert_loop (fuel : nat) (object : SessionObject) :
    Eff (SessionObjects * World) DeviceError (option Z) := λ s,
  match fuel with
  | O => (Diverge, s)
  | S fuel =>
      let '(self, w) := s in
      let '(filled, w) := getrandom_fill 8 w in
      match filled with
      | None => (Ok None, (self, w))
      | Some encoded =>
          let handle := from_be_bytes encoded in
          if negb (handle =? 0) && negb (bool_decide (is_Some (self !! handle)))
          then (Ok (Some handle), (<[handle := object]> self, w))
          else insert_loop fuel object (self, w)
      end
  end.

Definition insert (fuel : nat) (object : SessionObject) :
    Eff (SessionObjects * World) DeviceError (option Z) := λ s,
  if MAX_SESSION_OBJECTS <=? Z.of_nat (size s.1) then (Ok None, s)
  else insert_loop fuel object s.

Definition remove (handle : Z) :
    Eff (SessionObjects * World) DeviceError (option SessionObject) := λ s,
  (Ok (s.1 !! handle), (delete handle s.1, s.2)).

(** ** The invariant of the table *)

(** What the constructors [secret] and [p256_private] build. *)
Definition session_object_ok (o : SessionObject) : Prop :=
  match object_material o with
  | SecretValue v =>
      1 ≤ len v ≤ 1024 ∧
      (kind o = Aes → len v = 16 ∨ len v = 24 ∨ len v = 32) ∧ kind o ≠ P256PrivateKind
  | P256Private k => kind o = P256PrivateKind ∧ key_kind k = KindEc P256
  end.

Record session_objects_ok (self : SessionObjects) : Prop := {
  session_objects_size : Z.of_nat (size self) ≤ MAX_SESSION_OBJECTS;
  session_objects_each handle o : self !! handle = Some o → handle ≠ 0 ∧ session_object_ok o;
}.

Lemma empty_session_objects : session_objects_ok ∅.
Proof.
  split; [by apply Z.leb_le|].
  intros ?? Hl. by rewrite lookup_empty in Hl.
Qed.

Lemma secret_ok k f v o : secret k f v = Some o → session_object_ok o ∧ flags o = f ∧ kind o = k.
Proof.
  unfold secret. destruct (_ || _) eqn:Hb; intros; inv_ok. bool_prop.
  pose proof (len_nonneg v). unfold session_object_ok. cbn.
  split; [|done]. split; [lia|]. split; [|done].
  intros ->. rewrite bool_decide_true in * by done. cbn in *.
  destruct (len v =? 16) eqn:?, (len v =? 24) eqn:?, (len v =? 32) eqn:?; bool_prop; auto; done.
Qed.

Lemma p256_private_ok f k o :
  p256_private f k = Some o → session_object_ok o ∧ flags o = f ∧ kind o = P256PrivateKind.
Proof.
  unfold p256_private. destruct (negb _) eqn:Hb; intros; inv_ok. bool_prop. done.
Qed.

(** What one run of the insertion loop does to the table. *)
Lemma insert_loop_spec fuel o s r s' :
  insert_loop fuel o s = (r, s') →
  match r with
  | Ok (Some handle) => handle ≠ 0 ∧ s.1 !! handle = None ∧ s'.1 = <[handle := o]> s.1
  | _ => s'.1 = s.1
  end.
Proof.
  revert s. induction fuel as [|fuel IH]; intros [m w] Hl; cbn in Hl; [by inv_ok|].
  destruct (getrandom_fill 8 w) as [[b|] w']; [|by inv_ok].
  destruct (_ && _) eqn:Hb; [|by apply IH in Hl].
  inv_ok. bool_prop. cbn. split; [done|]. split; [|done]. by apply eq_None_not_Some.
Qed.
End session_objects.

Abbreviation SessionObjects := (gmap Z SessionObject).
