(* ===== verification/Requests.v ===== *)
(** * Command requests (crates/virtual-yubihsm-core/src/request.rs)

    Every request type and its decoder, field by field in wire order. A request
    is a one-constructor inductive whose arguments are the fields of the Rust
    struct; the types that a macro of the source declares with the same fields
    are abbreviations of one type. *)

From S2P Require Import Prelude Error Frame Firmware Algorithm Capability Protocol KeyCore Toy.
From S2P Require Import Wire Objects SessionObjects.

(** ** Families of request types *)

Inductive EmptyRequest : Set := EmptyRequest_.
#[export] Instance decode_empty : Decode EmptyRequest := decoder ( mret EmptyRequest_).

Inductive RemainderRequest : Set := RemainderRequest_ (data : bytes).
#[export] Instance decode_remainder : Decode RemainderRequest := decoder (
  data ← read_remainder; mret (RemainderRequest_ data)).

Inductive U8Request : Set := U8Request_ (value : Z).
#[export] Instance decode_u8_request : Decode U8Request := decoder (
  value ← read_u8; mret (U8Request_ value)).

Inductive U16Request : Set := U16Request_ (value : Z).
#[export] Instance decode_u16_request : Decode U16Request := decoder (
  value ← read_u16; mret (U16Request_ value)).

Inductive IdRemainderRequest : Set := IdRemainderRequest_ (id : Z) (rest : bytes).
#[export] Instance decode_id_remainder : Decode IdRemainderRequest := decoder (
  id ← read_u16; rest ← read_remainder; mret (IdRemainderRequest_ id rest)).

Abbreviation GetDevicePublicKeyRequest := EmptyRequest.
Abbreviation CloseSessionRequest := EmptyRequest.
Abbreviation GetStorageInfoRequest := EmptyRequest.
Abbreviation GetLogEntriesRequest := EmptyRequest.
Abbreviation ResetDeviceRequest := EmptyRequest.
Abbreviation EchoRequest := RemainderRequest.
Abbreviation GetOptionRequest := U8Request.
Abbreviation BlinkDeviceRequest := U8Request.
Abbreviation GetPseudoRandomRequest := U16Request.
Abbreviation SetLogIndexRequest := U16Request.
Abbreviation GetOpaqueRequest := U16Request.
Abbreviation GetTemplateRequest := U16Request.
Abbreviation RandomizeOtpAeadRequest := U16Request.
Abbreviation EncapsulateMlKemRequest := U16Request.
Abbreviation SignPkcs1Request := IdRemainderRequest.
Abbreviation SignEcdsaRequest := IdRemainderRequest.
Abbreviation SignEddsaRequest := IdRemainderRequest.
Abbreviation DecapsulateMlKemRequest := IdRemainderRequest.
Abbreviation DeriveEcdhRequest := IdRemainderRequest.
Abbreviation DecryptPkcs1Request := IdRemainderRequest.
Abbreviation SignHmacRequest := IdRemainderRequest.
Abbreviation VerifyHmacRequest := IdRemainderRequest.
Abbreviation WrapDataRequest := IdRemainderRequest.
Abbreviation UnwrapDataRequest := IdRemainderRequest.
Abbreviation EncryptEcbRequest := IdRemainderRequest.
Abbreviation DecryptEcbRequest := IdRemainderRequest.

(** ** Object filters *)

Record ObjectFilters : Set := mkFilters {
  filter_id : option Z;
  filter_type : option ObjectType;
  filter_domains : option Z;
  filter_capabilities : option CapabilitySet;
  filter_algorithm : option Z;
  filter_label : option bytes;
}.

Definition default_filters : ObjectFilters := mkFilters None None None None None None.

(** The bytes up to the first NUL: [label.split(|b| *b == 0).next()]. *)
Fixpoint trim_label (label : bytes) : bytes :=
  match label with
  | [] => []
  | byte :: label => if byte =? 0 then [] else byte :: trim_label label
  end.

Definition read_object_type : Reader ObjectType :=
  value ← read_u8;
  lift (ok_or (ObjectTypes.from_byte value) InvalidData).

Definition read_capabilities : Reader CapabilitySet :=
  value ← read_array 8;
  mret (from_bytes value).

(** One tag and its value. *)
Definition decode_filter (filters : ObjectFilters) : Reader ObjectFilters :=
  let '(mkFilters fid ftype fdomains fcaps falg flabel) := filters in
  tag ← read_u8;
  match tag with
  | 1 => id ← read_u16; mret (mkFilters (Some id) ftype fdomains fcaps falg flabel)
  | 2 => ty ← read_object_type; mret (mkFilters fid (Some ty) fdomains fcaps falg flabel)
  | 3 => domains ← read_u16; mret (mkFilters fid ftype (Some domains) fcaps falg flabel)
  | 4 => caps ← read_capabilities; mret (mkFilters fid ftype fdomains (Some caps) falg flabel)
  | 5 => algorithm ← read_u8; mret (mkFilters fid ftype fdomains fcaps (Some algorithm) flabel)
  | 6 => label ← read_array 40;
         mret (mkFilters fid ftype fdomains fcaps falg (Some (trim_label label)))
  | _ => fail InvalidData
  end.

(** The [while] loop; every iteration consumes at least the tag, so the number
    of remaining bytes is enough fuel. *)
Fixpoint decode_filters (fuel : nat) (filters : ObjectFilters) : Reader ObjectFilters :=
  remaining ← remaining_len;
  if remaining =? 0 then mret filters
  else
    match fuel with
    | O => lift Diverge
    | S fuel => filters ← decode_filter filters; decode_filters fuel filters
    end.

#[export] Instance decode_object_filters : Decode ObjectFilters := λ remaining,
  decode_filters (List.length remaining) default_filters remaining.

Definition matches (self : ObjectFilters) (object : ObjectInfo) : bool :=
  is_none_or (filter_id self) (λ id, Objects.id object =? id)
  && is_none_or (filter_type self) (λ ty, bool_decide (object_type object = ty))
  && is_none_or (filter_domains self) (λ d, negb (Z.land (domains object) d =? 0))
  && is_none_or (filter_capabilities self) (λ c, contains_all (capabilities object) c)
  && is_none_or (filter_algorithm self) (λ a, Objects.algorithm object =? a)
  && is_none_or (filter_label self) (λ l, bool_decide (label object = l)).

Inductive ListObjectsRequest : Set := ListObjectsRequest_ (filters : ObjectFilters).
#[export] Instance decode_list_objects : Decode ListObjectsRequest := decoder (
  filters ← decode_fields; mret (ListObjectsRequest_ filters)).

(** ** Session and object selection *)

Inductive GetDeviceInfoRequest : Set := GetDeviceInfoRequest_ (selector : option Z).
#[export] Instance decode_get_device_info : Decode GetDeviceInfoRequest := decoder (
  remaining ← remaining_len;
  selector ←
    (if remaining =? 0 then mret None
     else if remaining =? 1 then value ← read_u8; mret (Some value)
     else fail InvalidData);
  mret (GetDeviceInfoRequest_ selector)).

Inductive CreateSessionRequest : Set :=
  CreateSessionRequest_ (authentication_key_id : Z) (host_challenge_or_public_key : bytes).
#[export] Instance decode_create_session : Decode CreateSessionRequest := decoder (
  authentication_key_id ← read_u16;
  host_challenge_or_public_key ← read_remainder;
  mret (CreateSessionRequest_ authentication_key_id host_challenge_or_public_key)).

Inductive SessionEnvelopeRequest : Set := SessionEnvelopeRequest_ (session_id : Z) (body : bytes).
#[export] Instance decode_session_envelope : Decode SessionEnvelopeRequest := decoder (
  session_id ← read_u8;
  body ← read_remainder;
  mret (SessionEnvelopeRequest_ session_id body)).

Abbreviation AuthenticateSessionRequest := SessionEnvelopeRequest.
Abbreviation SessionMessageRequest := SessionEnvelopeRequest.

Inductive ObjectKeyRequest : Set := ObjectKeyRequest_ (key : ObjectKey).
#[export] Instance decode_object_key : Decode ObjectKeyRequest := decoder (
  id ← read_u16;
  object_type ← read_object_type;
  mret (ObjectKeyRequest_ (mkObjectKey object_type id))).

Abbreviation GetObjectInfoRequest := ObjectKeyRequest.
Abbreviation DeleteObjectRequest := ObjectKeyRequest.

Inductive GetPublicKeyRequest : Set := GetPublicKeyRequest_ (id : Z) (object_type : ObjectType).
#[export] Instance decode_get_public_key : Decode GetPublicKeyRequest := decoder (
  id ← read_u16;
  remaining ← remaining_len;
  object_type ←
    (if remaining =? 0 then mret AsymmetricKey
     else if remaining =? 1 then read_object_type
     else fail WrongLength);
  mret (GetPublicKeyRequest_ id object_type)).

Inductive SetOptionRequest : Set := SetOptionRequest_ (option : Z) (values : bytes).
#[export] Instance decode_set_option : Decode SetOptionRequest := decoder (
  option ← read_u8;
  values ← read_u16_sized_slice;
  mret (SetOptionRequest_ option values)).

(** ** Object creation *)

Inductive ObjectHeader : Set :=
  ObjectHeader_ (requested_id : Z) (label : bytes) (domains : Z)
    (capabilities : CapabilitySet) (algorithm : Z).
#[export] Instance decode_object_header : Decode ObjectHeader := decoder (
  requested_id ← read_u16;
  label ← read_array 40;
  domains ← read_u16;
  capabilities ← read_capabilities;
  algorithm ← read_u8;
  mret (ObjectHeader_ requested_id label domains capabilities algorithm)).

Inductive ObjectRequest : Set := ObjectRequest_ (header : ObjectHeader) (material : bytes).
#[export] Instance decode_object_request : Decode ObjectRequest := decoder (
  header ← decode_fields (T := ObjectHeader);
  material ← read_remainder;
  mret (ObjectRequest_ header material)).

Abbreviation PutOpaqueRequest := ObjectRequest.
Abbreviation PutAsymmetricKeyRequest := ObjectRequest.
Abbreviation GenerateAsymmetricKeyRequest := ObjectRequest.
Abbreviation PutHmacKeyRequest := ObjectRequest.
Abbreviation GenerateHmacKeyRequest := ObjectRequest.
Abbreviation PutSymmetricKeyRequest := ObjectRequest.
Abbreviation GenerateSymmetricKeyRequest := ObjectRequest.
Abbreviation PutTemplateRequest := ObjectRequest.

Inductive DelegatedObjectRequest : Set :=
  DelegatedObjectRequest_ (header : ObjectHeader) (delegated_capabilities : CapabilitySet)
    (material : bytes).
#[export] Instance decode_delegated_object : Decode DelegatedObjectRequest := decoder (
  header ← decode_fields (T := ObjectHeader);
  delegated_capabilities ← read_capabilities;
  material ← read_remainder;
  mret (DelegatedObjectRequest_ header delegated_capabilities material)).

Abbreviation PutAuthenticationKeyRequest := DelegatedObjectRequest.
Abbreviation PutWrapKeyRequest := DelegatedObjectRequest.
Abbreviation GenerateWrapKeyRequest := DelegatedObjectRequest.
Abbreviation PutPublicWrapKeyRequest := DelegatedObjectRequest.

Inductive OtpAeadKeyRequest : Set :=
  OtpAeadKeyRequest_ (header : ObjectHeader) (nonce_id material : bytes).
#[export] Instance decode_otp_aead_key : Decode OtpAeadKeyRequest := decoder (
  header ← decode_fields (T := ObjectHeader);
  nonce_id ← read_array 4;
  material ← read_remainder;
  mret (OtpAeadKeyRequest_ header nonce_id material)).

Abbreviation PutOtpAeadKeyRequest := OtpAeadKeyRequest.
Abbreviation GenerateOtpAeadKeyRequest := OtpAeadKeyRequest.

(** ** Key use *)

Inductive SignPssRequest : Set :=
  SignPssRequest_ (id mgf_hash salt_length : Z) (digest : bytes).
#[export] Instance decode_sign_pss : Decode SignPssRequest := decoder (
  id ← read_u16;
  mgf_hash ← read_u8;
  salt_length ← read_u16;
  digest ← read_remainder;
  mret (SignPssRequest_ id mgf_hash salt_length digest)).

Section prehash.
Context `{SoftwareKeyCore}.

Inductive SignMlDsaRequest : Type :=
  SignMlDsaRequest_ (prehash : option MlDsaPrehash) (id mode : Z) (context message : bytes).
#[export] Instance decode_sign_ml_dsa : Decode SignMlDsaRequest := decoder (
  id ← read_u16;
  mode ← read_u8;
  hash ← read_u8;
  prehash ←
    (if hash =? 0 then mret None
     else prehash ← lift (ok_or (ml_dsa_prehash_from_id hash) InvalidData);
          mret (Some prehash));
  context ← read_u8_sized_slice;
  message ← read_remainder;
  _ ← lift (reject_if (is_some_and prehash (λ hash,
                negb (len message =? ml_dsa_prehash_digest_length hash))) WrongLength);
  mret (SignMlDsaRequest_ prehash id mode context message)).
End prehash.

Inductive DeriveEcdhKdfRequest : Set :=
  DeriveEcdhKdfRequest_ (id hash output_length : Z) (peer_public prefix shared_info : bytes).
#[export] Instance decode_derive_ecdh_kdf : Decode DeriveEcdhKdfRequest := decoder (
  id ← read_u16;
  hash ← read_u8;
  output_length ← read_u16;
  peer_length ← read_u16;
  prefix_length ← read_u16;
  info_length ← read_u16;
  peer_public ← read_slice peer_length;
  prefix ← read_slice prefix_length;
  shared_info ← read_slice info_length;
  mret (DeriveEcdhKdfRequest_ id hash output_length peer_public prefix shared_info)).

Inductive SessionObjectRequest : Set :=
  SessionObjectRequest_ (operation : SessionObjectCommand.SessionObjectCommand) (payload : bytes).
#[export] Instance decode_session_object : Decode SessionObjectRequest := decoder (
  selector ← read_u8;
  operation ← lift (ok_or (SessionObjectCommand.from_byte selector) InvalidData);
  payload ← read_remainder;
  mret (SessionObjectRequest_ operation payload)).

Inductive DecryptOaepRequest : Set :=
  DecryptOaepRequest_ (id mgf_hash : Z) (ciphertext_and_label : bytes).
#[export] Instance decode_decrypt_oaep : Decode DecryptOaepRequest := decoder (
  id ← read_u16;
  mgf_hash ← read_u8;
  ciphertext_and_label ← read_remainder;
  mret (DecryptOaepRequest_ id mgf_hash ciphertext_and_label)).

Inductive AesCbcRequest : Set := AesCbcRequest_ (id : Z) (iv input : bytes).
#[export] Instance decode_aes_cbc : Decode AesCbcRequest := decoder (
  id ← read_u16;
  iv ← read_array 16;
  input ← read_remainder;
  mret (AesCbcRequest_ id iv input)).

Abbreviation EncryptCbcRequest := AesCbcRequest.
Abbreviation DecryptCbcRequest := AesCbcRequest.

Inductive ExportWrappedRequest : Set :=
  ExportWrappedRequest_ (wrap_id : Z) (target : ObjectKey) (format : option Z).
#[export] Instance decode_export_wrapped : Decode ExportWrappedRequest := decoder (
  wrap_id ← read_u16;
  object_type ← read_object_type;
  id ← read_u16;
  remaining ← remaining_len;
  format ←
    (if remaining =? 0 then mret None
     else if remaining =? 1 then value ← read_u8; mret (Some value)
     else fail WrongLength);
  mret (ExportWrappedRequest_ wrap_id (mkObjectKey object_type id) format)).

Inductive ImportWrappedRequest : Set :=
  ImportWrappedRequest_ (wrap_id format : Z) (nonce ciphertext : bytes).
#[export] Instance decode_import_wrapped : Decode ImportWrappedRequest := decoder (
  wrap_id ← read_u16;
  format ← read_u8;
  nonce ← read_array 13;
  ciphertext ← read_remainder;
  mret (ImportWrappedRequest_ wrap_id format nonce ciphertext)).

Inductive CreateOtpAeadRequest : Set := CreateOtpAeadRequest_ (id : Z) (credential : bytes).
#[export] Instance decode_create_otp_aead : Decode CreateOtpAeadRequest := decoder (
  id ← read_u16;
  credential ← read_array 22;
  mret (CreateOtpAeadRequest_ id credential)).

Inductive DecryptOtpRequest : Set := DecryptOtpRequest_ (id : Z) (aead otp : bytes).
#[export] Instance decode_decrypt_otp : Decode DecryptOtpRequest := decoder (
  id ← read_u16;
  aead ← read_array 36;
  otp ← read_array 16;
  mret (DecryptOtpRequest_ id aead otp)).

Inductive RewrapOtpAeadRequest : Set := RewrapOtpAeadRequest_ (from_id to_id : Z) (aead : bytes).
#[export] Instance decode_rewrap_otp_aead : Decode RewrapOtpAeadRequest := decoder (
  from_id ← read_u16;
  to_id ← read_u16;
  aead ← read_array 36;
  mret (RewrapOtpAeadRequest_ from_id to_id aead)).

Inductive SignAttestationCertificateRequest : Set :=
  SignAttestationCertificateRequest_ (target_id attesting_id : Z).
#[export] Instance decode_sign_attestation : Decode SignAttestationCertificateRequest := decoder (
  target_id ← read_u16;
  attesting_id ← read_u16;
  mret (SignAttestationCertificateRequest_ target_id attesting_id)).

Inductive ChangeAuthenticationKeyRequest : Set :=
  ChangeAuthenticationKeyRequest_ (id algorithm : Z) (material : bytes).
#[export] Instance decode_change_authentication_key : Decode ChangeAuthenticationKeyRequest := decoder (
  id ← read_u16;
  algorithm ← read_u8;
  material ← read_remainder;
  mret (ChangeAuthenticationKeyRequest_ id algorithm material)).

(** ** RSA wrapping *)

Inductive ExportRsaWrappedFields : Set :=
  ExportRsaWrappedFields_ (wrap_id : Z) (target : ObjectKey)
    (aes_algorithm oaep_hash mgf_hash : Z) (label_hash : bytes).
#[export] Instance decode_export_rsa_wrapped : Decode ExportRsaWrappedFields := decoder (
  wrap_id ← read_u16;
  object_type ← read_object_type;
  id ← read_u16;
  aes_algorithm ← read_u8;
  oaep_hash ← read_u8;
  mgf_hash ← read_u8;
  label_hash ← read_remainder;
  mret (ExportRsaWrappedFields_ wrap_id (mkObjectKey object_type id) aes_algorithm oaep_hash
          mgf_hash label_hash)).

Abbreviation GetRsaWrappedKeyRequest := ExportRsaWrappedFields.
Abbreviation ExportRsaWrappedRequest := ExportRsaWrappedFields.

Inductive ImportRsaWrappedRequest : Set :=
  ImportRsaWrappedRequest_ (wrap_id oaep_hash mgf_hash : Z) (wrapped_and_label : bytes).
#[export] Instance decode_import_rsa_wrapped : Decode ImportRsaWrappedRequest := decoder (
  wrap_id ← read_u16;
  oaep_hash ← read_u8;
  mgf_hash ← read_u8;
  wrapped_and_label ← read_remainder;
  mret (ImportRsaWrappedRequest_ wrap_id oaep_hash mgf_hash wrapped_and_label)).

Inductive PutRsaWrappedKeyRequest : Set :=
  PutRsaWrappedKeyRequest_ (wrap_id : Z) (object_type : ObjectType) (requested_id : Z)
    (label : bytes) (domains : Z) (capabilities : CapabilitySet)
    (algorithm oaep_hash mgf_hash : Z) (wrapped_and_label : bytes).
#[export] Instance decode_put_rsa_wrapped_key : Decode PutRsaWrappedKeyRequest := decoder (
  wrap_id ← read_u16;
  object_type ← read_object_type;
  requested_id ← read_u16;
  label ← read_array 40;
  domains ← read_u16;
  capabilities ← read_capabilities;
  algorithm ← read_u8;
  oaep_hash ← read_u8;
  mgf_hash ← read_u8;
  wrapped_and_label ← read_remainder;
  mret (PutRsaWrappedKeyRequest_ wrap_id object_type requested_id label domains capabilities
          algorithm oaep_hash mgf_hash wrapped_and_label)).

(** ** Session objects *)

Inductive SessionSourceRequest : Set :=
| Volatile (handle : Z)
| PersistentAsymmetric (id : Z)
| PersistentSymmetric (id : Z).
#[export] Instance decode_session_source : Decode SessionSourceRequest := decoder (
  selector ← read_u8;
  match selector with
  | 0 => handle ← read_u64; mret (Volatile handle)
  | 1 => id ← read_u16; mret (PersistentAsymmetric id)
  | 2 => id ← read_u16; mret (PersistentSymmetric id)
  | _ => fail InvalidData
  end).

Inductive SessionResultHeader : Set :=
  SessionResultHeader_ (flags : Z) (kind : SessionObjectKind) (output_length : Z).
#[export] Instance decode_session_result_header : Decode SessionResultHeader := decoder (
  flags ← read_u8;
  value ← read_u8;
  kind ← lift (ok_or (kind_from_byte value) InvalidData);
  output_length ← read_u16;
  mret (SessionResultHeader_ flags kind output_length)).

Inductive GenerateSessionAsymmetricKeyRequest : Set :=
  GenerateSessionAsymmetricKeyRequest_ (flags algorithm : Z).
#[export] Instance decode_generate_session_key : Decode GenerateSessionAsymmetricKeyRequest := decoder (
  flags ← read_u8;
  algorithm ← read_u8;
  mret (GenerateSessionAsymmetricKeyRequest_ flags algorithm)).

Inductive DeriveSessionEcdhRequest : Set :=
  DeriveSessionEcdhRequest_ (header : SessionResultHeader) (source : SessionSourceRequest)
    (peer_public : bytes).
#[export] Instance decode_derive_session_ecdh : Decode DeriveSessionEcdhRequest := decoder (
  header ← decode_fields (T := SessionResultHeader);
  source ← decode_fields (T := SessionSourceRequest);
  peer_public ← read_u16_sized_slice;
  mret (DeriveSessionEcdhRequest_ header source peer_public)).

Inductive ConcatenateSessionKeysRequest : Set :=
  ConcatenateSessionKeysRequest_ (header : SessionResultHeader) (left right : Z).
#[export] Instance decode_concatenate_keys : Decode ConcatenateSessionKeysRequest := decoder (
  header ← decode_fields (T := SessionResultHeader);
  left ← read_u64;
  right ← read_u64;
  mret (ConcatenateSessionKeysRequest_ header left right)).

Inductive ConcatenateSessionDataRequest : Set :=
  ConcatenateSessionDataRequest_ (header : SessionResultHeader) (base : Z) (data : bytes).
#[export] Instance decode_concatenate_data : Decode ConcatenateSessionDataRequest := decoder (
  header ← decode_fields (T := SessionResultHeader);
  base ← read_u64;
  data ← read_remainder;
  mret (ConcatenateSessionDataRequest_ header base data)).

Inductive ExtractSessionObjectRequest : Set :=
  ExtractSessionObjectRequest_ (header : SessionResultHeader) (base offset : Z).
#[export] Instance decode_extract : Decode ExtractSessionObjectRequest := decoder (
  header ← decode_fields (T := SessionResultHeader);
  base ← read_u64;
  offset ← read_u16;
  mret (ExtractSessionObjectRequest_ header base offset)).

Inductive Sha256SessionObjectRequest : Set :=
  Sha256SessionObjectRequest_ (header : SessionResultHeader) (base : Z).
#[export] Instance decode_sha256 : Decode Sha256SessionObjectRequest := decoder (
  header ← decode_fields (T := SessionResultHeader);
  base ← read_u64;
  mret (Sha256SessionObjectRequest_ header base)).

(** One field of the counter KDF's input. *)
Definition decode_kdf_field : Reader CounterKdfField :=
  kind ← read_u8;
  if kind =? 0 then
    value ← read_u16_sized_slice;
    _ ← lift (reject_if (len value =? 0) WrongLength);
    mret (FieldBytes value)
  else if (kind =? 1) || (kind =? 2) then
    width_bits ← read_u8;
    order ← read_u8;
    little_endian ←
      match order with
      | 0 => mret false
      | 1 => mret true
      | _ => fail InvalidData
      end;
    let format := {| width_bits := width_bits; little_endian := little_endian |} in
    if kind =? 1 then mret (FieldCounter format)
    else
      selector ← read_u8;
      match selector with
      | 0 => mret (FieldLength format LengthKey)
      | 1 => mret (FieldLength format LengthSegments)
      | _ => fail InvalidData
      end
  else fail InvalidData.

Fixpoint decode_kdf_fields (count : nat) : Reader (list CounterKdfField) :=
  match count with
  | O => mret []
  | S count =>
      field ← decode_kdf_field;
      fields ← decode_kdf_fields count;
      mret (field :: fields)
  end.

Inductive CounterKdfSessionObjectRequest : Set :=
  CounterKdfSessionObjectRequest_ (header : SessionResultHeader)
    (source : SessionSourceRequest) (fields : list CounterKdfField).
#[export] Instance decode_counter_kdf : Decode CounterKdfSessionObjectRequest := decoder (
  header ← decode_fields (T := SessionResultHeader);
  source ← decode_fields (T := SessionSourceRequest);
  count ← read_u8;
  _ ← lift (reject_if (negb ((1 <=? count) && (count <=? 64))) InvalidData);
  fields ← decode_kdf_fields (Z.to_nat count);
  mret (CounterKdfSessionObjectRequest_ header source fields)).

Inductive U64Request : Set := U64Request_ (handle : Z).
#[export] Instance decode_u64_request : Decode U64Request := decoder (
  handle ← read_u64; mret (U64Request_ handle)).
Abbreviation ReadSessionObjectRequest := U64Request.
Abbreviation DeleteSessionObjectRequest := U64Request.

Inductive VerifySessionCmacRequest : Set :=
  VerifySessionCmacRequest_ (handle : Z) (signature message : bytes).
#[export] Instance decode_verify_session_cmac : Decode VerifySessionCmacRequest :=
  handle ← read_u64;
  signature ← read_u8_sized_slice;
  message ← read_remainder;
  mret (VerifySessionCmacRequest_ handle signature message).

(** ** Lemmas: no decoder panics or diverges *)

Lemma total_read_object_type : total read_object_type.
Proof. solve_total. Qed.
Lemma total_read_capabilities : total read_capabilities.
Proof. solve_total. Qed.
#[export] Hint Resolve total_read_object_type total_read_capabilities : yhsm.

Lemma total_read_u8_sized_slice : total read_u8_sized_slice.
Proof. solve_total. Qed.
Lemma total_read_u16_sized_slice : total read_u16_sized_slice.
Proof. solve_total. Qed.
#[export] Hint Resolve total_read_u8_sized_slice total_read_u16_sized_slice : yhsm.

Lemma total_decode_filter f : total (decode_filter f).
Proof. destruct f. unfold decode_filter. solve_total. Qed.
#[export] Hint Resolve total_decode_filter : yhsm.

Lemma total_object_header : total (decode_fields (T := ObjectHeader)).
Proof. unfold decode_fields, decode_object_header, decoder. solve_total. Qed.
Lemma total_result_header : total (decode_fields (T := SessionResultHeader)).
Proof. unfold decode_fields, decode_session_result_header, decoder. solve_total. Qed.
Lemma total_session_source : total (decode_fields (T := SessionSourceRequest)).
Proof. unfold decode_fields, decode_session_source, decoder. solve_total. Qed.
#[export] Hint Resolve total_object_header total_result_header total_session_source : yhsm.

Lemma total_kdf_field : total decode_kdf_field.
Proof. unfold decode_kdf_field. solve_total. Qed.
#[export] Hint Resolve total_kdf_field : yhsm.

Lemma total_kdf_fields n : total (decode_kdf_fields n).
Proof. induction n; cbn [decode_kdf_fields]; solve_total. Qed.
#[export] Hint Resolve total_kdf_fields : yhsm.

(** ** Lemmas: the filters of [ListObjects] *)

(** One entry of the tag-value list. *)
Inductive FilterEntry : Set :=
| EntryId (id : Z)
| EntryType (object_type : ObjectType)
| EntryDomains (domains : Z)
| EntryCapabilities (capabilities : CapabilitySet)
| EntryAlgorithm (algorithm : Z)
| EntryLabel (padded : bytes).

Definition entry_ok (e : FilterEntry) : Prop :=
  match e with
  | EntryId n | EntryDomains n => u16 n
  | EntryType _ => True
  | EntryCapabilities c => len (to_bytes c) = 8
  | EntryAlgorithm n => u8 n
  | EntryLabel l => len l = 40
  end.

Definition entry_bytes (e : FilterEntry) : bytes :=
  match e with
  | EntryId n => 1 :: u16_to_be_bytes n
  | EntryType t => [2; ObjectTypes.to_byte t]
  | EntryDomains n => 3 :: u16_to_be_bytes n
  | EntryCapabilities c => 4 :: to_bytes c
  | EntryAlgorithm n => [5; n]
  | EntryLabel l => 6 :: l
  end.

(** A later entry with the same tag replaces an earlier one. *)
Definition apply_entry (f : ObjectFilters) (e : FilterEntry) : ObjectFilters :=
  let '(mkFilters fid ftype fdomains fcaps falg flabel) := f in
  match e with
  | EntryId n => mkFilters (Some n) ftype fdomains fcaps falg flabel
  | EntryType t => mkFilters fid (Some t) fdomains fcaps falg flabel
  | EntryDomains n => mkFilters fid ftype (Some n) fcaps falg flabel
  | EntryCapabilities c => mkFilters fid ftype fdomains (Some c) falg flabel
  | EntryAlgorithm n => mkFilters fid ftype fdomains fcaps (Some n) flabel
  | EntryLabel l => mkFilters fid ftype fdomains fcaps falg (Some (trim_label l))
  end.

Lemma decode_filter_entry f e rest :
  entry_ok e → decode_filter f (entry_bytes e ++ rest) = (Ok (apply_entry f e), rest).
Proof.
  destruct f as [a b c d g h], e as [n|t|n|s|n|l]; intros He; cbn [entry_bytes app];
    unfold decode_filter, mbind, eff_bind; rewrite read_u8_cons.
  - by rewrite read_u16_app.
  - unfold read_object_type, mbind, eff_bind. rewrite read_u8_cons.
    by rewrite ObjectTypes.object_type_from_to_byte.
  - by rewrite read_u16_app.
  - unfold read_capabilities, mbind, eff_bind. rewrite (read_array_app 8) by done. by destruct s.
  - by rewrite read_u8_cons.
  - by rewrite (read_array_app 40).
Qed.

(** Conversely, what [decode_filter] accepts is one entry. *)

(** The bytes of a list of entries. *)
Definition entries_bytes (l : list FilterEntry) : bytes := concat (map entry_bytes l).

Lemma entry_bytes_cons e : ∃ t b, entry_bytes e = t :: b.
Proof. destruct e; by eexists _, _. Qed.

Lemma decode_filters_entries l f fuel :
  Forall entry_ok l → (List.length l ≤ fuel)%nat →
  decode_filters fuel f (entries_bytes l) = (Ok (foldl apply_entry f l), []).
Proof.
  revert f fuel. induction l as [|e l IH]; intros f fuel Hl Hf.
  { destruct fuel; done. }
  inversion_clear Hl as [|?? He Hl']. cbn [List.length] in Hf. destruct fuel as [|fuel]; [lia|].
  cbn [decode_filters entries_bytes map concat foldl]. fold (entries_bytes l).
  unfold mbind, eff_bind, remaining_len.
  rewrite (proj2 (Z.eqb_neq _ _)).
  - rewrite decode_filter_entry by done. by apply IH; [|lia].
  - destruct (entry_bytes_cons e) as (t & b & ->). cbn [app]. rewrite len_cons.
    pose proof (len_nonneg (b ++ entries_bytes l)). lia.
Qed.

Lemma length_entries l : (List.length l ≤ List.length (entries_bytes l))%nat.
Proof.
  induction l as [|e l IH]; [done|]. cbn [entries_bytes map concat List.length].
  fold (entries_bytes l). rewrite length_app.
  destruct (entry_bytes_cons e) as (t & b & ->). cbn [List.length]. lia.
Qed.

(** Every iteration consumes at least the tag. *)
Lemma decode_filter_shrinks f s f' s' :
  decode_filter f s = (Ok f', s') → (List.length s' < List.length s)%nat.
Proof.
  destruct f. unfold decode_filter. intros (tag & s1 & ->%read_u8_ok & Hd)%eff_bind_ok.
  assert (∀ (m : Reader ObjectFilters), total m → m s1 = (Ok f', s') →
    (List.length s' ≤ List.length s1)%nat) as Hm.
  { intros m Ht Heq. specialize (Ht s1). rewrite Heq in Ht. by apply suffix_length. }
  cbn [List.length]. apply Nat.lt_succ_r. revert Hd. apply Hm. solve_total.
Qed.

Lemma total_decode_filters n s f : (List.length s ≤ n)%nat →
  match decode_filters n f s with (Ok _, s') => s' = [] | (Err _, _) => True | _ => False end.
Proof.
  revert s f. induction n as [|n IH]; intros s f Hs; cbn [decode_filters];
    unfold mbind, eff_bind, remaining_len; destruct (len s =? 0) eqn:H0; bool_prop.
  - by apply len_zero.
  - unfold len in H0. lia.
  - by apply len_zero.
  - pose proof (total_decode_filter f s) as Ht.
    destruct (decode_filter f s) as [[f'|e| |] s'] eqn:Hd; try done.
    apply IH. apply decode_filter_shrinks in Hd. lia.
Qed.

(** Decoding, computed from the fields. *)
Lemma decode_run {T} `{Decode T} e v r :
  decode_fields e = (Ok v, r) → decode T e = if len r =? 0 then Ok v else Err WrongLength.
Proof. intros He. unfold decode. rewrite He. unfold finish. cbn. by destruct (len r =? 0). Qed.

(** The wire form of a creation request: header and material. *)
Definition header_bytes (h : ObjectHeader) : bytes :=
  let '(ObjectHeader_ id label domains caps algorithm) := h in
  u16_to_be_bytes id ++ label ++ u16_to_be_bytes domains ++ to_bytes caps ++ [algorithm].

Definition header_ok (h : ObjectHeader) : Prop :=
  let '(ObjectHeader_ id label domains caps algorithm) := h in
  u16 id ∧ len label = 40 ∧ u16 domains ∧ len (to_bytes caps) = 8.

Lemma read_capabilities_app s b : len (to_bytes s) = 8 →
  read_capabilities (to_bytes s ++ b) = (Ok s, b).
Proof.
  intros Hs. unfold read_capabilities, mbind, eff_bind. rewrite (read_array_app 8) by done.
  by destruct s.
Qed.

Lemma decode_header_app h b : header_ok h →
  decode_fields (T := ObjectHeader) (header_bytes h ++ b) = (Ok h, b).
Proof.
  destruct h as [id label domains caps algorithm]. intros (Hi & Hl & Hd & Hc).
  unfold decode_fields, decode_object_header, decoder, header_bytes. rewrite <- !app_assoc.
  unfold mbind, eff_bind. rewrite read_u16_app, (read_array_app 40) by done.
  rewrite read_u16_app, read_capabilities_app by done. cbn [app]. by rewrite read_u8_cons.
Qed.

(** ** Properties *)

(** The filter list of [ListObjects] is decoded entry by entry: any
    sequence of well-formed entries decodes to the filters with, for each tag,
    the value of its last entry (labels cut at the first NUL), the loop ends on
    every payload, and no payload makes it panic. *)
Theorem list_filters_decode (entries : list FilterEntry) (payload : bytes) :
  Forall entry_ok entries →
  decode ListObjectsRequest (entries_bytes entries) =
    Ok (ListObjectsRequest_ (foldl apply_entry default_filters entries)) ∧
  ((∃ filters, decode ListObjectsRequest payload = Ok filters) ∨
   (∃ e, decode ListObjectsRequest payload = Err e)).
Proof.
  intros He. split.
  - apply decode_ok. unfold decode_fields at 1, decode_list_objects, decoder, mbind, eff_bind.
    unfold decode_fields, decode_object_filters.
    by rewrite decode_filters_entries by (done || apply length_entries).
  - unfold decode, decode_fields at 1, decode_list_objects, decoder, mbind, eff_bind.
    unfold decode_fields, decode_object_filters.
    pose proof (total_decode_filters (List.length payload) payload default_filters ltac:(done)) as Ht.
    destruct (decode_filters _ _ payload) as [[f|e| |] s']; try done; [subst s'|]; eauto.
Qed.

Lemma list_filters_decode_witness :
  decode ListObjectsRequest ([1; 0; 7; 3; 0; 1] ++ 6 :: [97; 98] ++ zeros 38) =
  Ok (ListObjectsRequest_ (mkFilters (Some 7) None (Some 1) None None (Some [97; 98]))).
Proof.
  apply (proj1 (list_filters_decode
    [EntryId 7; EntryDomains 1; EntryLabel ([97; 98] ++ zeros 38)] []
    ltac:(repeat constructor; by vm_compute))).
Defined.

(** The fixed 53-byte header that every creation command carries is parsed
    field by field without loss: the encoding of a header, followed by any
    material, decodes to that header and that material, for plain, delegated
    and OTP-key requests. *)
Theorem creation_request_round_trip (h : ObjectHeader) (delegated : CapabilitySet)
    (nonce material : bytes) :
  header_ok h → len (to_bytes delegated) = 8 → len nonce = 4 →
  len (header_bytes h) = 53 ∧
  decode ObjectRequest (header_bytes h ++ material) = Ok (ObjectRequest_ h material) ∧
  decode DelegatedObjectRequest (header_bytes h ++ to_bytes delegated ++ material) =
    Ok (DelegatedObjectRequest_ h delegated material) ∧
  decode OtpAeadKeyRequest (header_bytes h ++ nonce ++ material) =
    Ok (OtpAeadKeyRequest_ h nonce material).
Proof.
  intros Hh Hd Hn. split.
  { destruct h; destruct Hh as (? & ? & ? & ?). unfold header_bytes. len_lia. }
  split; [|split]; apply decode_ok;
    unfold decode_fields at 1, decode_object_request, decode_delegated_object, decode_otp_aead_key,
      decoder, mbind, eff_bind; rewrite decode_header_app by done.
  - done.
  - by rewrite read_capabilities_app.
  - by rewrite (read_array_app 4).
Qed.

Lemma creation_request_round_trip_witness :
  decode ObjectRequest (header_bytes (ObjectHeader_ 7 (zeros 40) 1 ALL 30) ++ [1; 2]) =
  Ok (ObjectRequest_ (ObjectHeader_ 7 (zeros 40) 1 ALL 30) [1; 2]).
Proof.
  apply (proj1 (proj2 (creation_request_round_trip (ObjectHeader_ 7 (zeros 40) 1 ALL 30) ALL
    (zeros 4) [1; 2] ltac:(by vm_compute) ltac:(by vm_compute) ltac:(by vm_compute)))).
Defined.
