(* ===== verification/Layouts.v ===== *)
(** * Where the fields of a request are

    The offsets of the identifiers, types and descriptions that a command names,
    stated on the bytes of its data, and what the decoders of [Requests] read
    there. Specifications that speak of what a request names use these offsets and
    not the decoders. *)

From S2P Require Import Prelude Error Frame Firmware Algorithm Capability Protocol KeyCore Toy.
From S2P Require Import Wire Objects SessionObjects Requests.

(** The byte at an offset, and the big-endian 16-bit number at an offset. *)
Definition octet (n : nat) (data : bytes) : option Z := data !! n.
Definition word (n : nat) (data : bytes) : option Z :=
  match drop n data with
  | high :: low :: _ => Some (high * 256 + low)
  | _ => None
  end.

(** A key at an offset: the identifier, then the type. *)
Definition key_named (data : bytes) (key : ObjectKey) : Prop :=
  word 0 data = Some (key_id key) ∧
  (ty ← octet 2 data; ObjectTypes.from_byte ty) = Some (key_type key).

(** A key after a wrap key: the type, then the identifier. *)
Definition target_named (data : bytes) (key : ObjectKey) : Prop :=
  (ty ← octet 2 data; ObjectTypes.from_byte ty) = Some (key_type key) ∧
  word 3 data = Some (key_id key).

(** The description of a new object: its identifier, or zero for any; a label of 40
    bytes, up to its first zero; the domains, the capabilities and the algorithm. *)
Record header_describes (header : bytes) (i : ObjectInfo) : Prop := {
  describes_id : ∃ requested, word 0 header = Some requested ∧ (requested ≠ 0 → id i = requested);
  describes_label : label i = trim_label (take 40 (drop 2 header));
  describes_domains : word 42 header = Some (domains i);
  describes_capabilities : capabilities i = from_bytes (take 8 (drop 44 header));
  describes_algorithm : ∃ b, octet 52 header = Some b ∧ (0 ≤ b → algorithm i = b);
}.

(** The fields of a header as they are read. *)
Record header_fields (header : bytes) (requested : Z) (padded : bytes) (domains : Z)
    (capabilities : CapabilitySet) (algorithm : Z) : Prop := {
  field_id : word 0 header = Some requested;
  field_label : padded = take 40 (drop 2 header);
  field_domains : word 42 header = Some domains;
  field_capabilities : capabilities = from_bytes (take 8 (drop 44 header));
  field_algorithm : octet 52 header = Some algorithm;
}.

Lemma decode_consumes {T} `{Decode T} data v : decode T data = Ok v → decode_fields data = (Ok v, []).
Proof.
  unfold decode. destruct (decode_fields data) as [[v'| | |] rest]; [|done..].
  intros Hd. inv_ok. unfold finish in *. cbn [fst] in *. inv_ok. bool_prop.
  match goal with Hl : len rest = 0 |- _ => apply len_zero in Hl end. by subst.
Qed.

(** Turn a successful read into the bytes that it consumed. *)
Ltac read_layout :=
  repeat match goal with
  | H : decode _ _ = Ok _ |- _ => apply decode_consumes in H
  | H : read_u8 _ = (Ok _, _) |- _ => apply read_u8_ok in H; subst
  | H : read_u16 _ = (Ok _, _) |- _ => apply read_u16_ok in H as (? & ? & -> & ->)
  | H : read_array _ _ = (Ok _, _) |- _ => apply read_array_ok in H as [-> ?]; [|lia]
  | H : lift _ _ = (Ok _, _) |- _ => unfold lift in H; injection H as H; try subst
  | H : (mret _ : Eff _ _ _) _ = (Ok _, _) |- _ => injection H as H; try subst
  | H : eff_ret _ _ = (Ok _, _) |- _ => injection H as H; try subst
  | _ => progress inv_ok
  end.

Lemma header_layout r id label domains capabilities algorithm r' :
  decode_fields (T := ObjectHeader) r = (Ok (ObjectHeader_ id label domains capabilities algorithm), r') →
  header_fields r id label domains capabilities algorithm.
Proof.
  unfold decode_fields, decode_object_header, decoder, read_capabilities. intros Hd. inv_ok. read_layout.
  match goal with H : len label = 40 |- _ => rename H into Hl end.
  match goal with H : len ?c = 8 |- _ => rename c into caps, H into Hc end.
  unfold len in *. assert (List.length label = 40)%nat as Hl' by lia.
  assert (List.length caps = 8)%nat as Hc' by lia.
  assert (∀ n x, drop (40 + n) (label ++ x) = drop n x) as Hd1.
  { intros n x. by rewrite <- Hl', drop_app_add. }
  assert (∀ n x, drop (8 + n) (caps ++ x) = drop n x) as Hd2.
  { intros n x. by rewrite <- Hc', drop_app_add. }
  split.
  - done.
  - change (drop 2 (?a :: ?b :: ?l)) with l. by rewrite take_app_length'.
  - unfold word. change (drop 42 (x2 :: x3 :: ?l)) with (drop (40 + 0) l). by rewrite Hd1.
  - change (drop 44 (x2 :: x3 :: ?l)) with (drop (40 + 2) l). rewrite Hd1.
    change (drop 2 (x6 :: x11 :: ?l)) with l. by rewrite take_app_length'.
  - unfold octet. rewrite <- (Nat.add_0_r 52), <- lookup_drop.
    change (drop 52 (x2 :: x3 :: ?l)) with (drop (40 + 10) l). rewrite Hd1.
    change (drop 10 (x6 :: x11 :: ?l)) with (drop (8 + 0) l). by rewrite Hd2.
Qed.

Lemma object_layout data id label domains capabilities algorithm material :
  decode ObjectRequest data
  = Ok (ObjectRequest_ (ObjectHeader_ id label domains capabilities algorithm) material) →
  header_fields data id label domains capabilities algorithm.
Proof.
  intros Hd%decode_consumes. unfold decode_fields, decode_object_request, decoder in Hd.
  inv_ok. read_layout. by eapply header_layout.
Qed.

Lemma delegated_layout data id label domains capabilities algorithm delegated material :
  decode DelegatedObjectRequest data
  = Ok (DelegatedObjectRequest_ (ObjectHeader_ id label domains capabilities algorithm) delegated material) →
  header_fields data id label domains capabilities algorithm.
Proof.
  intros Hd%decode_consumes. unfold decode_fields, decode_delegated_object, decoder, read_capabilities in Hd.
  inv_ok. repeat match goal with H : mret _ _ = _ |- _ => injection H as H; subst end.
  by eapply header_layout.
Qed.

Lemma otp_key_layout data id label domains capabilities algorithm nonce material :
  decode OtpAeadKeyRequest data
  = Ok (OtpAeadKeyRequest_ (ObjectHeader_ id label domains capabilities algorithm) nonce material) →
  header_fields data id label domains capabilities algorithm.
Proof.
  intros Hd%decode_consumes. unfold decode_fields, decode_otp_aead_key, decoder in Hd.
  inv_ok. repeat match goal with H : mret _ _ = _ |- _ => injection H as H; subst end.
  by eapply header_layout.
Qed.

Lemma put_rsa_wrapped_layout data wrap ty id label domains capabilities algorithm oaep mgf rest :
  decode PutRsaWrappedKeyRequest data
  = Ok (PutRsaWrappedKeyRequest_ wrap ty id label domains capabilities algorithm oaep mgf rest) →
  word 0 data = Some wrap ∧ (b ← octet 2 data; ObjectTypes.from_byte b) = Some ty ∧
  header_fields (drop 3 data) id label domains capabilities algorithm.
Proof.
  intros Hd%decode_consumes. unfold decode_fields, decode_put_rsa_wrapped_key, decoder, read_object_type in Hd.
  inv_ok.
  match goal with H1 : read_u16 ?r = (Ok ?i, ?r1), H2 : read_array 40 ?r1 = (Ok ?l, ?r2),
      H3 : read_u16 ?r2 = (Ok ?dm, ?r3), H4 : read_capabilities ?r3 = (Ok ?c, ?r4),
      H5 : read_u8 ?r4 = (Ok ?a, ?r5) |- _ =>
    assert (decode_fields (T := ObjectHeader) r = (Ok (ObjectHeader_ i l dm c a), r5)) as Hh%header_layout
      by (unfold decode_fields, decode_object_header, decoder, mbind, eff_bind; by rewrite H1, H2, H3, H4, H5)
  end.
  match goal with H : mret _ _ = (Ok _, []) |- _ => injection H as H; subst end.
  repeat match goal with
  | H : read_u16 data = _ |- _ => apply read_u16_ok in H as (? & ? & -> & ->)
  | H : read_u8 _ = (Ok ?b, _) , H' : lift (ok_or (ObjectTypes.from_byte ?b) _) _ = _ |- _ =>
      apply read_u8_ok in H; unfold lift in H'; injection H' as H'; subst
  end.
  inv_ok. split; [done|]. split; [done|]. done.
Qed.

(** The requests that begin with an identifier. *)
Section words.
Context `{SoftwareKeyCore}.

#[local] Ltac id_layout :=
  intros Hd%decode_consumes;
  cbv [decode_fields decoder read_object_type decode_u16_request decode_id_remainder decode_sign_pss
       decode_sign_ml_dsa decode_derive_ecdh_kdf decode_decrypt_oaep decode_aes_cbc decode_create_otp_aead
       decode_decrypt_otp decode_rewrap_otp_aead decode_export_wrapped decode_export_rsa_wrapped
       decode_import_wrapped decode_import_rsa_wrapped decode_sign_attestation decode_object_key
       decode_get_public_key decode_change_authentication_key decode_set_option] in Hd;
  inv_ok; read_layout.

Lemma u16_layout data v : decode U16Request data = Ok (U16Request_ v) → word 0 data = Some v.
Proof. by id_layout. Qed.

Lemma id_remainder_layout data id rest :
  decode IdRemainderRequest data = Ok (IdRemainderRequest_ id rest) → word 0 data = Some id.
Proof. by id_layout. Qed.

Lemma sign_pss_layout data id mgf salt digest :
  decode SignPssRequest data = Ok (SignPssRequest_ id mgf salt digest) → word 0 data = Some id.
Proof. by id_layout. Qed.

Lemma sign_ml_dsa_layout data prehash id mode context message :
  decode SignMlDsaRequest data = Ok (SignMlDsaRequest_ prehash id mode context message) →
  word 0 data = Some id.
Proof. by id_layout. Qed.

Lemma derive_ecdh_kdf_layout data id hash n peer prefix shared :
  decode DeriveEcdhKdfRequest data = Ok (DeriveEcdhKdfRequest_ id hash n peer prefix shared) →
  word 0 data = Some id.
Proof. by id_layout. Qed.

Lemma decrypt_oaep_layout data id mgf rest :
  decode DecryptOaepRequest data = Ok (DecryptOaepRequest_ id mgf rest) → word 0 data = Some id.
Proof. by id_layout. Qed.

Lemma aes_cbc_layout data id iv input :
  decode AesCbcRequest data = Ok (AesCbcRequest_ id iv input) → word 0 data = Some id.
Proof. by id_layout. Qed.

Lemma create_otp_aead_layout data id credential :
  decode CreateOtpAeadRequest data = Ok (CreateOtpAeadRequest_ id credential) → word 0 data = Some id.
Proof. by id_layout. Qed.

Lemma decrypt_otp_layout data id aead otp :
  decode DecryptOtpRequest data = Ok (DecryptOtpRequest_ id aead otp) → word 0 data = Some id.
Proof. by id_layout. Qed.

Lemma rewrap_layout data from_id to_id aead :
  decode RewrapOtpAeadRequest data = Ok (RewrapOtpAeadRequest_ from_id to_id aead) →
  word 0 data = Some from_id ∧ word 2 data = Some to_id.
Proof. by id_layout. Qed.

Lemma attestation_layout data target_id attesting_id :
  decode SignAttestationCertificateRequest data
  = Ok (SignAttestationCertificateRequest_ target_id attesting_id) →
  word 0 data = Some target_id ∧ word 2 data = Some attesting_id.
Proof. by id_layout. Qed.

Lemma change_key_layout data id algorithm material :
  decode ChangeAuthenticationKeyRequest data = Ok (ChangeAuthenticationKeyRequest_ id algorithm material) →
  word 0 data = Some id.
Proof. by id_layout. Qed.

Lemma set_option_layout data option values :
  decode SetOptionRequest data = Ok (SetOptionRequest_ option values) → octet 0 data = Some option.
Proof. by id_layout. Qed.

Lemma object_key_layout data key :
  decode ObjectKeyRequest data = Ok (ObjectKeyRequest_ key) → key_named data key.
Proof. by id_layout. Qed.

Lemma import_wrapped_layout data wrap_id format nonce ciphertext :
  decode ImportWrappedRequest data = Ok (ImportWrappedRequest_ wrap_id format nonce ciphertext) →
  word 0 data = Some wrap_id.
Proof. by id_layout. Qed.

Lemma import_rsa_wrapped_layout data wrap_id oaep mgf rest :
  decode ImportRsaWrappedRequest data = Ok (ImportRsaWrappedRequest_ wrap_id oaep mgf rest) →
  word 0 data = Some wrap_id.
Proof. by id_layout. Qed.

Lemma export_wrapped_layout data wrap_id target format :
  decode ExportWrappedRequest data = Ok (ExportWrappedRequest_ wrap_id target format) →
  word 0 data = Some wrap_id ∧ target_named data target.
Proof. by id_layout. Qed.

Lemma export_rsa_wrapped_layout data wrap_id target aes oaep mgf label :
  decode ExportRsaWrappedFields data = Ok (ExportRsaWrappedFields_ wrap_id target aes oaep mgf label) →
  word 0 data = Some wrap_id ∧ target_named data target.
Proof. by id_layout. Qed.

(** The type of a public key may be left out, for an asymmetric key. *)
Lemma get_public_key_layout data id ty :
  decode GetPublicKeyRequest data = Ok (GetPublicKeyRequest_ id ty) →
  word 0 data = Some id ∧
  (octet 2 data = None ∧ ty = AsymmetricKey ∨ (b ← octet 2 data; ObjectTypes.from_byte b) = Some ty).
Proof.
  id_layout. split; [done|]. unfold remaining_len in *. inv_ok.
  match goal with Hr : (if len ?r =? 0 then _ else _) _ = _ |- _ =>
    destruct (len r =? 0) eqn:Hl; bool_prop;
      [apply len_zero in Hl; subst; injection Hr as <-; by left|destruct (len r =? 1)] end.
  - right. inv_ok. read_layout. done.
  - done.
Qed.
End words.
