(* ===== verification/SecureChannel.v ===== *)
(** * The secure channel (crates/virtual-yubihsm-core/src/session.rs and
    secure_channel_crypto.rs)

    The device side of the SCP03/SCP11 session: key derivation, command
    authentication and decryption, response encryption. The [&mut self]
    operations of [SecureSession] are computations over the session. *)

From S2P Require Import Prelude Error Frame Firmware Algorithm Protocol KeyCore Toy.

Definition BLOCK_SIZE : Z := AES_BLOCK_SIZE.
Definition MAC_LENGTH : Z := 8.
Definition CHALLENGE_LENGTH : Z := 8.
Definition P256_PUBLIC_KEY_LENGTH : Z := 65.
Definition AUTHENTICATION_ALGORITHM_AES128_YUBICO : Z := 38.
Definition AUTHENTICATION_ALGORITHM_EC_P256 : Z := 49.
Definition SCP11_SHARED_INFO : bytes := [0x3c; 0x88; 0x10].

(** [n.div_ceil(m)]. *)
Definition div_ceil (n m : Z) : Z := (n + m - 1) / m.

(** [usize::checked_mul]. *)
Definition checked_mul (a b : Z) : option Z :=
  if a * b <? 18446744073709551616 then Some (a * b) else None.

Definition secure_response_data_fits (data_length : Z) : bool :=
  match
    (length ← checked_add HEADER_LENGTH data_length;
     length ← checked_add length 1;
     checked_mul (div_ceil length BLOCK_SIZE) BLOCK_SIZE)
  with
  | None => false
  | Some padded_length =>
      is_some_and (length ← checked_add 1 padded_length; checked_add length MAC_LENGTH)
        (λ length, length <=? MAX_DATA_LENGTH)
  end.

Definition secure_response_fits (response : Frame) : bool :=
  secure_response_data_fits (len (data response)).

(** The counter is incremented from its last byte, with the carry. *)
Fixpoint increment_reversed (counter : bytes) : bytes :=
  match counter with
  | [] => []
  | byte :: rest =>
      let value := (byte + 1) mod 256 in
      if 256 <=? byte + 1 then value :: increment_reversed rest else value :: rest
  end.

Definition increment_counter (counter : bytes) : bytes :=
  reverse (increment_reversed (reverse counter)).

Record SecureSession : Set := mkSecure {
  sid : Z;
  s_enc : bytes;
  s_mac : bytes;
  s_rmac : bytes;
  counter : bytes;
  mac_chaining_value : bytes;
}.

#[export] Instance SecureSession_eq_dec : EqDecision SecureSession.
Proof. solve_decision. Defined.

Definition set_counter (c : bytes) (s : SecureSession) : SecureSession :=
  mkSecure (sid s) (s_enc s) (s_mac s) (s_rmac s) c (mac_chaining_value s).
Definition set_chaining (v : bytes) (s : SecureSession) : SecureSession :=
  mkSecure (sid s) (s_enc s) (s_mac s) (s_rmac s) (counter s) v.

Definition SESSION_MESSAGE_RESPONSE : Z :=
  Z.lor (CommandCode.to_byte CommandCode.SessionMessage) RESPONSE_BIT.

Section channel.
Context `{SoftwareKeyCore}.

Definition map_symmetric_error (error : SoftwareSymmetricError) : DeviceError :=
  match error with
  | InvalidDataLength | InvalidIvLength => WrongLength
  | InvalidKeyLength | SymmetricAuthenticationFailed => InvalidData
  end.

Definition map_symmetric {A} (r : A + SoftwareSymmetricError) : Result A :=
  match r with inl a => Ok a | inr e => Err (map_symmetric_error e) end.

Definition cmac (key data : bytes) : Result bytes := map_symmetric (aes_cmac key data).
Definition encrypt_block (key input : bytes) : Result bytes :=
  map_symmetric (encrypt_aes_block key input).
Definition cbc_encrypt (key iv data : bytes) : Result bytes :=
  map_symmetric (encrypt_aes_cbc key iv data).
Definition cbc_decrypt (key iv data : bytes) : Result bytes :=
  map_symmetric (decrypt_aes_cbc key iv data).
Definition pad (data : bytes) : bytes := pad_iso7816 data.
Definition unpad (data : bytes) : Result bytes := ok_or (unpad_iso7816 data) InvalidData.

Definition derive_key (key : bytes) (constant : Z) (context : bytes) : Result bytes :=
  ok_or (scp03_key key constant context) SessionFailed.
Definition derive_cryptogram (key : bytes) (constant : Z) (context : bytes) : Result bytes :=
  ok_or (scp03_cryptogram key constant context) SessionFailed.

Definition random_secret_key : Eff World DeviceError SoftwareSigningKey :=
  call (generate_for_kind (KindEc P256)) StorageFailed.

Definition x963_session_keys (ephemeral static_secret : bytes) : Result bytes :=
  keys ← ok_or (x963_kdf_sha256 (ephemeral ++ static_secret) SCP11_SHARED_INFO 64)
           SessionFailed;
  if len keys =? 64 then Ok keys else Err SessionFailed.

(** Returns the session, the card cryptogram and the expected host cryptogram. *)
Definition begin_symmetric (sid : Z) (static_keys host_challenge card_challenge : bytes) :
    Result (SecureSession * bytes * bytes) :=
  _ ← reject_if (negb (len static_keys =? 32)
                 || negb (len host_challenge =? CHALLENGE_LENGTH)) WrongLength;
  let context := host_challenge ++ card_challenge in
  s_enc ← derive_key (ztake 16 static_keys) 0x04 context;
  s_mac ← derive_key (zdrop 16 static_keys) 0x06 context;
  s_rmac ← derive_key (zdrop 16 static_keys) 0x07 context;
  card_cryptogram ← derive_cryptogram s_mac 0x00 context;
  host_cryptogram ← derive_cryptogram s_mac 0x01 context;
  mret (mkSecure sid s_enc s_mac s_rmac (zeros BLOCK_SIZE) (zeros BLOCK_SIZE),
        card_cryptogram, host_cryptogram).

(** Returns the session, the device's ephemeral public key and the receipt. *)
Definition begin_asymmetric (sid : Z) (device_static : SoftwareSigningKey)
    (host_static_public host_ephemeral_public : bytes) :
    Eff World DeviceError (SecureSession * bytes * bytes) :=
  _ ← lift (reject_if (negb (bool_decide (key_kind device_static = KindEc P256))) InvalidData);
  normalized_host_static ←
    (if len host_static_public =? 64 then mret (0x04 :: host_static_public)
     else if len host_static_public =? 65 then mret host_static_public
     else fail WrongLength);
  device_ephemeral ← random_secret_key;
  encoded_ephemeral ←
    match public_key device_ephemeral with
    | PublicEc _ uncompressed => mret uncompressed
    | _ => fail SessionFailed
    end;
  _ ← lift (reject_if (negb (len encoded_ephemeral =? P256_PUBLIC_KEY_LENGTH)) SessionFailed);
  ephemeral ← lift (ok_or (derive_with_signing_key device_ephemeral host_ephemeral_public)
                      InvalidData);
  static_secret ← lift (ok_or (derive_with_signing_key device_static normalized_host_static)
                          InvalidData);
  session_keys ← lift (x963_session_keys ephemeral static_secret);
  receipt_key ← lift (slice session_keys 0 16);
  receipt ← lift (cmac receipt_key (encoded_ephemeral ++ host_ephemeral_public));
  s_enc ← lift (slice session_keys 16 32);
  s_mac ← lift (slice session_keys 32 48);
  s_rmac ← lift (slice session_keys 48 64);
  mret (mkSecure sid s_enc s_mac s_rmac (increment_counter (zeros BLOCK_SIZE)) receipt,
        encoded_ephemeral, receipt).

(** Only a verified command MAC advances the chaining value. *)
Definition verify_request_mac (request : Frame) : Eff SecureSession DeviceError bytes :=
  self ← get_state;
  _ ← lift (reject_if (len (data request) <? MAC_LENGTH) AuthenticationFailed);
  let payload_length := len (data request) - MAC_LENGTH in
  prefix ← lift (slice (encode request) 0 (3 + payload_length));
  command_mac ← lift (cmac (s_mac self) (mac_chaining_value self ++ prefix));
  short_mac ← lift (slice command_mac 0 MAC_LENGTH);
  _ ← lift (reject_if (negb (bool_decide (short_mac = zdrop payload_length (data request))))
              AuthenticationFailed);
  _ ← set_state (set_chaining command_mac self);
  mret (ztake payload_length (data request)).

Definition authenticate_symmetric (request : Frame) (expected_host_cryptogram : bytes) :
    Eff SecureSession DeviceError unit :=
  payload ← verify_request_mac request;
  self ← get_state;
  let valid :=
    (len payload =? 1 + MAC_LENGTH)
    && bool_decide (head payload = Some (sid self))
    && bool_decide (zdrop 1 payload = expected_host_cryptogram) in
  _ ← lift (reject_if (negb valid) AuthenticationFailed);
  set_state (set_counter (increment_counter (counter self)) self).

Definition decrypt_request (request : Frame) : Eff SecureSession DeviceError Frame :=
  payload ← verify_request_mac request;
  self ← get_state;
  _ ← lift (reject_if
              ((len payload <? 1 + BLOCK_SIZE)
               || negb (bool_decide (head payload = Some (sid self)))
               || negb ((len payload - 1) mod BLOCK_SIZE =? 0)) SessionFailed);
  iv ← lift (encrypt_block (s_enc self) (counter self));
  clear ← lift (cbc_decrypt (s_enc self) iv (zdrop 1 payload));
  clear ← lift (unpad clear);
  lift (parse clear).

Definition encrypt_response (response : Frame) : Eff SecureSession DeviceError Frame :=
  self ← get_state;
  iv ← lift (encrypt_block (s_enc self) (counter self));
  ciphertext ← lift (cbc_encrypt (s_enc self) iv (pad (encode response)));
  let data := sid self :: ciphertext in
  let encoded_without_mac :=
    SESSION_MESSAGE_RESPONSE :: u16_to_be_bytes ((len data + MAC_LENGTH) mod 65536) ++ data in
  response_mac ← lift (cmac (s_rmac self) (mac_chaining_value self ++ encoded_without_mac));
  short_mac ← lift (slice response_mac 0 MAC_LENGTH);
  _ ← set_state (set_counter (increment_counter (counter self)) self);
  lift (new SESSION_MESSAGE_RESPONSE (data ++ short_mac)).
End channel.

(** ** The message counter is a 128-bit big-endian integer *)

Lemma increment_reversed_spec c :
  bytes_ok c →
  bytes_ok (increment_reversed c) ∧ List.length (increment_reversed c) = List.length c ∧
  from_be_bytes (reverse (increment_reversed c)) =
    (from_be_bytes (reverse c) + 1) mod 256 ^ Z.of_nat (List.length c).
Proof.
  induction 1 as [|b c Hb Hc (IHok & IHlen & IH)]; [done|]. cbn [increment_reversed].
  unfold u8 in Hb. pose proof (from_be_bytes_bound (reverse c)
    ltac:(apply Forall_reverse; exact Hc)) as Hbound.
  rewrite length_reverse in Hbound.
  assert (256 ^ Z.of_nat (List.length (b :: c)) = 256 * 256 ^ Z.of_nat (List.length c)) as Hpow.
  { cbn [List.length]. by rewrite Nat2Z.inj_succ, Z.pow_succ_r by lia. }
  rewrite Hpow. set (M := 256 ^ Z.of_nat (List.length c)) in *.
  rewrite reverse_cons, from_be_bytes_snoc.
  destruct (256 <=? b + 1) eqn:Ho; bool_prop.
  - assert (b = 255) as -> by lia. split; [constructor; [by_computation|done]|].
    split; [cbn; by rewrite IHlen|].
    rewrite reverse_cons, from_be_bytes_snoc, IH. change ((255 + 1) mod 256) with 0.
    set (x := from_be_bytes (reverse c)) in *.
    replace (x * 256 + 255 + 1) with (256 * (x + 1)) by lia.
    rewrite Zmult_mod_distr_l. lia.
  - split; [constructor; [unfold u8; apply Z.mod_pos_bound; lia|done]|]. split; [done|].
    rewrite reverse_cons, from_be_bytes_snoc, !Z.mod_small by lia. lia.
Qed.

Lemma increment_counter_spec c :
  bytes_ok c →
  bytes_ok (increment_counter c) ∧ len (increment_counter c) = len c ∧
  from_be_bytes (increment_counter c) = (from_be_bytes c + 1) mod 256 ^ len c.
Proof.
  intros Hc. unfold increment_counter, len.
  destruct (increment_reversed_spec (reverse c)) as (H1 & H2 & H3); [by apply Forall_reverse|].
  rewrite !length_reverse in *. rewrite reverse_involutive in H3.
  split; [by apply Forall_reverse|]. split; [by rewrite H2|done].
Qed.

(** ** Lengths of responses *)

Lemma padded_length n : div_ceil (n + 1) 16 * 16 = ((n + 1 + 15) / 16) * 16.
Proof. unfold div_ceil. do 2 f_equal. lia. Qed.

Lemma secure_response_data_fits_spec n :
  0 ≤ n < 4294967296 →
  secure_response_data_fits n = true ↔ n ≤ 8172.
Proof.
  intros Hn. unfold secure_response_data_fits, checked_add, checked_mul, div_ceil, HEADER_LENGTH.
  unfold BLOCK_SIZE, AES_BLOCK_SIZE, MAX_DATA_LENGTH, MAX_FRAME_LENGTH, HEADER_LENGTH, MAC_LENGTH.
  assert ((3 + n + 1 + 16 - 1) / 16 ≤ 3 + n + 1 + 16) by (apply Z.div_le_upper_bound; lia).
  cbn [mbind option_bind].
  rewrite (proj2 (Z.ltb_lt _ _)) by lia. cbn [mbind option_bind].
  rewrite (proj2 (Z.ltb_lt _ _)) by lia. cbn [mbind option_bind].
  rewrite (proj2 (Z.ltb_lt _ _)) by lia. cbn [mbind option_bind].
  rewrite (proj2 (Z.ltb_lt _ _)) by lia. cbn [mbind option_bind].
  rewrite (proj2 (Z.ltb_lt _ _)) by lia. cbn [mbind option_bind is_some_and].
  rewrite Z.leb_le. pose proof (Z.div_mod (3 + n + 1 + 16 - 1) 16).
  pose proof (Z.mod_pos_bound (3 + n + 1 + 16 - 1) 16). lia.
Qed.

(** For any length at all: an accepted response is short. *)
Lemma secure_response_data_fits_bound n : 0 ≤ n → secure_response_data_fits n = true → n ≤ 8172.
Proof.
  intros Hn Hf. destruct (decide (n < 4294967296)); [by apply secure_response_data_fits_spec|].
  exfalso. revert Hf. unfold secure_response_data_fits, checked_add, checked_mul.
  repeat (case_match; cbn [mbind option_bind is_some_and] in *; try congruence).
  all: simplify_eq. all: intros; bool_prop.
  all: unfold div_ceil, BLOCK_SIZE, AES_BLOCK_SIZE, MAX_DATA_LENGTH, MAX_FRAME_LENGTH,
         HEADER_LENGTH, MAC_LENGTH in *.
  all: pose proof (Z.div_mod (3 + n + 1 + 16 - 1) 16);
       pose proof (Z.mod_pos_bound (3 + n + 1 + 16 - 1) 16); lia.
Qed.

(** ** Command authentication *)

(** The key, counter and chaining sizes of an established session. *)
Record channel_ok (s : SecureSession) : Prop := {
  channel_sid : u8 (sid s);
  channel_s_enc : len (s_enc s) = 16;
  channel_s_mac : len (s_mac s) = 16;
  channel_s_rmac : len (s_rmac s) = 16;
  channel_counter : len (counter s) = 16 ∧ bytes_ok (counter s);
  channel_chaining : len (mac_chaining_value s) = 16;
}.

Lemma div_ceil_data n : 0 ≤ n ≤ 8172 → 0 < (n + 3 + 1 + 15) / 16 * 16 ≤ 8176.
Proof.
  intros. pose proof (Z.div_mod (n + 3 + 1 + 15) 16).
  pose proof (Z.mod_pos_bound (n + 3 + 1 + 15) 16). lia.
Qed.

(** The authenticated prefix of a frame whose data ends with a MAC. *)
Lemma encode_prefix {E} c payload mac :
  len mac = MAC_LENGTH → len payload + MAC_LENGTH ≤ MAX_DATA_LENGTH →
  slice (E := E) (encode (mkFrame c (payload ++ mac))) 0 (3 + len payload) =
  Ok (c :: u16_to_be_bytes (len payload + MAC_LENGTH) ++ payload).
Proof.
  intros Hm Hl. pose proof (len_nonneg payload).
  assert (len (payload ++ mac) = len payload + MAC_LENGTH) as Hd by (rewrite len_app; lia).
  rewrite slice_ok; [|lia|rewrite len_encode; cbn [data]; unfold HEADER_LENGTH, MAC_LENGTH in *; lia].
  f_equal. unfold encode. cbn [command data]. rewrite Hd, zdrop_0, Z.sub_0_r.
  unfold MAX_DATA_LENGTH, MAX_FRAME_LENGTH, HEADER_LENGTH, MAC_LENGTH in *.
  rewrite Z.mod_small by lia.
  generalize (len_u16_to_be_bytes (len payload + 8)).
  generalize (u16_to_be_bytes (len payload + 8)). intros h Hh.
  replace ([c] ++ h ++ payload ++ mac) with ((c :: h ++ payload) ++ mac)
    by (cbn; by rewrite <- app_assoc).
  apply ztake_app_eq. len_lia.
Qed.

Section channel_lemmas.
Context `{SoftwareKeyCore}.

(** Verification accepts exactly the frames that end with the truncated CMAC
    of the chaining value and the rest of the frame; it then returns the data
    without the MAC and chains the full MAC. *)
Lemma verify_request_mac_accepts `{!ChannelLaws} s c payload mac :
  aes_cmac (s_mac s)
    (mac_chaining_value s ++ c :: u16_to_be_bytes (len payload + MAC_LENGTH) ++ payload)
    = inl mac →
  len payload + MAC_LENGTH ≤ MAX_DATA_LENGTH →
  verify_request_mac (mkFrame c (payload ++ ztake MAC_LENGTH mac)) s =
    (Ok payload, set_chaining mac s).
Proof.
  intros Hmac Hl. pose proof (aes_cmac_length _ _ _ Hmac) as H16.
  assert (len (ztake MAC_LENGTH mac) = MAC_LENGTH) as H8 by (apply len_ztake; unfold MAC_LENGTH; lia).
  assert (len (payload ++ ztake MAC_LENGTH mac) - MAC_LENGTH = len payload) as Hp
    by (rewrite len_app; lia).
  pose proof (len_nonneg payload).
  unfold verify_request_mac, mbind, eff_bind, get_state, lift, reject_if. cbn [data].
  rewrite len_app, H8, (proj2 (Z.ltb_ge _ _)) by lia.
  replace (len payload + MAC_LENGTH - MAC_LENGTH) with (len payload) by lia.
  rewrite encode_prefix by done. unfold cmac. rewrite Hmac. cbn [map_symmetric].
  rewrite slice_ok by (unfold MAC_LENGTH; lia). rewrite Z.sub_0_r, zdrop_0, zdrop_app.
  rewrite bool_decide_true by done. cbn. by rewrite ztake_app.
Qed.

Lemma verify_request_mac_ok s request payload s' :
  verify_request_mac request s = (Ok payload, s') →
  ∃ mac prefix, aes_cmac (s_mac s) (mac_chaining_value s ++ prefix) = inl mac ∧
    slice (E := DeviceError) (encode request) 0 (3 + (len (data request) - MAC_LENGTH)) = Ok prefix ∧
    data request = payload ++ ztake MAC_LENGTH mac ∧ s' = set_chaining mac s.
Proof.
  unfold verify_request_mac, mbind, eff_bind, get_state, lift, reject_if, set_state.
  destruct (_ <? _); [done|].
  destruct (slice (encode _) _ _) as [prefix| | |] eqn:Hp; try done.
  unfold cmac, map_symmetric. destruct (aes_cmac _ _) as [mac|] eqn:Hmac; [|done].
  destruct (slice mac _ _) as [short| | |] eqn:Hs; try done.
  destruct (negb _) eqn:Hb; [done|]. intros [= <- <-]. bool_prop.
  exists mac, prefix. split; [done|]. split; [done|]. split; [|done].
  unfold slice in Hs. destruct (_ && _); [|done]. injection Hs as <-.
  rewrite Z.sub_0_r, zdrop_0 in Hb. rewrite Hb. by rewrite ztake_zdrop.
Qed.

(** A rejected request leaves the session as it was. *)
Lemma verify_request_mac_fails s request r s' :
  verify_request_mac request s = (r, s') → (∀ p, r ≠ Ok p) → s' = s.
Proof.
  unfold verify_request_mac, mbind, eff_bind, get_state, lift, reject_if, set_state.
  destruct (_ <? _); [by intros [= <- <-]|].
  destruct (slice _ _ _); try (by intros [= <- <-]).
  destruct (cmac _ _); try (by intros [= <- <-]).
  destruct (slice _ _ _); try (by intros [= <- <-]).
  destruct (negb _); try (by intros [= <- <-]). intros [= <- <-] Hr. by destruct (Hr _ eq_refl).
Qed.
End channel_lemmas.

(** The data of [request] is [payload] followed by the truncated MAC of the
    chaining value and the rest of the encoded frame. *)
Definition authenticated_by `{SoftwareKeyCore} (s : SecureSession) (request : Frame)
    (mac payload : bytes) : Prop :=
  ∃ prefix,
    slice (E := DeviceError) (encode request) 0 (3 + (len (data request) - MAC_LENGTH)) = Ok prefix ∧
    aes_cmac (s_mac s) (mac_chaining_value s ++ prefix) = inl mac ∧
    data request = payload ++ ztake MAC_LENGTH mac.

(** Decryption: either the MAC refuses the frame and the session stays, or the
    MAC verifies and the chaining value moves. *)
Lemma decrypt_request_cases `{SoftwareKeyCore} s request r s' :
  decrypt_request request s = (r, s') →
  (s' = s ∧ is_ok r = false) ∨
  ∃ mac payload, authenticated_by s request mac payload ∧ s' = set_chaining mac s ∧
    r ≠ Err AuthenticationFailed ∧
    (is_ok r = true → head payload = Some (sid s) ∧ 1 + BLOCK_SIZE ≤ len payload ∧
                      (len payload - 1) mod BLOCK_SIZE = 0).
Proof.
  intros Hd. unfold decrypt_request, mbind, eff_bind in Hd.
  destruct (verify_request_mac request s) as [[payload|e| |] s1] eqn:Hv.
  2-4: injection Hd as <- <-; left; by rewrite (verify_request_mac_fails _ _ _ _ Hv) by done.
  destruct (verify_request_mac_ok _ _ _ _ Hv) as (mac & prefix & Hmac & Hp & Hdata & ->).
  right. exists mac, payload. split; [by exists prefix|].
  revert Hd. unfold get_state, lift, reject_if.
  destruct (_ || _) eqn:Hb; [by intros [= <- <-]|]. bool_prop.
  unfold encrypt_block, cbc_decrypt, unpad, ok_or, map_symmetric.
  destruct (encrypt_aes_block _ _) as [|[]]; try (by intros [= <- <-]).
  destruct (decrypt_aes_cbc _ _ _) as [|[]]; try (by intros [= <- <-]).
  destruct (unpad_iso7816 _) as [clear|]; try (by intros [= <- <-]).
  destruct (parse_total clear) as (p & -> & [->|[f ->]]); by intros [= <- <-].
Qed.

(** ** Properties *)

(** The sixteen-byte message counter is incremented as one big-endian
    integer modulo 2^128, with the carry across all bytes. *)
Theorem counter_increments (c : bytes) :
  len c = BLOCK_SIZE → bytes_ok c →
  len (increment_counter c) = BLOCK_SIZE ∧ bytes_ok (increment_counter c) ∧
  from_be_bytes (increment_counter c) = (from_be_bytes c + 1) mod 2 ^ 128.
Proof.
  intros Hl Hc. destruct (increment_counter_spec c Hc) as (? & Hi & Hv).
  rewrite Hi, Hv, Hl. done.
Qed.

Lemma counter_increments_witness :
  from_be_bytes (increment_counter (replicate 16 255)) = 0.
Proof.
  destruct (counter_increments (replicate 16 255)) as (_ & _ & H);
    [by vm_compute|by_computation|]. rewrite H. by vm_compute.
Defined.

(** What an authenticated payload decrypts to: the session's number, then whole
    blocks that the session's encryption key opens, under the encrypted message
    counter, to a padded frame. *)
Record decrypts `{SoftwareKeyCore} (s : SecureSession) (payload : bytes) (inner : Frame) : Prop := {
  decrypts_sid : head payload = Some (sid s);
  decrypts_blocks : 16 ≤ len (tail payload) ∧ len (tail payload) mod 16 = 0;
  decrypts_clear : ∃ iv clear encoded,
    encrypt_aes_block (s_enc s) (counter s) = inl iv ∧
    decrypt_aes_cbc (s_enc s) iv (tail payload) = inl clear ∧
    unpad_iso7816 clear = Some encoded ∧ parse encoded = Ok inner;
}.

Section request_authentication.
Context `{SoftwareKeyCore} `{!ChannelLaws}.

(** The MAC check accepts exactly the authenticated requests. *)
Lemma verify_request_mac_authenticated s request mac payload :
  authenticated_by s request mac payload →
  verify_request_mac request s = (Ok payload, set_chaining mac s).
Proof.
  intros (prefix & Hp & Hmac & Hdata). pose proof (aes_cmac_length _ _ _ Hmac) as H16.
  assert (len (ztake MAC_LENGTH mac) = MAC_LENGTH) as H8 by (apply len_ztake; unfold MAC_LENGTH; lia).
  assert (len (data request) = len payload + MAC_LENGTH) as Hl by (rewrite Hdata, len_app; lia).
  pose proof (len_nonneg payload).
  unfold verify_request_mac, mbind, eff_bind, get_state, lift, reject_if.
  rewrite (proj2 (Z.ltb_ge _ _)) by lia. rewrite Hp. unfold cmac. rewrite Hmac. cbn [map_symmetric].
  rewrite slice_ok by (unfold MAC_LENGTH; lia). rewrite Z.sub_0_r, zdrop_0, Hl, Hdata.
  replace (len payload + MAC_LENGTH - MAC_LENGTH) with (len payload) by lia.
  rewrite zdrop_app, bool_decide_true by done. cbn. by rewrite ztake_app.
Qed.

Lemma verify_request_mac_refuses s request r s' :
  len (s_mac s) = 16 → verify_request_mac request s = (r, s') → is_ok r = false →
  s' = s ∧ r = Err AuthenticationFailed.
Proof.
  intros Hk Hv Hr. assert (s' = s) as -> by (eapply verify_request_mac_fails; [done|by intros p ->]).
  split; [done|]. revert Hv. unfold verify_request_mac, mbind, eff_bind, get_state, lift, reject_if, set_state.
  destruct (_ <? _) eqn:Hl; [by intros [= <-]|]. bool_prop.
  rewrite slice_ok by (rewrite ?len_encode; unfold HEADER_LENGTH, MAC_LENGTH in *; lia).
  match goal with |- context [cmac _ (_ ++ ?p)] =>
    destruct (aes_cmac_total (s_mac s) (mac_chaining_value s ++ p) Hk) as [mac Hmac] end.
  unfold cmac. rewrite Hmac. cbn [map_symmetric]. pose proof (aes_cmac_length _ _ _ Hmac).
  rewrite slice_ok by (unfold MAC_LENGTH; lia).
  destruct (negb _); [by intros [= <-]|intros [= <-]; done].
Qed.

(** After the MAC check, the request decrypts to what the specification says. *)
Lemma decrypt_request_authenticated s request mac payload :
  authenticated_by s request mac payload →
  ∃ r, decrypt_request request s = (r, set_chaining mac s) ∧ r ≠ Err AuthenticationFailed ∧
    ∀ inner, r = Ok inner ↔ decrypts s payload inner.
Proof.
  intros Ha. unfold decrypt_request, mbind, eff_bind.
  rewrite (verify_request_mac_authenticated _ _ _ _ Ha). unfold get_state, lift, reject_if.
  cbn [sid set_chaining s_enc counter].
  destruct (_ || _) eqn:Hb.
  { eexists. split; [done|]. split; [done|]. intros inner. split; [done|]. intros [Hs [Hm Hb'] _].
    destruct payload as [|b rest]; [done|]. cbn [tail] in *. rewrite len_cons in Hb.
    replace (1 + len rest - 1) with (len rest) in Hb by lia. unfold BLOCK_SIZE, AES_BLOCK_SIZE in Hb.
    rewrite Hb', bool_decide_true, (proj2 (Z.ltb_ge _ _)) in Hb by (done || lia). done. }
  bool_prop. destruct payload as [|b rest]; [by match goal with Hx : head [] = _ |- _ => discriminate Hx end|].
  rewrite len_cons in *. unfold BLOCK_SIZE, AES_BLOCK_SIZE in *.
  change (zdrop 1 (b :: rest)) with rest.
  match goal with Hx : (_ - 1) mod 16 = 0 |- _ => replace (1 + len rest - 1) with (len rest) in Hx by lia end.
  unfold encrypt_block, cbc_decrypt, unpad.
  destruct (encrypt_aes_block _ _) as [iv|e] eqn:Hiv; cbn [map_symmetric].
  2:{ eexists. split; [done|]. split; [by destruct e|]. intros inner. split; [by destruct e|].
      intros [_ _ (? & ? & ? & ? & _)]. congruence. }
  destruct (decrypt_aes_cbc _ _ _) as [clear|e] eqn:Hc; cbn [map_symmetric].
  2:{ eexists. split; [done|]. split; [by destruct e|]. intros inner. split; [by destruct e|].
      intros [_ _ (? & ? & ? & ? & Hc' & _)]. cbn [tail] in Hc'. congruence. }
  destruct (unpad_iso7816 clear) as [encoded|] eqn:Hu; cbn [ok_or].
  2:{ eexists. split; [done|]. split; [done|]. intros inner. split; [done|].
      intros [_ _ (? & ? & ? & ? & Hc' & ? & _)]. cbn [tail] in Hc'. congruence. }
  eexists. split; [done|]. split; [by destruct (parse_total encoded) as (? & -> & [->|[? ->]])|].
  intros inner. split.
  - intros Hp. split; [done|cbn [tail]; lia|]. cbn [tail]. by exists iv, clear, encoded.
  - intros [_ _ (? & ? & ? & ? & Hc' & ? & Hp)]. cbn [tail] in Hc'. congruence.
Qed.

(** C15: integrity of the command direction. A request is authenticated when its
    last eight bytes are the truncated CMAC, under the session's MAC key, of the
    chaining value followed by the rest of the encoded frame. An authenticated
    request moves the chaining value to the full MAC, whether or not it then
    decrypts, and changes nothing else of the session; it yields an inner command
    exactly when it carries the session's number and whole blocks that decrypt to a
    padded frame, and then that frame. A request that is not authenticated is
    refused as such, and leaves the whole session as it was. *)
Theorem request_authentication (s : SecureSession) (request : Frame) :
  len (s_mac s) = 16 →
  (∀ mac payload, authenticated_by s request mac payload →
     ∃ r, decrypt_request request s
          = (r, mkSecure (sid s) (s_enc s) (s_mac s) (s_rmac s) (counter s) mac) ∧
       r ≠ Err AuthenticationFailed ∧ ∀ inner, r = Ok inner ↔ decrypts s payload inner) ∧
  ((∀ mac payload, ¬ authenticated_by s request mac payload) →
     decrypt_request request s = (Err AuthenticationFailed, s)).
Proof.
  intros Hk. split; [intros mac payload; apply decrypt_request_authenticated|]. intros Hn.
  unfold decrypt_request, mbind, eff_bind.
  destruct (verify_request_mac request s) as [r s'] eqn:Hv. destruct (is_ok r) eqn:Hr.
  - destruct r as [payload| | |]; try done.
    apply verify_request_mac_ok in Hv as (mac & prefix & ? & ? & ? & _).
    destruct (Hn mac payload). by exists prefix.
  - by destruct (verify_request_mac_refuses s request r s' Hk Hv Hr) as [-> ->].
Qed.
End request_authentication.

(** An echo that a client seals, and the same frame with another last byte. *)
Definition sealed_echo (s : SecureSession) (last : Z) : Frame :=
  match encrypt_aes_block (s_enc s) (counter s) with
  | inl iv =>
      match encrypt_aes_cbc (s_enc s) iv (pad_iso7816 (encode (mkFrame 1 [7; 8]))) with
      | inl blocks =>
          let payload := sid s :: blocks in
          match aes_cmac (s_mac s) (mac_chaining_value s ++ 5 :: u16_to_be_bytes (len payload + 8) ++ payload) with
          | inl mac => mkFrame 5 (payload ++ ztake 7 mac ++ [nth 7 mac 0 + last])
          | inr _ => mkFrame 5 []
          end
      | inr _ => mkFrame 5 []
      end
  | inr _ => mkFrame 5 []
  end.

Lemma request_authentication_witness :
  let s := mkSecure 3 (zeros 16) (zeros 16) (zeros 16) (zeros 16) (zeros 16) in
  (decrypt_request (sealed_echo s 0) s).1 = Ok (mkFrame 1 [7; 8]) ∧
  (decrypt_request (sealed_echo s 0) s).2 ≠ s ∧
  decrypt_request (sealed_echo s 1) s = (Err AuthenticationFailed, s).
Proof.
  intros s. assert (len (s_mac s) = 16) as Hk by reflexivity. split; [|split].
  - destruct (verify_request_mac (sealed_echo s 0) s) as [[payload| | |] s'] eqn:Hv;
      [|exfalso; by vm_compute in Hv..].
    assert (decrypts s payload (mkFrame 1 [7; 8])) as Hd.
    { vm_compute in Hv. injection Hv as <- _. split; [by vm_compute|split; by vm_compute|].
      do 3 eexists. split; [vm_compute; reflexivity|]. split; [vm_compute; reflexivity|].
      split; [vm_compute; reflexivity|vm_compute; reflexivity]. }
    revert Hv Hd. generalize (sealed_echo s 0) as request. intros request Hv Hd.
    apply verify_request_mac_ok in Hv as (mac & prefix & Hm & Hp & Hdata & _).
    destruct (request_authentication s request Hk) as [Ha _].
    destruct (Ha mac payload (ex_intro _ prefix (conj Hp (conj Hm Hdata)))) as (r & Hr & _ & Hi).
    rewrite Hr. by apply Hi.
  - intros Heq. by vm_compute in Heq.
  - apply (request_authentication s (sealed_echo s 1) Hk). intros mac payload Ha.
    apply verify_request_mac_authenticated in Ha. by vm_compute in Ha.
Defined.

Section response_bound.
Context `{SoftwareKeyCore} `{!ChannelLaws}.

(** The encrypted response before the length check: the session's number, the
    padded frame in whole blocks, and eight bytes of the MAC. *)
Lemma encrypt_response_frame s response :
  channel_ok s →
  ∃ c mac, len c = (len (data response) + 3 + 1 + 15) / 16 * 16 ∧ len mac = 16 ∧
    (encrypt_response response s).1 = new SESSION_MESSAGE_RESPONSE ((sid s :: c) ++ ztake MAC_LENGTH mac).
Proof.
  intros [? ? ? ? [Hc _] ?]. unfold encrypt_response, mbind, eff_bind, get_state, lift, encrypt_block, cbc_encrypt, pad.
  destruct (encrypt_aes_block_total (s_enc s) (counter s)) as [iv Hiv]; [done..|].
  rewrite Hiv. cbn [map_symmetric]. pose proof (encrypt_aes_block_length _ _ _ Hiv).
  pose proof (pad_length (encode response)) as Hp. rewrite len_encode in Hp. unfold HEADER_LENGTH in Hp.
  destruct (encrypt_aes_cbc_total (s_enc s) iv (pad_iso7816 (encode response))) as [c Hcc];
    [done|done|rewrite Hp; by rewrite Z.mod_mul|].
  rewrite Hcc. cbn [map_symmetric]. pose proof (encrypt_aes_cbc_length _ _ _ _ Hcc).
  match goal with |- context [cmac ?k ?d] => destruct (aes_cmac_total k d) as [mac Hmac]; [done|] end.
  unfold cmac. rewrite Hmac. cbn [map_symmetric]. pose proof (aes_cmac_length _ _ _ Hmac).
  rewrite slice_ok by (unfold MAC_LENGTH; lia). rewrite Z.sub_0_r, zdrop_0.
  exists c, mac. split; [|by split].
  replace (len (data response) + 3 + 1 + 15) with (3 + len (data response) + 1 + 15) by lia. lia.
Qed.

(** C30: the bound on responses is the one of the encryption. On an established
    session, the guard accepts a response exactly up to 8172 bytes of data; an
    accepted response is encrypted to the session's number, whole blocks with at
    least one byte of padding, and a MAC of eight bytes, which fit one encoded frame
    of at most 8192 bytes; the encryption of a longer one fails. *)
Theorem secure_response_bound (s : SecureSession) (response : Frame) :
  channel_ok s →
  (secure_response_fits response = true ↔ len (data response) ≤ 8172) ∧
  (len (data response) ≤ 8172 →
     ∃ outer, (encrypt_response response s).1 = Ok outer ∧ command outer = 0x85 ∧
       len (data outer) = 1 + ((len (data response) + 4 + 15) / 16) * 16 + 8 ∧
       len (encode outer) ≤ 8192) ∧
  (8172 < len (data response) → (encrypt_response response s).1 = Err WrongLength).
Proof.
  intros Hs. pose proof (len_nonneg (data response)) as Hn. unfold secure_response_fits.
  destruct (encrypt_response_frame s response Hs) as (c & mac & Hc & Hmac & Hr).
  assert (len ((sid s :: c) ++ ztake MAC_LENGTH mac) = 1 + len c + 8) as Hl.
  { rewrite len_app, len_cons, len_ztake by (unfold MAC_LENGTH; lia). done. }
  replace (len (data response) + 3 + 1 + 15) with (len (data response) + 4 + 15) in Hc by lia.
  pose proof (Z.div_mod (len (data response) + 4 + 15) 16).
  pose proof (Z.mod_pos_bound (len (data response) + 4 + 15) 16).
  split; [|split].
  - split; [by apply secure_response_data_fits_bound|]. intros ?. apply secure_response_data_fits_spec; lia.
  - intros Hb. rewrite Hr. eexists. split.
    + apply new_ok. split; [done|]. rewrite Hl. unfold MAX_DATA_LENGTH, MAX_FRAME_LENGTH, HEADER_LENGTH. lia.
    + rewrite len_encode. cbn [data command]. rewrite Hl. unfold HEADER_LENGTH. split; [done|]. lia.
  - intros Hb. rewrite Hr. unfold new. rewrite Hl.
    unfold MAX_DATA_LENGTH, MAX_FRAME_LENGTH, HEADER_LENGTH, reject_if.
    rewrite (proj2 (Z.ltb_lt _ _)) by lia. done.
Qed.
End response_bound.

Lemma secure_response_bound_witness :
  let s := mkSecure 3 (zeros 16) (zeros 16) (zeros 16) (zeros 16) (zeros 16) in
  is_ok (encrypt_response (mkFrame 0x81 (zeros 8172)) s).1 = true ∧
  (encrypt_response (mkFrame 0x81 (zeros 8173)) s).1 = Err WrongLength.
Proof.
  intros s. assert (channel_ok s) as Hs by (by split; try split; by_computation).
  split.
  - destruct (secure_response_bound s (mkFrame 0x81 (zeros 8172)) Hs) as (_ & Hf & _).
    destruct Hf as (outer & -> & _); done.
  - by apply (secure_response_bound s (mkFrame 0x81 (zeros 8173)) Hs).
Defined.
