(* ===== verification/DeviceState.v ===== *)
(** * The device state (crates/virtual-yubihsm-core/src/device.rs, lines 61-304,
    1394-1660, 4493-4600)

    The record of the device, its configuration, options and audit log, and the
    commands that read or change only those: device information, log, options
    and object listing. A [&self] method is a function of the device; a
    [&mut self] method is a computation over the device and the world. *)

From S2P Require Import Prelude Error Frame Firmware Algorithm Capability Protocol KeyCore Toy.
From S2P Require Import Wire Objects Authorization SessionObjects Requests SecureChannel.

Definition MAX_OBJECTS : Z := 256.
Definition MAX_SESSIONS : Z := 16.
(** In milliseconds. *)
Definition SESSION_INACTIVITY_TIMEOUT : Z := 30000.
Definition DEFAULT_AUTHENTICATION_ALGORITHM : Z := AUTHENTICATION_ALGORITHM_AES128_YUBICO.
Definition OPAQUE_DATA_ALGORITHM : Z := 30.
Definition OPTION_FORCE_AUDIT : Z := 0x01.
Definition OPTION_COMMAND_AUDIT : Z := 0x03.
Definition OPTION_ALGORITHM_TOGGLE : Z := 0x04.
Definition OPTION_FIPS_MODE : Z := 0x05.
Definition OPTION_OFF : Z := 0.
Definition OPTION_ON : Z := 1.
Definition OPTION_FIX : Z := 2.

(** ** Configuration, options, audit log *)

Record DeviceConfig : Set := mkConfig {
  version : bytes;
  serial : Z;
  log_capacity : Z;
  algorithms : list Z;
  part_number : bytes;
}.

Record DeviceOptions : Set := mkOptions {
  force_audit : Z;
  command_audit : gmap Z Z;
  algorithm_toggle : gmap Z Z;
  fips_mode : Z;
}.

Definition default_options : DeviceOptions := mkOptions 0 ∅ ∅ 0.

Record AuditEntry : Set := mkEntry {
  number : Z;
  entry_command : Z;
  entry_length : Z;
  session_key : Z;
  target_key : Z;
  second_key : Z;
  result : Z;
  entry_systick : Z;
  entry_digest : bytes;
}.

#[export] Instance AuditEntry_eq_dec : EqDecision AuditEntry.
Proof. solve_decision. Defined.

Definition encode_entry (self : AuditEntry) : bytes :=
  u16_to_be_bytes (number self) ++ [entry_command self] ++
  u16_to_be_bytes (entry_length self) ++ u16_to_be_bytes (session_key self) ++
  u16_to_be_bytes (target_key self) ++ u16_to_be_bytes (second_key self) ++
  [result self] ++ u32_to_be_bytes (entry_systick self) ++ entry_digest self.

Record AuditState : Set := mkAudit {
  entries : list AuditEntry;
  next_number : Z;
  systick : Z;
  previous_digest : bytes;
  unlogged_boot : Z;
  unlogged_authentication : Z;
}.

(** [AuditState { next_number: 1, ..AuditState::default() }]. *)
Definition initial_audit : AuditState := mkAudit [] 1 0 (zeros 16) 0 0.

Definition default_config `{Build} : DeviceConfig :=
  mkConfig [2; 5; 0] 12345678 62
    (map Algorithm.to_byte (List.filter Algorithm.supported_by_firmware
       (OFFICIAL ++ [X25519; X448; Ed448; MlDsa44; MlDsa65; MlDsa87; MlKem512; MlKem768;
                     MlKem1024; HybridMlKem768P256; HybridMlKem768X25519; HybridMlKem1024P384])))
    [55; 56; 67; 76; 85; 70; 88; 53; 48; 48; 48; 80; 0].

(** Generations of the objects of each id: [BTreeMap<u16, u64>]. *)
Definition history_validate (self : gmap Z Z) : bool :=
  forallb (λ '(id, _), negb (id =? 0) && negb (id =? u16_max)) (map_to_list self).

Definition valid_option_value (value : Z) : bool :=
  (value =? OPTION_OFF) || (value =? OPTION_ON) || (value =? OPTION_FIX).

(** The new value of an option. *)
Definition set_option_value (current requested : Z) : Result Z :=
  _ ← reject_if (negb (valid_option_value requested)) InvalidData;
  _ ← reject_if ((current =? OPTION_FIX) && negb (requested =? OPTION_FIX))
        InsufficientPermissions;
  mret requested.

Definition fips_disallowed_algorithm (algorithm : Z) : bool :=
  match Algorithm.from_byte algorithm with
  | Some (RsaPkcs1Sha1 | RsaPssSha1 | EcdsaSha1 | EcK256 | RsaPkcs1Decrypt) => true
  | _ => false
  end.

Definition command_changes_persistent_state (command : CommandCode.CommandCode) : bool :=
  match command with
  | CommandCode.PutOpaque | CommandCode.PutAuthenticationKey | CommandCode.PutAsymmetricKey
  | CommandCode.GenerateAsymmetricKey | CommandCode.ImportWrapped | CommandCode.PutWrapKey
  | CommandCode.SetOption | CommandCode.PutHmacKey | CommandCode.GenerateHmacKey
  | CommandCode.GenerateWrapKey | CommandCode.DeleteObject | CommandCode.PutTemplate
  | CommandCode.PutOtpAeadKey | CommandCode.GenerateOtpAeadKey | CommandCode.SetLogIndex
  | CommandCode.ChangeAuthenticationKey | CommandCode.PutSymmetricKey
  | CommandCode.GenerateSymmetricKey | CommandCode.PutPublicWrapKey
  | CommandCode.PutRsaWrappedKey | CommandCode.ImportRsaWrapped | CommandCode.ResetDevice => true
  | _ => false
  end.

Definition command_is_meta (command : CommandCode.CommandCode) : bool :=
  match command with
  | CommandCode.Echo | CommandCode.CreateSession | CommandCode.AuthenticateSession
  | CommandCode.SessionMessage | CommandCode.GetDeviceInfo | CommandCode.GetDevicePublicKey
  | CommandCode.CloseSession => true
  | _ => false
  end.

Definition command_can_be_audited (command : CommandCode.CommandCode) : bool :=
  negb (command_is_meta command)
  || match command with
     | CommandCode.CreateSession | CommandCode.AuthenticateSession => true
     | _ => false
     end.

(** [(target, second)] of an audit entry; a payload that does not decode counts
    as [(0, 0)]. *)
Definition audit_key_ids (command : CommandCode.CommandCode) (data : bytes) : Z * Z :=
  match command with
  | CommandCode.SignAttestationCertificate =>
      match decode SignAttestationCertificateRequest data with
      | Ok (SignAttestationCertificateRequest_ target_id attesting_id) => (target_id, attesting_id)
      | _ => (0, 0)
      end
  | CommandCode.RewrapOtpAead =>
      match decode RewrapOtpAeadRequest data with
      | Ok (RewrapOtpAeadRequest_ from_id to_id _) => (from_id, to_id)
      | _ => (0, 0)
      end
  | CommandCode.ExportWrapped =>
      match decode ExportWrappedRequest data with
      | Ok (ExportWrappedRequest_ wrap_id target _) => (key_id target, wrap_id)
      | _ => (0, 0)
      end
  | CommandCode.ExportRsaWrapped =>
      match decode ExportRsaWrappedRequest data with
      | Ok (ExportRsaWrappedFields_ wrap_id target _ _ _ _) => (key_id target, wrap_id)
      | _ => (0, 0)
      end
  | _ => match (read_u16 data).1 with Ok id => (id, 0) | _ => (0, 0) end
  end.

(** [n.try_into().unwrap_or(u8::MAX)]. *)
Definition clamp_u8 (n : Z) : Z := if n <=? 255 then n else 255.
Definition clamp_u16 (n : Z) : Z := if n <=? u16_max then n else u16_max.

(** [values.as_chunks::<2>().0]: the whole pairs. *)
Fixpoint pairs_of (values : bytes) : list (Z * Z) :=
  match values with
  | a :: b :: values => (a, b) :: pairs_of values
  | _ => []
  end.

(** ** The device *)

Section device.
Context `{Build} `{SoftwareKeyCore}.

Record SessionEntry : Type := mkSessionEntry {
  authorization : SessionAuthorization;
  secure : SecureSession;
  expected_host_cryptogram : option bytes;
  authenticated : bool;
  last_activity : Z;
  session_objects : gmap Z SessionObject;
}.

Record Device : Type := mkDevice {
  config : DeviceConfig;
  objects : gmap ObjectKey ObjectRecord;
  sessions : gmap Z SessionEntry;
  device_static_private : SoftwareSigningKey;
  state_epoch : Z;
  sequence_history : gmap Z Z;
  options : DeviceOptions;
  audit : AuditState;
  persistent_change : bool;
}.

Definition set_objects (o : gmap ObjectKey ObjectRecord) (d : Device) : Device :=
  mkDevice (config d) o (sessions d) (device_static_private d) (state_epoch d)
    (sequence_history d) (options d) (audit d) (persistent_change d).
Definition set_sessions (s : gmap Z SessionEntry) (d : Device) : Device :=
  mkDevice (config d) (objects d) s (device_static_private d) (state_epoch d)
    (sequence_history d) (options d) (audit d) (persistent_change d).
Definition set_static_private (k : SoftwareSigningKey) (d : Device) : Device :=
  mkDevice (config d) (objects d) (sessions d) k (state_epoch d)
    (sequence_history d) (options d) (audit d) (persistent_change d).
Definition set_epoch (e : Z) (d : Device) : Device :=
  mkDevice (config d) (objects d) (sessions d) (device_static_private d) e
    (sequence_history d) (options d) (audit d) (persistent_change d).
Definition set_history (h : gmap Z Z) (d : Device) : Device :=
  mkDevice (config d) (objects d) (sessions d) (device_static_private d) (state_epoch d)
    h (options d) (audit d) (persistent_change d).
Definition set_options (o : DeviceOptions) (d : Device) : Device :=
  mkDevice (config d) (objects d) (sessions d) (device_static_private d) (state_epoch d)
    (sequence_history d) o (audit d) (persistent_change d).
Definition set_audit (a : AuditState) (d : Device) : Device :=
  mkDevice (config d) (objects d) (sessions d) (device_static_private d) (state_epoch d)
    (sequence_history d) (options d) a (persistent_change d).
Definition set_persistent_change (b : bool) (d : Device) : Device :=
  mkDevice (config d) (objects d) (sessions d) (device_static_private d) (state_epoch d)
    (sequence_history d) (options d) (audit d) b.

(** A [&mut self] method, and a [&self] one that uses the world. *)
#[local] Abbreviation Dev := (Eff (Device * World) DeviceError).

(** [self.objects.values()]: in the order of the keys. *)
Definition object_values (m : gmap ObjectKey ObjectRecord) : list ObjectRecord :=
  omap (λ k, m !! k) (merge_sort key_le (map_to_list m).*1).

(** ** Options *)

Definition algorithm_enabled (self : Device) (algorithm : Z) : bool :=
  is_some_and (Algorithm.from_byte algorithm) Algorithm.supported_by_firmware
  && bool_decide (algorithm ∈ algorithms (config self))
  && negb (default OPTION_ON (algorithm_toggle (options self) !! algorithm) =? OPTION_OFF)
  && negb (negb (fips_mode (options self) =? OPTION_OFF) && fips_disallowed_algorithm algorithm).

Definition require_algorithm_enabled (self : Device) (algorithm : Z) : Result unit :=
  if algorithm_enabled self algorithm then Ok tt else Err InvalidData.

Definition enabled_algorithms (self : Device) : bytes :=
  List.filter (algorithm_enabled self) (algorithms (config self)).

Definition factory_key : ObjectKey := mkObjectKey AuthenticationKey 1.

Definition require_fresh_device_for_algorithm_options (self : Device) : Result unit :=
  if bool_decide (size (objects self) = 1%nat) && bool_decide (is_Some (objects self !! factory_key))
  then Ok tt else Err InsufficientPermissions.

(** [CommandCode::from_byte(b).is_some_and(CommandCode::supported_by_firmware)]. *)
Definition is_supported_command (command : Z) : bool :=
  is_some_and (CommandCode.from_byte command) CommandCode.supported_by_firmware.

Definition get_option (self : Device) (data : bytes) : Result bytes :=
  '(U8Request_ option) ← decode GetOptionRequest data;
  if option =? OPTION_FORCE_AUDIT then Ok [force_audit (options self)]
  else if option =? OPTION_COMMAND_AUDIT then
    Ok (concat (map (λ command,
          if is_supported_command command
          then [command; default OPTION_OFF (command_audit (options self) !! command)]
          else []) (Z.of_nat <$> seq 0 256)))
  else if option =? OPTION_ALGORITHM_TOGGLE then
    Ok (concat (map (λ algorithm,
          if is_some_and (Algorithm.from_byte algorithm) Algorithm.supported_by_firmware
          then [algorithm; default OPTION_ON (algorithm_toggle (options self) !! algorithm)]
          else []) (algorithms (config self))))
  else if option =? OPTION_FIPS_MODE then Ok [fips_mode (options self)]
  else Err InvalidData.

(** One pair of the command-audit option. *)
Definition update_command_audit (updated : gmap Z Z) (pair : Z * Z) : Result (gmap Z Z) :=
  match CommandCode.from_byte pair.1 with
  | Some command =>
      _ ← reject_if (negb (CommandCode.supported_by_firmware command)) InvalidData;
      _ ← reject_if (negb (valid_option_value pair.2)) InvalidData;
      _ ← reject_if (bool_decide (command = CommandCode.SessionMessage)
                     && negb (pair.2 =? OPTION_OFF)) InvalidData;
      _ ← reject_if (bool_decide (updated !! pair.1 = Some OPTION_FIX)
                     && negb (pair.2 =? OPTION_FIX)) InsufficientPermissions;
      mret (<[pair.1 := pair.2]> updated)
  | None => Err InvalidData
  end.

Definition update_algorithm_toggle (self : Device) (updated : gmap Z Z) (pair : Z * Z) :
    Result (gmap Z Z) :=
  _ ← reject_if
        (negb (bool_decide (pair.1 ∈ algorithms (config self)))
         || negb (is_some_and (Algorithm.from_byte pair.1) Algorithm.supported_by_firmware)
         || negb (valid_option_value pair.2)) InvalidData;
  _ ← reject_if (bool_decide (updated !! pair.1 = Some OPTION_FIX)
                 && negb (pair.2 =? OPTION_FIX)) InsufficientPermissions;
  mret (<[pair.1 := pair.2]> updated).

(** The [for] loop over the pairs, on a copy of the map. *)
Fixpoint update_all (update : gmap Z Z → Z * Z → Result (gmap Z Z)) (updated : gmap Z Z)
    (pairs : list (Z * Z)) : Result (gmap Z Z) :=
  match pairs with
  | [] => mret updated
  | p :: pairs => updated ← update updated p; update_all update updated pairs
  end.

Definition single_value (values : bytes) : Result Z :=
  match values with [value] => Ok value | _ => Err WrongLength end.

Definition set_option (data : bytes) : Dev bytes :=
  '(SetOptionRequest_ option values) ← lift (decode SetOptionRequest data);
  self ← get_left;
  _ ←
    (if option =? OPTION_FORCE_AUDIT then
       value ← lift (single_value values);
       value ← lift (set_option_value (force_audit (options self)) value);
       modify (set_options (mkOptions value (command_audit (options self))
                 (algorithm_toggle (options self)) (fips_mode (options self))))
     else if option =? OPTION_COMMAND_AUDIT then
       _ ← lift (reject_if ((len values =? 0) || negb (len values mod 2 =? 0)) WrongLength);
       updated ← lift (update_all update_command_audit (command_audit (options self))
                         (pairs_of values));
       modify (set_options (mkOptions (force_audit (options self)) updated
                 (algorithm_toggle (options self)) (fips_mode (options self))))
     else if option =? OPTION_ALGORITHM_TOGGLE then
       _ ← lift (require_fresh_device_for_algorithm_options self);
       _ ← lift (reject_if ((len values =? 0) || negb (len values mod 2 =? 0)) WrongLength);
       updated ← lift (update_all (update_algorithm_toggle self)
                         (algorithm_toggle (options self)) (pairs_of values));
       modify (set_options (mkOptions (force_audit (options self)) (command_audit (options self))
                 updated (fips_mode (options self))))
     else if option =? OPTION_FIPS_MODE then
       _ ← lift (require_fresh_device_for_algorithm_options self);
       value ← lift (single_value values);
       value ← lift (set_option_value (fips_mode (options self)) value);
       modify (set_options (mkOptions (force_audit (options self)) (command_audit (options self))
                 (algorithm_toggle (options self)) value))
     else fail InvalidData);
  mret [].

(** ** Information and log *)

Definition get_device_info (self : Device) (data : bytes) : Result bytes :=
  '(GetDeviceInfoRequest_ selector) ← decode GetDeviceInfoRequest data;
  match selector with
  | None =>
      Ok (version (config self) ++ u32_to_be_bytes (serial (config self)) ++
          [log_capacity (config self); clamp_u8 (len (entries (audit self)))] ++
          enabled_algorithms self)
  | Some 1 => Ok (part_number (config self))
  | Some _ => Err InvalidData
  end.

Definition get_log_entries (self : Device) (data : bytes) : Result bytes :=
  _ ← decode GetLogEntriesRequest data;
  Ok (u16_to_be_bytes (unlogged_boot (audit self)) ++
      u16_to_be_bytes (unlogged_authentication (audit self)) ++
      [clamp_u8 (len (entries (audit self)))] ++
      concat (map encode_entry (entries (audit self)))).

Definition set_entries (l : list AuditEntry) (a : AuditState) : AuditState :=
  mkAudit l (next_number a) (systick a) (previous_digest a) (unlogged_boot a)
    (unlogged_authentication a).

Definition set_log_index (data : bytes) : Dev bytes :=
  '(U16Request_ index) ← lift (decode SetLogIndexRequest data);
  _ ← modify (λ self, set_audit
        (set_entries (List.filter (λ entry, index <? number entry) (entries (audit self)))
           (audit self)) self);
  mret [].

Definition should_audit (self : Device) (command : CommandCode.CommandCode) : bool :=
  command_can_be_audited command
  && negb (default OPTION_OFF (command_audit (options self) !! CommandCode.to_byte command)
           =? OPTION_OFF).

(** [self.audit.entries.len() >= usize::from(self.config.log_capacity)]. *)
Definition log_full (self : Device) : bool :=
  log_capacity (config self) <=? len (entries (audit self)).

(** The digest chains the first half of the entry with the previous digest. *)
Definition chain_digest (entry : AuditEntry) (previous : bytes) : bytes :=
  ztake 16 (digest Sha256 (ztake 16 (encode_entry entry) ++ previous)).

Definition set_digest (d : bytes) (e : AuditEntry) : AuditEntry :=
  mkEntry (number e) (entry_command e) (entry_length e) (session_key e) (target_key e)
    (second_key e) (result e) (entry_systick e) d.

Definition new_entry (self : Device) (auth : SessionAuthorization)
    (command : CommandCode.CommandCode) (request : Frame) (result : Z) : AuditEntry :=
  let '(target_key, second_key) :=
    if bool_decide (command = CommandCode.AuthenticateSession)
    then (authentication_key_id auth, 0) else audit_key_ids command (data request) in
  let entry := mkEntry (next_number (audit self)) (CommandCode.to_byte command)
                 (clamp_u16 (len (data request))) (authentication_key_id auth)
                 target_key second_key result (systick (audit self)) (zeros 16) in
  set_digest (chain_digest entry (previous_digest (audit self))) entry.

Definition append_audit_entry (self : Device) (auth : SessionAuthorization)
    (command : CommandCode.CommandCode) (request : Frame) (result : Z) : Device :=
  if log_full self then self
  else
    let entry := new_entry self auth command request result in
    let a := audit self in
    set_persistent_change true
      (set_audit (mkAudit (entries a ++ [entry])
                    (Z.max ((next_number a + 1) mod 65536) 1)
                    ((systick a + 1) mod 4294967296) (entry_digest entry)
                    (unlogged_boot a) (unlogged_authentication a)) self).

Definition record_unlogged_authentication_if_full (self : Device) : Device :=
  if negb (force_audit (options self) =? OPTION_OFF) && log_full self
  then
    let a := audit self in
    set_persistent_change true
      (set_audit (mkAudit (entries a) (next_number a) (systick a) (previous_digest a)
                    (unlogged_boot a) (Z.min (unlogged_authentication a + 1) u16_max)) self)
  else self.

(** ** Object listing *)

Definition list_objects (self : Device) (auth : SessionAuthorization) (data : bytes) :
    Result bytes :=
  '(ListObjectsRequest_ filters) ←
    match decode ListObjectsRequest data with
    | Err WrongLength => Err InvalidData
    | r => r
    end;
  Ok (concat (map (λ object,
        if can_see auth (info object) && matches filters (info object)
        then u16_to_be_bytes (id (info object)) ++
             [ObjectTypes.to_byte (object_type (info object)); sequence (info object)]
        else []) (object_values (objects self)))).
End device.

Abbreviation Dev := (Eff (Device * World) DeviceError).
