(* ===== verification/ObjectStore.v ===== *)
(** * The object store (crates/virtual-yubihsm-core/src/device.rs, lines
    274-304, 707-727, 1354-1392, 2459-2474, 3011-3065, 3121-3142, 3245-3256,
    3334-3345, 3373-3557, 3575-3765, 3836-3881)

    Lookup under a session's rights, identifier allocation, the only two ways an
    object is written, key construction, and the factory state. *)

From S2P Require Import Prelude Error Frame Firmware Algorithm Capability Protocol KeyCore Toy.
From S2P Require Import Wire Objects Authorization SessionObjects Requests SecureChannel.
From S2P Require Import DeviceState.

Definition authentication_key_length (algorithm : Z) : Result Z :=
  if algorithm =? AUTHENTICATION_ALGORITHM_AES128_YUBICO then Ok 32
  else if algorithm =? AUTHENTICATION_ALGORITHM_EC_P256 then Ok 64
  else Err InvalidData.

(** The second table of signing schemes, by algorithm byte. *)
Definition asymmetric_key_algorithm (algorithm : Z) : Result (SignatureScheme * Z) :=
  match algorithm with
  | 47 => Ok (EcdsaP224Sha224, 28)
  | 12 => Ok (EcdsaP256Sha256, 32)
  | 13 => Ok (EcdsaP384Sha384, 48)
  | 14 => Ok (EcdsaP521Sha512, 66)
  | 15 => Ok (EcdsaSecp256k1Sha256, 32)
  | 16 => Ok (EcdsaBrainpoolP256Sha256, 32)
  | 17 => Ok (EcdsaBrainpoolP384Sha384, 48)
  | 18 => Ok (EcdsaBrainpoolP512Sha512, 64)
  | 46 => Ok (SchemeEd25519, 32)
  | 60 => Ok (SchemeEd448, 57)
  | _ => Err InvalidData
  end.

Definition asymmetric_key_kind (algorithm : Algorithm) : Result KeyKind :=
  match Algorithm.ml_dsa algorithm with
  | Some parameters => Ok (KindMlDsa parameters)
  | None =>
      match algorithm with
      | EcP224 => Ok (KindEc P224)
      | EcP256 => Ok (KindEc P256)
      | EcP384 => Ok (KindEc P384)
      | EcP521 => Ok (KindEc P521)
      | EcK256 => Ok (KindEc Secp256k1)
      | EcBrainpoolP256 => Ok (KindEc BrainpoolP256)
      | EcBrainpoolP384 => Ok (KindEc BrainpoolP384)
      | EcBrainpoolP512 => Ok (KindEc BrainpoolP512)
      | Ed25519 => Ok (KindEdwards CurveEd25519)
      | Ed448 => Ok (KindEdwards CurveEd448)
      | Rsa2048 => Ok (KindRsa 2048)
      | Rsa3072 => Ok (KindRsa 3072)
      | Rsa4096 => Ok (KindRsa 4096)
      | _ => Err InvalidData
      end
  end.

(** The curve and the object identifier of a Montgomery algorithm. *)
Definition montgomery_algorithm (algorithm : Z) : option (MontgomeryCurve * string) :=
  match Algorithm.from_byte algorithm with
  | Some X25519 => Some (CurveX25519, "1.3.101.110"%string)
  | Some X448 => Some (CurveX448, "1.3.101.111"%string)
  | _ => None
  end.

Section store.
Context `{Build} `{SoftwareKeyCore} `{Fuel}.

(** ** Lookup *)

Definition authorize_object (self : Device) (auth : SessionAuthorization) (key : ObjectKey)
    (capability : Capability) : Result unit :=
  object ← ok_or (objects self !! key) ObjectNotFound;
  authorize_use auth (info object) capability capability.

Definition require_object_visible (self : Device) (auth : SessionAuthorization)
    (key : ObjectKey) : Result unit :=
  object ← ok_or (objects self !! key) ObjectNotFound;
  require_visible auth (info object).

Definition authorize_wrapped_export_of (self : Device) (auth : SessionAuthorization)
    (wrap_key_type : ObjectType) (wrap_id : Z) (target_key : ObjectKey) : Result unit :=
  wrap_key ← ok_or (objects self !! mkObjectKey wrap_key_type wrap_id) ObjectNotFound;
  target ← ok_or (objects self !! target_key) ObjectNotFound;
  authorize_wrapped_export auth target wrap_key.

(** A visible object of the given type whose algorithm is enabled. *)
Definition visible_enabled (self : Device) (auth : SessionAuthorization) (ty : ObjectType)
    (id : Z) : Result ObjectRecord :=
  object ← ok_or (objects self !! mkObjectKey ty id) ObjectNotFound;
  _ ← require_visible auth (info object);
  _ ← require_algorithm_enabled self (algorithm (info object));
  Ok object.

Definition asymmetric_object (self : Device) auth id := visible_enabled self auth AsymmetricKey id.
Definition otp_aead_key (self : Device) auth id := visible_enabled self auth OtpAeadKey id.
Definition hmac_object (self : Device) auth id := visible_enabled self auth HmacKey id.
Definition rsa_public_wrap_key (self : Device) auth id :=
  visible_enabled self auth PublicWrapKey id.

Definition rsa_private_wrap_key (self : Device) auth (id : Z) : Result ObjectRecord :=
  object ← visible_enabled self auth WrapKey id;
  _ ← reject_if (negb (is_rsa_algorithm (algorithm (info object)))) InvalidData;
  Ok object.

Definition ccm_wrap_key (self : Device) auth (id : Z) : Result ObjectRecord :=
  object ← visible_enabled self auth WrapKey id;
  match Algorithm.from_byte (algorithm (info object)) with
  | Some (Aes128CcmWrap | Aes192CcmWrap | Aes256CcmWrap) => Ok object
  | _ => Err InvalidData
  end.

Definition symmetric_object (self : Device) auth (id : Z) : Result ObjectRecord :=
  object ← visible_enabled self auth SymmetricKey id;
  match Algorithm.from_byte (algorithm (info object)) with
  | Some (Aes128 | Aes192 | Aes256) => Ok object
  | _ => Err InvalidData
  end.

(** ** Key material of a record *)

Definition signing_key (object : ObjectRecord) : Result SoftwareSigningKey :=
  match material object with
  | SigningKey key =>
      algorithm ← ok_or (Algorithm.from_byte (algorithm (info object))) InvalidData;
      _ ← reject_if
            (bool_decide (algorithm = X25519 ∨ algorithm = X448)
             || xorb (is_rsa_key algorithm) (bool_decide (is_Some (signing_as_rsa key))))
            InvalidData;
      Ok key
  | _ => Err InvalidData
  end.

Definition rsa_key (object : ObjectRecord) : Result SoftwareSigningKey :=
  algorithm ← ok_or (Algorithm.from_byte (algorithm (info object))) InvalidData;
  _ ← reject_if (negb (is_rsa_key algorithm)) InvalidData;
  signing_key object.

Definition rsa_modulus_length (object : ObjectRecord) : Result Z :=
  ok_or (algorithm ← Algorithm.from_byte (algorithm (info object));
         if is_rsa_key algorithm then asymmetric_key_length algorithm else None) InvalidData.

Definition montgomery_key_for_curve (object : ObjectRecord) (curve : MontgomeryCurve) :
    Result SoftwareMontgomeryKey :=
  match material object with
  | MontgomeryKey key =>
      _ ← reject_if (negb (bool_decide (montgomery_curve key = curve))) InvalidData;
      Ok key
  | _ => Err InvalidData
  end.

Definition montgomery_key (object : ObjectRecord) : Result SoftwareMontgomeryKey :=
  algorithm ← ok_or (montgomery_algorithm (algorithm (info object))) InvalidData;
  montgomery_key_for_curve object algorithm.1.

Definition object_secret (object : ObjectRecord) : Result bytes :=
  match material object with Secret secret => Ok secret | _ => Err InvalidData end.

Definition otp_aead_material (object : ObjectRecord) : Result (bytes * bytes) :=
  match material object with
  | OtpAeadKeyMaterial nonce_id key => Ok (nonce_id, key)
  | _ => Err InvalidData
  end.

Definition parse_authentication_key_material (algorithm : Z) (key : bytes) :
    Result AuthenticationKeyMaterial :=
  if (algorithm =? AUTHENTICATION_ALGORITHM_AES128_YUBICO) && (len key =? 32) then
    Ok (Symmetric key)
  else if (algorithm =? AUTHENTICATION_ALGORITHM_EC_P256) && (len key =? 64) then
    _ ← reject_if (negb (validate_public (PublicEc P256 (0x04 :: key)))) InvalidData;
    Ok (Asymmetric key)
  else if (algorithm =? AUTHENTICATION_ALGORITHM_AES128_YUBICO)
          || (algorithm =? AUTHENTICATION_ALGORITHM_EC_P256) then Err WrongLength
  else Err InvalidData.

(** Parse or generate the private key of an asymmetric object. *)
Definition asymmetric_key_material (algorithm : Algorithm) (generate : bool) (supplied : bytes) :
    Eff World DeviceError ObjectMaterial :=
  expected_length ← lift (ok_or (asymmetric_key_length algorithm) InvalidData);
  match ml_kem algorithm, hybrid_kem algorithm with
  | Some parameters, _ =>
      _ ← lift (reject_if
            ((generate && negb (len supplied =? 0))
             || (negb generate
                 && negb (bool_decide (len supplied ∈
                      [64; ml_kem_expanded_length parameters;
                       64 + ml_kem_expanded_length parameters])))) WrongLength);
      key ← (if generate then call (ml_kem_generate parameters) InvalidData
             else lift (ok_or (ml_kem_from_serialized parameters supplied) InvalidData));
      mret (MlKemKey key)
  | None, Some construction =>
      _ ← lift (reject_if ((generate && negb (len supplied =? 0))
                           || (negb generate && negb (len supplied =? 32))) WrongLength);
      key ← (if generate then call (hybrid_generate construction) InvalidData
             else lift (ok_or (hybrid_from_seed_slice construction supplied) InvalidData));
      mret (HybridKemKey key)
  | None, None =>
      _ ← lift (reject_if (generate && negb (len supplied =? 0)) WrongLength);
      if bool_decide (algorithm = X25519 ∨ algorithm = X448) then
        let curve := if bool_decide (algorithm = X25519) then CurveX25519 else CurveX448 in
        key ← (if generate then call (montgomery_generate curve) StorageFailed
               else _ ← lift (reject_if (negb (len supplied =? expected_length)) WrongLength);
                    lift (ok_or (montgomery_from_serialized curve supplied) InvalidData));
        mret (MontgomeryKey key)
      else if is_rsa_key algorithm then
        key ← (if generate then
                 call (generate_for_kind (KindRsa (expected_length * 8))) StorageFailed
               else _ ← lift (reject_if (negb (len supplied =? expected_length)) WrongLength);
                    let p := ztake (expected_length / 2) supplied in
                    let q := zdrop (expected_length / 2) supplied in
                    call (from_rsa_primes p q [1; 0; 1]) InvalidData);
        mret (SigningKey key)
      else
        kind ← lift (asymmetric_key_kind algorithm);
        match ml_dsa algorithm with
        | Some parameters =>
            _ ← lift (reject_if
                  (negb generate
                   && negb (bool_decide (len supplied ∈
                        [32; ml_dsa_expanded_length parameters;
                         32 + ml_dsa_expanded_length parameters]))) WrongLength);
            key ← (if generate then call (ml_dsa_generate parameters) StorageFailed
                   else lift (ok_or (ml_dsa_from_serialized parameters supplied) InvalidData));
            mret (SigningKey (signing_of_ml_dsa key))
        | None =>
            key ← (if generate then call (generate_for_kind kind) StorageFailed
                   else _ ← lift (reject_if (negb (len supplied =? expected_length)) WrongLength);
                        lift (ok_or (from_serialized_for_kind kind supplied) InvalidData));
            _ ← lift (reject_if
                  (negb (match serialized key with Some secret => len secret | None => 0 end
                         =? expected_length)) InvalidData);
            mret (SigningKey key)
        end
  end.

(** ** Allocation of identifiers *)

(** [self.objects.keys().any(|key| key.id == id)]. *)
Definition id_taken (self : Device) (id : Z) : bool :=
  existsb (λ k, key_id k =? id) (map_to_list (objects self)).*1.

Fixpoint random_available_id_with (draws : nat) (self : Device) (next_id : Eff World DeviceError Z) :
    Eff World DeviceError Z :=
  match draws with
  | O => lift Diverge
  | S draws =>
      id ← next_id;
      if negb (id =? 0) && negb (id =? u16_max) && negb (id_taken self id) then mret id
      else random_available_id_with draws self next_id
  end.

Definition draw_id : Eff World DeviceError Z :=
  encoded ← random_bytes 2;
  mret (from_be_bytes encoded).

Definition resolve_id (self : Device) (object_type : ObjectType) (requested : Z) :
    Eff World DeviceError Z :=
  _ ← lift (reject_if (requested =? u16_max) InvalidId);
  if negb (requested =? 0) then
    _ ← lift (reject_if (bool_decide (is_Some (objects self !! mkObjectKey object_type requested)))
                ObjectExists);
    mret requested
  else random_available_id_with fuel self draw_id.

(** ** Writing objects *)

Definition next_generation (self : Device) (id : Z) : Z :=
  match sequence_history self !! id with
  | Some generation => (generation + 1) mod 18446744073709551616
  | None => 0
  end.

Definition set_info (i : ObjectInfo) (r : ObjectRecord) : ObjectRecord :=
  mkObjectRecord i (material r).

(** The validation of a public wrap key before it is stored. *)
Definition validate_public_wrap_key (record : ObjectRecord) : Eff World DeviceError unit :=
  if bool_decide (object_type (info record) = PublicWrapKey) then
    algorithm ← lift (ok_or (algorithm ← Algorithm.from_byte (algorithm (info record));
                             if is_rsa_key algorithm then Some algorithm else None) InvalidData);
    modulus ← match material record with Public modulus => mret modulus | _ => fail InvalidData end;
    key_length ← lift (ok_or (asymmetric_key_length algorithm) InvalidData);
    effect (λ w,
      let '(r, w') := validate_rsa_public_key modulus [1; 0; 1] (key_length * 8) w in
      (match r with
       | None => Ok tt
       | Some InvalidRsaKey => Err InvalidData
       | Some RandomnessUnavailable => Err StorageFailed
       end, w'))
  else mret tt.

(** The record with the sequence number of its generation, and its entry in the
    history. *)
Definition install_record (record : ObjectRecord) (self : Device) : Device :=
  let key := Info.key (info record) in
  let generation := next_generation self (key_id key) in
  let record := set_info (set_sequence (generation mod 256) (info record)) record in
  set_objects (<[key := record]> (objects self))
    (set_history (<[key_id key := generation]> (sequence_history self)) self).

Definition write_object (record : ObjectRecord) : Dev unit :=
  record ← lift (promote_private_material record);
  _ ← lift (validate record);
  _ ← on_world (validate_public_wrap_key record);
  modify (install_record record).

(** The local validation of an imported RSA private key. *)
Definition validate_imported_rsa (record : ObjectRecord) : Eff World DeviceError ObjectRecord :=
  match material record with
  | SigningKey signing =>
      match signing_as_rsa signing with
      | Some key =>
          key_length ← lift (ok_or (Algorithm.from_byte (algorithm (info record))
                                      ≫= asymmetric_key_length) InvalidData);
          _ ← lift (reject_if (negb (modulus_bits_of key =? key_length * 8)) InvalidData);
          effect (λ w,
            let '(r, w') := validate_for_import key w in
            (match r with
             | inl validated =>
                 Ok (mkObjectRecord (info record) (SigningKey (signing_of_rsa validated)))
             | inr InvalidRsaKey => Err InvalidData
             | inr RandomnessUnavailable => Err StorageFailed
             end, w'))
      | None => mret record
      end
  | _ => mret record
  end.

Definition write_imported_object (record : ObjectRecord) : Dev unit :=
  record ← lift (promote_private_material record);
  _ ← lift (validate record);
  record ← on_world (validate_imported_rsa record);
  write_object record.

Definition provision_object (record : ObjectRecord) : Dev unit :=
  record ← lift (promote_private_material record);
  _ ← lift (validate record);
  modify (λ self,
    let key := Info.key (info record) in
    set_persistent_change true
      (set_objects (<[key := record]> (objects self))
         (set_history (<[key_id key := sequence (info record)]> (sequence_history self)) self))).

(** ** Factory state *)

Definition factory_info : ObjectInfo :=
  mkObjectInfo ALL 1 40 u16_max AuthenticationKey DEFAULT_AUTHENTICATION_ALGORITHM 0 2
    (ascii_bytes "DEFAULT AUTHKEY CHANGE THIS") ALL.

Definition factory_record : ObjectRecord :=
  mkObjectRecord factory_info
    (Authentication (Symmetric (yubico_password_kdf (ascii_bytes "password")))).

Definition install_factory_authentication_key (self : Device) : Device :=
  set_objects (<[Info.key factory_info := factory_record]> (objects self))
    (set_history (<[1 := 0]> (sequence_history self)) self).

Definition factory_default_with_device_static_private (config : DeviceConfig)
    (device_static_private : bytes) : Result Device :=
  key ← ok_or (from_serialized_for_kind (KindEc P256) device_static_private) InvalidData;
  Ok (install_factory_authentication_key
        (mkDevice config ∅ ∅ key 0 ∅ default_options initial_audit false)).

Definition random_device_static_private : Eff World DeviceError bytes :=
  key ← random_secret_key;
  encoded ← lift (ok_or (serialized key) StorageFailed);
  _ ← lift (reject_if (negb (len encoded =? 32)) StorageFailed);
  mret encoded.

(** [expect] turns a failure into a panic. *)
Definition factory_default (config : DeviceConfig) : Eff World DeviceError Device := λ w,
  match random_device_static_private w with
  | (Ok device_static_private, w) =>
      match factory_default_with_device_static_private config device_static_private with
      | Ok device => (Ok device, w)
      | _ => (Panic, w)
      end
  | (_, w) => (Panic, w)
  end.
End store.
