(* ===== verification/ObjectCommands.v ===== *)
(** * Commands that create, replace or read objects
    (crates/virtual-yubihsm-core/src/device.rs, lines 1662-1872, 2476-2713,
    3144-3206, 3258-3312, 3347-3371) *)

From S2P Require Import Prelude Error Frame Firmware Algorithm Capability Protocol KeyCore Toy.
From S2P Require Import Wire Objects Authorization SessionObjects Requests SecureChannel.
From S2P Require Import DeviceState ObjectStore.

Section commands.
Context `{Build} `{SoftwareKeyCore} `{Fuel}.

Definition put_opaque (auth : SessionAuthorization) (data : bytes) : Dev bytes :=
  '(ObjectRequest_ header material) ← lift (decode PutOpaqueRequest data);
  let '(ObjectHeader_ requested_id padded domains capabilities algorithm) := header in
  self ← get_left;
  _ ← lift (require_algorithm_enabled self algorithm);
  let label := trim_label padded in
  _ ← lift (reject_if (negb (algorithm =? OPAQUE_DATA_ALGORITHM) && (len material =? 0))
              InvalidData);
  let existing :=
    if requested_id =? 0 then None else objects self !! mkObjectKey Opaque requested_id in
  match existing with
  | Some existing =>
      let i := info existing in
      _ ← lift (reject_if
            (negb (bool_decide (Objects.capabilities i = capabilities))
             || negb (Objects.domains i =? domains)
             || negb (Objects.algorithm i =? algorithm)
             || negb (bool_decide (Objects.label i = label))) InvalidData);
      length ← lift (ok_or (u16_try_from (len material)) WrongLength);
      _ ← write_object (mkObjectRecord (set_length length i) (OpaqueMaterial material));
      mret (u16_to_be_bytes requested_id)
  | None =>
      id ← on_world (resolve_id self Opaque requested_id);
      length ← lift (ok_or (u16_try_from (len material)) WrongLength);
      let i := mkObjectInfo capabilities id length domains Opaque algorithm 0 2 label NONE in
      _ ← lift (authorize_create auth i Capability.PutOpaque);
      let record := mkObjectRecord i (OpaqueMaterial material) in
      _ ← lift (validate record);
      _ ← write_object record;
      mret (u16_to_be_bytes id)
  end.

Definition put_authentication_key (auth : SessionAuthorization) (data : bytes) : Dev bytes :=
  '(DelegatedObjectRequest_ header delegated material) ←
    lift (decode PutAuthenticationKeyRequest data);
  let '(ObjectHeader_ requested_id padded domains capabilities algorithm) := header in
  self ← get_left;
  _ ← lift (require_algorithm_enabled self algorithm);
  key_length ← lift (authentication_key_length algorithm);
  _ ← lift (reject_if (negb (len material =? key_length)) WrongLength);
  id ← on_world (resolve_id self AuthenticationKey requested_id);
  let i := mkObjectInfo capabilities id (as_u16 (key_length + 8)) domains AuthenticationKey
             algorithm 0 2 (trim_label padded) delegated in
  _ ← lift (authorize_create auth i Capability.PutAuthenticationKey);
  material ← lift (parse_authentication_key_material algorithm material);
  let record := mkObjectRecord i (Authentication material) in
  _ ← lift (validate record);
  _ ← write_object record;
  mret (u16_to_be_bytes id).

Definition put_asymmetric_key (auth : SessionAuthorization) (data : bytes) (generate : bool) :
    Dev bytes :=
  '(ObjectRequest_ header supplied) ←
    lift (if generate then decode GenerateAsymmetricKeyRequest data
          else decode PutAsymmetricKeyRequest data);
  let '(ObjectHeader_ requested_id padded domains capabilities algorithm_byte) := header in
  _ ← lift (reject_if (generate && negb (len supplied =? 0)) WrongLength);
  algorithm ← lift (ok_or (Algorithm.from_byte algorithm_byte) InvalidData);
  self ← get_left;
  _ ← lift (require_algorithm_enabled self (Algorithm.to_byte algorithm));
  expected_length ← lift (ok_or (asymmetric_key_length algorithm) InvalidData);
  id ← on_world (resolve_id self AsymmetricKey requested_id);
  let capability :=
    if generate then Capability.GenerateAsymmetricKey else Capability.PutAsymmetricKey in
  length ← lift (ok_or (asymmetric_object_length algorithm) InvalidData);
  let i := mkObjectInfo capabilities id (as_u16 length) domains AsymmetricKey
             (Algorithm.to_byte algorithm) 0 (if generate then 1 else 2) (trim_label padded)
             NONE in
  _ ← lift (authorize_create auth i capability);
  material ← on_world (asymmetric_key_material algorithm generate supplied);
  _ ← lift (reject_if (negb (material_len material =? expected_length)) InvalidData);
  let record := mkObjectRecord i material in
  _ ← lift (validate record);
  _ ← (if generate then write_object record else write_imported_object record);
  mret (u16_to_be_bytes id).

Definition hmac_length (algorithm : Z) : Result Z :=
  match algorithm with
  | 19 => Ok 20
  | 20 => Ok 32
  | 21 => Ok 48
  | 22 => Ok 64
  | _ => Err InvalidData
  end.

Definition put_hmac_key (auth : SessionAuthorization) (data : bytes) (generate : bool) :
    Dev bytes :=
  '(ObjectRequest_ header supplied) ←
    lift (if generate then decode GenerateHmacKeyRequest data
          else decode PutHmacKeyRequest data);
  let '(ObjectHeader_ requested_id padded domains capabilities algorithm) := header in
  _ ← lift (reject_if (generate && negb (len supplied =? 0)) WrongLength);
  self ← get_left;
  _ ← lift (require_algorithm_enabled self algorithm);
  generated_length ← lift (hmac_length algorithm);
  secret ←
    (if generate then on_world (random_bytes generated_length)
     else _ ← lift (reject_if ((len supplied =? 0) || (128 <? len supplied)) WrongLength);
          mret supplied);
  id ← on_world (resolve_id self HmacKey requested_id);
  let capability :=
    if generate then Capability.GenerateHmacKey else Capability.PutMacKey in
  length ← lift (ok_or (Algorithm.from_byte algorithm ≫= hmac_object_length) InvalidData);
  let i := mkObjectInfo capabilities id (as_u16 length) domains HmacKey algorithm 0
             (if generate then 1 else 2) (trim_label padded) NONE in
  _ ← lift (authorize_create auth i capability);
  let record := mkObjectRecord i (Secret secret) in
  _ ← lift (validate record);
  _ ← write_object record;
  mret (u16_to_be_bytes id).

Definition put_symmetric_key (auth : SessionAuthorization) (data : bytes) (generate : bool) :
    Dev bytes :=
  '(ObjectRequest_ header supplied) ←
    lift (if generate then decode GenerateSymmetricKeyRequest data
          else decode PutSymmetricKeyRequest data);
  let '(ObjectHeader_ requested_id padded domains capabilities algorithm_byte) := header in
  _ ← lift (reject_if (generate && negb (len supplied =? 0)) WrongLength);
  algorithm ← lift (ok_or (Algorithm.from_byte algorithm_byte) InvalidData);
  self ← get_left;
  _ ← lift (require_algorithm_enabled self (Algorithm.to_byte algorithm));
  key_length ← lift (ok_or
    (match algorithm with
     | Aes128 | Aes192 | Aes256 => aes_key_length algorithm
     | _ => None
     end) InvalidData);
  secret ←
    (if generate then on_world (random_bytes key_length)
     else _ ← lift (reject_if (negb (len supplied =? key_length)) WrongLength);
          mret supplied);
  id ← on_world (resolve_id self SymmetricKey requested_id);
  let capability :=
    if generate then Capability.GenerateSymmetricKey else Capability.PutSymmetricKey in
  let i := mkObjectInfo capabilities id (as_u16 key_length) domains SymmetricKey
             (Algorithm.to_byte algorithm) 0 (if generate then 1 else 2) (trim_label padded)
             NONE in
  _ ← lift (authorize_create auth i capability);
  let record := mkObjectRecord i (Secret secret) in
  _ ← lift (validate record);
  _ ← write_object record;
  mret (u16_to_be_bytes id).

Definition put_wrap_key (auth : SessionAuthorization) (data : bytes) (generate : bool) :
    Dev bytes :=
  '(DelegatedObjectRequest_ header delegated supplied) ←
    lift (if generate then decode GenerateWrapKeyRequest data
          else decode PutWrapKeyRequest data);
  _ ← lift (reject_if (generate && negb (len supplied =? 0)) WrongLength);
  let '(ObjectHeader_ requested_id padded domains capabilities algorithm_byte) := header in
  algorithm ← lift (ok_or (Algorithm.from_byte algorithm_byte) InvalidData);
  self ← get_left;
  _ ← lift (require_algorithm_enabled self (Algorithm.to_byte algorithm));
  key_length ← lift
    (match algorithm with
     | Aes128CcmWrap | Aes192CcmWrap | Aes256CcmWrap => unwrap (aes_key_length algorithm)
     | Rsa2048 | Rsa3072 | Rsa4096 => unwrap (asymmetric_key_length algorithm)
     | _ => Err InvalidData
     end);
  id ← on_world (resolve_id self WrapKey requested_id);
  let capability :=
    if generate then Capability.GenerateWrapKey else Capability.PutWrapKey in
  object_length ← lift
    (if is_rsa_key algorithm
     then ok_or (asymmetric_object_length algorithm ≫= λ length, checked_add length 8) InvalidData
     else Ok (key_length + 8));
  let i := mkObjectInfo capabilities id (as_u16 object_length) domains WrapKey
             (Algorithm.to_byte algorithm) 0 (if generate then 1 else 2) (trim_label padded)
             delegated in
  _ ← lift (authorize_create auth i capability);
  material ←
    (if is_rsa_key algorithm then on_world (asymmetric_key_material algorithm generate supplied)
     else if generate then
       secret ← on_world (random_bytes key_length);
       mret (Secret secret)
     else
       _ ← lift (reject_if (negb (len supplied =? key_length)) WrongLength);
       mret (Secret supplied));
  let record := mkObjectRecord i material in
  _ ← lift (validate record);
  _ ← (if generate then write_object record else write_imported_object record);
  mret (u16_to_be_bytes id).

Definition put_public_wrap_key (auth : SessionAuthorization) (data : bytes) : Dev bytes :=
  '(DelegatedObjectRequest_ header delegated material) ←
    lift (decode PutPublicWrapKeyRequest data);
  let '(ObjectHeader_ requested_id padded domains capabilities algorithm_byte) := header in
  algorithm ← lift (ok_or (Algorithm.from_byte algorithm_byte) InvalidData);
  self ← get_left;
  _ ← lift (require_algorithm_enabled self (Algorithm.to_byte algorithm));
  _ ← lift (reject_if (negb (is_rsa_key algorithm)) InvalidData);
  key_length ← lift (unwrap (asymmetric_key_length algorithm));
  _ ← lift (reject_if (negb (len material =? key_length)) WrongLength);
  id ← on_world (resolve_id self PublicWrapKey requested_id);
  let i := mkObjectInfo capabilities id (as_u16 (key_length + 8)) domains PublicWrapKey
             (Algorithm.to_byte algorithm) 0 2 (trim_label padded) delegated in
  _ ← lift (authorize_create auth i Capability.PutPublicWrapKey);
  let record := mkObjectRecord i (Public material) in
  _ ← lift (validate record);
  _ ← write_object record;
  mret (u16_to_be_bytes id).

Definition put_otp_aead_key (auth : SessionAuthorization) (data : bytes) (generate : bool) :
    Dev bytes :=
  '(OtpAeadKeyRequest_ header nonce_id supplied) ←
    lift (if generate then decode GenerateOtpAeadKeyRequest data
          else decode PutOtpAeadKeyRequest data);
  _ ← lift (reject_if (generate && negb (len supplied =? 0)) WrongLength);
  let '(ObjectHeader_ requested_id padded domains capabilities algorithm_byte) := header in
  algorithm ← lift (ok_or (Algorithm.from_byte algorithm_byte) InvalidData);
  self ← get_left;
  _ ← lift (require_algorithm_enabled self (Algorithm.to_byte algorithm));
  key_length ← lift
    (match algorithm with
     | Aes128YubicoOtp | Aes192YubicoOtp | Aes256YubicoOtp => unwrap (aes_key_length algorithm)
     | _ => Err InvalidData
     end);
  key ←
    (if generate then on_world (random_bytes key_length)
     else _ ← lift (reject_if (negb (len supplied =? key_length)) WrongLength);
          mret supplied);
  id ← on_world (resolve_id self OtpAeadKey requested_id);
  let capability :=
    if generate then Capability.GenerateOtpAeadKey else Capability.PutOtpAeadKey in
  let i := mkObjectInfo capabilities id (as_u16 (key_length + 4)) domains OtpAeadKey
             (Algorithm.to_byte algorithm) 0 (if generate then 1 else 2) (trim_label padded)
             NONE in
  _ ← lift (authorize_create auth i capability);
  let record := mkObjectRecord i (OtpAeadKeyMaterial nonce_id key) in
  _ ← lift (validate record);
  _ ← write_object record;
  mret (u16_to_be_bytes id).

Definition put_template (auth : SessionAuthorization) (data : bytes) : Dev bytes :=
  '(ObjectRequest_ header material) ← lift (decode PutTemplateRequest data);
  let '(ObjectHeader_ requested_id padded domains capabilities algorithm) := header in
  _ ← lift (reject_if (len material =? 0) WrongLength);
  _ ← lift (reject_if (negb (algorithm =? Algorithm.to_byte TemplateSsh)) InvalidData);
  self ← get_left;
  _ ← lift (require_algorithm_enabled self algorithm);
  id ← on_world (resolve_id self Template requested_id);
  length ← lift (ok_or (u16_try_from (len material)) WrongLength);
  let i := mkObjectInfo capabilities id length domains Template algorithm 0 2
             (trim_label padded) NONE in
  _ ← lift (authorize_create auth i Capability.PutTemplate);
  let record := mkObjectRecord i (OpaqueMaterial material) in
  _ ← lift (validate record);
  _ ← write_object record;
  mret (u16_to_be_bytes id).

Definition get_template (self : Device) (data : bytes) : Result bytes :=
  '(U16Request_ id) ← decode GetTemplateRequest data;
  object ← ok_or (objects self !! mkObjectKey Template id) ObjectNotFound;
  match material object with
  | OpaqueMaterial template => Ok template
  | _ => Err InvalidData
  end.

(** The authorization of this command is [authorize_command_request]'s. *)
Definition change_authentication_key (data : bytes) : Dev bytes :=
  '(ChangeAuthenticationKeyRequest_ id algorithm material) ←
    lift (decode ChangeAuthenticationKeyRequest data);
  self ← get_left;
  _ ← lift (require_algorithm_enabled self algorithm);
  key_length ← lift (authentication_key_length algorithm);
  _ ← lift (reject_if (negb (len material =? key_length)) WrongLength);
  material ← lift (parse_authentication_key_material algorithm material);
  existing ← lift (ok_or (objects self !! mkObjectKey AuthenticationKey id) ObjectNotFound);
  _ ← write_object (mkObjectRecord
        (set_length (as_u16 (key_length + 8)) (set_algorithm algorithm (info existing)))
        (Authentication material));
  mret (u16_to_be_bytes id).

(** The bytes after the algorithm in the answer of [GetPublicKey]. *)
Definition public_key_bytes (object : ObjectRecord) : Result bytes :=
  if bool_decide (object_type (info object) = AuthenticationKey) then
    match material object with
    | Authentication (Asymmetric public) => Ok public
    | _ => Err InvalidData
    end
  else if bool_decide (object_type (info object) = PublicWrapKey) then
    match material object with Public public => Ok public | _ => Err InvalidData end
  else
    match material object with
    | MlKemKey key => Ok (ml_kem_public_key key)
    | HybridKemKey key => ok_or (hybrid_public_key key) InvalidData
    | _ =>
        match Algorithm.from_byte (algorithm (info object)) with
        | Some (X25519 | X448) =>
            key ← montgomery_key object;
            Ok (montgomery_public_key key)
        | _ =>
            key ← signing_key object;
            match public_key key with
            | PublicEc _ uncompressed => slice uncompressed 1 (len uncompressed)
            | PublicEdwards _ public => Ok public
            | PublicRsa modulus _ => Ok modulus
            | PublicMlDsa _ public => Ok public
            end
        end
    end.

Definition get_public_key (self : Device) (auth : SessionAuthorization) (data : bytes) :
    Result bytes :=
  '(GetPublicKeyRequest_ id object_type) ← decode GetPublicKeyRequest data;
  _ ← reject_if (negb (bool_decide (object_type ∈
         [AsymmetricKey; AuthenticationKey; WrapKey; PublicWrapKey]))) InvalidData;
  object ← ok_or (objects self !! mkObjectKey object_type id) ObjectNotFound;
  _ ← require_visible auth (info object);
  public ← public_key_bytes object;
  Ok (algorithm (info object) :: public).
End commands.
