(* ===== verification/KeyUse.v ===== *)
(** * Commands that use stored keys
    (crates/virtual-yubihsm-core/src/device.rs, lines 1991-2209, 2424-2457,
    3067-3119, 3208-3243, 3314-3332, 3890-3927, 4392-4460)

    Signatures, decryption, key encapsulation and agreement, AES, HMAC and
    Yubico OTP. All are [&self]: they read the device and use the world only for
    randomness. *)

From S2P Require Import Prelude Error Frame Firmware Algorithm Capability Protocol KeyCore Toy.
From S2P Require Import Wire Objects Authorization SessionObjects Requests SecureChannel.
From S2P Require Import DeviceState ObjectStore ObjectCommands.

Definition rsa_hash_from_digest_length (length : Z) : option RsaHashAlgorithm :=
  match length with
  | 20 => Some RsaSha1
  | 32 => Some RsaSha256
  | 48 => Some RsaSha384
  | 64 => Some RsaSha512
  | _ => None
  end.

Definition rsa_mgf_hash (algorithm : Z) : Result RsaHashAlgorithm :=
  match Algorithm.from_byte algorithm with
  | Some Mgf1Sha1 => Ok RsaSha1
  | Some Mgf1Sha256 => Ok RsaSha256
  | Some Mgf1Sha384 => Ok RsaSha384
  | Some Mgf1Sha512 => Ok RsaSha512
  | _ => Err InvalidData
  end.

Definition ecdh_kdf_hash (value : Z) : Result HashAlgorithm :=
  match value with
  | 1 => Ok Sha1
  | 2 => Ok Sha224
  | 3 => Ok Sha256
  | 4 => Ok Sha384
  | 5 => Ok Sha512
  | 6 => Ok Sha3_224
  | 7 => Ok Sha3_256
  | 8 => Ok Sha3_384
  | 9 => Ok Sha3_512
  | _ => Err InvalidData
  end.

(** One bit of the reflected CRC-16 with polynomial 0x8408. *)
Definition crc_bit (crc : Z) : Z :=
  if Z.land crc 1 =? 0 then Z.shiftr crc 1 else Z.lxor (Z.shiftr crc 1) 0x8408.

Definition crc_byte (crc byte : Z) : Z := Nat.iter 8 crc_bit (Z.lxor crc byte).

Definition yubico_crc16 (data : bytes) : Z := foldl crc_byte 0xffff data.

(** [usize::checked_sub]. *)
Definition checked_sub (a b : Z) : option Z := if b <=? a then Some (a - b) else None.

Section use.
Context `{Build} `{SoftwareKeyCore} `{Fuel}.

#[local] Abbreviation Read := (Eff World DeviceError).

(** ** RSA *)

Definition sign_pkcs1 (self : Device) (auth : SessionAuthorization) (data : bytes) : Read bytes :=
  '(IdRemainderRequest_ id payload) ← lift (decode SignPkcs1Request data);
  _ ← lift (reject_if (len payload =? 0) WrongLength);
  object ← lift (asymmetric_object self auth id);
  key ← lift (rsa_key object);
  match rsa_hash_from_digest_length (len payload) with
  | Some hash => call (sign_rsa_pkcs1v15_digest key hash payload) InvalidData
  | None => call (sign_rsa_pkcs1v15_payload key payload) InvalidData
  end.

Definition sign_pss (self : Device) (auth : SessionAuthorization) (data : bytes) : Read bytes :=
  '(SignPssRequest_ id mgf salt_length digest) ← lift (decode SignPssRequest data);
  _ ← lift (reject_if (len digest =? 0) WrongLength);
  object ← lift (asymmetric_object self auth id);
  mgf_hash ← lift (rsa_mgf_hash mgf);
  hash ← lift (ok_or (rsa_hash_from_digest_length (len digest)) WrongLength);
  key ← lift (rsa_key object);
  call (sign_rsa_pss_digest key hash mgf_hash salt_length digest) InvalidData.

Definition decrypt_pkcs1 (self : Device) (auth : SessionAuthorization) (data : bytes) :
    Read bytes :=
  '(IdRemainderRequest_ id ciphertext) ← lift (decode DecryptPkcs1Request data);
  _ ← lift (reject_if (len ciphertext =? 0) WrongLength);
  object ← lift (asymmetric_object self auth id);
  key ← lift (rsa_key object);
  call (decrypt_rsa_pkcs1v15 key ciphertext) InvalidData.

Definition decrypt_oaep (self : Device) (auth : SessionAuthorization) (data : bytes) :
    Read bytes :=
  '(DecryptOaepRequest_ id mgf ciphertext_and_label) ← lift (decode DecryptOaepRequest data);
  object ← lift (asymmetric_object self auth id);
  modulus_length ← lift (rsa_modulus_length object);
  digest_length ← lift (ok_or (checked_sub (len ciphertext_and_label) modulus_length) WrongLength);
  _ ← lift (reject_if (negb (bool_decide (digest_length ∈ [20; 32; 48; 64]))) WrongLength);
  mgf_hash ← lift (rsa_mgf_hash mgf);
  key ← lift (rsa_key object);
  call (decrypt_rsa_oaep_digest key (ztake modulus_length ciphertext_and_label)
          (zdrop modulus_length ciphertext_and_label) mgf_hash) InvalidData.

(** ** Elliptic curves and post-quantum keys *)

Definition sign_ecdsa (self : Device) (auth : SessionAuthorization) (data : bytes) : Read bytes :=
  '(IdRemainderRequest_ id digest) ← lift (decode SignEcdsaRequest data);
  _ ← lift (reject_if (len digest =? 0) WrongLength);
  object ← lift (asymmetric_object self auth id);
  scheme ← lift (asymmetric_key_algorithm (algorithm (info object)));
  _ ← lift (reject_if (bool_decide (scheme.1 = SchemeEd25519 ∨ scheme.1 = SchemeEd448)) InvalidData);
  curve ← lift (ok_or (scheme_ec_curve scheme.1) InvalidData);
  key ← lift (signing_key object);
  signature ← call (sign_prehash key scheme.1 digest) InvalidData;
  lift (ok_or (to_ecdsa_der curve signature) InvalidData).

Definition sign_eddsa (self : Device) (auth : SessionAuthorization) (data : bytes) : Read bytes :=
  '(IdRemainderRequest_ id message) ← lift (decode SignEddsaRequest data);
  object ← lift (asymmetric_object self auth id);
  scheme ← lift
    (match Algorithm.from_byte (algorithm (info object)) with
     | Some Ed25519 => Ok SchemeEd25519
     | Some Ed448 => Ok SchemeEd448
     | _ => Err InvalidData
     end);
  key ← lift (signing_key object);
  call (sign_message key scheme message) InvalidData.

Definition sign_ml_dsa (self : Device) (auth : SessionAuthorization) (data : bytes) : Read bytes :=
  '(SignMlDsaRequest_ prehash id mode context message) ← lift (decode SignMlDsaRequest data);
  object ← lift (asymmetric_object self auth id);
  _ ← lift (require_algorithm_enabled self (algorithm (info object)));
  mode ← lift
    (match mode with
     | 0 => Ok Deterministic
     | 1 => Ok Randomized
     | 2 => Ok HedgePreferred
     | _ => Err InvalidData
     end);
  key ← lift (signing_key object);
  key ← lift (ok_or (signing_as_ml_dsa key) InvalidData);
  match prehash with
  | Some hash => call (ml_dsa_sign_prehash key message context hash mode) InvalidData
  | None => call (ml_dsa_sign key message context mode) InvalidData
  end.

Definition encapsulate_ml_kem (self : Device) (auth : SessionAuthorization) (data : bytes) :
    Read bytes :=
  '(U16Request_ id) ← lift (decode EncapsulateMlKemRequest data);
  object ← lift (asymmetric_object self auth id);
  _ ← lift (require_algorithm_enabled self (algorithm (info object)));
  key ← lift (match material object with MlKemKey key => Ok key | _ => Err InvalidData end);
  encapsulated ← call (ml_kem_encapsulate (ml_kem_parameter_set key) (ml_kem_public_key key))
                   InvalidData;
  mret (encapsulated.1 ++ encapsulated.2).

Definition decapsulate_ml_kem (self : Device) (auth : SessionAuthorization) (data : bytes) :
    Read bytes :=
  '(IdRemainderRequest_ id ciphertext) ← lift (decode DecapsulateMlKemRequest data);
  _ ← lift (reject_if (len ciphertext =? 0) WrongLength);
  object ← lift (asymmetric_object self auth id);
  _ ← lift (require_algorithm_enabled self (algorithm (info object)));
  key ← lift (match material object with MlKemKey key => Ok key | _ => Err InvalidData end);
  _ ← lift (reject_if (negb (len ciphertext =? ml_kem_ciphertext_length (ml_kem_parameter_set key)))
              WrongLength);
  lift (ok_or (ml_kem_decapsulate key ciphertext) InvalidData).

Definition encapsulate_hybrid_kem (self : Device) (auth : SessionAuthorization) (data : bytes) :
    Read bytes :=
  '(U16Request_ id) ← lift (decode EncapsulateMlKemRequest data);
  object ← lift (asymmetric_object self auth id);
  _ ← lift (require_algorithm_enabled self (algorithm (info object)));
  key ← lift (match material object with HybridKemKey key => Ok key | _ => Err InvalidData end);
  public ← lift (ok_or (hybrid_public_key key) InvalidData);
  encapsulated ← call (hybrid_kem_encapsulate (hybrid_construction key) public) InvalidData;
  mret (encapsulated.1 ++ encapsulated.2).

Definition decapsulate_hybrid_kem (self : Device) (auth : SessionAuthorization) (data : bytes) :
    Read bytes :=
  '(IdRemainderRequest_ id ciphertext) ← lift (decode DecapsulateMlKemRequest data);
  object ← lift (asymmetric_object self auth id);
  _ ← lift (require_algorithm_enabled self (algorithm (info object)));
  key ← lift (match material object with HybridKemKey key => Ok key | _ => Err InvalidData end);
  _ ← lift (reject_if (negb (len ciphertext =? hybrid_ciphertext_length (hybrid_construction key)))
              WrongLength);
  lift (ok_or (hybrid_decapsulate key ciphertext) InvalidData).

Definition raw_ecdh_secret (object : ObjectRecord) (peer_public : bytes) : Result bytes :=
  match montgomery_algorithm (algorithm (info object)) with
  | Some _ =>
      key ← montgomery_key object;
      ok_or (montgomery_derive key peer_public) InvalidData
  | None =>
      key ← signing_key object;
      ok_or (derive_with_signing_key key peer_public) InvalidData
  end.

Definition derive_ecdh (self : Device) (auth : SessionAuthorization) (data : bytes) :
    Result bytes :=
  '(IdRemainderRequest_ id peer_public) ← decode DeriveEcdhRequest data;
  _ ← reject_if (len peer_public =? 0) WrongLength;
  object ← asymmetric_object self auth id;
  raw_ecdh_secret object peer_public.

Definition derive_ecdh_kdf (self : Device) (auth : SessionAuthorization) (data : bytes) :
    Result bytes :=
  '(DeriveEcdhKdfRequest_ id hash output_length peer_public prefix shared_info) ←
    decode DeriveEcdhKdfRequest data;
  hash ← ecdh_kdf_hash hash;
  _ ← reject_if ((output_length =? 0) || negb (secure_response_data_fits output_length))
        WrongLength;
  object ← asymmetric_object self auth id;
  shared_secret ← raw_ecdh_secret object peer_public;
  ok_or (x963_kdf hash (prefix ++ shared_secret) shared_info output_length) InvalidData.

(** ** AES *)

Definition crypt_aes_ecb (self : Device) (auth : SessionAuthorization) (data : bytes)
    (encrypt : bool) : Result bytes :=
  '(IdRemainderRequest_ id input) ←
    (if encrypt then decode EncryptEcbRequest data else decode DecryptEcbRequest data);
  _ ← reject_if ((len input <? AES_BLOCK_SIZE) || negb (len input mod AES_BLOCK_SIZE =? 0))
        WrongLength;
  object ← symmetric_object self auth id;
  key ← object_secret object;
  sum_ok (if encrypt then encrypt_aes_ecb key input else decrypt_aes_ecb key input) InvalidData.

Definition crypt_aes_cbc (self : Device) (auth : SessionAuthorization) (data : bytes)
    (encrypt : bool) : Result bytes :=
  '(AesCbcRequest_ id iv input) ←
    (if encrypt then decode EncryptCbcRequest data else decode DecryptCbcRequest data);
  _ ← reject_if ((len input <? AES_BLOCK_SIZE) || negb (len input mod AES_BLOCK_SIZE =? 0))
        WrongLength;
  object ← symmetric_object self auth id;
  key ← object_secret object;
  sum_ok (if encrypt then encrypt_aes_cbc key iv input else decrypt_aes_cbc key iv input)
    InvalidData.

(** ** HMAC *)

Definition calculate_hmac (object : ObjectRecord) (data : bytes) : Result bytes :=
  match material object with
  | Secret secret =>
      hash ←
        match algorithm (info object) with
        | 19 => Ok Sha1
        | 20 => Ok Sha256
        | 21 => Ok Sha384
        | 22 => Ok Sha512
        | _ => Err InvalidData
        end;
      ok_or (hmac hash secret data) InvalidData
  | _ => Err InvalidData
  end.

Definition sign_hmac (self : Device) (auth : SessionAuthorization) (data : bytes) :
    Result bytes :=
  '(IdRemainderRequest_ id message) ← decode SignHmacRequest data;
  object ← hmac_object self auth id;
  calculate_hmac object message.

Definition verify_hmac (self : Device) (auth : SessionAuthorization) (data : bytes) :
    Result bytes :=
  '(IdRemainderRequest_ id signature_and_message) ← decode VerifyHmacRequest data;
  object ← hmac_object self auth id;
  signature_length ← hmac_length (algorithm (info object));
  _ ← reject_if (len signature_and_message <? signature_length) WrongLength;
  let signature := ztake signature_length signature_and_message in
  let message := zdrop signature_length signature_and_message in
  expected ← calculate_hmac object message;
  Ok [if bool_decide (expected = signature) then 1 else 0].

(** ** Yubico OTP *)

Definition otp_aead_encrypt (object : ObjectRecord) (credential : bytes) : Read bytes :=
  _ ← lift (reject_if (negb (len credential =? 22)) WrongLength);
  material ← lift (otp_aead_material object);
  random ← random_bytes 6;
  let nonce := material.1 ++ random ++ zeros 3 in
  encrypted ← lift (sum_ok (encrypt_yubico_otp_aead material.2 nonce credential) InvalidData);
  mret (random ++ encrypted).

Definition otp_aead_decrypt (object : ObjectRecord) (aead : bytes) : Result bytes :=
  _ ← reject_if (negb (len aead =? 36)) WrongLength;
  material ← otp_aead_material object;
  let nonce := material.1 ++ ztake 6 aead ++ zeros 3 in
  sum_ok (decrypt_yubico_otp_aead material.2 nonce (zdrop 6 aead)) InvalidOtp.

Definition create_otp_aead (self : Device) (auth : SessionAuthorization) (data : bytes) :
    Read bytes :=
  '(CreateOtpAeadRequest_ id credential) ← lift (decode CreateOtpAeadRequest data);
  object ← lift (otp_aead_key self auth id);
  otp_aead_encrypt object credential.

Definition randomize_otp_aead (self : Device) (auth : SessionAuthorization) (data : bytes) :
    Read bytes :=
  '(U16Request_ id) ← lift (decode RandomizeOtpAeadRequest data);
  object ← lift (otp_aead_key self auth id);
  credential ← random_bytes 22;
  otp_aead_encrypt object credential.

Definition decrypt_otp (self : Device) (auth : SessionAuthorization) (data : bytes) :
    Result bytes :=
  '(DecryptOtpRequest_ id aead otp) ← decode DecryptOtpRequest data;
  object ← otp_aead_key self auth id;
  credential ← otp_aead_decrypt object aead;
  key ← slice credential 0 16;
  token ← sum_ok (decrypt_aes_ecb key otp) InvalidData;
  private_id ← slice token 0 6;
  expected_id ← slice credential 16 22;
  _ ← reject_if (negb (bool_decide (private_id = expected_id))
                 || negb (yubico_crc16 token =? 0xf0b8)) InvalidOtp;
  use_counter ← slice token 6 8;
  session_counter ← slice token 11 12;
  timestamp_high ← slice token 10 11;
  timestamp_low ← slice token 8 10;
  Ok (use_counter ++ session_counter ++ timestamp_high ++ timestamp_low).

Definition rewrap_otp_aead (self : Device) (auth : SessionAuthorization) (data : bytes) :
    Read bytes :=
  '(RewrapOtpAeadRequest_ from_id to_id aead) ← lift (decode RewrapOtpAeadRequest data);
  from ← lift (otp_aead_key self auth from_id);
  to ← lift (otp_aead_key self auth to_id);
  credential ← lift (otp_aead_decrypt from aead);
  otp_aead_encrypt to credential.
End use.
