(* ===== verification/Wrapping.v ===== *)
(** * Wrapped data, objects and keys
    (crates/virtual-yubihsm-core/src/device.rs, lines 66-76, 2715-3009,
    3714-3744, 3929-4390)

    AES-CCM wrapping of data and objects, RSA wrapping of objects and key
    material, the CBOR format of a wrapped object, and the PKCS#8 encodings of
    asymmetric keys. *)

From S2P Require Import Prelude Error Frame Firmware Algorithm Capability Protocol KeyCore Toy.
From S2P Require Import Wire Objects Authorization SessionObjects Requests SecureChannel.
From S2P Require Import DeviceState ObjectStore ObjectCommands KeyUse.

Definition WRAPPED_OBJECT_SCHEMA : string := "virtual-yubihsm-object".
Definition WRAPPED_OBJECT_VERSION : Z := 1.
Definition WRAPPED_MATERIAL_SECRET : Z := 0.
Definition WRAPPED_MATERIAL_PKCS8 : Z := 1.
Definition WRAPPED_MATERIAL_OPAQUE : Z := 2.
Definition WRAPPED_MATERIAL_PUBLIC : Z := 3.
Definition WRAPPED_MATERIAL_AUTHENTICATION_SYMMETRIC : Z := 4.
Definition WRAPPED_MATERIAL_AUTHENTICATION_ASYMMETRIC : Z := 5.
Definition WRAPPED_MATERIAL_OTP_AEAD : Z := 6.

(** ** PKCS#8 of the Montgomery curves *)

Record Rfc8410PrivateKeyInfo : Set := mkRfc8410 {
  pki_version : Z;
  pki_oid : string;
  pki_parameters : option bytes;
  pki_private_key : bytes;
}.

(** The [der] library: the codec of an octet string, and the derived codec of a
    [Sequence]. *)
Class Der := {
  octet_string_to_der : bytes → option bytes;
  octet_string_from_der : bytes → option bytes;
  pki_to_der : Rfc8410PrivateKeyInfo → option bytes;
  pki_from_der : bytes → option Rfc8410PrivateKeyInfo;
}.

Definition rsa_oaep_hash (algorithm : Z) : Result RsaHashAlgorithm :=
  match Algorithm.from_byte algorithm with
  | Some RsaOaepSha1 => Ok RsaSha1
  | Some RsaOaepSha256 => Ok RsaSha256
  | Some RsaOaepSha384 => Ok RsaSha384
  | Some RsaOaepSha512 => Ok RsaSha512
  | _ => Err InvalidData
  end.

Definition rsa_wrap_aes_length (algorithm : Z) : Result Z :=
  match Algorithm.from_byte algorithm with
  | Some Aes128 => Ok 16
  | Some Aes192 => Ok 24
  | Some Aes256 => Ok 32
  | _ => Err InvalidData
  end.

(** ** Fields of the CBOR array *)

Definition wrapped_u8 (value : CborValue) : Result Z :=
  match value with
  | CborInteger value => if (0 <=? value) && (value <? 256) then Ok value else Err InvalidData
  | _ => Err InvalidData
  end.

Definition wrapped_u16 (value : CborValue) : Result Z :=
  match value with
  | CborInteger value => if (0 <=? value) && (value <? 65536) then Ok value else Err InvalidData
  | _ => Err InvalidData
  end.

Definition wrapped_bytes (value : CborValue) : Result bytes :=
  match value with CborBytes value => Ok value | _ => Err InvalidData end.

(** [wrapped_bytes(value)?.try_into()] to an array of [n] bytes. *)
Definition wrapped_array (n : Z) (value : CborValue) : Result bytes :=
  value ← wrapped_bytes value;
  _ ← reject_if (negb (len value =? n)) InvalidData;
  Ok value.

(** [values.next().ok_or(InvalidData)?]. *)
Definition next_field (values : list CborValue) : Result (CborValue * list CborValue) :=
  match values with value :: values => Ok (value, values) | [] => Err InvalidData end.

Section wrapping.
Context `{Build} `{SoftwareKeyCore} `{Der} `{Fuel}.

#[local] Abbreviation Read := (Eff World DeviceError).

(** ** PKCS#8 *)

Definition montgomery_pkcs8 (curve : MontgomeryCurve) (oid : string) (secret : bytes) :
    Result bytes :=
  _ ← ok_or (montgomery_from_serialized curve secret) InvalidData;
  inner ← ok_or (octet_string_to_der secret) InvalidData;
  ok_or (pki_to_der (mkRfc8410 0 oid None inner)) InvalidData.

Definition montgomery_from_pkcs8 (curve : MontgomeryCurve) (oid : string) (encoded : bytes) :
    Result bytes :=
  info ← ok_or (pki_from_der encoded) InvalidData;
  _ ← reject_if
        (negb (pki_version info =? 0) || negb (bool_decide (pki_oid info = oid))
         || bool_decide (is_Some (pki_parameters info))) InvalidData;
  secret ← ok_or (octet_string_from_der (pki_private_key info)) InvalidData;
  _ ← ok_or (montgomery_from_serialized curve secret) InvalidData;
  Ok secret.

Definition asymmetric_pkcs8 (object : ObjectRecord) : Result bytes :=
  match montgomery_algorithm (algorithm (info object)) with
  | Some (curve, oid) =>
      key ← montgomery_key_for_curve object curve;
      montgomery_pkcs8 curve oid (montgomery_serialized key)
  | None =>
      key ← signing_key object;
      ok_or (to_pkcs8_der key) InvalidData
  end.

Definition asymmetric_material_from_pkcs8 (algorithm : Algorithm) (encoded : bytes) :
    Result ObjectMaterial :=
  match montgomery_algorithm (Algorithm.to_byte algorithm) with
  | Some (curve, oid) =>
      serialized ← montgomery_from_pkcs8 curve oid encoded;
      key ← ok_or (montgomery_from_serialized curve serialized) InvalidData;
      Ok (MontgomeryKey key)
  | None =>
      kind ← asymmetric_key_kind algorithm;
      key ← ok_or (from_pkcs8_der_for_kind kind encoded) InvalidData;
      if is_rsa_key algorithm then
        match public_key key with
        | PublicRsa modulus exponent =>
            _ ← reject_if
                  (negb (bool_decide (exponent = [1; 0; 1]))
                   || negb (bool_decide
                        (asymmetric_key_length algorithm = Some (len modulus)))) InvalidData;
            Ok (SigningKey key)
        | _ => Err InvalidData
        end
      else
        _ ← reject_if
              (bool_decide (ml_dsa algorithm = None)
               && negb (bool_decide
                    (asymmetric_key_length algorithm = len <$> private_value key))) InvalidData;
        Ok (SigningKey key)
  end.

Definition import_rsa_wrapped_key_material (object_type : ObjectType) (algorithm : Algorithm)
    (plaintext : bytes) : Result (ObjectMaterial * Z) :=
  match object_type with
  | AsymmetricKey =>
      material ← asymmetric_material_from_pkcs8 algorithm plaintext;
      logical_length ← ok_or (asymmetric_key_length algorithm) InvalidData;
      _ ← reject_if (negb (material_len material =? logical_length)) InvalidData;
      Ok (material, logical_length)
  | SymmetricKey =>
      key_length ←
        match algorithm with
        | Aes128 | Aes192 | Aes256 => unwrap (aes_key_length algorithm)
        | _ => Err InvalidData
        end;
      _ ← reject_if (negb (len plaintext =? key_length)) WrongLength;
      Ok (Secret plaintext, key_length)
  | _ => Err InvalidData
  end.

(** ** The wrapped-object format *)

Definition wrappable (algorithm : Algorithm) (object : ObjectRecord) : bool :=
  match object_type (info object), material object with
  | Opaque, OpaqueMaterial _ =>
      bool_decide (algorithm = OpaqueData ∨ algorithm = OpaqueX509Certificate)
  | Template, OpaqueMaterial _ => bool_decide (algorithm = TemplateSsh)
  | AuthenticationKey, Authentication authentication =>
      bool_decide
        (parse_authentication_key_material (Objects.algorithm (info object))
           (match authentication with Symmetric value | Asymmetric value => value end)
         = Ok authentication)
  | AsymmetricKey, SigningKey value =>
      match ml_dsa algorithm with
      | Some parameters => bool_decide (KeyCore.key_kind value = KindMlDsa parameters)
      | None =>
          negb (bool_decide (algorithm = X25519 ∨ algorithm = X448))
          && bool_decide
               (asymmetric_key_length algorithm
                = Some (match private_value value with
                        | Some private => len private
                        | None => default 0 (asymmetric_key_length algorithm)
                        end))
      end
  | AsymmetricKey, MontgomeryKey _ => bool_decide (algorithm = X25519 ∨ algorithm = X448)
  | AsymmetricKey, MlKemKey value => bool_decide (ml_kem algorithm = Some (ml_kem_parameter_set value))
  | AsymmetricKey, HybridKemKey value =>
      bool_decide (hybrid_kem algorithm = Some (hybrid_construction value))
  | WrapKey, SigningKey value =>
      is_rsa_key algorithm && bool_decide (is_Some (signing_as_rsa value))
  | WrapKey, Secret value =>
      bool_decide (algorithm = Aes128CcmWrap ∨ algorithm = Aes192CcmWrap ∨ algorithm = Aes256CcmWrap)
      && bool_decide (aes_key_length algorithm = Some (len value))
  | HmacKey, Secret value =>
      bool_decide (is_Some (hmac_object_length algorithm))
      && (1 <=? len value) && (len value <=? 128)
  | OtpAeadKey, OtpAeadKeyMaterial _ key =>
      bool_decide (algorithm = Aes128YubicoOtp ∨ algorithm = Aes192YubicoOtp
                   ∨ algorithm = Aes256YubicoOtp)
      && bool_decide (aes_key_length algorithm = Some (len key))
  | SymmetricKey, Secret value =>
      bool_decide (algorithm = Aes128 ∨ algorithm = Aes192 ∨ algorithm = Aes256)
      && bool_decide (aes_key_length algorithm = Some (len value))
  | PublicWrapKey, Public value =>
      is_rsa_key algorithm && bool_decide (asymmetric_key_length algorithm = Some (len value))
  | _, _ => false
  end.

Definition validate_wrapped_object (object : ObjectRecord) : Result unit :=
  _ ← validate object;
  algorithm ← ok_or (Algorithm.from_byte (algorithm (info object))) InvalidData;
  if wrappable algorithm object then Ok tt else Err InvalidData.

Definition wrapped_material (object : ObjectRecord) : Result CborValue :=
  '(kind, values) ←
    match object_type (info object), material object with
    | AsymmetricKey, (SigningKey _ | MontgomeryKey _) =>
        encoded ← asymmetric_pkcs8 object;
        Ok (WRAPPED_MATERIAL_PKCS8, [CborBytes encoded])
    | WrapKey, SigningKey _ =>
        if is_rsa_algorithm (algorithm (info object)) then
          encoded ← asymmetric_pkcs8 object;
          Ok (WRAPPED_MATERIAL_PKCS8, [CborBytes encoded])
        else Err InvalidData
    | (WrapKey | HmacKey | SymmetricKey), Secret value =>
        Ok (WRAPPED_MATERIAL_SECRET, [CborBytes value])
    | (Opaque | Template), OpaqueMaterial value =>
        Ok (WRAPPED_MATERIAL_OPAQUE, [CborBytes value])
    | PublicWrapKey, Public value => Ok (WRAPPED_MATERIAL_PUBLIC, [CborBytes value])
    | AuthenticationKey, Authentication (Symmetric value) =>
        Ok (WRAPPED_MATERIAL_AUTHENTICATION_SYMMETRIC, [CborBytes value])
    | AuthenticationKey, Authentication (Asymmetric value) =>
        Ok (WRAPPED_MATERIAL_AUTHENTICATION_ASYMMETRIC, [CborBytes value])
    | OtpAeadKey, OtpAeadKeyMaterial nonce_id key =>
        Ok (WRAPPED_MATERIAL_OTP_AEAD, [CborBytes nonce_id; CborBytes key])
    | _, _ => Err InvalidData
    end;
  Ok (CborArray (CborInteger kind :: values)).

Definition encode_wrapped_object (object : ObjectRecord) : Result bytes :=
  _ ← validate_wrapped_object object;
  material ← wrapped_material object;
  let i := info object in
  let value := CborArray
    [CborText WRAPPED_OBJECT_SCHEMA;
     CborInteger WRAPPED_OBJECT_VERSION;
     CborInteger (ObjectTypes.to_byte (object_type i));
     CborInteger (id i);
     CborInteger (domains i);
     CborBytes (to_bytes (capabilities i));
     CborInteger (algorithm i);
     CborInteger (Z.land (origin i) 0x0f);
     CborBytes (label i);
     CborBytes (to_bytes (delegated_capabilities i));
     material] in
  output ← ok_or (cbor_value_to_bytes value) StorageFailed;
  _ ← reject_if (u16_max <? len output) WrongLength;
  Ok output.

Definition decode_wrapped_material (object_type : ObjectType) (algorithm : Algorithm)
    (value : CborValue) : Result ObjectMaterial :=
  match value with
  | CborArray values =>
      '(kind, values) ← next_field values;
      kind ← wrapped_u8 kind;
      '(material, values) ←
        (if (kind =? WRAPPED_MATERIAL_SECRET)
            && bool_decide (object_type = WrapKey ∨ object_type = HmacKey
                            ∨ object_type = SymmetricKey)
            && negb (bool_decide (object_type = WrapKey) && is_rsa_key algorithm) then
           '(value, values) ← next_field values;
           value ← wrapped_bytes value;
           Ok (Secret value, values)
         else if (kind =? WRAPPED_MATERIAL_PKCS8)
                 && (bool_decide (object_type = AsymmetricKey)
                     || bool_decide (object_type = WrapKey) && is_rsa_key algorithm) then
           '(encoded, values) ← next_field values;
           encoded ← wrapped_bytes encoded;
           material ← asymmetric_material_from_pkcs8 algorithm encoded;
           Ok (material, values)
         else if (kind =? WRAPPED_MATERIAL_OPAQUE)
                 && bool_decide (object_type = Opaque ∨ object_type = Template) then
           '(value, values) ← next_field values;
           value ← wrapped_bytes value;
           Ok (OpaqueMaterial value, values)
         else if (kind =? WRAPPED_MATERIAL_PUBLIC)
                 && bool_decide (object_type = PublicWrapKey) then
           '(value, values) ← next_field values;
           value ← wrapped_bytes value;
           Ok (Public value, values)
         else if (kind =? WRAPPED_MATERIAL_AUTHENTICATION_SYMMETRIC)
                 && bool_decide (object_type = AuthenticationKey) then
           '(value, values) ← next_field values;
           value ← wrapped_bytes value;
           Ok (Authentication (Symmetric value), values)
         else if (kind =? WRAPPED_MATERIAL_AUTHENTICATION_ASYMMETRIC)
                 && bool_decide (object_type = AuthenticationKey) then
           '(value, values) ← next_field values;
           value ← wrapped_bytes value;
           Ok (Authentication (Asymmetric value), values)
         else if (kind =? WRAPPED_MATERIAL_OTP_AEAD)
                 && bool_decide (object_type = OtpAeadKey) then
           '(nonce_id, values) ← next_field values;
           nonce_id ← wrapped_array 4 nonce_id;
           '(key, values) ← next_field values;
           key ← wrapped_bytes key;
           Ok (OtpAeadKeyMaterial nonce_id key, values)
         else Err InvalidData);
      _ ← reject_if (negb (bool_decide (values = []))) InvalidData;
      Ok material
  | _ => Err InvalidData
  end.

(** The metadata and material carried by the eleven fields. *)
Definition decode_wrapped_fields (fields : list CborValue) : Result ObjectRecord :=
  match fields with
  | [schema; version; object_type; id; domains; capabilities; algorithm; origin; label;
     delegated_capabilities; material] =>
      _ ← reject_if (negb (bool_decide (schema = CborText WRAPPED_OBJECT_SCHEMA))) InvalidData;
      version ← wrapped_u8 version;
      _ ← reject_if (negb (version =? WRAPPED_OBJECT_VERSION)) InvalidData;
      object_type ← wrapped_u8 object_type;
      object_type ← ok_or (ObjectTypes.from_byte object_type) InvalidData;
      id ← wrapped_u16 id;
      domains ← wrapped_u16 domains;
      capabilities ← wrapped_array 8 capabilities;
      algorithm_byte ← wrapped_u8 algorithm;
      algorithm ← ok_or (Algorithm.from_byte algorithm_byte) InvalidData;
      origin ← wrapped_u8 origin;
      _ ← reject_if (negb (Z.land origin 0xf0 =? 0)) InvalidData;
      label ← wrapped_bytes label;
      delegated_capabilities ← wrapped_array 8 delegated_capabilities;
      material ← decode_wrapped_material object_type algorithm material;
      Ok (mkObjectRecord
            (mkObjectInfo (from_bytes capabilities) id 0 domains object_type algorithm_byte 0
               origin label (from_bytes delegated_capabilities)) material)
  | _ => Err InvalidData
  end.

Definition decode_wrapped_object (data : bytes) : Result ObjectRecord :=
  _ ← reject_if (u16_max <? len data) WrongLength;
  '(value, position) ← ok_or (cbor_value_from_bytes data) InvalidData;
  _ ← reject_if (negb (position =? len data)) InvalidData;
  match value with
  | CborArray fields =>
      record ← decode_wrapped_fields fields;
      record ← normalize_info_length record;
      _ ← validate record;
      encoded ← encode_wrapped_object record;
      _ ← reject_if (negb (bool_decide (encoded = data))) InvalidData;
      Ok record
  | _ => Err InvalidData
  end.

(** ** AES-CCM wrapping *)

Definition wrap_data (self : Device) (auth : SessionAuthorization) (data : bytes) : Read bytes :=
  '(IdRemainderRequest_ id plaintext) ← lift (decode WrapDataRequest data);
  object ← lift (ccm_wrap_key self auth id);
  nonce ← random_bytes AES_CCM_NONCE_SIZE;
  secret ← lift (object_secret object);
  encrypted ← lift (sum_ok (encrypt_aes_ccm secret nonce plaintext) InvalidData);
  mret (1 :: nonce ++ encrypted).

Definition unwrap_data (self : Device) (auth : SessionAuthorization) (data : bytes) :
    Result bytes :=
  '(IdRemainderRequest_ id wrapped) ← decode UnwrapDataRequest data;
  _ ← reject_if ((len wrapped <? 1 + AES_CCM_NONCE_SIZE + AES_CCM_TAG_SIZE)
                 || negb (bool_decide (head wrapped = Some 1))) WrongLength;
  object ← ccm_wrap_key self auth id;
  secret ← object_secret object;
  nonce ← slice wrapped 1 (1 + AES_CCM_NONCE_SIZE);
  ciphertext ← slice wrapped (1 + AES_CCM_NONCE_SIZE) (len wrapped);
  sum_ok (decrypt_aes_ccm secret nonce ciphertext) InvalidData.

Definition export_wrapped (self : Device) (auth : SessionAuthorization) (data : bytes) :
    Read bytes :=
  '(ExportWrappedRequest_ wrap_id target_key format) ← lift (decode ExportWrappedRequest data);
  _ ← lift (reject_if (is_some_and format (λ format, 1 <? format)) WrongLength);
  wrap_key ← lift (ccm_wrap_key self auth wrap_id);
  target ← lift (ok_or (objects self !! target_key) ObjectNotFound);
  plaintext ← lift (encode_wrapped_object target);
  nonce ← random_bytes AES_CCM_NONCE_SIZE;
  secret ← lift (object_secret wrap_key);
  encrypted ← lift (sum_ok (encrypt_aes_ccm secret nonce plaintext) InvalidData);
  mret (1 :: nonce ++ encrypted).

(** The common end of the two object imports. *)
Definition install_wrapped_object (record : ObjectRecord) : Dev bytes :=
  self ← get_left;
  id ← on_world (resolve_id self (object_type (info record)) (id (info record)));
  let i := set_id id (info record) in
  let record := set_info (set_origin (Z.lor (origin i) 0x10) i) record in
  _ ← lift (validate record);
  let response :=
    ObjectTypes.to_byte (object_type (info record)) :: u16_to_be_bytes id in
  _ ← write_imported_object record;
  mret response.

Definition import_wrapped (auth : SessionAuthorization) (data : bytes) : Dev bytes :=
  '(ImportWrappedRequest_ wrap_id format nonce ciphertext) ←
    lift (decode ImportWrappedRequest data);
  _ ← lift (reject_if (negb (format =? 1) || (len ciphertext <? AES_CCM_TAG_SIZE)) WrongLength);
  self ← get_left;
  wrap_key ← lift (ccm_wrap_key self auth wrap_id);
  secret ← lift (object_secret wrap_key);
  plaintext ← lift (sum_ok (decrypt_aes_ccm secret nonce ciphertext) InvalidData);
  record ← lift (decode_wrapped_object plaintext);
  _ ← lift (authorize_wrapped_creation auth (info record) wrap_key);
  install_wrapped_object record.

(** ** RSA wrapping *)

Definition rsa_aes_wrap (public_key : SoftwarePublicKey) (aes_length : Z)
    (plaintext label_digest : bytes) (mgf_hash : RsaHashAlgorithm) : Read bytes :=
  aes_key ← random_bytes aes_length;
  encrypted_key ← call (encrypt_rsa_oaep_digest public_key aes_key label_digest mgf_hash)
                    InvalidData;
  wrapped ← lift (sum_ok (wrap_aes_kwp aes_key plaintext) InvalidData);
  mret (encrypted_key ++ wrapped).

Definition rsa_aes_unwrap (private_key : SoftwareSigningKey) (wrapped : bytes)
    (modulus_length : Z) (label_digest : bytes) (mgf_hash : RsaHashAlgorithm) : Read bytes :=
  _ ← lift (reject_if (len wrapped <=? modulus_length) WrongLength);
  encrypted_key ← lift (slice wrapped 0 modulus_length);
  aes_key ← call (decrypt_rsa_oaep_digest private_key encrypted_key label_digest mgf_hash)
              InvalidData;
  _ ← lift (reject_if (negb (bool_decide (len aes_key ∈ [16; 24; 32]))) InvalidData);
  rest ← lift (slice wrapped modulus_length (len wrapped));
  lift (sum_ok (unwrap_aes_kwp aes_key rest) InvalidData).

(** The public key of an RSA public wrap key. *)
Definition wrap_public_key (wrap_key : ObjectRecord) : Result SoftwarePublicKey :=
  match material wrap_key with
  | Public modulus => Ok (PublicRsa modulus [1; 0; 1])
  | _ => Err InvalidData
  end.

Definition export_rsa_wrapped (self : Device) (auth : SessionAuthorization) (data : bytes)
    (key_material_only : bool) : Read bytes :=
  '(ExportRsaWrappedFields_ wrap_id target_key aes_algorithm oaep_hash mgf_hash label_hash) ←
    lift (if key_material_only then decode GetRsaWrappedKeyRequest data
          else decode ExportRsaWrappedRequest data);
  wrap_key ← lift (rsa_public_wrap_key self auth wrap_id);
  target ← lift (ok_or (objects self !! target_key) ObjectNotFound);
  if (aes_algorithm =? 0) && (oaep_hash =? 0) && (mgf_hash =? 0) then
    _ ← lift (reject_if (negb (direct_rsa_wrap compiled)) InvalidData);
    _ ← lift (reject_if (negb (fips_mode (options self) =? OPTION_OFF)) InvalidData);
    _ ← lift (reject_if (negb (len label_hash =? 0)) WrongLength);
    _ ← lift (reject_if (negb key_material_only
                         || negb (bool_decide (key_type target_key = SymmetricKey))) InvalidData);
    plaintext ← lift (object_secret target);
    public ← lift (wrap_public_key wrap_key);
    call (encrypt_rsa_pkcs1v15 public plaintext) InvalidData
  else
    hash ← lift (rsa_oaep_hash oaep_hash);
    _ ← lift (reject_if (negb (len label_hash =? rsa_hash_output_length hash)) WrongLength);
    _ ← lift (reject_if
          (key_material_only
           && negb (bool_decide (key_type target_key = AsymmetricKey
                                 ∨ key_type target_key = SymmetricKey))) InvalidData);
    aes_length ← lift (rsa_wrap_aes_length aes_algorithm);
    mgf_hash ← lift (rsa_mgf_hash mgf_hash);
    plaintext ← lift
      (if key_material_only then
         match key_type target_key with
         | AsymmetricKey => asymmetric_pkcs8 target
         | SymmetricKey => object_secret target
         | _ => Err InvalidData
         end
       else encode_wrapped_object target);
    public ← lift (wrap_public_key wrap_key);
    rsa_aes_wrap public aes_length plaintext label_hash mgf_hash.

Definition import_rsa_wrapped (auth : SessionAuthorization) (data : bytes) : Dev bytes :=
  '(ImportRsaWrappedRequest_ wrap_id oaep_hash mgf_hash wrapped_and_label) ←
    lift (decode ImportRsaWrappedRequest data);
  hash ← lift (rsa_oaep_hash oaep_hash);
  let label_length := rsa_hash_output_length hash in
  mgf_hash ← lift (rsa_mgf_hash mgf_hash);
  self ← get_left;
  wrap_key ← lift (rsa_private_wrap_key self auth wrap_id);
  modulus_length ← lift (rsa_modulus_length wrap_key);
  _ ← lift (reject_if (len wrapped_and_label <? modulus_length + 16 + label_length) WrongLength);
  let wrapped_end := len wrapped_and_label - label_length in
  key ← lift (signing_key wrap_key);
  wrapped ← lift (slice wrapped_and_label 0 wrapped_end);
  label ← lift (slice wrapped_and_label wrapped_end (len wrapped_and_label));
  plaintext ← on_world (rsa_aes_unwrap key wrapped modulus_length label mgf_hash);
  record ← lift (decode_wrapped_object plaintext);
  _ ← lift (authorize_wrapped_creation auth (info record) wrap_key);
  install_wrapped_object record.

(** The plaintext of a wrapped key: PKCS#1 v1.5 when no hashes are named, RSA
    with AES key wrapping otherwise. *)
Definition unwrap_rsa_key (self : Device) (wrap_key : ObjectRecord) (modulus_length : Z)
    (object_type : ObjectType) (oaep_hash mgf_hash : Z) (wrapped_and_label : bytes) :
    Read bytes :=
  if (oaep_hash =? 0) && (mgf_hash =? 0) then
    _ ← lift (reject_if (negb (direct_rsa_wrap compiled)) InvalidData);
    _ ← lift (reject_if (negb (fips_mode (options self) =? OPTION_OFF)) InvalidData);
    _ ← lift (reject_if (negb (bool_decide (object_type = SymmetricKey))) InvalidData);
    _ ← lift (reject_if (negb (len wrapped_and_label =? modulus_length)) WrongLength);
    key ← lift (signing_key wrap_key);
    call (decrypt_rsa_pkcs1v15 key wrapped_and_label) InvalidData
  else
    hash ← lift (rsa_oaep_hash oaep_hash);
    let label_digest_length := rsa_hash_output_length hash in
    mgf_hash ← lift (rsa_mgf_hash mgf_hash);
    _ ← lift (reject_if (len wrapped_and_label <=? modulus_length + label_digest_length)
                WrongLength);
    let wrapped_end := len wrapped_and_label - label_digest_length in
    key ← lift (signing_key wrap_key);
    wrapped ← lift (slice wrapped_and_label 0 wrapped_end);
    label ← lift (slice wrapped_and_label wrapped_end (len wrapped_and_label));
    rsa_aes_unwrap key wrapped modulus_length label mgf_hash.

Definition put_rsa_wrapped_key (auth : SessionAuthorization) (data : bytes) : Dev bytes :=
  '(PutRsaWrappedKeyRequest_ wrap_id object_type requested_id padded domains capabilities
      algorithm oaep_hash mgf_hash wrapped_and_label) ← lift (decode PutRsaWrappedKeyRequest data);
  _ ← lift (reject_if (negb (bool_decide (object_type = AsymmetricKey
                                          ∨ object_type = SymmetricKey))) InvalidData);
  algorithm ← lift (ok_or (Algorithm.from_byte algorithm) InvalidData);
  self ← get_left;
  _ ← lift (require_algorithm_enabled self (Algorithm.to_byte algorithm));
  wrap_key ← lift (rsa_private_wrap_key self auth wrap_id);
  modulus_length ← lift (rsa_modulus_length wrap_key);
  plaintext ← on_world (unwrap_rsa_key self wrap_key modulus_length object_type oaep_hash
                          mgf_hash wrapped_and_label);
  '(material, logical_length) ←
    lift (import_rsa_wrapped_key_material object_type algorithm plaintext);
  id ← on_world (resolve_id self object_type requested_id);
  length ← lift
    match object_type with
    | AsymmetricKey => ok_or (asymmetric_object_length algorithm) InvalidData
    | SymmetricKey => Ok logical_length
    | _ => Err InvalidData
    end;
  length ← lift (ok_or (u16_try_from length) WrongLength);
  let i := mkObjectInfo capabilities id length domains object_type (Algorithm.to_byte algorithm)
             0 0x12 (trim_label padded) NONE in
  wrap_key ← lift (rsa_private_wrap_key self auth wrap_id);
  _ ← lift (authorize_wrapped_creation auth i wrap_key);
  let record := mkObjectRecord i material in
  _ ← lift (validate record);
  let response := ObjectTypes.to_byte object_type :: u16_to_be_bytes id in
  _ ← write_imported_object record;
  mret response.
End wrapping.

(** An instance of the codecs for the witnesses. *)
#[export] Instance toy_der : Der := {|
  octet_string_to_der b := Some (4 :: len b :: b);
  octet_string_from_der b :=
    match b with 4 :: n :: b => if n =? len b then Some b else None | _ => None end;
  pki_to_der i := Some (pki_version i :: len (ascii_bytes (pki_oid i)) ::
                          ascii_bytes (pki_oid i) ++ pki_private_key i);
  pki_from_der b :=
    match b with
    | v :: n :: b => Some (mkRfc8410 v (toy_text (ztake n b)) None (zdrop n b))
    | _ => None
    end;
|}.
