(* ===== verification/WrappingProperties.v ===== *)
(** * Properties of wrapping

    The wrapped-object format: what is encoded is decoded to the same object, and
    an accepted encoding is the canonical one. *)

From S2P Require Import Prelude Error Frame Firmware Algorithm Capability Protocol KeyCore Toy.
From S2P Require Import Wire Objects Authorization SessionObjects Requests SecureChannel.
From S2P Require Import DeviceState ObjectStore ObjectCommands KeyUse Wrapping.

Section wrapped.
Context `{Build} `{SoftwareKeyCore} `{!CborLaws} `{Der} `{Fuel}.

Lemma wrapped_u8_ok v : u8 v → wrapped_u8 (CborInteger v) = Ok v.
Proof.
  unfold u8, wrapped_u8. intros.
  by rewrite (proj2 (Z.leb_le _ _)), (proj2 (Z.ltb_lt _ _)) by lia.
Qed.

Lemma wrapped_u16_ok v : u16 v → wrapped_u16 (CborInteger v) = Ok v.
Proof.
  unfold u16, wrapped_u16. intros.
  by rewrite (proj2 (Z.leb_le _ _)), (proj2 (Z.ltb_lt _ _)) by lia.
Qed.

Lemma wrapped_array_ok n b : len b = n → wrapped_array n (CborBytes b) = Ok b.
Proof. intros <-. unfold wrapped_array. cbn. by rewrite Z.eqb_refl. Qed.

Lemma object_type_u8 t : u8 (ObjectTypes.to_byte t).
Proof. by destruct t. Qed.

(** What a copy through the format keeps: all but the sequence number and the
    import bits of the origin. *)
Definition wrapped_copy (r : ObjectRecord) : ObjectRecord :=
  set_info (set_origin (Z.land (origin (info r)) 0x0f) (set_sequence 0 (info r))) r.

(** The material has the widths of its types, and a PKCS#8 encoding of its key
    reads back as the key. *)
Record material_restores (r : ObjectRecord) : Prop := {
  restores_nonce nonce key : material r = OtpAeadKeyMaterial nonce key → len nonce = 4;
  restores_key algorithm encoded :
    Algorithm.from_byte (Objects.algorithm (info r)) = Some algorithm →
    asymmetric_pkcs8 r = Ok encoded →
    asymmetric_material_from_pkcs8 algorithm encoded = Ok (material r);
}.

Lemma is_rsa_algorithm_known r algorithm :
  Algorithm.from_byte (Objects.algorithm (info r)) = Some algorithm →
  is_rsa_algorithm (Objects.algorithm (info r)) = is_rsa_key algorithm.
Proof. intros Ha. unfold is_rsa_algorithm. by rewrite Ha. Qed.

(** The material survives. *)
Lemma decode_encode_material r algorithm value :
  Algorithm.from_byte (Objects.algorithm (info r)) = Some algorithm →
  wrappable algorithm r = true → material_restores r →
  wrapped_material r = Ok value →
  decode_wrapped_material (object_type (info r)) algorithm value = Ok (material r).
Proof.
  intros Ha Hw [Hnonce Hkey] Hm. unfold wrapped_material in Hm. unfold wrappable in Hw.
  pose proof (is_rsa_algorithm_known _ _ Ha) as Hrsa. specialize (Hkey algorithm).
  destruct (object_type (info r)) eqn:Ht, (material r) as [[]| | | | | | | |] eqn:Hmat; try done;
    apply outcome_bind_ok in Hm as ([kind values] & Hkv & [= <-]).
  1-3, 8-9, 11-12: by injection Hkv as <- <-.
  - apply outcome_bind_ok in Hkv as (encoded & He & [= <- <-]).
    unfold decode_wrapped_material. cbn. by rewrite (Hkey encoded).
  - apply outcome_bind_ok in Hkv as (encoded & He & [= <- <-]).
    unfold decode_wrapped_material. cbn. by rewrite (Hkey encoded).
  - rewrite Hrsa in Hkv. destruct (is_rsa_key algorithm) eqn:Hr; [|done].
    apply outcome_bind_ok in Hkv as (encoded & He & [= <- <-]).
    unfold decode_wrapped_material. cbn. rewrite Hr. cbn. by rewrite (Hkey encoded).
  - injection Hkv as <- <-. bool_prop.
    by match goal with Hd : _ ∨ _ ∨ _ |- _ => destruct Hd as [->|[->| ->]] end.
  - injection Hkv as <- <-. unfold decode_wrapped_material. cbn -[wrapped_array].
    by rewrite (wrapped_array_ok 4) by (by eapply Hnonce).
Qed.

(** ** The object *)

Lemma expected_length_copy r : expected_info_length (wrapped_copy r) = expected_info_length r.
Proof. done. Qed.

Lemma validate_copy r : validate (wrapped_copy r) = validate r.
Proof. done. Qed.

Lemma encode_copy r : encode_wrapped_object (wrapped_copy r) = encode_wrapped_object r.
Proof.
  unfold encode_wrapped_object.
  change (validate_wrapped_object (wrapped_copy r)) with (validate_wrapped_object r).
  change (wrapped_material (wrapped_copy r)) with (wrapped_material r).
  cbn [wrapped_copy set_info info set_origin set_sequence origin].
  by rewrite <- Z.land_assoc.
Qed.

(** A valid length fits and is the expected one. *)
Lemma normalize_valid r l :
  validate r = Ok tt → u16 (length (info r)) →
  normalize_info_length (set_info (set_length l (info r)) r) = Ok r.
Proof.
  intros Hv Hu. unfold validate in Hv.
  apply outcome_bind_ok in Hv as ([] & _ & Hv). apply outcome_bind_ok in Hv as ([] & _ & Hv).
  apply outcome_bind_ok in Hv as (expected & He & Hv).
  apply outcome_bind_ok in Hv as ([] & Hl & _). apply reject_if_ok in Hl. bool_prop.
  unfold normalize_info_length.
  change (expected_info_length (set_info (set_length l (info r)) r)) with (expected_info_length r).
  rewrite He. cbn. unfold u16_try_from. rewrite <- Hl. unfold u16, u16_max in *.
  rewrite (proj2 (Z.leb_le _ _)), (proj2 (Z.leb_le _ _)) by lia. cbn. by destruct r as [[] ?].
Qed.

Lemma origin_bits o : u8 o → u8 (Z.land o 0x0f) ∧ Z.land (Z.land o 0x0f) 0xf0 = 0.
Proof.
  intros Ho. split; [by apply u8_land|]. rewrite <- Z.land_assoc. by rewrite Z.land_0_r.
Qed.

(** The eleven fields of an object. *)
Definition wrapped_fields (r : ObjectRecord) (material : CborValue) : list CborValue :=
  let i := info r in
  [CborText WRAPPED_OBJECT_SCHEMA; CborInteger WRAPPED_OBJECT_VERSION;
   CborInteger (ObjectTypes.to_byte (object_type i)); CborInteger (id i); CborInteger (domains i);
   CborBytes (to_bytes (capabilities i)); CborInteger (Objects.algorithm i);
   CborInteger (Z.land (origin i) 0x0f); CborBytes (label i);
   CborBytes (to_bytes (delegated_capabilities i)); material].

Lemma encode_wrapped_object_ok r b :
  encode_wrapped_object r = Ok b →
  ∃ algorithm m, validate r = Ok tt ∧
    Algorithm.from_byte (Objects.algorithm (info r)) = Some algorithm ∧
    wrappable algorithm r = true ∧ wrapped_material r = Ok m ∧
    cbor_value_to_bytes (CborArray (wrapped_fields r m)) = Some b ∧ len b ≤ u16_max.
Proof.
  unfold encode_wrapped_object. intros He.
  apply outcome_bind_ok in He as ([] & Hv & He). apply outcome_bind_ok in He as (m & Hm & He).
  apply outcome_bind_ok in He as (out & Hc & He). apply outcome_bind_ok in He as ([] & Hl & [= ->]).
  apply ok_or_ok in Hc. apply reject_if_ok in Hl. bool_prop.
  apply outcome_bind_ok in Hv as ([] & Hv & Hw).
  apply outcome_bind_ok in Hw as (algorithm & Ha & Hw). apply ok_or_ok in Ha.
  destruct (wrappable algorithm r) eqn:Hwr; [|done]. by exists algorithm, m.
Qed.

Lemma wrapped_material_plain r m : wrapped_material r = Ok m → plain_cbor m = true.
Proof.
  unfold wrapped_material. intros Hm.
  apply outcome_bind_ok in Hm as ([kind values] & Hkv & [= <-]).
  repeat (case_match; try done); inv_ok; done.
Qed.

Lemma plain_integer n : u16 n → plain_cbor (CborInteger n) = true.
Proof.
  unfold u16. intros. cbn. by rewrite (proj2 (Z.leb_le _ _)), (proj2 (Z.ltb_lt _ _)) by lia.
Qed.

Lemma u8_u16 n : u8 n → u16 n.
Proof. unfold u8, u16. lia. Qed.

Lemma wrapped_fields_plain r m :
  info_ok (info r) → plain_cbor m = true → plain_cbor (CborArray (wrapped_fields r m)) = true.
Proof.
  intros [] Hm. destruct (origin_bits (origin (info r))) as [? _]; [done|].
  change (forallb plain_cbor (wrapped_fields r m) = true).
  apply forallb_forall, List.Forall_forall.
  repeat constructor; try done; apply plain_integer; auto using u8_u16, object_type_u8.
Qed.

(** The fields read back. *)
Lemma decode_wrapped_fields_ok r algorithm m :
  info_ok (info r) → Algorithm.from_byte (Objects.algorithm (info r)) = Some algorithm →
  decode_wrapped_material (object_type (info r)) algorithm m = Ok (material r) →
  decode_wrapped_fields (wrapped_fields r m) =
    Ok (set_info (set_length 0 (info (wrapped_copy r))) r).
Proof.
  intros [[Hc _] Hid Hl Hd Ha Hs Ho Hlab [Hdc _]] Halg Hm.
  destruct (origin_bits _ Ho) as [Ho' Hbits].
  unfold decode_wrapped_fields, wrapped_fields.
  rewrite bool_decide_true by done. cbn [negb reject_if mbind outcome_bind].
  rewrite (wrapped_u8_ok WRAPPED_OBJECT_VERSION), (wrapped_u8_ok _ (object_type_u8 _)) by done.
  rewrite !wrapped_u8_ok, !wrapped_u16_ok by done. cbn [mbind outcome_bind].
  rewrite Z.eqb_refl. cbn [negb reject_if mbind outcome_bind].
  rewrite ObjectTypes.object_type_from_to_byte. cbn [ok_or mbind outcome_bind].
  rewrite !(wrapped_array_ok 8) by (unfold len; by rewrite ?Hc, ?Hdc). cbn [mbind outcome_bind].
  rewrite Halg. cbn [ok_or mbind outcome_bind]. rewrite Hbits.
  cbn [negb Z.eqb reject_if mbind outcome_bind wrapped_bytes].
  rewrite Hm. cbn. destruct r as [[[] ? ? ? ? ? ? ? ? []] ?]. done.
Qed.

(** The wrapped-object format round-trips. Every object that can be encoded
    for export is decoded to the same object: the same material, type, identifier,
    domains, capabilities, algorithm, length and label, with a fresh sequence
    number and without the import bits of its origin. *)
Theorem wrapped_object_round_trip (r : ObjectRecord) (b : bytes) :
  info_ok (info r) → material_restores r → encode_wrapped_object r = Ok b →
  decode_wrapped_object b = Ok (wrapped_copy r).
Proof.
  intros Hi Hr He. pose proof (encode_wrapped_object_ok _ _ He)
    as (algorithm & m & Hv & Ha & Hw & Hm & Hc & Hl).
  pose proof (decode_encode_material _ _ _ Ha Hw Hr Hm) as Hdm.
  pose proof (decode_wrapped_fields_ok _ _ _ Hi Ha Hdm) as Hf.
  unfold decode_wrapped_object. rewrite (proj2 (Z.ltb_ge _ _)) by done.
  cbn [reject_if mbind outcome_bind].
  rewrite (cbor_round_trip _ _ (wrapped_fields_plain _ _ Hi (wrapped_material_plain _ _ Hm)) Hc). cbn [ok_or mbind outcome_bind].
  rewrite Z.eqb_refl. cbn [negb reject_if mbind outcome_bind]. rewrite Hf. cbn [mbind outcome_bind].
  change (set_info (set_length 0 (info (wrapped_copy r))) r) with
    (set_info (set_length 0 (info (wrapped_copy r))) (wrapped_copy r)).
  rewrite normalize_valid by (try done; by destruct Hi). cbn [mbind outcome_bind].
  rewrite validate_copy, Hv. cbn [mbind outcome_bind]. rewrite encode_copy, He.
  cbn [mbind outcome_bind]. by rewrite bool_decide_true by done.
Qed.
End wrapped.

(** ** Witness *)

#[local] Existing Instance default_build.

Definition example_opaque : ObjectRecord :=
  mkObjectRecord
    (mkObjectInfo ALL 9 3 3 Opaque (Algorithm.to_byte OpaqueData) 4 0x12 (ascii_bytes "blob") NONE)
    (OpaqueMaterial [1; 2; 3]).

Lemma wrapped_object_round_trip_witness :
  ∃ b, encode_wrapped_object example_opaque = Ok b ∧
       decode_wrapped_object b = Ok (wrapped_copy example_opaque).
Proof.
  eexists. split; [vm_compute; reflexivity|].
  apply wrapped_object_round_trip.
  - split; by_computation.
  - by split.
  - by vm_compute.
Defined.
