(* ===== verification/KeyUseProperties.v ===== *)
(** * Properties of the key-use commands

    The Yubico OTP checksum and the OTP round trip, the round trip of wrapped
    data, and the verification of HMACs. *)

From S2P Require Import Prelude Error Frame Firmware Algorithm Capability Protocol KeyCore Toy.
From S2P Require Import Wire Objects Authorization SessionObjects Requests SecureChannel.
From S2P Require Import DeviceState ObjectStore ObjectCommands KeyUse Wrapping.

(** ** The checksum is linear over exclusive or *)

Lemma crc_bit_lxor_form c :
  crc_bit c = Z.lxor (Z.shiftr c 1) (if Z.testbit c 0 then 0x8408 else 0).
Proof.
  unfold crc_bit. change 1 with (Z.ones 1) at 1. rewrite Z.land_ones by lia.
  change (2 ^ 1) with 2. rewrite <- Z.bit0_mod.
  destruct (Z.testbit c 0); cbn -[Z.lxor Z.shiftr]; [done|by rewrite Z.lxor_0_r].
Qed.

Lemma crc_bit_lxor a b : crc_bit (Z.lxor a b) = Z.lxor (crc_bit a) (crc_bit b).
Proof.
  rewrite !crc_bit_lxor_form, Z.shiftr_lxor, Z.lxor_spec.
  set (x := Z.shiftr a 1). set (y := Z.shiftr b 1).
  transitivity (Z.lxor (Z.lxor x y)
    (Z.lxor (if Z.testbit a 0 then 0x8408 else 0) (if Z.testbit b 0 then 0x8408 else 0))).
  - f_equal. by destruct (Z.testbit a 0), (Z.testbit b 0).
  - rewrite !Z.lxor_assoc. f_equal. rewrite <- !Z.lxor_assoc. f_equal. apply Z.lxor_comm.
Qed.

Lemma crc_bits_lxor n a b :
  Nat.iter n crc_bit (Z.lxor a b) = Z.lxor (Nat.iter n crc_bit a) (Nat.iter n crc_bit b).
Proof. induction n as [|n IH]; [done|]. by rewrite !Nat.iter_succ, IH, crc_bit_lxor. Qed.

(** A state with [n] low zero bits is only shifted. *)
Lemma crc_bits_shift n h : Nat.iter n crc_bit (Z.shiftl h (Z.of_nat n)) = h.
Proof.
  induction n as [|n IH]; [by rewrite Z.shiftl_0_r|].
  rewrite Nat.iter_succ_r, crc_bit_lxor_form.
  rewrite Z.shiftl_spec_low by lia. rewrite Z.lxor_0_r, Z.shiftr_shiftl_l by lia.
  replace (Z.of_nat (S n) - 1) with (Z.of_nat n) by lia. done.
Qed.

Lemma complement_low s : Z.lxor s (Z.land (Z.lxor 0xffff s) 0xff) = Z.lxor (Z.shiftl (Z.shiftr s 8) 8) 0xff.
Proof.
  apply Z.bits_inj'. intros n Hn. rewrite !Z.lxor_spec, Z.land_spec, Z.lxor_spec.
  change 0xff with (Z.ones 8). change 0xffff with (Z.ones 16). rewrite !Z.testbit_ones_nonneg by lia.
  rewrite Z.shiftl_spec by lia. destruct (Z.ltb_spec n 8).
  - rewrite (Z.testbit_neg_r _ (n - 8)) by lia. rewrite (proj2 (Z.ltb_lt n 16)) by lia.
    by destruct (Z.testbit s n).
  - rewrite Z.shiftr_spec by lia. replace (n - 8 + 8) with n by lia. by rewrite andb_false_r.
Qed.

Lemma complement_high s : Z.shiftr (Z.lxor 0xffff s) 8 = Z.lxor 0xff (Z.shiftr s 8).
Proof. by rewrite Z.shiftr_lxor. Qed.

Lemma crc16_complement data :
  let c := Z.lxor 0xffff (yubico_crc16 data) in
  yubico_crc16 (data ++ [Z.land c 0xff; Z.shiftr c 8]) = 0xf0b8.
Proof.
  intros c. unfold yubico_crc16 at 1. rewrite foldl_app. fold (yubico_crc16 data).
  cbn [foldl]. unfold crc_byte, c. set (s := yubico_crc16 data).
  pose proof (crc_bits_shift 8 (Z.shiftr s 8)) as Hs. change (Z.of_nat 8) with 8 in Hs.
  rewrite complement_low, (crc_bits_lxor 8 _ 255), Hs, complement_high. clear Hs.
  set (h := Z.shiftr s 8). set (t := Nat.iter 8 crc_bit 255).
  replace (Z.lxor (Z.lxor h t) (Z.lxor 255 h)) with (Z.lxor t 255); [by vm_compute|].
  rewrite (Z.lxor_comm h t), (Z.lxor_comm 255 h), Z.lxor_assoc, <- (Z.lxor_assoc h h).
  by rewrite Z.lxor_nilpotent, Z.lxor_0_l.
Qed.

(** The OTP checksum. Any data followed by the complement of its checksum,
    low byte first, has the residue 0xf0b8, so a token with a correct checksum is
    accepted whatever its content. *)
Theorem crc16_residue (data : bytes) :
  let c := Z.lxor 0xffff (yubico_crc16 data) in
  yubico_crc16 (data ++ [Z.land c 0xff; Z.shiftr c 8]) = 0xf0b8.
Proof. apply crc16_complement. Qed.

(** ** Requests of the round trips *)

Section round_trips.
Context `{Build} `{SoftwareKeyCore} `{!SealLaws} `{Der} `{Fuel}.

Lemma decode_id_remainder_app id rest :
  u16 id → decode IdRemainderRequest (u16_to_be_bytes id ++ rest) = Ok (IdRemainderRequest_ id rest).
Proof.
  intros Hid. unfold decode, decode_fields, decode_id_remainder, decoder, mbind, eff_bind.
  by rewrite read_u16_app.
Qed.

Lemma decode_create_otp_aead_app id credential :
  u16 id → len credential = 22 →
  decode CreateOtpAeadRequest (u16_to_be_bytes id ++ credential)
  = Ok (CreateOtpAeadRequest_ id credential).
Proof.
  intros Hid Hc. unfold decode, decode_fields, decode_create_otp_aead, decoder, mbind, eff_bind.
  rewrite read_u16_app by done. rewrite <- (app_nil_r credential) at 1.
  by rewrite (read_array_app 22).
Qed.

Lemma decode_decrypt_otp_app id aead otp :
  u16 id → len aead = 36 → len otp = 16 →
  decode DecryptOtpRequest (u16_to_be_bytes id ++ aead ++ otp) = Ok (DecryptOtpRequest_ id aead otp).
Proof.
  intros Hid Ha Ho. unfold decode, decode_fields, decode_decrypt_otp, decoder, mbind, eff_bind.
  rewrite read_u16_app by done. rewrite (read_array_app 36) by done.
  rewrite <- (app_nil_r otp) at 1. by rewrite (read_array_app 16).
Qed.

(** The key a wrap command uses. *)
Definition wrap_secret (self : Device) (auth : SessionAuthorization) (id : Z) : Result bytes :=
  object ← ccm_wrap_key self auth id; object_secret object.

Context `{!RandomLaws}.

(** Wrapped data is unwrapped. What any device wraps, any device with the
    same wrap key, under any identifier and any session that may use it, unwraps
    to the same data. *)
Theorem wrapped_data_round_trip (self self' : Device) (auth auth' : SessionAuthorization)
    (id id' : Z) (plaintext blob : bytes) (w w' : World) :
  u16 id → u16 id' → wrap_secret self' auth' id' = wrap_secret self auth id →
  wrap_data self auth (u16_to_be_bytes id ++ plaintext) w = (Ok blob, w') →
  unwrap_data self' auth' (u16_to_be_bytes id' ++ blob) = Ok plaintext.
Proof.
  intros Hid Hid' Hs Hw. unfold wrap_data in Hw.
  rewrite decode_id_remainder_app in Hw by done.
  apply eff_bind_ok in Hw as (? & ? & [= <- <-] & Hw).
  apply eff_bind_ok in Hw as (object & ? & Hobj & Hw). injection Hobj as Hobj <-.
  apply eff_bind_ok in Hw as (nonce & w1 & Hn & Hw).
  apply eff_bind_ok in Hw as (secret & ? & Hsec & Hw). injection Hsec as Hsec <-.
  apply eff_bind_ok in Hw as (encrypted & ? & He & [= <- <-]). injection He as He <-.
  assert (len nonce = 13) as Hlen.
  { unfold random_bytes in Hn. destruct (getrandom_fill _ _) as [[b|] w2] eqn:Hg; [|done].
    injection Hn as <- <-. by apply getrandom_length in Hg as [? _]. }
  destruct (encrypt_aes_ccm secret nonce plaintext) as [c|] eqn:Henc; [|done]. injection He as <-.
  apply decrypt_encrypt_ccm in Henc as [Hdec Hc].
  unfold wrap_secret in Hs at 2. rewrite Hobj in Hs. cbn in Hs. rewrite Hsec in Hs.
  apply outcome_bind_ok in Hs as (object' & Hobj' & Hsec').
  unfold unwrap_data. rewrite decode_id_remainder_app by done. cbn [mbind outcome_bind].
  pose proof (len_nonneg plaintext). unfold AES_CCM_NONCE_SIZE, AES_CCM_TAG_SIZE in *.
  rewrite bool_decide_true by done. rewrite (proj2 (Z.ltb_ge _ _)) by len_lia.
  cbn [negb orb reject_if mbind outcome_bind]. rewrite Hobj'. cbn [mbind outcome_bind].
  rewrite Hsec'. cbn [mbind outcome_bind].
  change (1 :: nonce ++ c) with ([1] ++ nonce ++ c).
  rewrite (slice_mid [1] nonce c 1 (1 + 13)) by len_lia. cbn [mbind outcome_bind].
  rewrite app_assoc. rewrite <- (app_nil_r c) at 1.
  rewrite (slice_mid ([1] ++ nonce) c []) by len_lia. cbn [mbind outcome_bind]. by rewrite Hdec.
Qed.

(** ** One-time passwords *)

Lemma random_bytes_length n w b w' :
  0 ≤ n → random_bytes n w = (Ok b, w') → len b = n.
Proof.
  unfold random_bytes. intros Hn Hr. destruct (getrandom_fill _ _) as [[x|] w2] eqn:Hg; [|done].
  injection Hr as <- <-. by apply getrandom_length in Hg as [? _].
Qed.

Lemma otp_aead_decrypt_encrypt object credential aead w w' :
  otp_aead_encrypt object credential w = (Ok aead, w') →
  len credential = 22 ∧ len aead = 36 ∧ otp_aead_decrypt object aead = Ok credential.
Proof.
  unfold otp_aead_encrypt. intros He.
  apply eff_bind_ok in He as ([] & ? & Hl & He). injection Hl as Hl <-.
  apply reject_if_ok in Hl. bool_prop.
  apply eff_bind_ok in He as (m & ? & Hm & He). injection Hm as Hm <-.
  apply eff_bind_ok in He as (random & w1 & Hr & He).
  apply random_bytes_length in Hr; [|lia].
  apply eff_bind_ok in He as (c & ? & Hc & [= <- <-]). injection Hc as Hc <-.
  destruct (encrypt_yubico_otp_aead _ _ _) as [c'|] eqn:Henc; [|done]. injection Hc as <-.
  apply decrypt_encrypt_otp_aead in Henc as [Hdec Hlen].
  assert (len (random ++ c') = 36) as H36 by len_lia.
  split; [done|]. split; [done|]. unfold otp_aead_decrypt. rewrite H36, Hm.
  cbn [Z.eqb Pos.eqb negb reject_if mbind outcome_bind].
  rewrite (ztake_app_eq 6), (zdrop_app_eq 6) by done. by rewrite Hdec.
Qed.

(** The sixteen bytes of a token, with its checksum. *)
Definition otp_token (private_id use_counter timestamp : bytes) (session : Z) (random : bytes) : bytes :=
  let body := private_id ++ use_counter ++ timestamp ++ [session] ++ random in
  let c := Z.lxor 0xffff (yubico_crc16 body) in
  body ++ [Z.land c 0xff; Z.shiftr c 8].

(** The fields of a token. *)
Lemma otp_token_fields {E} p u t h n r :
  len p = 6 → len u = 2 → len t = 2 → len r = 2 →
  let token := otp_token p u (t ++ [h]) n r in
  slice (E := E) token 0 6 = Ok p ∧ slice (E := E) token 6 8 = Ok u ∧
  slice (E := E) token 8 10 = Ok t ∧ slice (E := E) token 10 11 = Ok [h] ∧
  slice (E := E) token 11 12 = Ok [n].
Proof.
  intros Hp Hu Ht Hr token.
  assert (∃ crc, token = p ++ u ++ t ++ [h] ++ [n] ++ r ++ crc) as [crc Htoken].
  { eexists. unfold token, otp_token. by rewrite <- !app_assoc. }
  split; [|split; [|split; [|split]]].
  - apply (slice_parts _ [] p (u ++ t ++ [h] ++ [n] ++ r ++ crc)); [done|len_lia..].
  - apply (slice_parts _ p u (t ++ [h] ++ [n] ++ r ++ crc)); [done|len_lia..].
  - apply (slice_parts _ (p ++ u) t ([h] ++ [n] ++ r ++ crc)); [by rewrite <- !app_assoc|len_lia..].
  - apply (slice_parts _ (p ++ u ++ t) [h] ([n] ++ r ++ crc)); [by rewrite <- !app_assoc|len_lia..].
  - apply (slice_parts _ (p ++ u ++ t ++ [h]) [n] (r ++ crc)); [by rewrite <- !app_assoc|len_lia..].
Qed.

(** C36: one-time passwords. A token made with the key and the private identity
    of a credential is accepted with an AEAD that the device created from that
    credential, and the answer is its counters: the use counter, the session
    counter, and the timestamp with its high byte first. *)
Theorem otp_round_trip (self : Device) (auth : SessionAuthorization) (id : Z)
    (key private_id use_counter timestamp_low : bytes) (timestamp_high session : Z)
    (random aead otp : bytes) (w w' : World) :
  u16 id → len key = 16 → len private_id = 6 → len use_counter = 2 → len timestamp_low = 2 →
  len random = 2 →
  create_otp_aead self auth (u16_to_be_bytes id ++ key ++ private_id) w = (Ok aead, w') →
  encrypt_aes_ecb key (otp_token private_id use_counter (timestamp_low ++ [timestamp_high])
                         session random) = inl otp →
  decrypt_otp self auth (u16_to_be_bytes id ++ aead ++ otp)
  = Ok (use_counter ++ [session; timestamp_high] ++ timestamp_low).
Proof.
  intros Hid Hk Hp Hu Ht Hr Hc Ho. unfold create_otp_aead in Hc.
  rewrite decode_create_otp_aead_app in Hc by (try done; len_lia).
  apply eff_bind_ok in Hc as (? & ? & [= <- <-] & Hc).
  apply eff_bind_ok in Hc as (object & ? & Hobj & Hc). injection Hobj as Hobj <-.
  apply otp_aead_decrypt_encrypt in Hc as (_ & H36 & Hdec).
  apply decrypt_encrypt_ecb in Ho as [Hecb Hlen].
  assert (len otp = 16) as H16 by (rewrite Hlen; unfold otp_token; len_lia).
  unfold decrypt_otp. rewrite decode_decrypt_otp_app by done. cbn [mbind outcome_bind].
  rewrite Hobj. cbn [mbind outcome_bind]. rewrite Hdec. cbn [mbind outcome_bind].
  rewrite (slice_mid [] key private_id 0 16) by len_lia. cbn [mbind outcome_bind].
  rewrite Hecb. cbn [sum_ok mbind outcome_bind].
  destruct (otp_token_fields (E := DeviceError) private_id use_counter timestamp_low timestamp_high
    session random Hp Hu Ht Hr) as (Hf1 & Hf2 & Hf3 & Hf4 & Hf5). cbv zeta in *.
  rewrite Hf1, (slice_parts _ key private_id [] 16 22) by (rewrite ?app_nil_r; done || len_lia).
  cbn [mbind outcome_bind]. rewrite bool_decide_true by done.
  assert (yubico_crc16 (otp_token private_id use_counter (timestamp_low ++ [timestamp_high]) session
    random) = 0xf0b8) as -> by apply crc16_complement.
  cbn [negb orb Z.eqb Pos.eqb reject_if mbind outcome_bind].
  rewrite Hf2, Hf5, Hf4, Hf3. done.
Qed.

(** HMAC verification. The device accepts the tag it computes for a message,
    and no other tag of that length. *)
Theorem hmac_verification (self : Device) (auth : SessionAuthorization) (id : Z)
    (message tag signature : bytes) (n : Z) :
  u16 id → sign_hmac self auth (u16_to_be_bytes id ++ message) = Ok tag →
  (hmac_object self auth id ≫= λ o, hmac_length (algorithm (info o))) = Ok n → len signature = n →
  verify_hmac self auth (u16_to_be_bytes id ++ signature ++ message)
  = Ok [if bool_decide (signature = tag) then 1 else 0].
Proof.
  intros Hid Hs Hn Hlen. unfold sign_hmac in Hs. rewrite decode_id_remainder_app in Hs by done.
  apply outcome_bind_ok in Hs as (? & [= <-] & Hs). apply outcome_bind_ok in Hs as (o & Ho & Hs).
  rewrite Ho in Hn. cbn in Hn.
  unfold verify_hmac. rewrite decode_id_remainder_app by done. cbn [mbind outcome_bind].
  rewrite Ho. cbn [mbind outcome_bind]. rewrite Hn. cbn [mbind outcome_bind].
  pose proof (len_nonneg message). rewrite (proj2 (Z.ltb_ge _ _)) by len_lia.
  cbn [reject_if mbind outcome_bind].
  rewrite (ztake_app_eq n), (zdrop_app_eq n) by done. rewrite Hs. cbn.
  by rewrite (bool_decide_ext (tag = signature) (signature = tag)).
Qed.
End round_trips.

(** ** Witnesses *)

#[local] Existing Instance default_build.
#[local] Existing Instance toy_fuel.

Definition example_record (type : ObjectType) (id : Z) (a : Algorithm) (m : ObjectMaterial) :
    ObjectKey * ObjectRecord :=
  (mkObjectKey type id,
   mkObjectRecord
     (mkObjectInfo ALL id (material_len m) 3 type (Algorithm.to_byte a) 0 2 (ascii_bytes "key") NONE) m).

(** A device with a wrap key, an OTP key and an HMAC key. *)
Definition key_device : Device :=
  mkDevice default_config
    (list_to_map
       [example_record WrapKey 5 Aes128CcmWrap (Secret (zeros 16));
        example_record OtpAeadKey 6 Aes128YubicoOtp (OtpAeadKeyMaterial [1; 2; 3; 4] (zeros 16));
        example_record HmacKey 7 HmacSha256 (Secret (zeros 32))])
    ∅ (KindEc P256, zeros 32) 0 ∅ default_options initial_audit false.

Definition example_outcome {A} (r : outcome DeviceError A * World) (default : A) : A :=
  match r.1 with Ok a => a | _ => default end.

Definition example_blob : bytes :=
  example_outcome (wrap_data key_device example_session ([0; 5] ++ [1; 2; 3]) toy_world) [].

Lemma wrapped_data_round_trip_witness :
  unwrap_data key_device example_session ([0; 5] ++ example_blob) = Ok [1; 2; 3].
Proof.
  apply (wrapped_data_round_trip key_device key_device example_session example_session 5 5
    [1; 2; 3] example_blob toy_world (42, 1000)); [done|done|done|by vm_compute].
Defined.

Definition example_aead : bytes :=
  example_outcome (create_otp_aead key_device example_session ([0; 6] ++ zeros 16 ++ [1; 2; 3; 4; 5; 6])
    toy_world) [].

Lemma otp_round_trip_witness :
  decrypt_otp key_device example_session
    ([0; 6] ++ example_aead ++ otp_token [1; 2; 3; 4; 5; 6] [7; 8] ([9; 10] ++ [11]) 12 [13; 14])
  = Ok ([7; 8] ++ [12; 11] ++ [9; 10]).
Proof.
  apply (otp_round_trip key_device example_session 6 (zeros 16) [1; 2; 3; 4; 5; 6] [7; 8] [9; 10]
    11 12 [13; 14] example_aead _ toy_world (42, 1000)); try done; by vm_compute.
Defined.

Definition example_tag : bytes := toy_mac (zeros 32) [1] ++ toy_mac [1] (zeros 32).

Lemma hmac_verification_witness :
  verify_hmac key_device example_session ([0; 7] ++ example_tag ++ [1]) = Ok [1].
Proof.
  refine (eq_trans (hmac_verification key_device example_session 7 [1] example_tag example_tag 32
    _ _ _ _) _); [done|by vm_compute..].
Defined.
