(* ===== verification/SessionObjectCommands.v ===== *)
(** * The session-object command
    (crates/virtual-yubihsm-core/src/device.rs, lines 2211-2422, 4462-4491)

    One command byte multiplexes the operations on the volatile objects of the
    session that sends it: generate, derive, read, verify and delete. The device
    is only read; the handle table of the session is updated. *)

From S2P Require Import Prelude Error Frame Firmware Algorithm Capability Protocol KeyCore Toy.
From S2P Require Import Wire Objects Authorization SessionObjects Requests SecureChannel.
From S2P Require Import DeviceState ObjectStore ObjectCommands KeyUse.

(** [flags & !(FLAG_READABLE | FLAG_DERIVE | FLAG_VERIFY) == 0], on [u8]. *)
Definition validate_session_flags (flags : Z) : Result unit :=
  if Z.land flags (Z.lxor 255 (Z.lor (Z.lor FLAG_READABLE FLAG_DERIVE) FLAG_VERIFY)) =? 0
  then Ok tt else Err InvalidData.

Definition validate_session_result_header (header : SessionResultHeader) : Result Z :=
  let '(SessionResultHeader_ flags kind output_length) := header in
  _ ← validate_session_flags flags;
  _ ← reject_if (bool_decide (kind = P256PrivateKind)) InvalidData;
  _ ← reject_if ((output_length =? 0) || (1024 <? output_length)) WrongLength;
  Ok output_length.

(** The byte of the extraction that starts at bit [bit] of [base], counted from
    the most significant bit of the first byte, wrapping around at the end. *)
Definition extract_byte (base : bytes) (bit : Z) : Result Z :=
  let byte_index := bit / 8 in
  let shift := bit mod 8 in
  if shift =? 0 then index base byte_index
  else
    high ← index base byte_index;
    low ← index base ((byte_index + 1) mod len base);
    Ok (Z.lor (Z.shiftl high shift mod 256) (Z.shiftr low (8 - shift))).

(** The loop [for index in 0..output_length]. *)
Fixpoint extract_loop (base : bytes) (offset : Z) (n : nat) (index : Z) : Result bytes :=
  match n with
  | O => Ok []
  | S n =>
      byte ← extract_byte base ((offset + index * 8) mod (len base * 8));
      rest ← extract_loop base offset n (index + 1);
      Ok (byte :: rest)
  end.

Definition extract_bits (base : bytes) (offset output_length : Z) : Result bytes :=
  _ ← reject_if (len base * 8 <=? offset) InvalidData;
  _ ← reject_if (len base <? output_length) WrongLength;
  extract_loop base offset (Z.to_nat output_length) 0.

Section session_object_commands.
Context `{Build} `{SoftwareKeyCore} `{Fuel}.

(** A method with the handle table as [&mut SessionObjects]. *)
#[local] Abbreviation Table := (Eff (SessionObjects * World) DeviceError).

Definition session_derivation_secret (objects : SessionObjects) (handle : Z) : Result bytes :=
  object ← ok_or (get objects handle) ObjectNotFound;
  _ ← reject_if (Z.land (flags object) FLAG_DERIVE =? 0) InsufficientPermissions;
  ok_or (secret_value object) InvalidData.

Definition read_session_object (objects : SessionObjects) (data : bytes) : Result bytes :=
  '(U64Request_ handle) ← decode ReadSessionObjectRequest data;
  object ← ok_or (get objects handle) ObjectNotFound;
  _ ← reject_if (Z.land (flags object) FLAG_READABLE =? 0) InsufficientPermissions;
  ok_or (secret_value object) InvalidData.

Definition verify_session_object (objects : SessionObjects) (data : bytes) : Result bytes :=
  '(VerifySessionCmacRequest_ handle signature message) ← decode VerifySessionCmacRequest data;
  object ← ok_or (get objects handle) ObjectNotFound;
  _ ← reject_if (negb (bool_decide (kind object = Aes))
                 || (Z.land (flags object) FLAG_VERIFY =? 0)) InsufficientPermissions;
  key ← ok_or (secret_value object) InvalidData;
  _ ← reject_if (negb ((1 <=? len signature) && (len signature <=? AES_BLOCK_SIZE))) WrongLength;
  expected ← sum_ok (aes_cmac key message) InvalidData;
  prefix ← slice expected 0 (len signature);
  Ok [if bool_decide (prefix = signature) then 1 else 0].

Definition delete_session_object (data : bytes) : Table bytes :=
  '(U64Request_ handle) ← lift (decode DeleteSessionObjectRequest data);
  removed ← remove handle;
  _ ← lift (ok_or removed ObjectNotFound);
  mret [].

(** [objects.insert(object).ok_or(StorageFailed)]. *)
Definition store_session_object (object : SessionObject) : Table Z :=
  inserted ← insert fuel object;
  lift (ok_or inserted StorageFailed).

Definition generate_session_key (data : bytes) : Table bytes :=
  '(GenerateSessionAsymmetricKeyRequest_ flags algorithm) ←
    lift (decode GenerateSessionAsymmetricKeyRequest data);
  _ ← lift (validate_session_flags flags);
  _ ← lift (reject_if (negb (algorithm =? Algorithm.to_byte EcP256)
                       || (Z.land flags FLAG_DERIVE =? 0)) InvalidData);
  key ← on_world (call (generate_for_kind (KindEc P256)) StorageFailed);
  object ← lift (ok_or (p256_private flags key) InvalidData);
  public ← lift (ok_or (object_public_key object) StorageFailed);
  handle ← store_session_object object;
  mret (u64_to_be_bytes handle ++ public).

(** The private key a derivation starts from. *)
Definition ecdh_source_key (self : Device) (auth : SessionAuthorization)
    (objects : SessionObjects) (source : SessionSourceRequest) : Result SoftwareSigningKey :=
  match source with
  | PersistentAsymmetric id =>
      object ← asymmetric_object self auth id;
      _ ← authorize_use auth (info object) Capability.DeriveEcdh Capability.DeriveEcdh;
      signing_key object
  | Volatile handle =>
      object ← ok_or (get objects handle) ObjectNotFound;
      _ ← reject_if (Z.land (flags object) FLAG_DERIVE =? 0) InsufficientPermissions;
      ok_or (p256_key object) InvalidData
  | PersistentSymmetric _ => Err InvalidData
  end.

(** The secret a counter KDF is keyed with. *)
Definition kdf_source_key (self : Device) (auth : SessionAuthorization)
    (objects : SessionObjects) (source : SessionSourceRequest) : Result bytes :=
  match source with
  | PersistentSymmetric id =>
      object ← symmetric_object self auth id;
      _ ← authorize_use auth (info object) EncryptEcb EncryptEcb;
      object_secret object
  | Volatile handle => session_derivation_secret objects handle
  | PersistentAsymmetric _ => Err InvalidData
  end.

(** The value of a derived session object, with the header that describes it. *)
Definition derive_session_value (self : Device) (auth : SessionAuthorization)
    (objects : SessionObjects) (operation : SessionObjectCommand.SessionObjectCommand)
    (payload : bytes) : Result (SessionResultHeader * bytes) :=
  match operation with
  | SessionObjectCommand.DeriveEcdh =>
      '(DeriveSessionEcdhRequest_ header source peer_public) ←
        decode DeriveSessionEcdhRequest payload;
      output_length ← validate_session_result_header header;
      key ← ecdh_source_key self auth objects source;
      value ← ok_or (derive_with_signing_key key peer_public) InvalidData;
      _ ← reject_if (len value <? output_length) WrongLength;
      value ← slice value (len value - output_length) (len value);
      Ok (header, value)
  | SessionObjectCommand.ConcatenateKey =>
      '(ConcatenateSessionKeysRequest_ header left_handle right_handle) ←
        decode ConcatenateSessionKeysRequest payload;
      output_length ← validate_session_result_header header;
      left ← session_derivation_secret objects left_handle;
      right ← session_derivation_secret objects right_handle;
      available ← ok_or (checked_add (len left) (len right)) WrongLength;
      _ ← reject_if (available <? output_length) WrongLength;
      Ok (header, ztake output_length (left ++ right))
  | SessionObjectCommand.ConcatenateData =>
      '(ConcatenateSessionDataRequest_ header base data) ←
        decode ConcatenateSessionDataRequest payload;
      output_length ← validate_session_result_header header;
      base ← session_derivation_secret objects base;
      available ← ok_or (checked_add (len base) (len data)) WrongLength;
      _ ← reject_if (available <? output_length) WrongLength;
      Ok (header, ztake output_length (base ++ data))
  | SessionObjectCommand.Extract =>
      '(ExtractSessionObjectRequest_ header base offset) ←
        decode ExtractSessionObjectRequest payload;
      output_length ← validate_session_result_header header;
      base ← session_derivation_secret objects base;
      value ← extract_bits base offset output_length;
      Ok (header, value)
  | SessionObjectCommand.Sha256 =>
      '(Sha256SessionObjectRequest_ header base) ← decode Sha256SessionObjectRequest payload;
      output_length ← validate_session_result_header header;
      _ ← reject_if (32 <? output_length) WrongLength;
      base ← session_derivation_secret objects base;
      value ← slice (digest KeyCore.Sha256 base) 0 output_length;
      Ok (header, value)
  | SessionObjectCommand.CounterKdf =>
      '(CounterKdfSessionObjectRequest_ header source fields) ←
        decode CounterKdfSessionObjectRequest payload;
      output_length ← validate_session_result_header header;
      key ← kdf_source_key self auth objects source;
      value ← ok_or (cmac_counter_kdf key fields output_length) InvalidData;
      Ok (header, value)
  | _ => Err InvalidData
  end.

Definition session_object_command (self : Device) (auth : SessionAuthorization) (data : bytes) :
    Table bytes :=
  '(SessionObjectRequest_ operation payload) ← lift (decode SessionObjectRequest data);
  objects ← get_left;
  match operation with
  | SessionObjectCommand.Read => lift (read_session_object objects payload)
  | SessionObjectCommand.VerifyCmac => lift (verify_session_object objects payload)
  | SessionObjectCommand.DeleteObject => delete_session_object payload
  | SessionObjectCommand.GenerateAsymmetricKey => generate_session_key payload
  | operation =>
      '(SessionResultHeader_ flags kind _, value) ←
        lift (derive_session_value self auth objects operation payload);
      object ← lift (ok_or (secret kind flags value) InvalidData);
      handle ← store_session_object object;
      mret (u64_to_be_bytes handle)
  end.
End session_object_commands.
