(* ===== verification/SessionObjectProperties.v ===== *)
(** * Properties of the session-object command

    Extraction is a rotation of the bits of the secret, and the handle table of a
    session keeps its bound and the limits of its objects. *)

From S2P Require Import Prelude Error Frame Firmware Algorithm Capability Protocol KeyCore Toy.
From S2P Require Import Wire Objects Authorization SessionObjects Requests SecureChannel.
From S2P Require Import DeviceState ObjectStore ObjectCommands KeyUse SessionObjectCommands.

(** ** Extraction *)

(** The bit [i] of a byte string, from the most significant bit of its first
    byte. *)
Definition bit_of (l : bytes) (i : Z) : bool :=
  Z.testbit (nth (Z.to_nat (i / 8)) l 0) (7 - i mod 8).

Lemma index_nth (l : bytes) i :
  0 ≤ i < len l → index (E := DeviceError) l i = Ok (nth (Z.to_nat i) l 0).
Proof.
  intros Hi. apply index_ok; [lia|]. unfold len in Hi.
  destruct (lookup_lt_is_Some_2 l (Z.to_nat i)) as [x Hx]; [lia|].
  by rewrite Hx, (nth_lookup_Some l _ 0 x).
Qed.

Lemma nth_u8 (l : bytes) i : bytes_ok l → u8 (nth i l 0).
Proof.
  intros Hl. destruct (nth_in_or_default i l 0) as [Hin| ->]; [|done].
  rewrite Forall_forall in Hl. apply Hl. by apply list_elem_of_In.
Qed.

Lemma bit_of_cons_low b l i : 0 ≤ i < 8 → bit_of (b :: l) i = Z.testbit b (7 - i).
Proof. intros. unfold bit_of. by rewrite Z.div_small, Z.mod_small by lia. Qed.

Lemma bit_of_cons_high b l i : 8 ≤ i → bit_of (b :: l) i = bit_of l (i - 8).
Proof.
  intros. unfold bit_of. replace i with ((i - 8) + 1 * 8) at 1 2 by lia.
  rewrite Z.div_add, Z.mod_add by lia. assert (0 ≤ (i - 8) / 8) by (apply Z.div_pos; lia).
  replace (Z.to_nat ((i - 8) / 8 + 1)) with (S (Z.to_nat ((i - 8) / 8))) by lia. done.
Qed.

(** The bits of one extracted byte. *)
Lemma extract_byte_spec base bit :
  bytes_ok base → 0 ≤ bit < len base * 8 →
  ∃ b, extract_byte base bit = Ok b ∧ u8 b ∧
    ∀ k, 0 ≤ k < 8 → Z.testbit b (7 - k) = bit_of base ((bit + k) mod (len base * 8)).
Proof.
  intros Hbase Hbit. unfold extract_byte. cbv zeta.
  set (q := bit / 8). set (s := bit mod 8).
  assert (bit = 8 * q + s) as Hqs by apply (Z.div_mod bit 8 ltac:(lia)).
  assert (0 ≤ s < 8) as Hs by (apply Z.mod_pos_bound; lia).
  assert (0 ≤ q < len base) as Hq by lia.
  rewrite (index_nth base q) by lia. cbn [mbind outcome_bind].
  destruct (s =? 0) eqn:Hz; bool_prop.
  { eexists. split; [done|]. split; [by apply nth_u8|]. intros k Hk.
    rewrite Z.mod_small by lia. unfold bit_of.
    replace (bit + k) with (k + q * 8) by lia.
    by rewrite Z.div_add, Z.mod_add, Z.div_small, Z.mod_small, Z.add_0_l by lia. }
  assert (0 ≤ (q + 1) mod len base < len base) as Hlow by (apply Z.mod_pos_bound; lia).
  rewrite index_nth by done. cbn [mbind outcome_bind].
  set (high := nth (Z.to_nat q) base 0). set (low := nth (Z.to_nat ((q + 1) mod len base)) base 0).
  assert (u8 high) as Hh by by apply nth_u8. assert (u8 low) as Hl by by apply nth_u8.
  eexists. split; [done|]. split.
  { apply u8_lor; [unfold u8; apply Z.mod_pos_bound; lia|].
    unfold u8 in *. split; [apply Z.shiftr_nonneg; lia|].
    rewrite Z.shiftr_div_pow2 by lia. apply Z.div_lt_upper_bound; [lia|].
    assert (1 ≤ 2 ^ (8 - s)) by (apply (Z.pow_le_mono_r 2 0); lia). nia. }
  intros k Hk. change 256 with (2 ^ 8).
  rewrite Z.lor_spec, Z.mod_pow2_bits_low, Z.shiftl_spec, Z.shiftr_spec by lia.
  assert (Z.testbit (nth (Z.to_nat ((q + (s + k) / 8) mod len base)) base 0) (7 - (s + k) mod 8)
    = bit_of base ((bit + k) mod (len base * 8))) as <-.
  { unfold bit_of. rewrite (Z.mul_comm (len base)).
    rewrite (Z.rem_mul_r (bit + k) 8 (len base)) by lia.
    replace (bit + k) with ((s + k) + q * 8) by lia. rewrite Z.div_add, Z.mod_add by lia.
    rewrite (Z.mul_comm 8), Z.div_add, Z.mod_add by lia.
    rewrite (Z.div_small ((s + k) mod 8)), Z.mod_mod, Z.add_0_l by (try apply Z.mod_pos_bound; lia).
    by rewrite (Z.add_comm q). }
  destruct (decide (s + k < 8)).
  - rewrite (Z.div_small (s + k)), Z.add_0_r, (Z.mod_small q), (Z.mod_small (s + k)) by lia.
    rewrite (u8_testbit_high low) by (done || lia). rewrite orb_false_r. fold high. f_equal. lia.
  - replace (s + k) with ((s + k - 8) + 1 * 8) by lia.
    rewrite Z.div_add, Z.mod_add by lia. rewrite (Z.div_small (s + k - 8)), (Z.mod_small (s + k - 8)) by lia.
    rewrite (Z.testbit_neg_r high) by lia. cbn [orb]. fold low. f_equal. lia.
Qed.

Lemma extract_loop_spec base offset n i :
  bytes_ok base → 0 < len base → 0 ≤ offset → 0 ≤ i →
  ∃ out, extract_loop base offset n i = Ok out ∧ List.length out = n ∧ bytes_ok out ∧
    ∀ k, 0 ≤ k < 8 * Z.of_nat n → bit_of out k = bit_of base ((offset + 8 * i + k) mod (len base * 8)).
Proof.
  intros Hb Hl Ho. revert i. induction n as [|n IH]; intros i Hi.
  { exists []. repeat split; [constructor|lia]. }
  cbn [extract_loop].
  assert (0 ≤ (offset + i * 8) mod (len base * 8) < len base * 8) as Hbit by (apply Z.mod_pos_bound; lia).
  destruct (extract_byte_spec base _ Hb Hbit) as (b & -> & Hu & Hbits). cbn [mbind outcome_bind].
  destruct (IH (i + 1)) as (out & -> & Hlen & Hok & Hspec); [lia|]. cbn [mbind outcome_bind].
  exists (b :: out). split; [done|]. split; [by rewrite <- Hlen|]. split; [by constructor|].
  intros k Hk. destruct (decide (k < 8)).
  - rewrite bit_of_cons_low, Hbits by lia. rewrite Z.add_mod_idemp_l by lia. do 2 f_equal. lia.
  - rewrite bit_of_cons_high, Hspec by lia. do 2 f_equal. lia.
Qed.

(** C37: extraction is a rotation. An accepted extraction of [n] bytes returns the
    [8 n] bits of the secret that start at the offset, wrapping around its end; an
    offset beyond the secret, and a longer result than the secret, are refused. *)
Theorem extract_is_rotation (base : bytes) (offset n : Z) :
  bytes_ok base → 0 ≤ offset → 0 ≤ n →
  (extract_bits base offset n = Err InvalidData ↔ len base * 8 ≤ offset) ∧
  (extract_bits base offset n = Err WrongLength ↔ offset < len base * 8 ∧ len base < n) ∧
  (offset < len base * 8 → n ≤ len base →
     ∃ out, extract_bits base offset n = Ok out ∧ len out = n ∧ bytes_ok out ∧
       ∀ k, 0 ≤ k < 8 * n → bit_of out k = bit_of base ((offset + k) mod (len base * 8))).
Proof.
  intros Hb Ho Hn. unfold extract_bits. pose proof (len_nonneg base).
  destruct (len base * 8 <=? offset) eqn:H1; bool_prop; cbn [reject_if mbind outcome_bind].
  { split; [done|]. split; [|lia]. split; [done|lia]. }
  destruct (len base <? n) eqn:H2; bool_prop; cbn [reject_if mbind outcome_bind].
  { split; [split; [done|lia]|]. split; [done|lia]. }
  destruct (extract_loop_spec base offset (Z.to_nat n) 0) as (out & -> & Hlen & Hok & Hspec); [done|lia..|].
  split; [split; [done|lia]|]. split; [split; [done|lia]|]. intros _ _.
  exists out. split; [done|]. split; [unfold len; lia|]. split; [done|].
  intros k Hk. rewrite Hspec by lia. do 2 f_equal. lia.
Qed.

Lemma extract_is_rotation_witness : extract_bits [0x12; 0x34] 4 2 = Ok [0x23; 0x41].
Proof.
  destruct (extract_is_rotation [0x12; 0x34] 4 2) as (_ & _ & He);
    [by_computation|lia|lia|]. destruct He as (out & Hx & _); [by vm_compute..|].
  rewrite Hx. rewrite <- Hx. by vm_compute.
Defined.

(** ** The handle table *)

Section table.
Context `{Build} `{SoftwareKeyCore} `{Fuel}.

Definition table_kept (m : Eff (SessionObjects * World) DeviceError bytes) : Prop :=
  ∀ t w, session_objects_ok t → wp m (λ _ s', session_objects_ok s'.1) (t, w).

Lemma wp_insert o t w Q :
  session_object_ok o → session_objects_ok t →
  (∀ r t' w', session_objects_ok t' → Q r (t', w')) → wp (insert fuel o) Q (t, w).
Proof.
  intros Ho Ht HQ. unfold wp, insert. cbn [fst]. destruct (_ <=? _) eqn:Hs; [by apply HQ|].
  destruct (insert_loop fuel o (t, w)) as [r [t' w']] eqn:Hl. apply insert_loop_spec in Hl.
  apply HQ. cbn [fst snd] in *. destruct r as [[handle|]| | |]; [|by subst..].
  destruct Hl as (Hh & Hn & ->). bool_prop. destruct Ht as [Hsize Hall]. split.
  - rewrite map_size_insert_None by done. lia.
  - intros h o' [[<- <-]|[_ Hl]]%lookup_insert_Some; [done|by apply Hall].
Qed.

Lemma delete_objects_ok t handle : session_objects_ok t → session_objects_ok (delete handle t).
Proof.
  intros [Hs Ha]. split.
  - rewrite map_size_delete. destruct (t !! handle); cbn; lia.
  - intros h o [_ Hl]%lookup_delete_Some. by apply Ha.
Qed.

(** The end of every operation that creates an object. *)
Lemma wp_store o (f : Z → bytes) t w :
  session_object_ok o → session_objects_ok t →
  wp (handle ← store_session_object o; mret (f handle)) (λ _ s', session_objects_ok s'.1) (t, w).
Proof.
  intros Ho Ht. unfold store_session_object. apply wp_bind_assoc, wp_bind.
  apply wp_insert; [done..|]. intros [r| | |] t' w' Ht'; [|done..].
  apply wp_lift_bind; [intros h Hh; by apply wp_ret|done].
Qed.

Lemma session_object_command_kept self auth data : table_kept (session_object_command self auth data).
Proof.
  intros t w Ht. unfold session_object_command, generate_session_key, delete_session_object, remove.
  wp_walk_with ltac:(exact Ht).
  all: try (apply wp_lift; exact Ht).
  all: repeat match goal with
    | Hs : ok_or _ _ = Ok _ |- _ => apply ok_or_ok in Hs
    | Hs : secret _ _ _ = Some _ |- _ => apply secret_ok in Hs as (? & _ & _)
    | Hs : p256_private _ _ = Some _ |- _ => apply p256_private_ok in Hs as (? & _ & _)
    end.
  all: try by apply wp_store.
  apply wp_bind. unfold wp at 1. cbn [fst snd].
  wp_walk_with ltac:(by apply delete_objects_ok). apply wp_ret. by apply delete_objects_ok.
Qed.

(** The handle table of a session. Whatever session-object command runs,
    whether it succeeds or not, the table holds at most sixty-four objects, under
    handles that are not zero, each of a size and a kind its constructors allow:
    a secret of 1 to 1024 bytes, an AES key of a valid length, a P-256 key. *)
Theorem session_objects_bounded (self : Device) (auth : SessionAuthorization) (data : bytes)
    (t : SessionObjects) (w : World) :
  session_objects_ok t →
  wp (session_object_command self auth data) (λ _ s', session_objects_ok s'.1) (t, w).
Proof. apply session_object_command_kept. Qed.
End table.

(** ** Witness *)

#[local] Existing Instance default_build.
#[local] Existing Instance toy_fuel.

Lemma session_objects_bounded_witness :
  wp (session_object_command
        (mkDevice default_config ∅ ∅ (KindEc P256, zeros 32) 0 ∅ default_options initial_audit false)
        example_session
        (SessionObjectCommand.to_byte SessionObjectCommand.GenerateAsymmetricKey ::
           [2; Algorithm.to_byte EcP256]))
    (λ _ s', session_objects_ok s'.1) (∅, toy_world).
Proof. apply session_objects_bounded. apply empty_session_objects. Defined.
