(* ===== verification/Attestation.v ===== *)
(** * Attestation certificates
    (crates/virtual-yubihsm-core/src/device.rs, lines 175-220, 1874-1989,
    3766-3834)

    The certificate that binds a generated key to its metadata, signed by the
    device key or by an attestation key, optionally after a template
    certificate. The X.509 library is a parameter. *)

From stdpp Require Import pretty.
From S2P Require Import Prelude Error Frame Firmware Algorithm Capability Protocol KeyCore Toy.
From S2P Require Import Wire Objects Authorization SessionObjects Requests SecureChannel.
From S2P Require Import DeviceState ObjectStore.

(** [x509_cert] and [spki]: names, extensions, validity periods, key
    descriptions and the certificate builder. *)
Class X509 `{SoftwareKeyCore} := {
  Name : Type;
  Extension : Type;
  Validity : Type;
  Spki : Type;
  Signer : Type;
  Tbs : Type;
  Certificate : Type;
  name_from_str : string → option Name;
  (** [ObjectIdentifier::new] and [OctetString::new], not critical. *)
  extension_new : string → bytes → option Extension;
  (** [BasicConstraints] that is not a CA, and [KeyUsage] with digital signature
      and, when set, key agreement and key encipherment. *)
  basic_constraints : Name → list Extension → option Extension;
  key_usage : bool → bool → Name → list Extension → option Extension;
  validity_from_now : Z → World → option Validity * World;
  subject_public_key_info : SoftwarePublicKey → option Spki;
  (** An algorithm without parameters and a bit string. *)
  spki_new : string → bytes → option Spki;
  certificate_from_der : bytes → option Certificate;
  certificate_subject : Certificate → Name;
  certificate_issuer : Certificate → Name;
  certificate_validity : Certificate → Validity;
  certificate_extensions : Certificate → option (list Extension);
  certificate_to_der : Certificate → option bytes;
  signer_from_key : SoftwareSigningKey → option Signer;
  (** [SerialNumber::new] and [CertificateBuilder::new]. *)
  SerialNumber : Type;
  serial_number_new : bytes → option SerialNumber;
  builder_new : Name → Name → SerialNumber → Validity → Spki → option Tbs;
  tbs_subject : Tbs → Name;
  builder_build : option (list Extension) → Tbs → Signer → World → option Certificate * World;
}.

Section attestation.
Context `{Build} `{X509}.

Record AttestationProfile : Type := mkProfile {
  profile_subject : Name;
  profile_issuer : Name;
  profile_key_agreement : bool;
  profile_key_encipherment : bool;
  template_extensions : list Extension;
  metadata_extensions : list Extension;
}.

(** [BuilderProfile::build_extensions], which the builder calls with the
    certificate it builds. *)
Definition build_extensions (self : AttestationProfile) (tbs : Tbs) : option (list Extension) :=
  extensions ←
    match template_extensions self with
    | [] =>
        constraints ← basic_constraints (tbs_subject tbs) [];
        usage ← key_usage (profile_key_agreement self) (profile_key_encipherment self)
                  (tbs_subject tbs) [constraints];
        Some [constraints; usage]
    | extensions => Some extensions
    end;
  Some (extensions ++ metadata_extensions self).

Definition hybrid_oid (construction : HybridKemConstruction) : string :=
  match construction with
  | MlKem768P256 => "1.3.6.1.4.1.41482.12.1"
  | MlKem768X25519 => "1.3.6.1.4.1.41482.12.2"
  | MlKem1024P384 => "1.3.6.1.4.1.41482.12.3"
  end.

Definition object_subject_public_key_info (object : ObjectRecord) : Result Spki :=
  match material object with
  | HybridKemKey key =>
      public ← ok_or (hybrid_public_key key) InvalidData;
      ok_or (spki_new (hybrid_oid (hybrid_construction key)) public) InvalidData
  | _ =>
      match montgomery_algorithm (algorithm (info object)) with
      | Some (curve, oid) =>
          key ← montgomery_key_for_curve object curve;
          ok_or (spki_new oid (montgomery_public_key key)) InvalidData
      | None =>
          key ← signing_key object;
          match public_key key with
          | PublicMlDsa _ _ => Err InvalidData
          | public => ok_or (subject_public_key_info public) InvalidData
          end
      end
  end.

(** One metadata extension, under the object identifier prefix of the device. *)
Definition metadata_extension (field : Z * bytes) : Result Extension :=
  ok_or (extension_new ("1.3.6.1.4.1.41482.4." +:+ pretty field.1) field.2) InvalidData.

Fixpoint collect_extensions (fields : list (Z * bytes)) : Result (list Extension) :=
  match fields with
  | [] => Ok []
  | field :: fields =>
      e ← metadata_extension field;
      rest ← collect_extensions fields;
      Ok (e :: rest)
  end.

Definition attestation_metadata_extensions (config : DeviceConfig) (target : ObjectInfo) :
    Result (list Extension) :=
  collect_extensions
    [(1, version config);
     (2, u32_to_be_bytes (serial config));
     (3, [origin target]);
     (4, u16_to_be_bytes (domains target));
     (5, to_bytes (capabilities target));
     (6, u16_to_be_bytes (id target));
     (9, label target)].

(** The attested key: the device key for identifier zero, a generated object
    otherwise. *)
Definition attestation_target (self : Device) (auth : SessionAuthorization) (target_id : Z) :
    Result (Spki * ObjectInfo) :=
  if target_id =? 0 then
    match public_key (device_static_private self) with
    | PublicEc _ public =>
        spki ← ok_or (subject_public_key_info (PublicEc P256 public)) InvalidData;
        length ← unwrap (asymmetric_object_length EcP256);
        Ok (spki, mkObjectInfo NONE 0 (as_u16 length) 0 AsymmetricKey (Algorithm.to_byte EcP256)
                    0 0 (ascii_bytes "Virtual YubiHSM device key") NONE)
    | _ => Err StorageFailed
    end
  else
    target ← asymmetric_object self auth target_id;
    _ ← reject_if (Z.land (origin (info target)) 1 =? 0) InvalidData;
    _ ← require_algorithm_enabled self (algorithm (info target));
    spki ← object_subject_public_key_info target;
    Ok (spki, info target).

(** The key that signs, and the name it signs under. *)
Definition attestation_signer (self : Device) (auth : SessionAuthorization) (attesting_id : Z) :
    Result (SoftwareSigningKey * string) :=
  if attesting_id =? 0 then
    Ok (device_static_private self,
        "CN=Virtual YubiHSM " +:+ pretty (serial (config self)) +:+ " Attestation")
  else
    attesting ← asymmetric_object self auth attesting_id;
    _ ← reject_if (negb (algorithm (info attesting) =? Algorithm.to_byte EcP256)) InvalidData;
    key ← signing_key attesting;
    Ok (key, "CN=Virtual YubiHSM Attestation Key " +:+ pretty attesting_id).

(** The template certificate of an attestation key, when there is one. *)
Definition attestation_template (self : Device) (auth : SessionAuthorization) (attesting_id : Z) :
    Result (option Certificate) :=
  match (if attesting_id =? 0 then None else objects self !! mkObjectKey Opaque attesting_id) with
  | None => Ok None
  | Some template =>
      _ ← require_visible auth (info template);
      _ ← reject_if (negb (algorithm (info template)
                           =? Algorithm.to_byte OpaqueX509Certificate)) InvalidData;
      match material template with
      | OpaqueMaterial encoded =>
          certificate ← ok_or (certificate_from_der encoded) InvalidData;
          Ok (Some certificate)
      | _ => Err InvalidData
      end
  end.

Definition sign_attestation_certificate (self : Device) (auth : SessionAuthorization)
    (data : bytes) : Eff World DeviceError bytes :=
  '(SignAttestationCertificateRequest_ target_id attesting_id) ←
    lift (decode SignAttestationCertificateRequest data);
  '(target_spki, target_info) ← lift (attestation_target self auth target_id);
  '(attesting_private, issuer) ← lift (attestation_signer self auth attesting_id);
  signer ← lift (ok_or (signer_from_key attesting_private) InvalidData);
  subject ← lift (ok_or (name_from_str ("CN=Virtual YubiHSM Key " +:+ pretty target_id))
                    InvalidData);
  issuer ← lift (ok_or (name_from_str issuer) InvalidData);
  validity ← call (validity_from_now (10 * 365 * 86400)) StorageFailed;
  template ← lift (attestation_template self auth attesting_id);
  let '(subject, issuer, validity, extensions) :=
    match template with
    | Some c => (certificate_subject c, certificate_issuer c, certificate_validity c,
                 default [] (certificate_extensions c))
    | None => (subject, issuer, validity, [])
    end in
  algorithm ← lift (ok_or (Algorithm.from_byte (algorithm target_info)) InvalidData);
  metadata ← lift (attestation_metadata_extensions (config self) target_info);
  let profile := mkProfile subject issuer
    (bool_decide (algorithm = Ecdh ∨ algorithm = X25519 ∨ algorithm = X448)
     || is_weierstrass_key algorithm)
    (is_rsa_key algorithm) extensions metadata in
  serial ← lift (ok_or (serial_number_new (u32_to_be_bytes (serial (config self)) ++
                          u16_to_be_bytes target_id ++ u16_to_be_bytes attesting_id)) InvalidData);
  builder ← lift (ok_or (builder_new (profile_subject profile) (profile_issuer profile) serial
                           validity target_spki) InvalidData);
  certificate ← call (builder_build (build_extensions profile builder) builder signer)
                  StorageFailed;
  lift (ok_or (certificate_to_der certificate) StorageFailed).
End attestation.

(** An instance of the X.509 operations for the witnesses: names and extensions
    are their text, and the certificate is the key description it certifies. *)
#[export] Instance toy_x509 : X509 := {|
  Name := string; Extension := string * bytes; Validity := Z; Spki := bytes;
  Signer := KeyKind * bytes; Tbs := string * bytes;
  Certificate := string * bytes * list (string * bytes);
  name_from_str s := Some s;
  extension_new o v := Some (o, v);
  basic_constraints n l := Some ("2.5.29.19"%string, [0]);
  key_usage a e n l := Some ("2.5.29.15"%string, [if a then 1 else 0; if e then 1 else 0]);
  validity_from_now s := λ w, (Some (w.2 + s), w);
  subject_public_key_info p :=
    match p with PublicEc _ b | PublicEdwards _ b | PublicRsa b _ | PublicMlDsa _ b => Some b end;
  spki_new o b := Some b;
  certificate_from_der b := Some (""%string, b, []);
  certificate_subject c := c.1.1;
  certificate_issuer c := c.1.1;
  certificate_validity c := 0;
  certificate_extensions c := Some c.2;
  certificate_to_der c := Some c.1.2;
  signer_from_key k := Some k;
  SerialNumber := bytes;
  serial_number_new b := Some b;
  builder_new s i n v k := Some (s, k);
  tbs_subject t := t.1;
  builder_build e t s := λ w, (e ← e; Some (t.1, t.2, e), w);
|}.
