(* ===== verification/Dispatch.v ===== *)
(** * Command authorization and dispatch
    (crates/virtual-yubihsm-core/src/device.rs, lines 429-450, 639-705,
    863-1352)

    Which object a command touches and what that object must permit, the table
    from commands to handlers, and the wrapper that adds the log guard, the
    response size guard and the audit entry. *)

From S2P Require Import Prelude Error Frame Firmware Algorithm Capability Protocol KeyCore Toy.
From S2P Require Import Wire Objects Authorization SessionObjects Requests SecureChannel.
From S2P Require Import DeviceState ObjectStore ObjectCommands KeyUse Wrapping Attestation.
From S2P Require Import SessionObjectCommands.

Section dispatch.
Context `{Build} `{HX : X509} `{Der} `{Fuel}.

(** ** Authorization of a command *)

(** A command that names its object by the identifier at the head of the
    request. *)
Definition authorize_id (self : Device) (auth : SessionAuthorization) (object_type : ObjectType)
    (id : Z) (capability : Capability) : Result unit :=
  authorize_object self auth (mkObjectKey object_type id) capability.

Definition authorize_attestation (self : Device) (auth : SessionAuthorization)
    (target_id attesting_id : Z) : Result unit :=
  _ ← (if target_id =? 0 then Ok tt
       else require_object_visible self auth (mkObjectKey AsymmetricKey target_id));
  if attesting_id =? 0 then Ok tt
  else
    _ ← authorize_id self auth AsymmetricKey attesting_id Capability.SignAttestationCertificate;
    if bool_decide (is_Some (objects self !! mkObjectKey Opaque attesting_id))
    then require_object_visible self auth (mkObjectKey Opaque attesting_id)
    else Ok tt.

(** The object checks of one command, after the session capability. They are one
    match in the code; its arms from the OTP commands on come first here. *)
Definition authorize_container_objects (self : Device) (auth : SessionAuthorization)
    (command : CommandCode.CommandCode) (data : bytes) : Result unit :=
  match command with
  | CommandCode.CreateOtpAead =>
      '(CreateOtpAeadRequest_ id _) ← decode CreateOtpAeadRequest data;
      authorize_id self auth OtpAeadKey id Capability.CreateOtpAead
  | CommandCode.RandomizeOtpAead =>
      '(U16Request_ id) ← decode RandomizeOtpAeadRequest data;
      authorize_id self auth OtpAeadKey id Capability.RandomizeOtpAead
  | CommandCode.DecryptOtp =>
      '(DecryptOtpRequest_ id _ _) ← decode DecryptOtpRequest data;
      authorize_id self auth OtpAeadKey id Capability.DecryptOtp
  | CommandCode.RewrapOtpAead =>
      '(RewrapOtpAeadRequest_ from_id to_id _) ← decode RewrapOtpAeadRequest data;
      _ ← authorize_id self auth OtpAeadKey from_id Capability.RewrapFromOtpAeadKey;
      authorize_id self auth OtpAeadKey to_id Capability.RewrapToOtpAeadKey
  | CommandCode.ExportWrapped =>
      '(ExportWrappedRequest_ wrap_id target _) ← decode ExportWrappedRequest data;
      authorize_wrapped_export_of self auth WrapKey wrap_id target
  | CommandCode.GetRsaWrappedKey =>
      '(ExportRsaWrappedFields_ wrap_id target _ _ _ _) ← decode GetRsaWrappedKeyRequest data;
      authorize_wrapped_export_of self auth PublicWrapKey wrap_id target
  | CommandCode.ExportRsaWrapped =>
      '(ExportRsaWrappedFields_ wrap_id target _ _ _ _) ← decode ExportRsaWrappedRequest data;
      authorize_wrapped_export_of self auth PublicWrapKey wrap_id target
  | CommandCode.ImportWrapped =>
      '(ImportWrappedRequest_ wrap_id _ _ _) ← decode ImportWrappedRequest data;
      authorize_id self auth WrapKey wrap_id Capability.ImportWrapped
  | CommandCode.ImportRsaWrapped =>
      '(ImportRsaWrappedRequest_ wrap_id _ _ _) ← decode ImportRsaWrappedRequest data;
      authorize_id self auth WrapKey wrap_id Capability.ImportWrapped
  | CommandCode.PutRsaWrappedKey =>
      '(PutRsaWrappedKeyRequest_ wrap_id _ _ _ _ _ _ _ _ _) ← decode PutRsaWrappedKeyRequest data;
      authorize_id self auth WrapKey wrap_id Capability.ImportWrapped
  | CommandCode.SignAttestationCertificate =>
      '(SignAttestationCertificateRequest_ target_id attesting_id) ←
        decode SignAttestationCertificateRequest data;
      authorize_attestation self auth target_id attesting_id
  | CommandCode.GetObjectInfo =>
      '(ObjectKeyRequest_ key) ← decode GetObjectInfoRequest data;
      require_object_visible self auth key
  | CommandCode.GetPublicKey =>
      '(GetPublicKeyRequest_ id object_type) ← decode GetPublicKeyRequest data;
      require_object_visible self auth (mkObjectKey object_type id)
  | CommandCode.DeleteObject =>
      '(ObjectKeyRequest_ key) ← decode DeleteObjectRequest data;
      object ← ok_or (objects self !! key) ObjectNotFound;
      authorize_delete auth (info object)
  | _ => Ok tt
  end.

Definition authorize_command_objects (self : Device) (auth : SessionAuthorization)
    (command : CommandCode.CommandCode) (data : bytes) : Result unit :=
  match command with
  | CommandCode.PutOpaque =>
      '(ObjectRequest_ (ObjectHeader_ id _ _ _ _) _) ← decode PutOpaqueRequest data;
      if negb (id =? 0) && bool_decide (is_Some (objects self !! mkObjectKey Opaque id))
      then authorize_id self auth Opaque id Capability.PutOpaque
      else Ok tt
  | CommandCode.GetOpaque =>
      '(U16Request_ id) ← decode GetOpaqueRequest data;
      require_object_visible self auth (mkObjectKey Opaque id)
  | CommandCode.GetTemplate =>
      '(U16Request_ id) ← decode GetTemplateRequest data;
      authorize_id self auth Template id Capability.GetTemplate
  | CommandCode.ChangeAuthenticationKey =>
      '(ChangeAuthenticationKeyRequest_ id _ _) ← decode ChangeAuthenticationKeyRequest data;
      _ ← reject_if (negb (id =? authentication_key_id auth)) InvalidId;
      authorize_id self auth AuthenticationKey id Capability.ChangeAuthenticationKey
  | CommandCode.SignPkcs1 =>
      '(IdRemainderRequest_ id _) ← decode SignPkcs1Request data;
      authorize_id self auth AsymmetricKey id Capability.SignPkcs
  | CommandCode.SignPss =>
      '(SignPssRequest_ id _ _ _) ← decode SignPssRequest data;
      authorize_id self auth AsymmetricKey id Capability.SignPss
  | CommandCode.SignEcdsa =>
      '(IdRemainderRequest_ id _) ← decode SignEcdsaRequest data;
      authorize_id self auth AsymmetricKey id Capability.SignEcdsa
  | CommandCode.SignEddsa =>
      '(IdRemainderRequest_ id _) ← decode SignEddsaRequest data;
      authorize_id self auth AsymmetricKey id Capability.SignEddsa
  | CommandCode.SignMlDsa =>
      '(SignMlDsaRequest_ _ id _ _ _) ← decode SignMlDsaRequest data;
      authorize_id self auth AsymmetricKey id Capability.SignMlDsa
  | CommandCode.EncapsulateMlKem =>
      '(U16Request_ id) ← decode EncapsulateMlKemRequest data;
      authorize_id self auth AsymmetricKey id Capability.EncapsulateMlKem
  | CommandCode.DecapsulateMlKem =>
      '(IdRemainderRequest_ id _) ← decode DecapsulateMlKemRequest data;
      authorize_id self auth AsymmetricKey id Capability.DecapsulateMlKem
  | CommandCode.EncapsulateHybridKem =>
      '(U16Request_ id) ← decode EncapsulateMlKemRequest data;
      authorize_id self auth AsymmetricKey id Capability.EncapsulateHybridKem
  | CommandCode.DecapsulateHybridKem =>
      '(IdRemainderRequest_ id _) ← decode DecapsulateMlKemRequest data;
      authorize_id self auth AsymmetricKey id Capability.DecapsulateHybridKem
  | CommandCode.DeriveEcdh =>
      '(IdRemainderRequest_ id _) ← decode DeriveEcdhRequest data;
      authorize_id self auth AsymmetricKey id Capability.DeriveEcdh
  | CommandCode.DeriveEcdhKdf =>
      '(DeriveEcdhKdfRequest_ id _ _ _ _ _) ← decode DeriveEcdhKdfRequest data;
      authorize_id self auth AsymmetricKey id Capability.DeriveEcdhKdf
  | CommandCode.DecryptPkcs1 =>
      '(IdRemainderRequest_ id _) ← decode DecryptPkcs1Request data;
      authorize_id self auth AsymmetricKey id Capability.DecryptPkcs
  | CommandCode.DecryptOaep =>
      '(DecryptOaepRequest_ id _ _) ← decode DecryptOaepRequest data;
      authorize_id self auth AsymmetricKey id Capability.DecryptOaep
  | CommandCode.SignHmac =>
      '(IdRemainderRequest_ id _) ← decode SignHmacRequest data;
      authorize_id self auth HmacKey id Capability.SignHmac
  | CommandCode.VerifyHmac =>
      '(IdRemainderRequest_ id _) ← decode VerifyHmacRequest data;
      authorize_id self auth HmacKey id Capability.VerifyHmac
  | CommandCode.WrapData =>
      '(IdRemainderRequest_ id _) ← decode WrapDataRequest data;
      authorize_id self auth WrapKey id Capability.WrapData
  | CommandCode.UnwrapData =>
      '(IdRemainderRequest_ id _) ← decode UnwrapDataRequest data;
      authorize_id self auth WrapKey id Capability.UnwrapData
  | CommandCode.EncryptEcb =>
      '(IdRemainderRequest_ id _) ← decode EncryptEcbRequest data;
      authorize_id self auth SymmetricKey id Capability.EncryptEcb
  | CommandCode.DecryptEcb =>
      '(IdRemainderRequest_ id _) ← decode DecryptEcbRequest data;
      authorize_id self auth SymmetricKey id Capability.DecryptEcb
  | CommandCode.EncryptCbc =>
      '(AesCbcRequest_ id _ _) ← decode EncryptCbcRequest data;
      authorize_id self auth SymmetricKey id Capability.EncryptCbc
  | CommandCode.DecryptCbc =>
      '(AesCbcRequest_ id _ _) ← decode DecryptCbcRequest data;
      authorize_id self auth SymmetricKey id Capability.DecryptCbc
  | _ => authorize_container_objects self auth command data
  end.

Definition authorize_command_request (self : Device) (auth : SessionAuthorization)
    (command : CommandCode.CommandCode) (data : bytes) : Result unit :=
  _ ← match CommandCode.required_session_capability command with
      | Some required => require_capability auth required
      | None => Ok tt
      end;
  authorize_command_objects self auth command data.

(** ** Commands handled in the dispatcher itself *)

Definition get_device_public_key (self : Device) (data : bytes) : Result bytes :=
  _ ← decode GetDevicePublicKeyRequest data;
  match public_key (device_static_private self) with
  | PublicEc _ (_ :: public) => Ok (AUTHENTICATION_ALGORITHM_EC_P256 :: public)
  | PublicEc _ [] => Panic
  | _ => Err StorageFailed
  end.

(** Commands accepted both outside and inside a session. *)
Definition execute_plain_or_authenticated (self : Device) (request : Frame) :
    option (Result bytes) :=
  match CommandCode.from_byte (command request) with
  | Some CommandCode.Echo =>
      Some ('(RemainderRequest_ data) ← decode EchoRequest (data request); Ok data)
  | Some CommandCode.GetDeviceInfo => Some (get_device_info self (data request))
  | Some CommandCode.GetDevicePublicKey => Some (get_device_public_key self (data request))
  | _ => None
  end.

(** [1024 - used] is a [u16] subtraction: it panics, or wraps, below zero. *)
Definition get_storage_info (self : Device) (data : bytes) : Result bytes :=
  _ ← decode GetStorageInfoRequest data;
  let count := Z.of_nat (size (objects self)) in
  let used := as_u16 count in
  let free := as_u16 (Z.max (MAX_OBJECTS - count) 0) in
  pages ← (if used <=? 1024 then Ok (1024 - used)
           else if overflow_checks then Panic else Ok ((1024 - used) mod 65536));
  Ok (concat (map u16_to_be_bytes [MAX_OBJECTS; free; 1024; pages; 126])).

Definition get_pseudo_random (data : bytes) : Eff World DeviceError bytes :=
  '(U16Request_ length) ← lift (decode GetPseudoRandomRequest data);
  random_bytes length.

Definition get_object_info (self : Device) (auth : SessionAuthorization) (data : bytes) :
    Result bytes :=
  '(ObjectKeyRequest_ key) ← decode GetObjectInfoRequest data;
  object ← ok_or (objects self !! key) ObjectNotFound;
  _ ← require_visible auth (info object);
  let i := info object in
  Info.encode (set_capabilities (retain_firmware_supported (capabilities i))
                 (retain_firmware_supported (delegated_capabilities i)) i).

Definition get_opaque (self : Device) (data : bytes) : Result bytes :=
  '(U16Request_ id) ← decode GetOpaqueRequest data;
  object ← ok_or (objects self !! mkObjectKey Opaque id) ObjectNotFound;
  match material object with OpaqueMaterial data => Ok data | _ => Err InvalidData end.

Definition delete_object (data : bytes) : Dev bytes :=
  '(ObjectKeyRequest_ key) ← lift (decode DeleteObjectRequest data);
  _ ← modify (λ self, set_objects (delete key (objects self)) self);
  mret [].

(** The new identity is generated first: a failure changes nothing. *)
Definition reset_device (data : bytes) : Dev bytes :=
  _ ← lift (decode ResetDeviceRequest data);
  renewed_device_static_private ← on_world (call (generate_for_kind (KindEc P256)) StorageFailed);
  _ ← modify (λ self,
        install_factory_authentication_key
          (mkDevice (config self) ∅ ∅ renewed_device_static_private (state_epoch self) ∅
             default_options initial_audit (persistent_change self)));
  mret [].

Definition blink_device (data : bytes) : Result bytes :=
  _ ← decode BlinkDeviceRequest data; Ok [].

(** ** The dispatcher

    The state of an inner command: the device, the world, and the handle table
    of the session that sent it, when it came through a session. *)

#[local] Abbreviation Exec := (Eff ((Device * World) * option SessionObjects) DeviceError).

Definition on_device {A} (m : Dev A) : Exec A := λ s,
  let '(r, dw) := m s.1 in (r, (dw, s.2)).

(** A [&self] handler that uses the world. *)
Definition read_device {A} (m : Device → Eff World DeviceError A) : Exec A :=
  on_device (reading m).

(** A [&self] handler without effects. *)
Definition query {A} (m : Device → Result A) : Exec A := read_device (λ self, lift (m self)).

(** [session_objects.ok_or(InvalidSession)?] passed to a handler. *)
Definition on_table {A} (m : Device → Eff (SessionObjects * World) DeviceError A) : Exec A := λ s,
  match s.2 with
  | None => (Err InvalidSession, s)
  | Some table =>
      let '(r, (table, w)) := m s.1.1 (table, s.1.2) in (r, ((s.1.1, w), Some table))
  end.

Definition run_command (auth : SessionAuthorization) (command : CommandCode.CommandCode)
    (data : bytes) : Exec bytes :=
  match command with
  | CommandCode.CloseSession => query (λ _, _ ← decode CloseSessionRequest data; Ok [])
  | CommandCode.GetStorageInfo => query (λ self, get_storage_info self data)
  | CommandCode.GetPseudoRandom => read_device (λ _, get_pseudo_random data)
  | CommandCode.ListObjects => query (λ self, list_objects self auth data)
  | CommandCode.GetObjectInfo => query (λ self, get_object_info self auth data)
  | CommandCode.GetLogEntries => query (λ self, get_log_entries self data)
  | CommandCode.SetLogIndex => on_device (set_log_index data)
  | CommandCode.SetOption => on_device (set_option data)
  | CommandCode.GetOption => query (λ self, get_option self data)
  | CommandCode.PutAuthenticationKey => on_device (put_authentication_key auth data)
  | CommandCode.ChangeAuthenticationKey => on_device (change_authentication_key data)
  | CommandCode.PutOpaque => on_device (put_opaque auth data)
  | CommandCode.PutAsymmetricKey => on_device (put_asymmetric_key auth data false)
  | CommandCode.GenerateAsymmetricKey => on_device (put_asymmetric_key auth data true)
  | CommandCode.GetPublicKey => query (λ self, get_public_key self auth data)
  | CommandCode.SignAttestationCertificate =>
      read_device (λ self, sign_attestation_certificate self auth data)
  | CommandCode.SignPkcs1 => read_device (λ self, sign_pkcs1 self auth data)
  | CommandCode.SignPss => read_device (λ self, sign_pss self auth data)
  | CommandCode.SignEcdsa => read_device (λ self, sign_ecdsa self auth data)
  | CommandCode.SignEddsa => read_device (λ self, sign_eddsa self auth data)
  | CommandCode.SignMlDsa => read_device (λ self, sign_ml_dsa self auth data)
  | CommandCode.EncapsulateMlKem => read_device (λ self, encapsulate_ml_kem self auth data)
  | CommandCode.DecapsulateMlKem => read_device (λ self, decapsulate_ml_kem self auth data)
  | CommandCode.EncapsulateHybridKem => read_device (λ self, encapsulate_hybrid_kem self auth data)
  | CommandCode.DecapsulateHybridKem => read_device (λ self, decapsulate_hybrid_kem self auth data)
  | CommandCode.DeriveEcdh => query (λ self, derive_ecdh self auth data)
  | CommandCode.DeriveEcdhKdf => query (λ self, derive_ecdh_kdf self auth data)
  | CommandCode.SessionObject => on_table (λ self, session_object_command self auth data)
  | CommandCode.DecryptPkcs1 => read_device (λ self, decrypt_pkcs1 self auth data)
  | CommandCode.DecryptOaep => read_device (λ self, decrypt_oaep self auth data)
  | CommandCode.PutHmacKey => on_device (put_hmac_key auth data false)
  | CommandCode.GenerateHmacKey => on_device (put_hmac_key auth data true)
  | CommandCode.SignHmac => query (λ self, sign_hmac self auth data)
  | CommandCode.VerifyHmac => query (λ self, verify_hmac self auth data)
  | CommandCode.PutWrapKey => on_device (put_wrap_key auth data false)
  | CommandCode.GenerateWrapKey => on_device (put_wrap_key auth data true)
  | CommandCode.PutPublicWrapKey => on_device (put_public_wrap_key auth data)
  | CommandCode.WrapData => read_device (λ self, wrap_data self auth data)
  | CommandCode.UnwrapData => query (λ self, unwrap_data self auth data)
  | CommandCode.ExportWrapped => read_device (λ self, export_wrapped self auth data)
  | CommandCode.ImportWrapped => on_device (import_wrapped auth data)
  | CommandCode.GetRsaWrappedKey => read_device (λ self, export_rsa_wrapped self auth data true)
  | CommandCode.PutRsaWrappedKey => on_device (put_rsa_wrapped_key auth data)
  | CommandCode.ExportRsaWrapped => read_device (λ self, export_rsa_wrapped self auth data false)
  | CommandCode.ImportRsaWrapped => on_device (import_rsa_wrapped auth data)
  | CommandCode.PutSymmetricKey => on_device (put_symmetric_key auth data false)
  | CommandCode.GenerateSymmetricKey => on_device (put_symmetric_key auth data true)
  | CommandCode.EncryptEcb => query (λ self, crypt_aes_ecb self auth data true)
  | CommandCode.DecryptEcb => query (λ self, crypt_aes_ecb self auth data false)
  | CommandCode.EncryptCbc => query (λ self, crypt_aes_cbc self auth data true)
  | CommandCode.DecryptCbc => query (λ self, crypt_aes_cbc self auth data false)
  | CommandCode.PutOtpAeadKey => on_device (put_otp_aead_key auth data false)
  | CommandCode.GenerateOtpAeadKey => on_device (put_otp_aead_key auth data true)
  | CommandCode.CreateOtpAead => read_device (λ self, create_otp_aead self auth data)
  | CommandCode.RandomizeOtpAead => read_device (λ self, randomize_otp_aead self auth data)
  | CommandCode.DecryptOtp => query (λ self, decrypt_otp self auth data)
  | CommandCode.RewrapOtpAead => read_device (λ self, rewrap_otp_aead self auth data)
  | CommandCode.PutTemplate => on_device (put_template auth data)
  | CommandCode.GetTemplate => query (λ self, get_template self data)
  | CommandCode.GetOpaque => query (λ self, get_opaque self data)
  | CommandCode.DeleteObject => on_device (delete_object data)
  | CommandCode.ResetDevice => on_device (reset_device data)
  | CommandCode.BlinkDevice => query (λ _, blink_device data)
  | _ => fail InvalidCommand
  end.

Definition execute_inner_result (auth : SessionAuthorization) (request : Frame) : Exec bytes := λ s,
  match execute_plain_or_authenticated s.1.1 request with
  | Some result => (result, s)
  | None =>
      (command ← lift (ok_or (CommandCode.from_byte (command request)) InvalidCommand);
       _ ← lift (reject_if (negb (CommandCode.supported_by_firmware command)) InvalidCommand);
       _ ← query (λ self, authorize_command_request self auth command (data request));
       run_command auth command (data request)) s
  end.

(** [CommandCode::from_byte(b).filter(supported_by_firmware)]. *)
Definition known_command (byte : Z) : option CommandCode.CommandCode :=
  command ← CommandCode.from_byte byte;
  if CommandCode.supported_by_firmware command then Some command else None.

(** A command other than the session commands and the two log commands. *)
Definition log_guarded (command : CommandCode.CommandCode) : bool :=
  negb (command_is_meta command)
  && negb (bool_decide (command = CommandCode.GetLogEntries
                        ∨ command = CommandCode.SetLogIndex)).

(** What follows an executed command: the audit entry, and the mark of a durable
    change. *)
Definition record_execution (auth : SessionAuthorization) (request : Frame) (audited : bool)
    (result : Result bytes) (self : Device) : Device :=
  match known_command (command request) with
  | Some command =>
      let self :=
        if audited then append_audit_entry self auth command request (result_code result)
        else self in
      if is_ok result && command_changes_persistent_state command
      then set_persistent_change true self else self
  | None => self
  end.

Definition execute_inner_with_session (auth : SessionAuthorization) (request : Frame) :
    Exec Frame := λ s,
  let self := s.1.1 in
  let command := known_command (command request) in
  let audited := is_some_and command (should_audit self) in
  if is_some_and command log_guarded && negb (force_audit (options self) =? OPTION_OFF)
     && log_full self
  then (Ok (error LogFull), s)
  else
    (result ← attempt
       (data ← execute_inner_result auth request;
        _ ← lift (reject_if (negb (secure_response_data_fits (len data))) WrongLength);
        mret data);
     _ ← on_device (modify (record_execution auth request audited result));
     mret (match result with
           | Ok data => response (Frame.command request) data
           | Err e => error e
           | _ => error StorageFailed
           end)) s.

(** A command from outside any session, under a given authorization. *)
Definition execute_inner (auth : SessionAuthorization) (request : Frame) : Dev Frame := λ s,
  let '(r, s) := execute_inner_with_session auth request (s, None) in (r, s.1).

Definition execute_plain (self : Device) (request : Frame) : Result Frame :=
  match execute_plain_or_authenticated self request with
  | Some (Ok data) => Ok (response (command request) data)
  | Some (Err e) => Ok (error e)
  | Some Panic => Panic
  | Some Diverge => Diverge
  | None => Ok (error InvalidCommand)
  end.
End dispatch.
