(* ===== verification/AccessControl.v ===== *)
(** * The access-control model of commands

    Which rights a session must have on the objects that a command names, as a
    table over the commands, on the bytes of the request and on the sets of domains
    and capabilities; and that the authorization of the dispatcher enforces it. *)

From S2P Require Import Prelude Error Frame Firmware Algorithm Capability Protocol KeyCore Toy.
From S2P Require Import Wire Objects Authorization SessionObjects Requests Layouts SecureChannel.
From S2P Require Import DeviceState ObjectStore ObjectCommands KeyUse Wrapping Attestation.
From S2P Require Import SessionObjectCommands Dispatch.

Section access.
Context `{Build} `{HX : X509} `{Der} `{Fuel}.

Section rights.
Context (d : Device) (auth : SessionAuthorization).

(** ** Rights on one object *)

(** The session and the object have a domain in common. *)
Definition in_reach (i : ObjectInfo) : Prop := Z.land (session_domains auth) (domains i) ≠ 0.

(** The session may know of the object. *)
Definition may_see (key : ObjectKey) : Prop :=
  ∃ r, objects d !! key = Some r ∧ in_reach (info r).

(** The session may use the object: both have the capability. *)
Definition may_use (key : ObjectKey) (cap : Capability) : Prop :=
  ∃ r, objects d !! key = Some r ∧ in_reach (info r) ∧
    to_bit cap ∈ bits (session_capabilities auth) ∧ to_bit cap ∈ bits (capabilities (info r)).

(** The session may delete the object: it has the capability for its type. *)
Definition may_delete (key : ObjectKey) : Prop :=
  ∃ r, objects d !! key = Some r ∧ in_reach (info r) ∧
    to_bit (ObjectTypes.deletion_capability (object_type (info r))) ∈ bits (session_capabilities auth).

(** The session may export an object under a wrap key: it may use the key and see
    the object, and the object may be exported, by a key that delegates all of its
    capabilities. *)
Definition may_export (wrap target : ObjectKey) : Prop :=
  may_use wrap Capability.ExportWrapped ∧ may_see target ∧
  ∃ w r, objects d !! wrap = Some w ∧ objects d !! target = Some r ∧
    to_bit Capability.ExportableUnderWrap ∈ bits (capabilities (info r)) ∧
    is_subset_of (capabilities (info r)) (delegated_capabilities (info w)) = true.

(** The session may have a certificate made: it may see the key of the certificate
    and use the key that signs it, each unless the device's own takes its place, and
    see the certificate that is the template, if there is one. *)
Definition may_attest (target_id attesting_id : Z) : Prop :=
  (target_id ≠ 0 → may_see (mkObjectKey AsymmetricKey target_id)) ∧
  (attesting_id ≠ 0 →
     may_use (mkObjectKey AsymmetricKey attesting_id) Capability.SignAttestationCertificate ∧
     (is_Some (objects d !! mkObjectKey Opaque attesting_id) →
        may_see (mkObjectKey Opaque attesting_id))).

(** ** Rights of a command *)

(** The commands that use one object, named by the first two bytes: its type, and
    the capability that both the session and the object need. *)
Definition object_right (c : CommandCode.CommandCode) : option (ObjectType * Capability) :=
  match c with
  | CommandCode.GetTemplate => Some (Template, Capability.GetTemplate)
  | CommandCode.SignPkcs1 => Some (AsymmetricKey, Capability.SignPkcs)
  | CommandCode.SignPss => Some (AsymmetricKey, Capability.SignPss)
  | CommandCode.SignEcdsa => Some (AsymmetricKey, Capability.SignEcdsa)
  | CommandCode.SignEddsa => Some (AsymmetricKey, Capability.SignEddsa)
  | CommandCode.SignMlDsa => Some (AsymmetricKey, Capability.SignMlDsa)
  | CommandCode.EncapsulateMlKem => Some (AsymmetricKey, Capability.EncapsulateMlKem)
  | CommandCode.DecapsulateMlKem => Some (AsymmetricKey, Capability.DecapsulateMlKem)
  | CommandCode.EncapsulateHybridKem => Some (AsymmetricKey, Capability.EncapsulateHybridKem)
  | CommandCode.DecapsulateHybridKem => Some (AsymmetricKey, Capability.DecapsulateHybridKem)
  | CommandCode.DeriveEcdh => Some (AsymmetricKey, Capability.DeriveEcdh)
  | CommandCode.DeriveEcdhKdf => Some (AsymmetricKey, Capability.DeriveEcdhKdf)
  | CommandCode.DecryptPkcs1 => Some (AsymmetricKey, Capability.DecryptPkcs)
  | CommandCode.DecryptOaep => Some (AsymmetricKey, Capability.DecryptOaep)
  | CommandCode.SignHmac => Some (HmacKey, Capability.SignHmac)
  | CommandCode.VerifyHmac => Some (HmacKey, Capability.VerifyHmac)
  | CommandCode.WrapData => Some (WrapKey, Capability.WrapData)
  | CommandCode.UnwrapData => Some (WrapKey, Capability.UnwrapData)
  | CommandCode.EncryptEcb => Some (SymmetricKey, Capability.EncryptEcb)
  | CommandCode.DecryptEcb => Some (SymmetricKey, Capability.DecryptEcb)
  | CommandCode.EncryptCbc => Some (SymmetricKey, Capability.EncryptCbc)
  | CommandCode.DecryptCbc => Some (SymmetricKey, Capability.DecryptCbc)
  | CommandCode.CreateOtpAead => Some (OtpAeadKey, Capability.CreateOtpAead)
  | CommandCode.RandomizeOtpAead => Some (OtpAeadKey, Capability.RandomizeOtpAead)
  | CommandCode.DecryptOtp => Some (OtpAeadKey, Capability.DecryptOtp)
  | CommandCode.ImportWrapped | CommandCode.ImportRsaWrapped | CommandCode.PutRsaWrappedKey =>
      Some (WrapKey, Capability.ImportWrapped)
  | _ => None
  end.

(** The rights that a command needs on the objects that its data name. The commands
    without a clause name no object; what they create or read of a session is
    bounded by their effect. *)
Definition permitted (c : CommandCode.CommandCode) (data : bytes) : Prop :=
  match c with
  | CommandCode.PutOpaque => ∀ id, word 0 data = Some id → id ≠ 0 →
      is_Some (objects d !! mkObjectKey Opaque id) →
      may_use (mkObjectKey Opaque id) Capability.PutOpaque
  | CommandCode.GetOpaque => ∃ id, word 0 data = Some id ∧ may_see (mkObjectKey Opaque id)
  | CommandCode.GetObjectInfo => ∃ key, key_named data key ∧ may_see key
  | CommandCode.GetPublicKey => ∃ id ty, word 0 data = Some id ∧
      (octet 2 data = None ∧ ty = AsymmetricKey ∨ (b ← octet 2 data; ObjectTypes.from_byte b) = Some ty) ∧
      may_see (mkObjectKey ty id)
  | CommandCode.DeleteObject => ∃ key, key_named data key ∧ may_delete key
  | CommandCode.ChangeAuthenticationKey =>
      word 0 data = Some (authentication_key_id auth) ∧
      may_use (mkObjectKey AuthenticationKey (authentication_key_id auth)) Capability.ChangeAuthenticationKey
  | CommandCode.RewrapOtpAead => ∃ from_id to_id, word 0 data = Some from_id ∧ word 2 data = Some to_id ∧
      may_use (mkObjectKey OtpAeadKey from_id) Capability.RewrapFromOtpAeadKey ∧
      may_use (mkObjectKey OtpAeadKey to_id) Capability.RewrapToOtpAeadKey
  | CommandCode.ExportWrapped => ∃ wrap_id target, word 0 data = Some wrap_id ∧ target_named data target ∧
      may_export (mkObjectKey WrapKey wrap_id) target
  | CommandCode.GetRsaWrappedKey | CommandCode.ExportRsaWrapped =>
      ∃ wrap_id target, word 0 data = Some wrap_id ∧ target_named data target ∧
        may_export (mkObjectKey PublicWrapKey wrap_id) target
  | CommandCode.SignAttestationCertificate => ∃ target_id attesting_id,
      word 0 data = Some target_id ∧ word 2 data = Some attesting_id ∧ may_attest target_id attesting_id
  | _ =>
      match object_right c with
      | Some (ty, cap) => ∃ id, word 0 data = Some id ∧ may_use (mkObjectKey ty id) cap
      | None => True
      end
  end.

(** ** The authorization enforces it *)

Lemma can_see_reach i : can_see auth i = true ↔ in_reach i.
Proof. unfold can_see, in_reach. by rewrite negb_true_iff, Z.eqb_neq. Qed.

Lemma require_object_visible_sees key : require_object_visible d auth key = Ok tt → may_see key.
Proof.
  unfold require_object_visible. intros Ha. inv_ok.
  match goal with Hv : require_visible _ _ = _ |- _ => apply require_visible_ok, can_see_reach in Hv end.
  by eexists.
Qed.

Lemma authorize_object_uses key cap : authorize_object d auth key cap = Ok tt → may_use key cap.
Proof.
  unfold authorize_object. intros Ha. inv_ok.
  match goal with Hu : authorize_use _ _ _ _ = _ |- _ =>
    rewrite authorize_use_ok, can_see_reach, !contains_bits in Hu end.
  by eexists.
Qed.

Lemma authorize_export_exports ty wrap_id target :
  authorize_wrapped_export_of d auth ty wrap_id target = Ok tt →
  may_export (mkObjectKey ty wrap_id) target.
Proof.
  unfold authorize_wrapped_export_of. intros Ha. inv_ok.
  match goal with Hu : authorize_wrapped_export _ _ _ = _ |- _ =>
    rewrite authorize_wrapped_export_ok, authorize_use_ok, !can_see_reach, !contains_bits in Hu;
    destruct Hu as ((? & ? & ?) & ? & ? & ?) end.
  split; [by eexists|]. split; [by eexists|]. by do 2 eexists.
Qed.

Lemma authorize_attestation_attests target_id attesting_id :
  authorize_attestation d auth target_id attesting_id = Ok tt → may_attest target_id attesting_id.
Proof.
  unfold authorize_attestation. intros (u & Ht & Ha)%outcome_bind_ok. destruct u. split.
  - intros Hne. rewrite (proj2 (Z.eqb_neq _ _) Hne) in Ht. by apply require_object_visible_sees.
  - intros Hne. rewrite (proj2 (Z.eqb_neq _ _) Hne) in Ha.
    apply outcome_bind_ok in Ha as ([] & Hu & Ha). split; [by apply authorize_object_uses|].
    intros Hs. rewrite bool_decide_true in Ha by done. by apply require_object_visible_sees.
Qed.

(** Read the request off its bytes. *)
#[local] Ltac layout Hd :=
  first [apply u16_layout in Hd|apply id_remainder_layout in Hd|apply sign_pss_layout in Hd
        |apply sign_ml_dsa_layout in Hd|apply derive_ecdh_kdf_layout in Hd|apply decrypt_oaep_layout in Hd
        |apply aes_cbc_layout in Hd|apply create_otp_aead_layout in Hd|apply decrypt_otp_layout in Hd
        |apply rewrap_layout in Hd as []|apply attestation_layout in Hd as []|apply change_key_layout in Hd
        |apply object_key_layout in Hd|apply import_wrapped_layout in Hd|apply import_rsa_wrapped_layout in Hd
        |apply export_wrapped_layout in Hd as []|apply export_rsa_wrapped_layout in Hd as []
        |apply get_public_key_layout in Hd as []].

Lemma authorized_permitted c data :
  authorize_command_objects d auth c data = Ok tt → permitted c data.
Proof.
  intros Ha. destruct c; cbn [permitted object_right]; try exact I.
  all: cbn [authorize_command_objects authorize_container_objects] in Ha.
  all: apply outcome_bind_ok in Ha as (req & Hd & Ha).
  all: destruct req; try (layout Hd).
  all: try solve [eauto 6 using require_object_visible_sees, authorize_object_uses,
    authorize_export_exports, authorize_attestation_attests].
  - (* PutOpaque *)
    destruct header as [id label domains capabilities algorithm].
    apply object_layout in Hd as [Hid _ _ _ _].
    intros id' Hid' Hne Hs. assert (id' = id) as -> by congruence.
    rewrite (proj2 (Z.eqb_neq _ _) Hne), bool_decide_true in Ha by done.
    by apply authorize_object_uses.
  - (* DeleteObject *)
    exists key. split; [done|]. inv_ok.
    match goal with Hx : authorize_delete _ _ = _ |- _ =>
      rewrite authorize_delete_ok, can_see_reach, contains_bits in Hx end. by eexists.
  - (* RewrapOtpAead *)
    apply outcome_bind_ok in Ha as ([] & Hf & Ht). exists from_id, to_id.
    do 2 (split; [done|]). split; by apply authorize_object_uses.
  - (* ChangeAuthenticationKey *)
    apply outcome_bind_ok in Ha as ([] & Hi%reject_if_ok & Ha). bool_prop. subst id.
    split; [done|]. by apply authorize_object_uses.
  - (* PutRsaWrappedKey *)
    apply put_rsa_wrapped_layout in Hd as (Hw & _ & _).
    eexists. split; [done|]. by apply authorize_object_uses.
Qed.
End rights.
End access.
