(* ===== verification/CommandEffects.v ===== *)
(** * What commands may do to the device

    An abstract specification of the object store: a command that fails changes
    nothing, and a command that succeeds makes one of a few changes, each with
    the right it needs. The handlers of the previous files implement it. *)

From S2P Require Import Prelude Error Frame Firmware Algorithm Capability Protocol KeyCore Toy.
From S2P Require Import Wire Objects Authorization SessionObjects Requests SecureChannel.
From S2P Require Import DeviceState ObjectStore ObjectCommands KeyUse Wrapping Attestation.
From S2P Require Import SessionObjectCommands Layouts Dispatch.

(** The effects of the handlers, found by the name of the handler. *)
Create HintDb yhsm_effects discriminated.
#[export] Hint Constants Opaque : yhsm_effects.

(** ** Identifiers *)

Section identifiers.
Context `{Build} `{SoftwareKeyCore} `{Fuel}.

Lemma id_taken_lookup (self : Device) (id : Z) (ty : ObjectType) :
  id_taken self id = false → objects self !! mkObjectKey ty id = None.
Proof.
  intros Ht. destruct (objects self !! mkObjectKey ty id) as [r|] eqn:Hl; [|done].
  apply not_true_iff_false in Ht. destruct Ht. apply existsb_exists.
  exists (mkObjectKey ty id). split; [|by apply Z.eqb_eq].
  apply list_elem_of_In, list_elem_of_fmap. exists (mkObjectKey ty id, r).
  by rewrite elem_of_map_to_list.
Qed.

Lemma random_available_id_fresh n self next w id w' :
  random_available_id_with n self next w = (Ok id, w') →
  id ≠ 0 ∧ id ≠ u16_max ∧ id_taken self id = false.
Proof.
  revert w. induction n as [|n IH]; intros w; cbn; [done|].
  intros Hr. apply eff_bind_ok in Hr as (i & w1 & _ & Hr).
  destruct (_ && _) eqn:Hb; [|by apply IH in Hr].
  cbv in Hr. injection Hr as <- <-. bool_prop. done.
Qed.

(** An allocated identifier is usable and names no object of the type. *)
Lemma resolve_id_fresh self ty requested w id w' :
  resolve_id self ty requested w = (Ok id, w') →
  id ≠ 0 ∧ id ≠ u16_max ∧ objects self !! mkObjectKey ty id = None ∧
  (requested ≠ 0 → id = requested).
Proof.
  unfold resolve_id. intros Hr. apply eff_bind_ok in Hr as ([] & w1 & Hg & Hr).
  unfold lift in Hg. injection Hg as Hg <-. apply reject_if_ok in Hg. bool_prop.
  destruct (negb (requested =? 0)) eqn:Hz; bool_prop.
  - apply eff_bind_ok in Hr as ([] & w2 & Hg' & Hr). injection Hg' as Hg' <-.
    apply reject_if_ok in Hg'. cbv in Hr. injection Hr as <- <-. bool_prop.
    split; [done|]. split; [done|]. split; [by apply eq_None_not_Some|done].
  - apply random_available_id_fresh in Hr as (? & ? & ?).
    split; [done|]. split; [done|]. split; [by apply id_taken_lookup|]. lia.
Qed.
End identifiers.

(** ** Writing *)

Section writing.
Context `{Build} `{SoftwareKeyCore} `{Fuel}.

Lemma promote_info r r' : promote_private_material r = Ok r' → info r' = info r.
Proof.
  unfold promote_private_material. destruct (material r); try by intros [= <-].
  case_match; [|by intros [= <-]]. intros Hp. by inv_ok.
Qed.

(** A write validates what it stores, or leaves the device alone. *)
Lemma wp_write_object record Q s :
  (∀ record' w', info record' = info record → validate record' = Ok tt →
     Q (Ok tt) (install_record record' s.1, w')) →
  (∀ (o : Result unit) w', is_ok o = false → Q o (s.1, w')) →
  wp (write_object record) Q s.
Proof.
  intros Hok Hbad. destruct s as [d w]. unfold write_object.
  apply wp_lift_bind; [intros r Hr%promote_info|intros; by apply Hbad].
  apply wp_lift_bind; [intros [] Hv|intros; by apply Hbad].
  apply wp_world_bind; [intros [] ? ? ?|intros; by apply Hbad].
  apply wp_modify. by apply Hok.
Qed.

Lemma validate_imported_info r w r' w' :
  validate_imported_rsa r w = (Ok r', w') → info r' = info r.
Proof.
  unfold validate_imported_rsa. destruct (material r) as [| key | | | | | | |]; try by intros [= <- _].
  destruct (signing_as_rsa key); [|by intros [= <- _]].
  intros Hv. apply eff_bind_ok in Hv as (? & ? & _ & Hv).
  apply eff_bind_ok in Hv as (? & ? & _ & Hv). unfold effect in Hv.
  destruct (validate_for_import _ _) as [[|[]] ?]; by simplify_eq/=.
Qed.

Lemma wp_write_imported_object record Q s :
  (∀ record' w', info record' = info record → validate record' = Ok tt →
     Q (Ok tt) (install_record record' s.1, w')) →
  (∀ (o : Result unit) w', is_ok o = false → Q o (s.1, w')) →
  wp (write_imported_object record) Q s.
Proof.
  intros Hok Hbad. destruct s as [d w]. unfold write_imported_object.
  apply wp_lift_bind; [intros r Hr%promote_info|intros; by apply Hbad].
  apply wp_lift_bind; [intros [] Hv|intros; by apply Hbad].
  apply wp_world_bind; [intros r' ? ? Hi%validate_imported_info|intros; by apply Hbad].
  apply wp_write_object; [|by auto].
  intros r'' w'' Hi'' Hv''. apply Hok; [congruence|done].
Qed.
End writing.

(** ** The abstract store *)

Section effects.
Context `{Build} `{HX : X509} `{Der} `{Fuel}.

(** The type of what a command creates from a description in its request. *)
Definition created_type (c : CommandCode.CommandCode) : option ObjectType :=
  match c with
  | CommandCode.PutOpaque => Some Opaque
  | CommandCode.PutAuthenticationKey => Some AuthenticationKey
  | CommandCode.PutAsymmetricKey | CommandCode.GenerateAsymmetricKey => Some AsymmetricKey
  | CommandCode.PutHmacKey | CommandCode.GenerateHmacKey => Some HmacKey
  | CommandCode.PutSymmetricKey | CommandCode.GenerateSymmetricKey => Some SymmetricKey
  | CommandCode.PutWrapKey | CommandCode.GenerateWrapKey => Some WrapKey
  | CommandCode.PutPublicWrapKey => Some PublicWrapKey
  | CommandCode.PutOtpAeadKey | CommandCode.GenerateOtpAeadKey => Some OtpAeadKey
  | CommandCode.PutTemplate => Some Template
  | _ => None
  end.

(** The new object is the one that the request describes: its identifier, label,
    domains, capabilities and algorithm. The description of an imported object is
    inside the wrapped form, but for the type and the description of a raw key
    under an RSA wrap key. *)
Definition describes_new (c : CommandCode.CommandCode) (data : bytes) (i : ObjectInfo) : Prop :=
  match c with
  | CommandCode.ImportWrapped | CommandCode.ImportRsaWrapped => True
  | CommandCode.PutRsaWrappedKey =>
      (ty ← octet 2 data; ObjectTypes.from_byte ty) = Some (object_type i) ∧
      header_describes (drop 3 data) i
  | _ => created_type c = Some (object_type i) ∧ header_describes data i
  end.

Lemma fields_describe header requested padded dm cs a i :
  header_fields header requested padded dm cs a → (requested ≠ 0 → id i = requested) →
  label i = trim_label padded → domains i = dm → capabilities i = cs → (0 ≤ a → algorithm i = a) →
  header_describes header i.
Proof.
  intros [? ? ? ? ?] ? ? ? ? ?. split; [by exists requested|congruence..|by exists a].
Qed.

(** A new record: valid, under an unused key, within what the session may
    delegate, and described by the request. *)
Record created (auth : SessionAuthorization) (c : CommandCode.CommandCode) (data : bytes)
    (d : Device) (record : ObjectRecord) : Prop := {
  created_valid : validate record = Ok tt;
  created_fresh : objects d !! Info.key (info record) = None;
  created_granted : granted auth (info record);
  created_described : describes_new c data (info record);
}.

(** A replaced record keeps its identity, domains and capabilities. *)
Record replaces (old record : ObjectRecord) : Prop := {
  replaces_valid : validate record = Ok tt;
  replaces_key : Info.key (info record) = Info.key (info old);
  replaces_domains : domains (info record) = domains (info old);
  replaces_capabilities : capabilities (info record) = capabilities (info old);
  replaces_delegated :
    delegated_capabilities (info record) = delegated_capabilities (info old);
}.

(** The change that a handler makes: none when it fails. A handler that changes
    the device answers with an identifier, at most after a type byte. *)
Definition outcome_effect (P : Device → Device → Prop) (d : Device) (r : Result bytes)
    (d' : Device) : Prop :=
  match r with
  | Ok answer => P d d' ∧ len answer ≤ 3
  | _ => d' = d
  end.

Definition creates (auth : SessionAuthorization) (c : CommandCode.CommandCode) (data : bytes)
    (d d' : Device) : Prop :=
  ∃ record, created auth c data d record ∧ d' = install_record record d.

Lemma outcome_effect_bad P d (o : Result bytes) : is_ok o = false → outcome_effect P d o d.
Proof. by destruct o. Qed.

Lemma outcome_effect_mono (P P' : Device → Device → Prop) d r d' :
  (∀ d', P d d' → P' d d') → outcome_effect P d r d' → outcome_effect P' d r d'.
Proof. intros HP. destruct r; cbn; [|done..]. intros []. auto. Qed.

Definition creating (auth : SessionAuthorization) (m : Dev bytes) (c : CommandCode.CommandCode)
    (data : bytes) : Prop :=
  ∀ d w, wp m (λ r s', outcome_effect (creates auth c data) d r s'.1) (d, w).

(** The end of every creating handler. *)
Lemma wp_create auth c data (b : bool) record (response : bytes) d w :
  validate record = Ok tt → objects d !! Info.key (info record) = None →
  granted auth (info record) → describes_new c data (info record) → len response ≤ 3 →
  wp ((if b then write_object record else write_imported_object record) ≫= λ _, mret response)
    (λ r s', outcome_effect (creates auth c data) d r s'.1) (d, w).
Proof.
  intros Hv Hf Hg Hn Hlen. apply wp_bind. destruct b;
    [apply wp_write_object|apply wp_write_imported_object];
    [intros r' w' Hi Hv'|intros [] w' ?; try done; by apply outcome_effect_bad
    |intros r' w' Hi Hv'|intros [] w' ?; try done; by apply outcome_effect_bad];
    apply wp_ret; (split; [|done]); exists r'; (split; [|done]); by split; rewrite ?Hi.
Qed.

(** The answers of the handlers that write: an identifier, or nothing. *)
#[local] Ltac small_answer := autorewrite with yhsm_len; lia.

(** Walk through a creating handler to its write. *)
#[local] Ltac walk := wp_walk_with ltac:(by apply outcome_effect_bad).
(** The description of the new object, read off the request. *)
#[local] Ltac describe :=
  repeat match goal with
  | g : bool |- _ => destruct g
  | Hd : decode _ _ = Ok (ObjectRequest_ _ _) |- _ => apply object_layout in Hd
  | Hd : decode _ _ = Ok (DelegatedObjectRequest_ _ _ _) |- _ => apply delegated_layout in Hd
  | Hd : decode _ _ = Ok (OtpAeadKeyRequest_ _ _ _) |- _ => apply otp_key_layout in Hd
  | Hd : decode _ _ = Ok (PutRsaWrappedKeyRequest_ _ _ _ _ _ _ _ _ _ _) |- _ =>
      apply put_rsa_wrapped_layout in Hd as (_ & ? & ?)
  | Ha : ok_or (Algorithm.from_byte _) _ = Ok _ |- _ => apply ok_or_ok in Ha
  end;
  first [exact I
        |split; [done|]; eapply fields_describe; [eassumption|done|done|done|done|];
           intros ?; cbn; first [done|symmetry; by apply algorithm_from_byte_ok]].
#[local] Ltac finish_create :=
  repeat match goal with
  | u : unit |- _ => destruct u
  | Hr : resolve_id _ _ _ _ = (Ok _, _) |- _ => apply resolve_id_fresh in Hr as (? & ? & ? & ?)
  | Ha : authorize_create _ _ _ = Ok tt |- _ => apply authorize_create_granted in Ha as [? ?]
  end;
  first [apply (wp_create _ _ _ true)|apply (wp_create _ _ _ false)]; [done..|describe|small_answer].

Lemma put_authentication_key_creates auth data :
  creating auth (put_authentication_key auth data) CommandCode.PutAuthenticationKey data.
Proof. intros d w. unfold put_authentication_key. walk. all: finish_create. Qed.

Lemma put_asymmetric_key_creates auth data g :
  creating auth (put_asymmetric_key auth data g) (if g then CommandCode.GenerateAsymmetricKey else CommandCode.PutAsymmetricKey) data.
Proof. intros d w. unfold put_asymmetric_key. walk. all: finish_create. Qed.

Lemma put_hmac_key_creates auth data g :
  creating auth (put_hmac_key auth data g) (if g then CommandCode.GenerateHmacKey else CommandCode.PutHmacKey) data.
Proof. intros d w. unfold put_hmac_key. walk. all: finish_create. Qed.

Lemma put_symmetric_key_creates auth data g :
  creating auth (put_symmetric_key auth data g) (if g then CommandCode.GenerateSymmetricKey else CommandCode.PutSymmetricKey) data.
Proof. intros d w. unfold put_symmetric_key. walk. all: finish_create. Qed.

Lemma put_wrap_key_creates auth data g :
  creating auth (put_wrap_key auth data g) (if g then CommandCode.GenerateWrapKey else CommandCode.PutWrapKey) data.
Proof. intros d w. unfold put_wrap_key. walk. all: finish_create. Qed.

Lemma put_public_wrap_key_creates auth data :
  creating auth (put_public_wrap_key auth data) CommandCode.PutPublicWrapKey data.
Proof. intros d w. unfold put_public_wrap_key. walk. all: finish_create. Qed.

Lemma put_otp_aead_key_creates auth data g :
  creating auth (put_otp_aead_key auth data g) (if g then CommandCode.GenerateOtpAeadKey else CommandCode.PutOtpAeadKey) data.
Proof. intros d w. unfold put_otp_aead_key. walk. all: finish_create. Qed.

Lemma put_template_creates auth data :
  creating auth (put_template auth data) CommandCode.PutTemplate data.
Proof. intros d w. unfold put_template. walk. all: finish_create. Qed.
Lemma install_wrapped_creates auth record c data :
  c = CommandCode.ImportWrapped ∨ c = CommandCode.ImportRsaWrapped →
  granted auth (info record) → creating auth (install_wrapped_object record) c data.
Proof. intros Hc Hg d w. unfold install_wrapped_object. destruct Hc as [-> | ->]; walk. all: finish_create. Qed.

Lemma put_rsa_wrapped_key_creates auth data :
  creating auth (put_rsa_wrapped_key auth data) CommandCode.PutRsaWrappedKey data.
Proof.
  intros d w. unfold put_rsa_wrapped_key. walk.
  all: match goal with
       | Ha : authorize_wrapped_creation _ _ _ = Ok _ |- _ =>
           apply outcome_bind_ok in Ha as ([] & Ha & _)
       end; finish_create.
Qed.

Lemma import_wrapped_creates auth data :
  creating auth (import_wrapped auth data) CommandCode.ImportWrapped data.
Proof.
  intros d w. unfold import_wrapped. walk.
  match goal with
  | Ha : authorize_wrapped_creation _ _ _ = Ok _ |- _ =>
      apply outcome_bind_ok in Ha as ([] & [Hg _]%authorize_create_granted & _)
  end. apply install_wrapped_creates; auto.
Qed.

Lemma import_rsa_wrapped_creates auth data :
  creating auth (import_rsa_wrapped auth data) CommandCode.ImportRsaWrapped data.
Proof.
  intros d w. unfold import_rsa_wrapped. walk.
  match goal with
  | Ha : authorize_wrapped_creation _ _ _ = Ok _ |- _ =>
      apply outcome_bind_ok in Ha as ([] & [Hg _]%authorize_create_granted & _)
  end. apply install_wrapped_creates; auto.
Qed.

(** Replacing the material of an existing object. *)
Definition replaces_at (key : ObjectKey) (d d' : Device) : Prop :=
  ∃ old record, objects d !! key = Some old ∧ replaces old record ∧ d' = install_record record d.

Lemma wp_replace key old record (P : Device → Device → Prop) (response : bytes) d w :
  objects d !! key = Some old →
  Info.key (info record) = Info.key (info old) → domains (info record) = domains (info old) →
  capabilities (info record) = capabilities (info old) →
  delegated_capabilities (info record) = delegated_capabilities (info old) →
  len response ≤ 3 → (∀ d', replaces_at key d d' → P d d') →
  wp (write_object record ≫= λ _, mret response) (λ r s', outcome_effect P d r s'.1) (d, w).
Proof.
  intros Hl Hk Hd Hc Hdc Hlen HP. apply wp_bind, wp_write_object;
    [intros r' w' Hi Hv'|intros [] w' ?; try done; by apply outcome_effect_bad].
  apply wp_ret. split; [|done]. apply HP. exists old, r'. split; [done|]. split; [|done]. by split; rewrite ?Hi.
Qed.

Lemma put_opaque_effect auth data d w :
  wp (put_opaque auth data) (λ r s', outcome_effect
    (λ d d', creates auth CommandCode.PutOpaque data d d' ∨
       ∃ id label domains capabilities algorithm material,
         decode PutOpaqueRequest data =
           Ok (ObjectRequest_ (ObjectHeader_ id label domains capabilities algorithm) material) ∧
         id ≠ 0 ∧ replaces_at (mkObjectKey Opaque id) d d') d r s'.1) (d, w).
Proof.
  unfold put_opaque. walk.
  - destruct (Z.eqb_spec requested_id 0); [done|]. eapply wp_replace; [done..|small_answer|].
    intros d' ?. right. do 6 eexists. eauto.
  - apply (wp_mono _ (λ r s', outcome_effect (creates auth CommandCode.PutOpaque data) d r s'.1)).
    + finish_create.
    + intros r s'. apply outcome_effect_mono. auto.
Qed.

Lemma change_authentication_key_effect data d w :
  wp (change_authentication_key data) (λ r s', outcome_effect
    (λ d d', ∃ id algorithm material,
       decode ChangeAuthenticationKeyRequest data =
         Ok (ChangeAuthenticationKeyRequest_ id algorithm material) ∧
       replaces_at (mkObjectKey AuthenticationKey id) d d') d r s'.1) (d, w).
Proof.
  unfold change_authentication_key. walk.
  match goal with He : ok_or (objects _ !! _) _ = Ok _ |- _ => apply ok_or_ok in He end.
  eapply wp_replace; [done..|small_answer|]. intros d' ?. eauto 6.
Qed.

(** ** Options

    A value may change to any valid value, except that [OPTION_FIX] stays. *)

Definition option_step (v v' : Z) : Prop :=
  v' = v ∨ (valid_option_value v' = true ∧ (v = OPTION_FIX → v' = OPTION_FIX)).

Definition option_map_step (m m' : gmap Z Z) : Prop :=
  ∀ k, m' !! k = m !! k ∨
       ∃ v', m' !! k = Some v' ∧ valid_option_value v' = true ∧
             (m !! k = Some OPTION_FIX → v' = OPTION_FIX).

Record options_step (o o' : DeviceOptions) : Prop := {
  step_force_audit : option_step (force_audit o) (force_audit o');
  step_command_audit : option_map_step (command_audit o) (command_audit o');
  step_algorithm_toggle : option_map_step (algorithm_toggle o) (algorithm_toggle o');
  step_fips_mode : option_step (fips_mode o) (fips_mode o');
}.

#[export] Instance option_map_step_preorder : PreOrder option_map_step.
Proof.
  split; [intros m k; by left|]. intros m1 m2 m3 H12 H23 k.
  destruct (H23 k) as [->|(v & Hv & Hval & Hfix)]; [apply H12|].
  right. exists v. split; [done|]. split; [done|]. intros Hm. apply Hfix.
  destruct (H12 k) as [->|(v' & -> & _ & Hf)]; [done|]. f_equal. by apply Hf.
Qed.

Lemma option_map_step_insert (m : gmap Z Z) k v :
  valid_option_value v = true → (m !! k = Some OPTION_FIX → v = OPTION_FIX) →
  option_map_step m (<[k := v]> m).
Proof.
  intros Hv Hf j. destruct (decide (j = k)) as [->|Hne]; [|left; by apply lookup_insert_ne].
  right. exists v. by rewrite lookup_insert_eq.
Qed.

Lemma update_all_step update m pairs m' :
  (∀ m p m', update m p = Ok m' → option_map_step m m') →
  update_all update m pairs = Ok m' → option_map_step m m'.
Proof.
  intros Hu. revert m. induction pairs as [|p pairs IH]; cbn; intros m Hm; [by inv_ok|].
  apply outcome_bind_ok in Hm as (m1 & Hm1 & Hm2). etransitivity; [by eapply Hu|by apply IH].
Qed.

Lemma fix_guard (m : gmap Z Z) k v :
  bool_decide (m !! k = Some OPTION_FIX) && negb (v =? OPTION_FIX) = false →
  m !! k = Some OPTION_FIX → v = OPTION_FIX.
Proof.
  intros Hg Hm. rewrite bool_decide_true in Hg by done. cbn in Hg. by bool_prop.
Qed.

Lemma update_command_audit_step m p m' :
  update_command_audit m p = Ok m' → option_map_step m m'.
Proof.
  unfold update_command_audit. destruct (CommandCode.from_byte _); [|done]. intros Hu. inv_ok.
  bool_prop. apply option_map_step_insert; [done|]. by apply fix_guard.
Qed.

Lemma update_algorithm_toggle_step d m p m' :
  update_algorithm_toggle d m p = Ok m' → option_map_step m m'.
Proof.
  unfold update_algorithm_toggle. intros Hu. inv_ok. bool_prop.
  apply option_map_step_insert; [done|]. by apply fix_guard.
Qed.

Lemma set_option_value_step v requested v' :
  set_option_value v requested = Ok v' → option_step v v'.
Proof.
  unfold set_option_value. intros Hs. inv_ok. bool_prop. right. split; [done|].
  intros ->. match goal with H : (_ =? _) && _ = false |- _ => cbn in H; by bool_prop end.
Qed.

(** The first byte of the request names the option; the others stay. *)
Record option_set (data : bytes) (o o' : DeviceOptions) : Prop := {
  set_step : options_step o o';
  set_force_audit : octet 0 data ≠ Some 1 → force_audit o' = force_audit o;
  set_command_audit : octet 0 data ≠ Some 3 → command_audit o' = command_audit o;
  set_algorithm_toggle : octet 0 data ≠ Some 4 → algorithm_toggle o' = algorithm_toggle o;
  set_fips_mode : octet 0 data ≠ Some 5 → fips_mode o' = fips_mode o;
}.

Lemma set_option_effect data d w :
  wp (set_option data) (λ r s', outcome_effect
    (λ d d', ∃ o, option_set data (options d) o ∧ d' = set_options o d) d r s'.1) (d, w).
Proof.
  assert (∀ v, option_step v v) as Hr by (by left).
  unfold set_option. walk.
  all: apply wp_bind, wp_modify, wp_ret; cbn [fst]; (split; [|done]); eexists; (split; [|reflexivity]).
  all: match goal with Hd : decode _ _ = Ok (SetOptionRequest_ _ _) |- _ => apply set_option_layout in Hd end;
    bool_prop; subst.
  all: split; cbn; try done; try congruence.
  all: split; cbn; try done; eauto using set_option_value_step, update_all_step,
    update_command_audit_step, update_algorithm_toggle_step.
Qed.

(** ** The specification of a command *)

(** The commands that add an object. *)
Definition creating_command (c : CommandCode.CommandCode) : bool :=
  match c with
  | CommandCode.PutOpaque | CommandCode.PutAuthenticationKey | CommandCode.PutAsymmetricKey
  | CommandCode.GenerateAsymmetricKey | CommandCode.ImportWrapped | CommandCode.PutWrapKey
  | CommandCode.PutHmacKey | CommandCode.GenerateHmacKey | CommandCode.GenerateWrapKey
  | CommandCode.PutTemplate | CommandCode.PutOtpAeadKey | CommandCode.GenerateOtpAeadKey
  | CommandCode.PutSymmetricKey | CommandCode.GenerateSymmetricKey
  | CommandCode.PutPublicWrapKey | CommandCode.PutRsaWrappedKey
  | CommandCode.ImportRsaWrapped => true
  | _ => false
  end.

(** The factory state under a new identity. *)
Definition reset_state (key : SoftwareSigningKey) (d : Device) : Device :=
  install_factory_authentication_key
    (mkDevice (config d) ∅ ∅ key (state_epoch d) ∅ default_options initial_audit
       (persistent_change d)).

(** What a successful command with the given data does to the device. *)
Inductive command_effect (auth : SessionAuthorization) (data : bytes) (d d' : Device) :
    CommandCode.CommandCode → Prop :=
| effect_none c :
    command_changes_persistent_state c = false → d' = d → command_effect auth data d d' c
| effect_created c :
    creating_command c = true → creates auth c data d d' → command_effect auth data d d' c
| effect_replaced_opaque id old :
    word 0 data = Some id → id ≠ 0 → objects d !! mkObjectKey Opaque id = Some old →
    authorize_use auth (info old) Capability.PutOpaque Capability.PutOpaque = Ok tt →
    replaces_at (mkObjectKey Opaque id) d d' →
    command_effect auth data d d' CommandCode.PutOpaque
| effect_rekeyed old :
    word 0 data = Some (authentication_key_id auth) →
    objects d !! mkObjectKey AuthenticationKey (authentication_key_id auth) = Some old →
    authorize_use auth (info old) Capability.ChangeAuthenticationKey
      Capability.ChangeAuthenticationKey = Ok tt →
    replaces_at (mkObjectKey AuthenticationKey (authentication_key_id auth)) d d' →
    command_effect auth data d d' CommandCode.ChangeAuthenticationKey
| effect_deleted key old :
    key_named data key → objects d !! key = Some old → authorize_delete auth (info old) = Ok tt →
    d' = set_objects (delete key (objects d)) d →
    command_effect auth data d d' CommandCode.DeleteObject
| effect_options o :
    option_set data (options d) o → d' = set_options o d →
    command_effect auth data d d' CommandCode.SetOption
| effect_log_trimmed index :
    word 0 data = Some index →
    d' = set_audit (set_entries (List.filter (λ e, index <? number e) (entries (audit d)))
                      (audit d)) d →
    command_effect auth data d d' CommandCode.SetLogIndex
| effect_reset key :
    d' = reset_state key d → command_effect auth data d d' CommandCode.ResetDevice.

(** A finished command: a failure changes nothing, and a success with a change
    has a short answer. *)
Definition executed (auth : SessionAuthorization) (c : CommandCode.CommandCode) (data : bytes) (d : Device)
    (r : Result bytes) (d' : Device) : Prop :=
  match r with
  | Ok answer => command_effect auth data d d' c ∧ (d' = d ∨ len answer ≤ 3)
  | _ => d' = d
  end.

(** The claim about a handler, run in the dispatcher. *)
Definition implements (auth : SessionAuthorization) (c : CommandCode.CommandCode) (data : bytes)
    (m : Eff ((Device * World) * option SessionObjects) DeviceError bytes) (d : Device) : Prop :=
  ∀ w t, wp m (λ r s', executed auth c data d r s'.1.1) ((d, w), t).

Lemma implements_on_device auth c data m (P : Device → Device → Prop) d :
  (∀ w, wp m (λ r s', outcome_effect P d r s'.1) (d, w)) →
  (∀ d', P d d' → command_effect auth data d d' c) →
  implements auth c data (on_device m) d.
Proof.
  intros Hm HP w t. specialize (Hm w). unfold wp, on_device in *. cbn [fst snd].
  destruct (m (d, w)) as [r dw]. cbn [fst snd] in *.
  destruct r; cbn in *; naive_solver.
Qed.

Lemma implements_creating auth c data m d :
  creating_command c = true → creating auth m c data → implements auth c data (on_device m) d.
Proof.
  intros Hc Hm. eapply implements_on_device; [apply Hm|]. intros. by apply effect_created.
Qed.

Lemma implements_reading auth c data (m : Device → Eff World DeviceError bytes) d :
  command_changes_persistent_state c = false → implements auth c data (read_device m) d.
Proof.
  intros Hc w t. unfold wp, read_device, on_device, reading. cbn [fst snd].
  destruct (m d w) as [[] w']; cbn; [|done..]. split; [by apply effect_none|by left].
Qed.

Lemma implements_query auth c data (m : Device → Result bytes) d :
  command_changes_persistent_state c = false → implements auth c data (query m) d.
Proof. apply (implements_reading auth c data (λ self, lift (m self))). Qed.

Lemma implements_table auth c data m d :
  command_changes_persistent_state c = false → implements auth c data (on_table m) d.
Proof.
  intros Hc w [t|]; unfold wp, on_table; cbn [fst snd]; [|done].
  destruct (m d (t, w)) as [[] [t' w']]; cbn; [|done..]. split; [by apply effect_none|by left].
Qed.

Lemma put_opaque_implements auth data d :
  authorize_command_objects d auth CommandCode.PutOpaque data = Ok tt →
  implements auth CommandCode.PutOpaque data (on_device (put_opaque auth data)) d.
Proof.
  intros Ha. eapply implements_on_device; [apply put_opaque_effect|]. cbv beta.
  intros d' [?|(id & l & dm & cs & a & m & Hd & Hid & Hr)]; [by apply effect_created|].
  pose proof (field_id _ _ _ _ _ _ (object_layout _ _ _ _ _ _ _ Hd)) as Hw.
  pose proof Hr as (old & record & Hl & _). cbn in Ha. rewrite Hd in Ha. cbn in Ha.
  rewrite (proj2 (Z.eqb_neq _ _)), bool_decide_true in Ha by eauto. cbn in Ha.
  unfold authorize_id, authorize_object in Ha. rewrite Hl in Ha.
  by eapply effect_replaced_opaque.
Qed.

Lemma change_authentication_key_implements auth data d :
  authorize_command_objects d auth CommandCode.ChangeAuthenticationKey data = Ok tt →
  implements auth CommandCode.ChangeAuthenticationKey data
    (on_device (change_authentication_key data)) d.
Proof.
  intros Ha. eapply implements_on_device; [apply change_authentication_key_effect|]. cbv beta.
  intros d' (id & a & m & Hd & Hr). pose proof Hr as (old & record & Hl & _).
  cbn in Ha. rewrite Hd in Ha. cbn [mbind outcome_bind] in Ha. apply outcome_bind_ok in Ha as ([] & Hi%reject_if_ok & Ha). bool_prop.
  subst id. unfold authorize_id, authorize_object in Ha. rewrite Hl in Ha.
  apply change_key_layout in Hd. by eapply effect_rekeyed.
Qed.

Lemma delete_object_implements auth data d :
  authorize_command_objects d auth CommandCode.DeleteObject data = Ok tt →
  implements auth CommandCode.DeleteObject data (on_device (delete_object data)) d.
Proof.
  intros Ha.
  apply (implements_on_device _ _ _ _ (λ d d', ∃ key, decode DeleteObjectRequest data =
    Ok (ObjectKeyRequest_ key) ∧ d' = set_objects (delete key (objects d)) d)).
  - intros w. unfold delete_object. walk. apply wp_bind, wp_modify, wp_ret. cbn. split; [eauto|done].
  - intros d' (key & Hd & ->). cbn in Ha. rewrite Hd in Ha.
    cbn [mbind outcome_bind] in Ha. apply outcome_bind_ok in Ha as (old & Hl%ok_or_ok & Ha).
    apply object_key_layout in Hd. by eapply effect_deleted.
Qed.

Lemma set_option_implements auth data d :
  implements auth CommandCode.SetOption data (on_device (set_option data)) d.
Proof.
  eapply implements_on_device; [apply set_option_effect|]. intros d' (o & ? & ->).
  by eapply effect_options.
Qed.

Lemma set_log_index_implements auth data d :
  implements auth CommandCode.SetLogIndex data (on_device (set_log_index data)) d.
Proof.
  apply (implements_on_device _ _ _ _ (λ d d', ∃ index, word 0 data = Some index ∧ d' = set_audit
    (set_entries (List.filter (λ e, index <? number e) (entries (audit d))) (audit d)) d)).
  - intros w. unfold set_log_index. walk. apply wp_bind, wp_modify, wp_ret. cbn. split; [|done].
    eexists. split; [by eapply u16_layout|done].
  - intros d' (index & ? & ->). by eapply effect_log_trimmed.
Qed.

Lemma reset_device_implements auth data d :
  implements auth CommandCode.ResetDevice data (on_device (reset_device data)) d.
Proof.
  apply (implements_on_device _ _ _ _ (λ d d', ∃ key, d' = reset_state key d)).
  - intros w. unfold reset_device. walk. apply wp_bind, wp_modify, wp_ret. cbn.
    split; [by eexists|done].
  - intros d' (key & ->). by eapply effect_reset.
Qed.

#[local] Hint Resolve put_opaque_implements change_authentication_key_implements
  delete_object_implements set_option_implements set_log_index_implements
  reset_device_implements : yhsm_effects.
#[local] Hint Resolve put_authentication_key_creates put_public_wrap_key_creates put_template_creates
  put_rsa_wrapped_key_creates import_wrapped_creates import_rsa_wrapped_creates : yhsm_effects.
#[local] Hint Extern 1 (creating _ (put_asymmetric_key _ _ ?g) _ _) =>
  exact (put_asymmetric_key_creates _ _ g) : yhsm_effects.
#[local] Hint Extern 1 (creating _ (put_hmac_key _ _ ?g) _ _) =>
  exact (put_hmac_key_creates _ _ g) : yhsm_effects.
#[local] Hint Extern 1 (creating _ (put_symmetric_key _ _ ?g) _ _) =>
  exact (put_symmetric_key_creates _ _ g) : yhsm_effects.
#[local] Hint Extern 1 (creating _ (put_wrap_key _ _ ?g) _ _) =>
  exact (put_wrap_key_creates _ _ g) : yhsm_effects.
#[local] Hint Extern 1 (creating _ (put_otp_aead_key _ _ ?g) _ _) =>
  exact (put_otp_aead_key_creates _ _ g) : yhsm_effects.

Lemma run_command_implements auth c data d :
  authorize_command_objects d auth c data = Ok tt →
  implements auth c data (run_command auth c data) d.
Proof.
  intros Ha. destruct c; cbn [run_command];
    match goal with
    | |- implements _ _ _ (query _) _ => by apply implements_query
    | |- implements _ _ _ (read_device _) _ => by apply implements_reading
    | |- implements _ _ _ (on_table _) _ => by apply implements_table
    | |- implements _ _ _ (fail _) _ => intros w t; by apply wp_fail
    | |- implements _ _ _ (on_device _) _ =>
        first [ solve [auto with yhsm_effects]
              | apply implements_creating; [done|solve [auto with yhsm_effects]] ]
    end.
Qed.

(** ** From a frame to its effect *)

(** The result of an authorized command and its effect, or a failure. *)
Definition executed_request (auth : SessionAuthorization) (request : Frame) (d : Device)
    (r : Result bytes) (d' : Device) : Prop :=
  match r with
  | Ok answer =>
      ∃ c, known_command (command request) = Some c ∧
           authorize_command_request d auth c (data request) = Ok tt ∧
           command_effect auth (data request) d d' c ∧ (d' = d ∨ len answer ≤ 3)
  | _ => d' = d
  end.

Lemma execute_plain_known d request r :
  execute_plain_or_authenticated d request = Some r →
  ∃ c, known_command (command request) = Some c ∧ command_changes_persistent_state c = false ∧
       CommandCode.required_session_capability c = None ∧
       ∀ auth, authorize_command_objects d auth c (data request) = Ok tt.
Proof.
  unfold execute_plain_or_authenticated, known_command.
  destruct (CommandCode.from_byte (command request)) as [c|]; [|done].
  intros Hc. exists c. destruct c; by try discriminate Hc.
Qed.

Lemma execute_inner_result_effect auth request d w t :
  wp (execute_inner_result auth request)
    (λ r s', executed_request auth request d r s'.1.1) ((d, w), t).
Proof.
  unfold wp, execute_inner_result. cbn [fst snd].
  destruct (execute_plain_or_authenticated d request) as [r|] eqn:Hp.
  - apply execute_plain_known in Hp as (c & Hk & Hc & Hr & Ha). cbn.
    destruct r; cbn; [|done..]. exists c. unfold authorize_command_request. rewrite Hr, Ha.
    split; [done|]. split; [done|]. split; [by apply effect_none|by left].
  - change (wp (command ← lift (ok_or (CommandCode.from_byte (command request)) InvalidCommand);
       _ ← lift (reject_if (negb (CommandCode.supported_by_firmware command)) InvalidCommand);
       _ ← query (λ self, authorize_command_request self auth command (data request));
       run_command auth command (data request))
      (λ r s', executed_request auth request d r s'.1.1) ((d, w), t)).
    apply wp_lift_bind; [intros c Hc%ok_or_ok|by intros []].
    apply wp_lift_bind; [intros [] Hs|by intros []].
    apply wp_bind. unfold query, read_device, on_device, reading, lift. unfold wp at 1. cbn.
    destruct (authorize_command_request d auth c (data request)) as [[]|e| |] eqn:Ha; [|done..].
    pose proof Ha as Ha'. apply outcome_bind_ok in Ha' as ([] & _ & Ha').
    eapply wp_mono; [by apply run_command_implements|].
    intros [] s'; cbn; [|done..]. intros [? ?]. exists c. split; [|done].
    unfold known_command. rewrite Hc. cbn. by destruct (CommandCode.supported_by_firmware c).
Qed.

(** The frame that carries a result. *)
Definition frame_of (request : Frame) (r : Result bytes) : Frame :=
  match r with
  | Ok answer => response (command request) answer
  | Err e => error e
  | _ => error StorageFailed
  end.

(** The size guard of a response. *)
Definition guard_response (r : Result bytes) : Result bytes :=
  answer ← r;
  _ ← reject_if (negb (secure_response_data_fits (len answer))) WrongLength;
  Ok answer.

Lemma guard_response_effect auth request d r d' :
  executed_request auth request d r d' → executed_request auth request d (guard_response r) d'.
Proof.
  destruct r as [answer|e| |]; cbn; try done. intros (c & Hk & Ha & He & Hd).
  destruct (secure_response_data_fits (len answer)) eqn:Hf; cbn; [by exists c|].
  destruct Hd as [|Hl]; [done|]. apply not_true_iff_false in Hf. destruct Hf.
  pose proof (len_nonneg answer). apply secure_response_data_fits_spec; lia.
Qed.

(** The outcome of an inner command: refused because the log is full, or run
    under authorization with its effect and its bookkeeping. *)
Inductive inner_outcome (auth : SessionAuthorization) (request : Frame) (d : Device) :
    Result Frame → Device → Prop :=
| inner_log_full :
    force_audit (options d) ≠ OPTION_OFF → log_full d = true →
    inner_outcome auth request d (Ok (error LogFull)) d
| inner_executed result d' :
    executed_request auth request d result d' →
    match result with Ok answer => len answer ≤ 8172 | Err _ => True | _ => False end →
    inner_outcome auth request d (Ok (frame_of request result))
      (record_execution auth request
         (is_some_and (known_command (command request)) (should_audit d)) result d')
| inner_stopped r :
    is_ok r = false → inner_outcome auth request d r d.

Lemma guard_response_short r answer : guard_response r = Ok answer → len answer ≤ 8172.
Proof.
  destruct r as [a|e| |]; cbn; try done. destruct (secure_response_data_fits (len a)) eqn:Hf; [|done].
  intros [= <-]. by apply secure_response_data_fits_bound; [apply len_nonneg|].
Qed.

(** The guarded execution, with the guard as a function of the result. *)
Lemma guarded_execution auth request s :
  (data ← execute_inner_result auth request;
   _ ← lift (reject_if (negb (secure_response_data_fits (len data))) WrongLength);
   mret data) s
  = (guard_response (execute_inner_result auth request s).1, (execute_inner_result auth request s).2).
Proof.
  unfold mbind, eff_bind. destruct (execute_inner_result auth request s) as [[a|e| |] s']; try done.
  cbn. by destruct (secure_response_data_fits (len a)).
Qed.

Lemma execute_inner_outcome auth request d w t :
  wp (execute_inner_with_session auth request)
    (λ r s', inner_outcome auth request d r s'.1.1) ((d, w), t).
Proof.
  pose proof (execute_inner_result_effect auth request d w t) as He.
  unfold wp at 1, execute_inner_with_session. cbn [fst snd].
  destruct (_ && _ && _) eqn:Hg.
  { cbn. bool_prop. by apply inner_log_full. }
  match goal with |- inner_outcome _ _ _ (?m _).1 _ =>
    change (wp m (λ r s', inner_outcome auth request d r s'.1.1) ((d, w), t)) end.
  apply wp_bind. unfold wp at 1, attempt. rewrite guarded_execution.
  unfold wp in He. apply guard_response_effect in He.
  pose proof (guard_response_short (execute_inner_result auth request (d, w, t)).1) as Hs.
  revert He Hs. generalize (guard_response (execute_inner_result auth request (d, w, t)).1) as r.
  destruct (execute_inner_result auth request (d, w, t)).2 as [[d1 w1] t1]. cbn [fst snd].
  intros r He Hs. destruct r as [answer|e| |]; cbn [fst snd].
  - apply (inner_executed _ _ _ (Ok answer)); [done|by apply Hs].
  - by apply (inner_executed _ _ _ (Err e)).
  - cbn in He. subst. by apply inner_stopped.
  - cbn in He. subst. by apply inner_stopped.
Qed.
End effects.
