(* ===== verification/StoreProperties.v ===== *)
(** * Properties of command execution

    Mediation, the absence of privilege escalation and the marking of durable
    changes, for any command under any authorization. *)

From S2P Require Import Prelude Error Frame Firmware Algorithm Capability Protocol KeyCore Toy.
From S2P Require Import Wire Objects Authorization SessionObjects Requests SecureChannel.
From S2P Require Import DeviceState ObjectStore ObjectCommands KeyUse Wrapping Attestation.
From S2P Require Import SessionObjectCommands Layouts Dispatch AccessControl CommandEffects.

Section store.
Context `{Build} `{HX : X509} `{Der} `{Fuel}.

(** ** Bookkeeping

    Two devices that differ at most in the audit log and in the mark of a
    pending durable change. *)

Record same_store (d d' : Device) : Prop := {
  same_config : config d' = config d;
  same_objects : objects d' = objects d;
  same_sessions : sessions d' = sessions d;
  same_static_private : device_static_private d' = device_static_private d;
  same_epoch : state_epoch d' = state_epoch d;
  same_history : sequence_history d' = sequence_history d;
  same_options : options d' = options d;
}.

#[export] Instance same_store_preorder : PreOrder same_store.
Proof.
  split; [by split|]. intros a b c [] []. split; congruence.
Qed.

(** The durable part of a device: what is written to the state file. *)
Definition durable (d : Device) :=
  (objects d, device_static_private d, state_epoch d, sequence_history d, options d, audit d).

(** A durable change is marked, and a mark is never cleared. *)
Definition marked (d d' : Device) : Prop :=
  persistent_change d' = true ∨
  (durable d' = durable d ∧ persistent_change d' = persistent_change d).

#[export] Instance marked_preorder : PreOrder marked.
Proof.
  split; [by right|]. intros a b c [Hb|[Hb Hb']] [Hc|[Hc Hc']]; [by left|left|by left|right];
    [congruence|split; congruence].
Qed.

Lemma marked_true d d' : persistent_change d' = true → marked d d'.
Proof. by left. Qed.

Lemma append_audit_entry_store auth c request n d :
  same_store d (append_audit_entry d auth c request n).
Proof. unfold append_audit_entry. destruct (log_full d); by split. Qed.

Lemma append_audit_entry_marked auth c request n d :
  marked d (append_audit_entry d auth c request n).
Proof.
  unfold append_audit_entry. destruct (log_full d); [reflexivity|by apply marked_true].
Qed.

Lemma record_unlogged_store d : same_store d (record_unlogged_authentication_if_full d).
Proof. unfold record_unlogged_authentication_if_full. destruct (_ && _); by split. Qed.

Lemma record_unlogged_marked d : marked d (record_unlogged_authentication_if_full d).
Proof.
  unfold record_unlogged_authentication_if_full.
  destruct (_ && _); [by apply marked_true|reflexivity].
Qed.

Lemma set_persistent_change_store b d : same_store d (set_persistent_change b d).
Proof. by split. Qed.

Lemma record_execution_store auth request audited r d :
  same_store d (record_execution auth request audited r d).
Proof.
  unfold record_execution. destruct (known_command _) as [c|]; [|done].
  assert (same_store d (if audited then append_audit_entry d auth c request (result_code r) else d))
    as Hs by (destruct audited; [apply append_audit_entry_store|done]).
  destruct (_ && _); [|done]. etransitivity; [exact Hs|apply set_persistent_change_store].
Qed.

(** ** What a command leaves in the store *)

(** Where a stored object comes from after a command: it was there; or it is new
    and within what the session may delegate; or it replaces an object of the
    same key with the same domains and capabilities; or the device was reset. *)
Inductive provenance (auth : SessionAuthorization) (d : Device) (c : CommandCode.CommandCode)
    (k : ObjectKey) (r : ObjectRecord) : Prop :=
| provenance_kept : objects d !! k = Some r → provenance auth d c k r
| provenance_created :
    objects d !! k = None → granted auth (info r) → creating_command c = true →
    provenance auth d c k r
| provenance_replaced old :
    objects d !! k = Some old → domains (info r) = domains (info old) →
    capabilities (info r) = capabilities (info old) →
    delegated_capabilities (info r) = delegated_capabilities (info old) →
    can_see auth (info old) = true →
    c = CommandCode.PutOpaque ∨ c = CommandCode.ChangeAuthenticationKey →
    provenance auth d c k r
| provenance_factory :
    c = CommandCode.ResetDevice → k = Info.key factory_info → r = factory_record →
    provenance auth d c k r.

(** Objects are stored under their own key. *)
Definition keyed (d : Device) : Prop :=
  ∀ k r, objects d !! k = Some r → Info.key (info r) = k.

Lemma lookup_install record d k r :
  objects (install_record record d) !! k = Some r →
  (k = Info.key (info record) ∧
     r = set_info (set_sequence (next_generation d (key_id k) mod 256) (info record)) record) ∨
  objects d !! k = Some r.
Proof.
  unfold install_record. cbn. intros Hl. destruct (decide (k = Info.key (info record))) as [->|Hne].
  - left. rewrite lookup_insert_eq in Hl. by injection Hl as <-.
  - right. by rewrite lookup_insert_ne in Hl.
Qed.

Lemma command_effect_provenance auth data d d' c k r :
  keyed d → command_effect auth data d d' c → objects d' !! k = Some r → provenance auth d c k r.
Proof.
  intros Hkeyed He Hl. destruct He as
    [c Hc ->|c Hc (record & [Hv Hf Hg _] & ->)|id old ? ? Ho Ha (old' & record & Ho' & Hr & ->)
    |old ? Ho Ha (old' & record & Ho' & Hr & ->)|key old ? Ho Ha ->|o Hs ->|index ? ->|key ->].
  - by apply provenance_kept.
  - apply lookup_install in Hl as [[-> ->]|]; [|by apply provenance_kept].
    by apply provenance_created.
  - assert (old' = old) as -> by congruence.
    apply lookup_install in Hl as [[-> ->]|]; [|by apply provenance_kept].
    apply authorize_use_ok in Ha as (? & _ & _). destruct Hr as [_ Hk ? ? ?].
    rewrite Hk, (Hkeyed _ _ Ho). eapply provenance_replaced; eauto.
  - assert (old' = old) as -> by congruence.
    apply lookup_install in Hl as [[-> ->]|]; [|by apply provenance_kept].
    apply authorize_use_ok in Ha as (? & _ & _). destruct Hr as [_ Hk ? ? ?].
    rewrite Hk, (Hkeyed _ _ Ho). eapply provenance_replaced; eauto.
  - cbn in Hl. apply lookup_delete_Some in Hl as [_ ?]. by apply provenance_kept.
  - by apply provenance_kept.
  - by apply provenance_kept.
  - unfold reset_state, install_factory_authentication_key in Hl. cbn [objects set_objects set_history] in Hl.
    apply lookup_insert_Some in Hl as [[<- <-]|[_ Hl]]; [by apply provenance_factory|].
    by rewrite lookup_empty in Hl.
Qed.

Lemma command_effect_durable auth data d d' c :
  command_effect auth data d d' c → command_changes_persistent_state c = false → d' = d.
Proof. intros [c' ?|c' Hc ?| | | | | |] Hf; try done. by destruct c'. Qed.

Lemma effect_persistent_change auth data d d' c :
  command_effect auth data d d' c → persistent_change d' = persistent_change d.
Proof.
  by intros [c' ? ->|c' ? (? & ? & ->)|? ? ? ? ? ? (? & ? & ? & ? & ->)
    |? ? ? ? (? & ? & ? & ? & ->)|? ? ? ? ? ->|? ? ->|? ? ->|? ->].
Qed.

Lemma options_step_refl o : options_step o o.
Proof. split; try by left. Qed.

Lemma effect_options_step auth data d d' c :
  command_effect auth data d d' c → c ≠ CommandCode.ResetDevice → options_step (options d) (options d').
Proof.
  pose proof (options_step_refl (options d)) as Hrefl.
  by intros [c' ? ->|c' ? (? & ? & ->)|? ? ? ? ? ? (? & ? & ? & ? & ->)
    |? ? ? ? (? & ? & ? & ? & ->)|? ? ? ? ? ->|? [? _ _ _ _] ->|? ? ->|? ->].
Qed.

Lemma execution_marked auth request d r d' audited :
  executed_request auth request d r d' → marked d (record_execution auth request audited r d').
Proof.
  unfold executed_request, record_execution. intros He.
  assert (∀ c, marked d' (if audited then append_audit_entry d' auth c request (result_code r) else d')) as Hm.
  { intros c. destruct audited; [apply append_audit_entry_marked|reflexivity]. }
  destruct r as [answer|e| |].
  - destruct He as (c & -> & Ha & He & _). cbn [is_ok andb].
    destruct (command_changes_persistent_state c) eqn:Hc; [by apply marked_true|].
    by rewrite <- (command_effect_durable _ _ _ _ _ He Hc).
  - subst. destruct (known_command _); [apply Hm|reflexivity].
  - subst. destruct (known_command _); [apply Hm|reflexivity].
  - subst. destruct (known_command _); [apply Hm|reflexivity].
Qed.

Lemma inner_outcome_marked auth request d r d' :
  inner_outcome auth request d r d' → marked d d'.
Proof.
  intros [? ?|r' d1 He _|r' _]; [reflexivity| |reflexivity].
  by apply execution_marked.
Qed.

(** A response that is not an error frame. *)
Definition succeeded (answer : Frame) : Prop := command answer ≠ ERROR_COMMAND.

Lemma response_succeeded request answer : succeeded (response (command request) answer).
Proof.
  unfold succeeded, response, ERROR_COMMAND, RESPONSE_BIT. cbn. intros Hc.
  assert (Z.testbit (Z.lor (command request) 0x80) 7 = true) as Ht.
  { rewrite Z.lor_spec. by rewrite orb_true_r. }
  by rewrite Hc in Ht.
Qed.

(** The generations count from zero, in 64 bits. *)
Definition follows_generation (before : option Z) (g : Z) : Prop :=
  match before with
  | None => g = 0
  | Some last => g = (last + 1) mod 2 ^ 64
  end.

Lemma next_generation_follows d id : follows_generation (sequence_history d !! id) (next_generation d id).
Proof. unfold next_generation. by destruct (sequence_history d !! id). Qed.

(** The step of the generations and the sequence numbers. *)
Definition generations_step (d d' : Device) : Prop :=
  (∀ id, sequence_history d' !! id = sequence_history d !! id ∨
     ∃ g, sequence_history d' !! id = Some g ∧ follows_generation (sequence_history d !! id) g) ∧
  (∀ k r, objects d' !! k = Some r → objects d !! k = Some r ∨
     ∃ g, sequence_history d' !! key_id k = Some g ∧
          follows_generation (sequence_history d !! key_id k) g ∧ sequence (info r) = g mod 256).

Lemma install_generations record d : generations_step d (install_record record d).
Proof.
  split.
  - intros id. cbn. destruct (decide (id = key_id (Info.key (info record)))) as [->|Hne].
    + right. eexists. split; [by rewrite lookup_insert_eq|apply next_generation_follows].
    + left. by rewrite lookup_insert_ne.
  - intros k r [[-> ->]|Hl]%lookup_install; [right|by left]. cbn.
    eexists. split; [by rewrite lookup_insert_eq|]. split; [apply next_generation_follows|done].
Qed.

Lemma effect_generations auth data d d' c :
  command_effect auth data d d' c → c ≠ CommandCode.ResetDevice → generations_step d d'.
Proof.
  assert (∀ d', sequence_history d' = sequence_history d →
    (∀ k r, objects d' !! k = Some r → objects d !! k = Some r) → generations_step d d') as Hsame.
  { intros d1 Hh Ho. split; [intros id; left; by rewrite Hh|intros k r Hl; left; by apply Ho]. }
  intros [c' ? ->|c' ? (? & ? & ->)|? ? ? ? ? ? (? & ? & ? & ? & ->)
    |? ? ? ? (? & ? & ? & ? & ->)|? ? ? ? ? ->|? ? ->|? ? ->|? ->] Hc; try done;
    try apply install_generations; apply Hsame; try done.
  intros k r Hl. cbn in Hl. by apply lookup_delete_Some in Hl as [_ ?].
Qed.

(** ** Properties *)

(** C2: command mediation and atomicity. Whatever frame a session sends: when the
    answer is not an error, the frame names a command of the compiled firmware,
    the session holds the capability that command requires and has the rights of the
    access-control model on the objects whose identifiers stand in the request, and
    the device changed by an effect of that command on what the request names (the
    object created as described, the object replaced or deleted, the option set, the
    log trimmed up to the number) and nothing else but bookkeeping. When the answer
    is an error, no object, option, key, session or history entry changed. *)
Theorem commands_are_mediated (auth : SessionAuthorization) (request : Frame) (d : Device)
    (w : World) (t : option SessionObjects) :
  wp (execute_inner_with_session auth request) (λ r s', ∀ answer, r = Ok answer →
    (succeeded answer →
       ∃ c d1, known_command (command request) = Some c ∧
         (∀ cap, CommandCode.required_session_capability c = Some cap →
            contains (session_capabilities auth) cap = true) ∧
         permitted d auth c (data request) ∧
         command_effect auth (data request) d d1 c ∧ same_store d1 s'.1.1) ∧
    (¬ succeeded answer → same_store d s'.1.1)) ((d, w), t).
Proof.
  eapply wp_mono; [apply execute_inner_outcome|]. intros r s' Ho answer ->.
  revert Ho. generalize s'.1.1 as d'. intros d' Ho.
  inversion Ho as [|result d1 He _ Hr Hd|? Hbad]; [| |done].
  - split; [by intros []|done].
  - destruct result as [a|e| |]; cbn [frame_of].
    + split; [|by intros []; apply response_succeeded]. intros _.
      destruct He as (c & Hk & Ha & He & _). exists c, d1.
      apply outcome_bind_ok in Ha as ([] & Hcap & Ha%authorized_permitted).
      split; [done|]. split; [|split; [done|split; [done|apply record_execution_store]]].
      intros cap Hc. rewrite Hc in Hcap. by apply require_capability_ok.
    + cbn in He. subst. split; [by intros []|intros _; apply record_execution_store].
    + cbn in He. subst. split; [by intros []|intros _; apply record_execution_store].
    + cbn in He. subst. split; [by intros []|intros _; apply record_execution_store].
Qed.

(** C3: no privilege escalation. After any command, every stored object was
    there before; or is new, lies in the session's domains and carries only
    capabilities the session may delegate; or replaced a visible object of the
    same key without changing its domains or capabilities; or is the factory key
    after a device reset, which requires its capability. *)
Theorem no_privilege_escalation (auth : SessionAuthorization) (request : Frame) (d : Device)
    (w : World) (t : option SessionObjects) :
  authorization_ok auth → keyed d →
  wp (execute_inner_with_session auth request) (λ r s', ∀ k obj,
    objects s'.1.1 !! k = Some obj →
      objects d !! k = Some obj ∨
      (objects d !! k = None ∧ (info_ok (info obj) → within_rights auth (info obj))) ∨
      (∃ old, objects d !! k = Some old ∧ can_see auth (info old) = true ∧
         domains (info obj) = domains (info old) ∧
         capabilities (info obj) = capabilities (info old) ∧
         delegated_capabilities (info obj) = delegated_capabilities (info old)) ∨
      (contains (session_capabilities auth) Capability.ResetDevice = true ∧
         k = Info.key factory_info ∧ obj = factory_record)) ((d, w), t).
Proof.
  intros Hauth Hk. eapply wp_mono; [apply execute_inner_outcome|]. intros r s'.
  cbv beta. generalize s'.1.1 as d'. intros d' Ho k obj Hl.
  destruct Ho as [|result d1 He _|]; [by left| |by left].
  rewrite (same_objects _ _ (record_execution_store auth request _ result d1)) in Hl.
  destruct result as [a|e| |]; [|cbn in He; subst; by left..].
  destruct He as (c & _ & Ha & He & _).
  destruct (command_effect_provenance _ _ _ _ _ _ _ Hk He Hl)
    as [?|? Hg ?|old ? ? ? ? ? ?|Hreset ? ?]; [by left| | |].
  - right; left. split; [done|]. intros Hi. by apply granted_within.
  - right; right; left. by exists old.
  - do 3 right. subst c. apply outcome_bind_ok in Ha as ([] & Hcap & _).
    split; [by apply require_capability_ok|done].
Qed.

(** C19: no durable change is lost. After any command under any authorization,
    if an object, the generation history, an option, the identity key, the epoch
    or the audit log differs from before, the device is marked for persistence;
    and a pending mark is never cleared by a command. *)
Theorem durable_changes_are_marked (auth : SessionAuthorization) (request : Frame) (d : Device)
    (w : World) (t : option SessionObjects) :
  wp (execute_inner_with_session auth request) (λ r s',
    (durable s'.1.1 ≠ durable d → persistent_change s'.1.1 = true) ∧
    (persistent_change d = true → persistent_change s'.1.1 = true)) ((d, w), t).
Proof.
  eapply wp_mono; [apply execute_inner_outcome|]. intros r s' Ho.
  apply inner_outcome_marked in Ho as [Hp|[Hd Hp]]; [done|]. by rewrite Hp.
Qed.

(** C20: fixed options stay fixed. No command but a device reset moves an option
    that is [OPTION_FIX], and every option keeps its value or takes a valid
    one. *)
Theorem fixed_options_stay (auth : SessionAuthorization) (request : Frame) (d : Device)
    (w : World) (t : option SessionObjects) :
  known_command (command request) ≠ Some CommandCode.ResetDevice →
  wp (execute_inner_with_session auth request) (λ r s', options_step (options d) (options s'.1.1))
    ((d, w), t).
Proof.
  intros Hreset. pose proof (options_step_refl (options d)) as Hrefl.
  eapply wp_mono; [apply execute_inner_outcome|]. intros r s'.
  cbv beta. generalize s'.1.1 as d'. intros d' Ho.
  destruct Ho as [|result d1 He _|]; [done| |done].
  rewrite (same_options _ _ (record_execution_store auth request _ result d1)).
  destruct result as [a|e| |]; [|cbn in He; by subst..].
  destruct He as (c & Hk & _ & He & _).
  eapply effect_options_step; [exact He|congruence].
Qed.

(** C35: generations. No command but a device reset forgets or reuses a
    generation: the 64-bit counter of an identifier stays as it is, or starts at
    zero if there is none, or advances by one; and an object that is new under its
    key, also after a deletion, carries the low byte of the counter that was started
    or advanced as its sequence number. *)
Theorem generations_advance (auth : SessionAuthorization) (request : Frame) (d : Device)
    (w : World) (t : option SessionObjects) :
  known_command (command request) ≠ Some CommandCode.ResetDevice →
  wp (execute_inner_with_session auth request) (λ r s', generations_step d s'.1.1) ((d, w), t).
Proof.
  intros Hreset. assert (generations_step d d) as Hrefl by (split; auto).
  eapply wp_mono; [apply execute_inner_outcome|]. intros r s'.
  cbv beta. generalize s'.1.1 as d'. intros d' Ho.
  destruct Ho as [|result d1 He _|]; [done| |done].
  unfold generations_step.
  rewrite (same_history _ _ (record_execution_store auth request _ result d1)).
  rewrite (same_objects _ _ (record_execution_store auth request _ result d1)).
  destruct result as [a|e| |]; [|cbn in He; by subst..].
  destruct He as (c & Hk & _ & He & _). eapply effect_generations; [exact He|congruence].
Qed.
End store.

(** ** Witnesses *)

#[local] Existing Instance default_build.
#[local] Existing Instance toy_fuel.

Definition example_device : Device :=
  install_factory_authentication_key
    (mkDevice default_config ∅ ∅ (KindEc P256, zeros 32) 0 ∅ default_options initial_audit false).

Lemma example_device_keyed : keyed example_device.
Proof.
  intros k r Hl. cbn in Hl. apply lookup_insert_Some in Hl as [[<- <-]|[_ Hl]]; [done|].
  by rewrite lookup_empty in Hl.
Qed.

Lemma example_device_no_hmac : objects example_device !! mkObjectKey HmacKey 7 = None.
Proof. cbn. by rewrite lookup_insert_ne, lookup_empty by done. Qed.

(** Generate an HMAC key, in the domains of the example session. *)
Definition example_generate : Frame :=
  mkFrame (CommandCode.to_byte CommandCode.GenerateHmacKey)
    ([0; 7] ++ zeros 40 ++ [0; 1] ++ to_bytes NONE ++ [20]).

Lemma no_privilege_escalation_witness :
  is_ok (execute_inner_with_session example_session example_generate (example_device, toy_world, None)).1
    = true ∧
  wp (execute_inner_with_session example_session example_generate) (λ _ s', ∀ k obj,
    objects s'.1.1 !! k = Some obj → k = mkObjectKey HmacKey 7 →
    info_ok (info obj) → within_rights example_session (info obj))
    (example_device, toy_world, None).
Proof.
  split; [by vm_compute|].
  eapply wp_mono; [apply (no_privilege_escalation example_session example_generate example_device
    toy_world None example_session_ok example_device_keyed)|].
  intros r s' Hp k obj Hl -> Hi. apply Hp in Hl as [Hl|[[_ Hl]|[(? & Hl & _)|(_ & Hl & _)]]].
  - by rewrite example_device_no_hmac in Hl.
  - by apply Hl.
  - by rewrite example_device_no_hmac in Hl.
  - done.
Defined.

Lemma fixed_options_stay_witness :
  wp (execute_inner_with_session example_session
        (mkFrame (CommandCode.to_byte CommandCode.SetOption) [1; 0; 1; 2]))
    (λ r s', options_step (options example_device) (options s'.1.1))
    (example_device, toy_world, None).
Proof. apply (fixed_options_stay example_session). by vm_compute. Defined.

Lemma generations_advance_witness :
  wp (execute_inner_with_session example_session example_generate)
    (λ r s', generations_step example_device s'.1.1) (example_device, toy_world, None).
Proof. apply (generations_advance example_session). by vm_compute. Defined.
