(* ===== verification/QueryProperties.v ===== *)
(** * Properties of the queries

    The listing of objects: exactly the visible objects that match the filters,
    once each, in the order of the keys. *)

From S2P Require Import Prelude Error Frame Firmware Algorithm Capability Protocol KeyCore Toy.
From S2P Require Import Wire Objects Authorization SessionObjects Requests SecureChannel.
From S2P Require Import DeviceState ObjectStore ObjectCommands KeyUse Wrapping Attestation.
From S2P Require Import SessionObjectCommands Dispatch CommandEffects StoreProperties.

Section listing.
Context `{Build} `{SoftwareKeyCore}.

(** ** The values of the store *)

(** The keys of the store, in order. *)
Definition ordered_keys (m : gmap ObjectKey ObjectRecord) : list ObjectKey :=
  merge_sort key_le (map_to_list m).*1.

Lemma elem_of_ordered_keys m k : k ∈ ordered_keys m ↔ is_Some (m !! k).
Proof.
  unfold ordered_keys. rewrite merge_sort_Permutation. rewrite list_elem_of_fmap. split.
  - intros ([k' r] & -> & Hl). apply elem_of_map_to_list in Hl. by exists r.
  - intros [r Hl]. exists (k, r). by rewrite elem_of_map_to_list.
Qed.

Lemma ordered_keys_NoDup m : NoDup (ordered_keys m).
Proof. unfold ordered_keys. rewrite merge_sort_Permutation. apply NoDup_fst_map_to_list. Qed.

Lemma ordered_keys_sorted m : StronglySorted key_le (ordered_keys m).
Proof. apply (StronglySorted_merge_sort key_le). Qed.

Lemma omap_keys (m : gmap ObjectKey ObjectRecord) ks :
  map_Forall (λ k r, Info.key (info r) = k) m → Forall (λ k, is_Some (m !! k)) ks →
  (λ r, Info.key (info r)) <$> omap (λ k, m !! k) ks = ks.
Proof.
  intros Hm. induction 1 as [|k ks [r Hr] _ IH]; [done|]. cbn. rewrite Hr. cbn.
  by rewrite IH, (Hm _ _ Hr).
Qed.

Lemma object_values_keys (m : gmap ObjectKey ObjectRecord) :
  map_Forall (λ k r, Info.key (info r) = k) m →
  (λ r, Info.key (info r)) <$> object_values m = ordered_keys m.
Proof.
  intros Hm. apply omap_keys; [done|]. apply Forall_forall. intros k. apply elem_of_ordered_keys.
Qed.

Lemma elem_of_object_values m r : r ∈ object_values m ↔ ∃ k, m !! k = Some r.
Proof.
  unfold object_values. rewrite list_elem_of_omap. split.
  - intros (k & _ & Hl). by exists k.
  - intros [k Hl]. exists k. split; [|done]. apply elem_of_ordered_keys. by exists r.
Qed.

(** ** Selection *)

(** Strict order of the keys: sorted and without repetition. *)
Definition listed_in_order (objs : list ObjectRecord) : Prop :=
  StronglySorted (λ a b, key_le (Info.key (info a)) (Info.key (info b))) objs ∧
  NoDup ((λ r, Info.key (info r)) <$> objs).

Lemma listed_filter f objs : listed_in_order objs → listed_in_order (List.filter f objs).
Proof.
  intros [Hs Hn]. split.
  - induction Hs as [|a l Hl IH Ha]; cbn; [constructor|]. apply NoDup_cons in Hn as [_ Hn].
    destruct (f a); [|by apply IH]. constructor; [by apply IH|].
    apply List.Forall_forall. intros x [Hx _]%filter_In. rewrite List.Forall_forall in Ha. by apply Ha.
  - clear Hs. induction objs as [|a l IH]; cbn in *; [constructor|]. apply NoDup_cons in Hn as [Ha Hn].
    destruct (f a); [|by apply IH]. cbn. apply NoDup_cons. split; [|by apply IH].
    intros Hin. apply Ha. apply list_elem_of_fmap in Hin as (x & -> & Hx).
    apply list_elem_of_In, filter_In in Hx as [Hx _]. apply list_elem_of_fmap.
    exists x. split; [done|by apply list_elem_of_In].
Qed.

Lemma object_values_listed d : keyed d → listed_in_order (object_values (objects d)).
Proof.
  intros Hk. assert (map_Forall (λ k r, Info.key (info r) = k) (objects d)) as Hm by exact Hk.
  split; [|rewrite object_values_keys by done; apply ordered_keys_NoDup].
  pose proof (ordered_keys_sorted (objects d)) as Hs. rewrite <- object_values_keys in Hs by done.
  clear Hk Hm. induction (object_values (objects d)) as [|a l IH]; cbn in Hs; [constructor|].
  apply StronglySorted_inv in Hs as [Hs Ha]. constructor; [by apply IH|].
  rewrite Forall_fmap in Ha. exact Ha.
Qed.

Definition list_entry (r : ObjectRecord) : bytes :=
  u16_to_be_bytes (id (info r)) ++
  [ObjectTypes.to_byte (object_type (info r)); sequence (info r)].

Lemma concat_selected (f : ObjectRecord → bool) objs :
  concat (map (λ r, if f r then list_entry r else []) objs) = concat (map list_entry (List.filter f objs)).
Proof.
  induction objs as [|a l IH]; [done|]. cbn [map concat List.filter]. rewrite IH.
  by destruct (f a).
Qed.

(** What the listing holds. *)
Lemma list_objects_exact (self : Device) (auth : SessionAuthorization) (data answer : bytes)
    (filters : ObjectFilters) :
  keyed self → decode ListObjectsRequest data = Ok (ListObjectsRequest_ filters) →
  list_objects self auth data = Ok answer →
  ∃ objs, answer = concat (map list_entry objs) ∧ listed_in_order objs ∧
    ∀ r, r ∈ objs ↔ objects self !! Info.key (info r) = Some r ∧
                    can_see auth (info r) = true ∧ matches filters (info r) = true.
Proof.
  intros Hk Hd Ha. unfold list_objects in Ha. rewrite Hd in Ha. injection Ha as <-.
  set (f := λ r : ObjectRecord, can_see auth (info r) && matches filters (info r)).
  exists (List.filter f (object_values (objects self))). split; [apply (concat_selected f)|].
  split; [by apply listed_filter, object_values_listed|].
  intros r. rewrite list_elem_of_In, filter_In, <- list_elem_of_In, elem_of_object_values.
  unfold f. rewrite andb_true_iff. split.
  - intros ([k Hl] & Hc & Hm). by rewrite (Hk _ _ Hl).
  - intros (Hl & Hc & Hm). split; [by eexists|done].
Qed.

(** The object listing. The answer is a sequence of four-byte entries, in the
    strict order of types and identifiers, one for each object that the session
    can see and that matches the filters, and for no other. *)
Theorem listing_is_exact (self : Device) (auth : SessionAuthorization) (data answer : bytes)
    (filters : ObjectFilters) :
  keyed self → decode ListObjectsRequest data = Ok (ListObjectsRequest_ filters) →
  list_objects self auth data = Ok answer →
  ∃ objs, answer = concat (map list_entry objs) ∧ listed_in_order objs ∧
    ∀ r, r ∈ objs ↔ objects self !! Info.key (info r) = Some r ∧
                    can_see auth (info r) = true ∧ matches filters (info r) = true.
Proof. apply list_objects_exact. Qed.
End listing.

(** ** Witness *)

#[local] Existing Instance default_build.

Lemma listing_is_exact_witness :
  ∃ objs, [0; 1; ObjectTypes.to_byte AuthenticationKey; 0] = concat (map list_entry objs) ∧
    listed_in_order objs.
Proof.
  destruct (listing_is_exact example_device example_session []
    [0; 1; ObjectTypes.to_byte AuthenticationKey; 0] default_filters example_device_keyed)
    as (objs & Ha & Hs & _); [by vm_compute..|]. by exists objs.
Defined.
