(* ===== verification/DeviceInvariant.v ===== *)
(** * The invariant of the device

    What every command preserves: the objects are stored under their own key and
    are valid, every identifier in use has a generation, the options hold valid
    values, and the audit log is a bounded chain. *)

From S2P Require Import Prelude Error Frame Firmware Algorithm Capability Protocol KeyCore Toy.
From S2P Require Import Wire Objects Authorization SessionObjects Requests SecureChannel.
From S2P Require Import DeviceState ObjectStore ObjectCommands KeyUse Wrapping Attestation.
From S2P Require Import SessionObjectCommands Dispatch CommandEffects StoreProperties.

(** ** The audit chain *)

Section chain.
Context `{SoftwareKeyCore}.

(** Every entry is followed by the entry with the next number, which chains its
    digest, or is the last one and is what the next entry will chain. An entry
    with the last 16-bit number is followed by anything. *)
Fixpoint chained (next : Z) (previous : bytes) (l : list AuditEntry) : Prop :=
  match l with
  | [] => True
  | e :: rest =>
      (number e ≠ u16_max →
       match rest with
       | [] => next = number e + 1 ∧ previous = entry_digest e
       | e' :: _ => number e' = number e + 1 ∧ entry_digest e' = chain_digest e' (entry_digest e)
       end) ∧ chained next previous rest
  end.

(** The digest covers the first sixteen bytes of an entry, which are all but the
    digest field. *)
Definition entry_head (e : AuditEntry) : bytes :=
  u16_to_be_bytes (number e) ++ [entry_command e] ++ u16_to_be_bytes (entry_length e) ++
  u16_to_be_bytes (session_key e) ++ u16_to_be_bytes (target_key e) ++
  u16_to_be_bytes (second_key e) ++ [result e] ++ u32_to_be_bytes (entry_systick e).

Lemma encode_entry_head e : ztake 16 (encode_entry e) = entry_head e.
Proof.
  replace (encode_entry e) with (entry_head e ++ entry_digest e)
    by (unfold encode_entry, entry_head; by rewrite <- !app_assoc).
  by apply ztake_app_eq.
Qed.

Lemma chain_digest_set d e previous : chain_digest (set_digest d e) previous = chain_digest e previous.
Proof. unfold chain_digest. by rewrite !encode_entry_head. Qed.

Definition next_entry_number (n : Z) : Z := Z.max ((n + 1) mod 65536) 1.

Lemma next_entry_number_spec n :
  1 ≤ n ≤ u16_max → 1 ≤ next_entry_number n ≤ u16_max ∧ (n ≠ u16_max → next_entry_number n = n + 1).
Proof.
  unfold next_entry_number, u16_max. intros Hn. destruct (decide (n = 65535)) as [->|Hne]; [done|].
  rewrite Z.mod_small by lia. lia.
Qed.

Lemma chained_append next previous l e :
  1 ≤ next ≤ u16_max → number e = next → entry_digest e = chain_digest e previous →
  chained next previous l → chained (next_entry_number next) (entry_digest e) (l ++ [e]).
Proof.
  intros Hn He Hd. destruct (next_entry_number_spec next Hn) as [_ Hnext].
  induction l as [|x l IH]; cbn [chained app].
  - intros _. split; [|done]. rewrite He. auto.
  - intros [Hx Hl]. split; [|by apply IH]. intros Hne. specialize (Hx Hne).
    destruct l as [|y l]; [|done]. destruct Hx as [-> ->]. done.
Qed.

Lemma chained_trim next previous index l :
  chained next previous l →
  chained next previous (List.filter (λ e, index <? number e) l).
Proof.
  induction l as [|x l IH]; cbn [chained List.filter]; [done|]. intros [Hx Hl].
  destruct (index <? number x) eqn:Hi; [|by apply IH]. cbn [chained]. split; [|by apply IH].
  intros Hne. specialize (Hx Hne). bool_prop. destruct l as [|y l]; [done|].
  cbn [List.filter]. by rewrite (proj2 (Z.ltb_lt index (number y))) by lia.
Qed.
End chain.

(** ** The invariant *)

Section invariant.
Context `{Build} `{HX : X509} `{Der} `{Fuel}.

Record object_ok (k : ObjectKey) (r : ObjectRecord) : Prop := {
  object_key : Info.key (info r) = k;
  object_valid : validate r = Ok tt;
}.

Record generation_ok (id generation : Z) : Prop := {
  generation_id : id ≠ 0 ∧ id ≠ u16_max;
  generation_bound : u64 generation;
}.

Record options_ok (o : DeviceOptions) : Prop := {
  force_audit_valid : valid_option_value (force_audit o) = true;
  command_audit_valid : map_Forall (λ _ v, valid_option_value v = true) (command_audit o);
  algorithm_toggle_valid : map_Forall (λ _ v, valid_option_value v = true) (algorithm_toggle o);
  fips_mode_valid : valid_option_value (fips_mode o) = true;
}.

Record log_ok (capacity : Z) (a : AuditState) : Prop := {
  log_chained : chained (next_number a) (previous_digest a) (entries a);
  log_numbers : Forall (λ e, 1 ≤ number e ≤ u16_max) (entries a);
  log_next : 1 ≤ next_number a ≤ u16_max;
  log_bound : len (entries a) ≤ capacity;
}.

Record device_ok (d : Device) : Prop := {
  device_objects : map_Forall object_ok (objects d);
  device_covered : ∀ k, is_Some (objects d !! k) → is_Some (sequence_history d !! key_id k);
  device_history : map_Forall generation_ok (sequence_history d);
  device_options : options_ok (options d);
  device_log : log_ok (log_capacity (config d)) (audit d);
}.

Lemma device_ok_keyed d : device_ok d → keyed d.
Proof. intros [Ho _ _ _ _] k r Hl. by destruct (Ho k r Hl). Qed.

(** ** Records *)

Lemma validate_set_sequence (r : ObjectRecord) n :
  validate (set_info (set_sequence n (info r)) r) = validate r.
Proof. by destruct r as [[] []]. Qed.

Lemma validate_id (r : ObjectRecord) :
  validate r = Ok tt → id (info r) ≠ 0 ∧ id (info r) ≠ u16_max.
Proof.
  unfold validate. intros Hv. apply outcome_bind_ok in Hv as ([] & Hv & _).
  apply validate_ok in Hv. naive_solver.
Qed.

Lemma next_generation_bound (d : Device) id : map_Forall generation_ok (sequence_history d) →
  u64 (next_generation d id).
Proof.
  intros _. unfold next_generation, u64. destruct (sequence_history d !! id); [|lia].
  apply Z.mod_pos_bound. lia.
Qed.

(** Installing a valid record keeps the store well-formed. *)
Lemma install_record_ok record d :
  validate record = Ok tt → device_ok d → device_ok (install_record record d).
Proof.
  intros Hv [Ho Hc Hh Hopt Hlog]. pose proof (validate_id _ Hv) as [Hz Hm].
  split; cbn [objects sequence_history options audit config install_record set_objects set_history];
    [| | |done|done].
  - apply map_Forall_insert_2; [|done]. split; [done|]. by rewrite validate_set_sequence.
  - intros k [r Hl]. destruct (decide (key_id k = key_id (Info.key (info record)))) as [->|Hne].
    + rewrite lookup_insert_eq. by eexists.
    + rewrite lookup_insert_ne by congruence. apply Hc.
      rewrite lookup_insert_ne in Hl by congruence. by eexists.
  - apply map_Forall_insert_2; [|done]. split; [done|]. by apply next_generation_bound.
Qed.

(** ** The log *)

Lemma log_ok_trim capacity index a :
  log_ok capacity a →
  log_ok capacity (set_entries (List.filter (λ e, index <? number e) (entries a)) a).
Proof.
  intros [Hc Hn Hx Hb]. split; cbn; [by apply chained_trim| |done|].
  - apply Forall_forall. intros e He. rewrite Forall_forall in Hn. apply Hn.
    apply list_elem_of_In. apply list_elem_of_In, filter_In in He. by destruct He.
  - unfold len in *. pose proof (filter_length_le (λ e, index <? number e) (entries a)). lia.
Qed.

Lemma append_audit_entry_ok auth c request n d :
  device_ok d → device_ok (append_audit_entry d auth c request n).
Proof.
  intros [Ho Hcov Hh Hopt [Hc Hn Hx Hb]]. unfold append_audit_entry.
  destruct (log_full d) eqn:Hf; [by split|]. unfold log_full in Hf. bool_prop.
  assert (number (new_entry d auth c request n) = next_number (audit d)) as Hnum
    by (unfold new_entry; by repeat case_match).
  split; cbn; [done..|]. split; cbn.
  - apply (chained_append (next_number (audit d)) (previous_digest (audit d))); [done..| |done].
    unfold new_entry. case_match. by rewrite chain_digest_set.
  - apply Forall_app. split; [done|]. constructor; [|done]. by rewrite Hnum.
  - by apply (next_entry_number_spec (next_number (audit d))).
  - rewrite len_app, len_cons, len_nil. lia.
Qed.

Lemma record_unlogged_ok d : device_ok d → device_ok (record_unlogged_authentication_if_full d).
Proof.
  unfold record_unlogged_authentication_if_full. destruct (_ && _); [|done].
  intros [? ? ? ? []]. split; cbn; [done..|]. by split.
Qed.

Lemma set_sessions_ok t d : device_ok d → device_ok (set_sessions t d).
Proof. by intros []; split. Qed.

Lemma set_persistent_change_ok b d : device_ok d → device_ok (set_persistent_change b d).
Proof. by intros []; split. Qed.

(** ** Commands *)

Lemma option_step_valid v v' :
  valid_option_value v = true → option_step v v' → valid_option_value v' = true.
Proof. by intros ? [->|[? _]]. Qed.

Lemma option_map_step_valid m m' :
  map_Forall (λ _ v, valid_option_value v = true) m → option_map_step m m' →
  map_Forall (λ _ v, valid_option_value v = true) m'.
Proof.
  intros Hm Hs k v Hl. destruct (Hs k) as [Hk|(v' & Hk & Hv & _)].
  - rewrite Hk in Hl. by eapply Hm.
  - by simplify_eq.
Qed.

Lemma options_step_ok o o' : options_ok o → options_step o o' → options_ok o'.
Proof.
  intros [] []. split; eauto using option_step_valid, option_map_step_valid.
Qed.

Lemma default_options_ok : options_ok default_options.
Proof. split; [done|apply map_Forall_empty..|done]. Qed.

Lemma initial_audit_ok capacity : 0 ≤ capacity → log_ok capacity initial_audit.
Proof. intros. split; [done|done| |done]. unfold u16_max. cbn. lia. Qed.

Context `{!KdfLaws}.

Lemma factory_record_valid : validate factory_record = Ok tt.
Proof.
  unfold validate. cbn [factory_record info material].
  change (Info.validate factory_info) with (Ok (E := DeviceError) tt). cbn.
  unfold expected_info_length. cbn. by rewrite password_kdf_length.
Qed.

(** A device with the factory key alone. *)
Lemma factory_device_ok c s k e p :
  0 ≤ log_capacity c →
  device_ok (install_factory_authentication_key
    (mkDevice c ∅ s k e ∅ default_options initial_audit p)).
Proof.
  intros Hc. split; cbn; [| | |apply default_options_ok|by apply initial_audit_ok].
  - apply map_Forall_insert_2; [|apply map_Forall_empty]. split; [done|apply factory_record_valid].
  - intros k' [r Hl]. apply lookup_insert_Some in Hl as [[<- _]|[_ Hl]].
    + cbn. rewrite lookup_insert_eq. by eexists.
    + by rewrite lookup_empty in Hl.
  - apply map_Forall_insert_2; [|apply map_Forall_empty]. by split.
Qed.

Lemma command_effect_ok auth data d d' c : device_ok d → command_effect auth data d d' c → device_ok d'.
Proof.
  intros Hd He. destruct He as
    [c Hc ->|c Hc (record & [Hv Hf Hg _] & ->)|id old ? ? Ho Ha (old' & record & Ho' & [Hv _ _ _ _] & ->)
    |old ? Ho Ha (old' & record & Ho' & [Hv _ _ _ _] & ->)|key old ? Ho Ha ->|o [Hs _ _ _ _] ->|index ? ->|key ->].
  - done.
  - by apply install_record_ok.
  - by apply install_record_ok.
  - by apply install_record_ok.
  - destruct Hd as [Hobj Hcov ? ? ?]. split; cbn; [by apply map_Forall_delete| |done..].
    intros k [r Hl]. apply lookup_delete_Some in Hl as [_ Hl]. apply Hcov. by eexists.
  - destruct Hd. split; cbn; [done..| |done]. by eapply options_step_ok.
  - destruct Hd. split; cbn; [done..|]. by apply log_ok_trim.
  - apply factory_device_ok. destruct Hd as [_ _ _ _ [_ _ _ Hb]].
    pose proof (len_nonneg (entries (audit d))). lia.
Qed.

Lemma record_execution_ok auth request b r d :
  device_ok d → device_ok (record_execution auth request b r d).
Proof.
  intros Hd. unfold record_execution. destruct (known_command _) as [c|]; [|done].
  assert (device_ok (if b then append_audit_entry d auth c request (result_code r) else d))
    by (destruct b; [by apply append_audit_entry_ok|done]).
  destruct (_ && _); [by apply set_persistent_change_ok|done].
Qed.

Lemma inner_outcome_ok auth request d r d' :
  device_ok d → inner_outcome auth request d r d' → device_ok d'.
Proof.
  intros Hd [|result d1 He _|]; [done| |done]. apply record_execution_ok.
  destruct result; [|cbn in He; by subst..].
  destruct He as (c & _ & _ & He & _). by eapply command_effect_ok.
Qed.
End invariant.
