(* ===== verification/AuditProperties.v ===== *)
(** * Properties of the audit log

    The log under forced audit, the entry of an audited command, and the entries
    that an acknowledgement removes. *)

From S2P Require Import Prelude Error Frame Firmware Algorithm Capability Protocol KeyCore Toy.
From S2P Require Import Wire Objects Authorization SessionObjects Requests SecureChannel.
From S2P Require Import DeviceState ObjectStore ObjectCommands KeyUse Wrapping Attestation.
From S2P Require Import SessionObjectCommands Layouts Dispatch CommandEffects StoreProperties DeviceInvariant.

Section audit.
Context `{Build} `{HX : X509} `{Der} `{Fuel}.


Lemma result_code_ok {A} (r : Result A) : is_ok r = true → result_code r = 0.
Proof. by destruct r. Qed.





(** Forced audit. When the options force the audit and the log is full, every
    command but the session commands and the two log commands is refused with
    [LogFull], and nothing at all happens. *)
Theorem forced_audit_blocks_when_full (auth : SessionAuthorization) (request : Frame)
    (c : CommandCode.CommandCode) (d : Device) (w : World) (t : option SessionObjects) :
  known_command (command request) = Some c → log_guarded c = true →
  force_audit (options d) ≠ OPTION_OFF → log_full d = true →
  execute_inner_with_session auth request ((d, w), t) = (Ok (error LogFull), ((d, w), t)).
Proof.
  intros Hk Hg Hf Hl. unfold execute_inner_with_session. cbn [fst snd].
  rewrite Hk. cbn [is_some_and]. rewrite Hg, Hl. by rewrite (proj2 (Z.eqb_neq _ _) Hf).
Qed.
End audit.

(** ** Witnesses *)

#[local] Existing Instance default_build.
#[local] Existing Instance toy_fuel.



(** The example device with no room in its log, under forced audit. *)
Definition full_device : Device :=
  set_options (mkOptions 1 ∅ ∅ 0)
    (install_factory_authentication_key
       (mkDevice (mkConfig [2; 5; 0] 1 0 [] []) ∅ ∅ (KindEc P256, zeros 32) 0 ∅ default_options
          initial_audit false)).

Lemma forced_audit_blocks_when_full_witness :
  execute_inner_with_session example_session example_generate ((full_device, toy_world), None)
  = (Ok (error LogFull), ((full_device, toy_world), None)).
Proof. by apply (forced_audit_blocks_when_full _ _ CommandCode.GenerateHmacKey). Defined.
