(* ===== verification/Sessions.v ===== *)
(** * Secure sessions and the connector entry points
    (crates/virtual-yubihsm-core/src/device.rs, lines 306-427, 452-637,
    729-742)

    The session table: creation, authentication, expiry, the processing of one
    session message, and the entry points that take an encoded frame and return
    an encoded frame. *)

From S2P Require Import Prelude Error Frame Firmware Algorithm Capability Protocol KeyCore Toy.
From S2P Require Import Wire Objects Authorization SessionObjects Requests SecureChannel.
From S2P Require Import DeviceState ObjectStore ObjectCommands KeyUse Wrapping Attestation.
From S2P Require Import SessionObjectCommands Dispatch.

Section sessions.
Context `{Build} `{HX : X509} `{Der} `{Fuel}.

(** ** Authentication keys *)

Definition session_authorization (self : Device) (authentication_key_id : Z) :
    Result SessionAuthorization :=
  record ← ok_or (objects self !! mkObjectKey AuthenticationKey authentication_key_id)
             ObjectNotFound;
  match material record with
  | Authentication _ =>
      Ok (mkAuthorization authentication_key_id (capabilities (info record))
            (delegated_capabilities (info record)) (domains (info record)))
  | _ => Err InvalidData
  end.

Definition authentication_key_material (self : Device) (authentication_key_id : Z) :
    Result AuthenticationKeyMaterial :=
  record ← ok_or (objects self !! mkObjectKey AuthenticationKey authentication_key_id)
             ObjectNotFound;
  match material record with
  | Authentication material => Ok material
  | _ => Err InvalidData
  end.

(** ** The session table *)

Definition active_session_count (self : Device) : Z := Z.of_nat (size (sessions self)).

(** [now.saturating_duration_since(last_activity) < SESSION_INACTIVITY_TIMEOUT]. *)
Definition still_active (now : Z) (entry : SessionEntry) : bool :=
  Z.max 0 (now - last_activity entry) <? SESSION_INACTIVITY_TIMEOUT.

Definition expire_inactive_sessions (now : Z) (self : Device) : Device :=
  set_sessions (filter (λ e, still_active now e.2 = true) (sessions self)) self.

Definition clear_sessions (self : Device) : Device := set_sessions ∅ self.

(** [(0..MAX_SESSIONS).find(|sid| !self.sessions.contains_key(sid))]. *)
Definition free_session_id (self : Device) : option Z :=
  List.find (λ sid, negb (bool_decide (is_Some (sessions self !! sid))))
    (Z.of_nat <$> seq 0 (Z.to_nat MAX_SESSIONS)).

Definition insert_session (sid : Z) (entry : SessionEntry) (self : Device) : Device :=
  set_sessions (<[sid := entry]> (sessions self)) self.

Definition remove_session (sid : Z) (self : Device) : Device :=
  set_sessions (delete sid (sessions self)) self.

(** A method of the channel, on a channel that is kept only when it succeeds. *)
Definition run_channel {A} (m : Eff SecureSession DeviceError A) (secure : SecureSession) :
    Result (A * SecureSession) :=
  match m secure with
  | (Ok a, secure) => Ok (a, secure)
  | (Err e, _) => Err e
  | (Panic, _) => Panic
  | (Diverge, _) => Diverge
  end.

(** ** Creating a session *)

Definition open_symmetric_session (auth : SessionAuthorization) (sid : Z)
    (static_keys host_challenge : bytes) : Dev Frame :=
  _ ← lift (reject_if (negb (len host_challenge =? CHALLENGE_LENGTH)) WrongLength);
  card_challenge ← on_world (random_bytes CHALLENGE_LENGTH);
  '(secure, card_cryptogram, expected_host_cryptogram) ←
    lift (begin_symmetric sid static_keys host_challenge card_challenge);
  time ← on_world now;
  _ ← modify (insert_session sid
        (mkSessionEntry auth secure (Some expected_host_cryptogram) false time ∅));
  mret (response (CommandCode.to_byte CommandCode.CreateSession)
          (sid :: card_challenge ++ card_cryptogram)).

Definition open_asymmetric_session (auth : SessionAuthorization) (sid : Z)
    (host_static_public host_ephemeral_public : bytes) : Dev Frame :=
  _ ← lift (reject_if (negb (len host_ephemeral_public =? P256_PUBLIC_KEY_LENGTH)) WrongLength);
  self ← get_left;
  '(secure, device_ephemeral_public, receipt) ←
    on_world (begin_asymmetric sid (device_static_private self) host_static_public
                host_ephemeral_public);
  time ← on_world now;
  _ ← modify (insert_session sid (mkSessionEntry auth secure None true time ∅));
  _ ← modify record_unlogged_authentication_if_full;
  mret (response (CommandCode.to_byte CommandCode.CreateSession)
          (sid :: device_ephemeral_public ++ receipt)).

(** The closure of [create_session]. *)
Definition open_session (auth : SessionAuthorization) (authentication_key_id : Z)
    (host : bytes) : Dev Frame :=
  self ← get_left;
  material ← lift (authentication_key_material self authentication_key_id);
  sid ← lift (ok_or (free_session_id self) SessionsFull);
  match material with
  | Symmetric static_keys => open_symmetric_session auth sid static_keys host
  | Asymmetric host_static_public => open_asymmetric_session auth sid host_static_public host
  end.

(** The audit of a session command, with its result, which is then returned. *)
Definition audited (auth : SessionAuthorization) (command : CommandCode.CommandCode)
    (request : Frame) (m : Dev Frame) : Dev Frame :=
  result ← attempt m;
  _ ← modify (λ self,
        if should_audit self command
        then append_audit_entry self auth command request (result_code result) else self);
  lift result.

Definition create_session (request : Frame) : Dev Frame :=
  '(CreateSessionRequest_ authentication_key_id host) ←
    lift (decode CreateSessionRequest (data request));
  self ← get_left;
  auth ← lift (session_authorization self authentication_key_id);
  audited auth CommandCode.CreateSession request (open_session auth authentication_key_id host).

(** ** Authenticating a session

    The entry leaves the table first; only success puts it back. *)

Definition authenticate_entry (sid : Z) (entry : SessionEntry) (request : Frame) : Dev Frame :=
  _ ← lift (reject_if (authenticated entry) InvalidSession);
  expected ← lift (ok_or (expected_host_cryptogram entry) AuthenticationFailed);
  '(_, secure) ← lift (run_channel (authenticate_symmetric request expected) (secure entry));
  time ← on_world now;
  _ ← modify (insert_session sid
        (mkSessionEntry (authorization entry) secure None true time (session_objects entry)));
  _ ← modify record_unlogged_authentication_if_full;
  mret (response (CommandCode.to_byte CommandCode.AuthenticateSession) []).

Definition authenticate_session (request : Frame) : Dev Frame :=
  '(SessionEnvelopeRequest_ sid _) ← lift (decode AuthenticateSessionRequest (data request));
  self ← get_left;
  entry ← lift (ok_or (sessions self !! sid) InvalidSession);
  _ ← modify (remove_session sid);
  audited (authorization entry) CommandCode.AuthenticateSession request
    (authenticate_entry sid entry request).

(** ** One session message *)

(** The caller's hooks: a handler that may answer a decrypted command itself,
    and an observer of the command and its response. *)
Class Hooks := {
  handler : SessionAuthorization → Frame → World → option Frame * World;
  observer : SessionAuthorization → Frame → Frame → World → World;
}.

Definition no_handler (auth : SessionAuthorization) (inner : Frame) (w : World) :
    option Frame * World := (None, w).
Definition no_observer (auth : SessionAuthorization) (inner response : Frame) (w : World) :
    World := w.
Definition no_hooks : Hooks := {| handler := no_handler; observer := no_observer |}.

(** The session capability an inner command lacks, as an error. *)
Definition authorization_error (auth : SessionAuthorization) (inner : Frame) : option DeviceError :=
  required ← (command ← CommandCode.from_byte (command inner);
              CommandCode.required_session_capability command);
  match require_capability auth required with Err e => Some e | _ => None end.

(** The response a hook or a missing capability gives, without the device. *)
Definition handled_response `{Hooks} (auth : SessionAuthorization) (inner : Frame) :
    Eff World DeviceError (option Frame) := λ w,
  match authorization_error auth inner with
  | Some e => (Ok (Some (error e)), w)
  | None => let '(r, w) := handler auth inner w in (Ok r, w)
  end.

(** The built-in execution, with the handle table of the session. *)
Definition execute_in_session (auth : SessionAuthorization) (inner : Frame)
    (table : SessionObjects) : Dev (Frame * SessionObjects) := λ s,
  let '(r, (s, table)) := execute_inner_with_session auth inner (s, Some table) in
  (result ← r; Ok (result, default ∅ table), s).

Definition closes_session (inner response : Frame) (handled_externally : bool) : bool :=
  bool_decide (CommandCode.from_byte (command inner) = Some CommandCode.CloseSession)
  || (bool_decide (CommandCode.from_byte (command inner) = Some CommandCode.ResetDevice)
      && negb handled_externally && negb (command response =? ERROR_COMMAND)).

(** The answer is observed and sealed; the session goes back into the table
    unless the command closed it. *)
Definition answer_command `{Hooks} (sid : Z) (entry : SessionEntry) (inner : Frame)
    (secure : SecureSession) (time : Z) (handled_externally : bool) (answer : Frame)
    (table : SessionObjects) : Dev Frame :=
  let auth := authorization entry in
  let answer := if secure_response_fits answer then answer else error WrongLength in
  _ ← on_world (effect (λ w, (Ok tt, observer auth inner answer w)));
  '(outer, secure) ← lift (run_channel (encrypt_response answer) secure);
  _ ← (if closes_session inner answer handled_externally then mret tt
       else modify (insert_session sid
              (mkSessionEntry auth secure (expected_host_cryptogram entry) true time table)));
  mret outer.

(** The part that runs on the decrypted command. *)
Definition session_command `{Hooks} (sid : Z) (entry : SessionEntry) (inner : Frame)
    (secure : SecureSession) : Dev Frame :=
  time ← on_world now;
  let auth := authorization entry in
  handled ← on_world (handled_response auth inner);
  match handled with
  | Some answer => answer_command sid entry inner secure time true answer (session_objects entry)
  | None =>
      '(answer, table) ← execute_in_session auth inner (session_objects entry);
      answer_command sid entry inner secure time false answer table
  end.

Definition session_message_with `{Hooks} (request : Frame) : Dev Frame :=
  '(SessionEnvelopeRequest_ sid _) ← lift (decode SessionMessageRequest (data request));
  self ← get_left;
  entry ← lift (ok_or (sessions self !! sid) InvalidSession);
  _ ← modify (remove_session sid);
  _ ← lift (reject_if (negb (authenticated entry)) InvalidSession);
  '(inner, secure) ← lift (run_channel (decrypt_request request) (secure entry));
  session_command sid entry inner secure.

(** ** Entry points *)

Definition handle_frame_with_hooks `{Hooks} (request : Frame) : Dev Frame :=
  time ← on_world now;
  _ ← modify (expire_inactive_sessions time);
  match CommandCode.from_byte (command request) with
  | Some (CommandCode.Echo | CommandCode.GetDeviceInfo | CommandCode.GetDevicePublicKey) =>
      self ← get_left;
      lift (execute_plain self request)
  | command =>
      result ← attempt
        match command with
        | Some CommandCode.CreateSession => create_session request
        | Some CommandCode.AuthenticateSession => authenticate_session request
        | Some CommandCode.SessionMessage => session_message_with request
        | Some _ | None => fail InvalidCommand
        end;
      mret (match result with Ok r => r | Err e => error e | _ => error StorageFailed end)
  end.

(** [handle_encoded], [handle_encoded_with] and [handle_encoded_observing] differ
    only in the hooks. *)
Definition handle_encoded_hooks `{Hooks} (encoded : bytes) : Dev bytes :=
  reply ←
    match parse encoded with
    | Ok request => handle_frame_with_hooks request
    | Err e => mret (error e)
    | Panic => lift Panic
    | Diverge => lift Diverge
    end;
  mret (encode reply).

Definition handle_frame : Frame → Dev Frame := @handle_frame_with_hooks no_hooks.
Definition handle_encoded : bytes → Dev bytes := @handle_encoded_hooks no_hooks.
Definition handle_encoded_with
    (h : SessionAuthorization → Frame → World → option Frame * World) : bytes → Dev bytes :=
  @handle_encoded_hooks {| handler := h; observer := no_observer |}.
Definition handle_encoded_observing (o : SessionAuthorization → Frame → Frame → World → World) :
    bytes → Dev bytes :=
  @handle_encoded_hooks {| handler := no_handler; observer := o |}.
End sessions.
