(* ===== verification/Persistence.v ===== *)
(** * Durable state
    (crates/virtual-yubihsm-core/src/device.rs, lines 139-160, 744-861,
    3499-3515; persistent_runtime.rs)

    What is written to durable storage, how it is restored, the epoch of the
    pending change, and the runtime that owns one device and its state file. *)

From S2P Require Import Prelude Error Io Frame Firmware Algorithm Capability Protocol KeyCore Toy.
From S2P Require Import Wire Objects Authorization SessionObjects Requests SecureChannel.
From S2P Require Import DeviceState ObjectStore ObjectCommands KeyUse Wrapping Attestation.
From S2P Require Import SessionObjectCommands Dispatch Sessions.

Definition PERSISTENT_STATE_SCHEMA : string := "virtual-yubihsm-state".
Definition PERSISTENT_STATE_VERSION : Z := 3.

Record PersistentState : Type := mkPersistentState {
  state_schema : string;
  state_version : Z;
  state_config : DeviceConfig;
  state_objects : list StoredObjectRecord;
  state_static_private : bytes;
  state_state_epoch : Z;
  state_sequence_history : gmap Z Z;
  state_options : DeviceOptions;
  state_audit : AuditState;
}.

(** The derived [serde] codec of [PersistentState] over [ciborium]: the encoded
    state, and the decoded state with the number of bytes consumed. *)
Class StateCodec := {
  state_to_cbor : PersistentState → option bytes;
  state_from_cbor : bytes → option (PersistentState * Z);
}.

(** A state that was written is read back, to its last byte. *)
Class StateCodecLaws `{StateCodec} : Prop := {
  state_round_trip s b :
    state_to_cbor s = Some b → state_from_cbor b = Some (s, len b);
}.

Section persistence.
Context `{Build} `{HX : X509} `{Der} `{StateCodec} `{Fuel}.

Fixpoint stored_objects (records : list ObjectRecord) : Result (list StoredObjectRecord) :=
  match records with
  | [] => Ok []
  | record :: records =>
      stored ← to_stored record;
      rest ← stored_objects records;
      Ok (stored :: rest)
  end.

Definition persistent_state (self : Device) : Result bytes :=
  stored ← stored_objects (object_values (objects self));
  device_static_private ← ok_or (serialized (device_static_private self)) StorageFailed;
  _ ← reject_if (negb (len device_static_private =? 32)) StorageFailed;
  ok_or (state_to_cbor
           (mkPersistentState PERSISTENT_STATE_SCHEMA PERSISTENT_STATE_VERSION (config self)
              stored device_static_private (state_epoch self) (sequence_history self)
              (options self) (audit self))) StorageFailed.

(** The lengths that version 2 of the format recorded. *)
Definition version_two_object_length (object : ObjectRecord) : Result Z :=
  let algorithm := Algorithm.from_byte (algorithm (info object)) in
  match object_type (info object) with
  | AsymmetricKey =>
      match algorithm with
      | Some Ed25519 => Ok 64
      | Some algorithm => ok_or (asymmetric_object_length algorithm) InvalidData
      | None => Err InvalidData
      end
  | WrapKey =>
      if is_some_and algorithm is_rsa_key
      then ok_or (algorithm ≫= asymmetric_object_length) InvalidData
      else Ok (material_len (material object))
  | _ => Ok (material_len (material object))
  end.

(** One stored object, with the length of an older format normalised. *)
Definition restore_object (stored_version : Z) (stored : StoredObjectRecord) :
    Result ObjectRecord :=
  let stored_material_length := stored_len (stored_material stored) in
  object ← from_stored stored;
  object ←
    (if stored_version <? PERSISTENT_STATE_VERSION then
       previous_length ←
         match stored_version with
         | 1 => Ok stored_material_length
         | 2 => version_two_object_length object
         | _ => Err InvalidData
         end;
       _ ← reject_if (negb (length (info object) =? previous_length)) InvalidData;
       normalize_info_length object
     else Ok object);
  _ ← validate object;
  Ok object.

Fixpoint restore_objects (stored_version : Z) (objects : gmap ObjectKey ObjectRecord)
    (stored : list StoredObjectRecord) : Result (gmap ObjectKey ObjectRecord) :=
  match stored with
  | [] => Ok objects
  | s :: stored =>
      object ← restore_object stored_version s;
      let key := Info.key (info object) in
      _ ← reject_if (bool_decide (is_Some (objects !! key))) InvalidData;
      restore_objects stored_version (<[key := object]> objects) stored
  end.

(** The checks on a decoded state, before its objects. *)
Definition state_acceptable (config : DeviceConfig) (state : PersistentState) : bool :=
  bool_decide (state_schema state = PERSISTENT_STATE_SCHEMA)
  && bool_decide (state_version state ∈ [1; 2; PERSISTENT_STATE_VERSION])
  && (serial (state_config state) =? serial config)
  && (len (entries (state_audit state)) <=? log_capacity config)
  && valid_option_value (force_audit (state_options state))
  && valid_option_value (fips_mode (state_options state))
  && forallb (λ e, valid_option_value e.2) (map_to_list (command_audit (state_options state)))
  && forallb (λ e, valid_option_value e.2) (map_to_list (algorithm_toggle (state_options state))).

Definition from_persistent_state (config : DeviceConfig) (encoded : bytes) : Result Device :=
  '(state, position) ← ok_or (state_from_cbor encoded) InvalidData;
  _ ← reject_if (negb (position =? len encoded) || negb (state_acceptable config state))
        InvalidData;
  key ← ok_or (from_serialized_for_kind (KindEc P256) (state_static_private state)) InvalidData;
  _ ← reject_if (negb (history_validate (state_sequence_history state))) InvalidData;
  restored ← restore_objects (state_version state) ∅ (state_objects state);
  Ok (mkDevice config restored ∅ key (state_state_epoch state) (state_sequence_history state)
        (state_options state) (state_audit state) false).

(** One pending durable transaction, and its epoch. *)
Definition take_persistent_change : Dev bool :=
  self ← get_left;
  if negb (persistent_change self) then mret false
  else
    epoch ← lift (ok_or (checked_add (state_epoch self) 1) StorageFailed);
    _ ← modify (λ self, set_persistent_change false (set_epoch epoch self));
    mret true.

(** ** The runtime of one durable device *)

(** [std::fs], and the state writer of [software_key_core]: reading the state
    file, replacing it, whether the state lock is poisoned, the writer's health,
    a recorded mutation and the wait for it. *)
Class StateWriter := {
  Mutation : Type;
  fs_read : string → World → (bytes + IoError) * World;
  replace_file_atomically : string → bytes → World → option IoError * World;
  lock_poisoned : World → bool * World;
  check_health : World → option IoError * World;
  record_mutation : World → (Mutation + IoError) * World;
  wait_mutation : Mutation → World → option IoError * World;
}.

Context `{StateWriter}.

#[local] Abbreviation Io := (Eff World IoError).

Definition encode_state (device : Device) : outcome IoError bytes :=
  io_error OtherKind "encode persistent YubiHSM state: " (persistent_state device).

Definition load_or_create_state (config : DeviceConfig) (path : string) : Io Device := λ w,
  let '(file, w) := fs_read path w in
  match file with
  | inl encoded =>
      (io_error InvalidDataKind ("load persistent YubiHSM state " +:+ path +:+ ": ")
         (from_persistent_state config encoded), w)
  | inr error =>
      match io_kind error with
      | NotFound =>
          let '(device, w) := factory_default config w in
          (device ← lift (io_error OtherKind "" device);
           encoded ← lift (encode_state device);
           _ ← io_check (replace_file_atomically path encoded);
           mret device) w
      | _ => (Err (with_path error "read persistent YubiHSM state" path), w)
      end
  end.

(** The entry points of the device inside an I/O computation. *)
Definition in_device {A} (message : string) (m : Dev A) : Eff (Device * World) IoError A := λ s,
  let '(r, s) := m s in (io_error OtherKind message r, s).

Definition lock_state : Io unit := λ w,
  let '(poisoned, w) := lock_poisoned w in
  (if poisoned then Err (mkIoError OtherKind "virtual YubiHSM state lock poisoned") else Ok tt, w).

Definition execute_observing (observer : SessionAuthorization → Frame → Frame → World → World)
    (encoded : bytes) : Eff (Device * World) IoError bytes :=
  _ ← on_world (io_check check_health);
  _ ← on_world lock_state;
  answer ← in_device "" (handle_encoded_observing observer encoded);
  changed ← in_device "advance persistent YubiHSM state epoch: " take_persistent_change;
  _ ← (if changed : bool then
         mutation ← on_world (io_call record_mutation);
         on_world (io_check (wait_mutation mutation))
       else on_world (io_check check_health));
  mret answer.

(** [PersistentDeviceHandle::execute]. *)
Definition execute (encoded : bytes) : Eff (Device * World) IoError bytes :=
  execute_observing no_observer encoded.

Definition runtime_clear_sessions : Eff (Device * World) IoError unit :=
  _ ← on_world lock_state;
  modify clear_sessions.

(** ** Opening and closing *)

(** [StateLock] and the life of a [StatePersistence]: the exclusive lock on a
    file, the start of the writer, the wait for its last write and its end. *)
Class StateRuntime := {
  lock_acquire : string → World → option IoError * World;
  lock_release : World → World;
  persistence_start : Device → string → World → option IoError * World;
  persistence_flush : World → option IoError * World;
  persistence_shutdown : World → option IoError * World;
}.

Context `{StateRuntime}.

(** [Path::join] with a relative file name. *)
Definition path_join (directory name : string) : string :=
  if bool_decide (last (String.list_ascii_of_string directory) = Some (Ascii.ascii_of_nat 47))
  then directory +:+ name else directory +:+ "/" +:+ name.

Definition state_file (config : DeviceConfig) (extension : string) : string :=
  "yubihsm-" +:+ decimal (serial config) +:+ extension.

(** [PersistentDevice::open]: the lock is taken before the state is read, and
    released when opening fails. *)
Definition open (config : DeviceConfig) (directory : string) : Io Device := λ w,
  let '(locked, w) := lock_acquire (path_join directory (state_file config ".lock")) w in
  match locked with
  | Some error => (Err error, w)
  | None =>
      let state_path := path_join directory (state_file config ".cbor") in
      let '(r, w) :=
        (device ← load_or_create_state config state_path;
         _ ← io_check (persistence_start device state_path);
         mret device) w in
      (r, match r with Ok _ => w | _ => lock_release w end)
  end.

(** [DeviceConfig { serial, ..DeviceConfig::default() }] of the front ends. *)
Definition config_with_serial (serial : Z) : DeviceConfig :=
  let c := default_config in
  mkConfig (version c) serial (log_capacity c) (algorithms c) (part_number c).

Definition flush : Io unit := io_check persistence_flush.

(** [PersistentDevice::shutdown]: the lock is released after the last write. *)
Definition shutdown : Io unit := λ w,
  let '(r, w) := io_check persistence_shutdown w in (r, lock_release w).
End persistence.
