(* ===== verification/ToyState.v ===== *)
(** * A concrete codec of the durable state for the witnesses

    The state is written as a number, in binary, one digit per byte. *)

From S2P Require Import Prelude Error Frame Firmware Algorithm Capability Protocol KeyCore Toy.
From S2P Require Import Wire Objects Authorization SessionObjects Requests SecureChannel.
From S2P Require Import DeviceState ObjectStore ObjectCommands KeyUse Wrapping Attestation.
From S2P Require Import SessionObjectCommands Dispatch Sessions Persistence.

(** ** The state as a tuple *)

Definition info_fields (i : ObjectInfo) :=
  (to_bytes (capabilities i), (id i, length i, domains i),
   (ObjectTypes.to_byte (object_type i), Objects.algorithm i, sequence i, origin i),
   label i, to_bytes (delegated_capabilities i)).

Definition material_fields (m : StoredObjectMaterial) : Z * bytes * bytes :=
  match m with
  | StoredAuthentication (Symmetric v) => (0, v, [])
  | StoredAuthentication (Asymmetric v) => (1, v, [])
  | StoredSecret v => (2, v, [])
  | StoredOpaque v => (3, v, [])
  | StoredPublic v => (4, v, [])
  | StoredOtpAeadKey n k => (5, n, k)
  end.

Definition fields_material (f : Z * bytes * bytes) : StoredObjectMaterial :=
  match f with
  | (0, v, _) => StoredAuthentication (Symmetric v)
  | (1, v, _) => StoredAuthentication (Asymmetric v)
  | (2, v, _) => StoredSecret v
  | (3, v, _) => StoredOpaque v
  | (4, v, _) => StoredPublic v
  | (_, n, k) => StoredOtpAeadKey n k
  end.

Lemma fields_material_fields m : fields_material (material_fields m) = m.
Proof. by destruct m as [[]| | | |]. Qed.

Definition stored_fields (s : StoredObjectRecord) :=
  (info_fields (stored_info s), material_fields (stored_material s)).

Definition fields_stored
    (f : bytes * (Z * Z * Z) * (Z * Z * Z * Z) * bytes * bytes * (Z * bytes * bytes)) :
    StoredObjectRecord :=
  let '(caps, (id, length, domains), (type, algorithm, sequence, origin), label, delegated, m) := f in
  mkStored
    (mkObjectInfo (from_bytes caps) id length domains
       (default Opaque (ObjectTypes.from_byte type)) algorithm sequence origin label
       (from_bytes delegated))
    (fields_material m).

Lemma fields_stored_fields s : fields_stored (stored_fields s) = s.
Proof.
  destruct s as [[[] ? ? ? t ? ? ? ? []] m]. cbn. rewrite fields_material_fields.
  by rewrite ObjectTypes.object_type_from_to_byte.
Qed.

Definition entry_fields (e : AuditEntry) :=
  ((number e, entry_command e, entry_length e, session_key e),
   (target_key e, second_key e, result e, entry_systick e), entry_digest e).

Definition fields_entry (f : (Z * Z * Z * Z) * (Z * Z * Z * Z) * bytes) : AuditEntry :=
  let '((n, c, l, s), (t, k, r, y), d) := f in mkEntry n c l s t k r y d.

Lemma fields_entry_fields e : fields_entry (entry_fields e) = e.
Proof. by destruct e. Qed.

Definition state_fields (s : PersistentState) :=
  let c := state_config s in let o := state_options s in let a := state_audit s in
  ((state_schema s, state_version s),
   (version c, serial c, log_capacity c, algorithms c, part_number c),
   (stored_fields <$> state_objects s),
   (state_static_private s, state_state_epoch s, state_sequence_history s),
   (force_audit o, command_audit o, algorithm_toggle o, fips_mode o),
   ((entry_fields <$> entries a), next_number a, systick a, previous_digest a, unlogged_boot a,
    unlogged_authentication a)).

Definition fields_state
    (f : (string * Z) * (bytes * Z * Z * list Z * bytes) *
         list (bytes * (Z * Z * Z) * (Z * Z * Z * Z) * bytes * bytes * (Z * bytes * bytes)) *
         (bytes * Z * gmap Z Z) * (Z * gmap Z Z * gmap Z Z * Z) *
         (list ((Z * Z * Z * Z) * (Z * Z * Z * Z) * bytes) * Z * Z * bytes * Z * Z)) :
    PersistentState :=
  let '((schema, v), (cv, cs, cl, ca, cp), objs, (key, epoch, history), (fa, ca', at', fm),
        (es, nn, st, pd, ub, ua)) := f in
  mkPersistentState schema v (mkConfig cv cs cl ca cp) (fields_stored <$> objs) key epoch history
    (mkOptions fa ca' at' fm) (mkAudit (fields_entry <$> es) nn st pd ub ua).

Lemma fields_state_fields s : fields_state (state_fields s) = s.
Proof.
  destruct s as [? ? [] objs ? ? ? [] [es ? ? ? ? ?]]. cbn. f_equal.
  - rewrite <- list_fmap_compose. rewrite <- (list_fmap_id objs) at 2.
    apply list_fmap_ext. intros. apply fields_stored_fields.
  - f_equal. rewrite <- list_fmap_compose. rewrite <- (list_fmap_id es) at 2.
    apply list_fmap_ext. intros. apply fields_entry_fields.
Qed.

(** ** Binary digits *)

Fixpoint digits (p : positive) : bytes :=
  match p with xH => [] | xO p => 0 :: digits p | xI p => 1 :: digits p end.

Fixpoint undigits (b : bytes) : positive :=
  match b with [] => xH | 0 :: b => xO (undigits b) | _ :: b => xI (undigits b) end.

Lemma undigits_digits p : undigits (digits p) = p.
Proof. induction p; cbn; congruence. Qed.

#[export] Instance toy_state_codec : StateCodec := {|
  state_to_cbor s := Some (digits (countable.encode (state_fields s)));
  state_from_cbor b := fields ← countable.decode (undigits b); Some (fields_state fields, len b);
|}.

#[export] Instance toy_state_codec_laws : StateCodecLaws.
Proof.
  split. intros s b Hb. cbn [state_to_cbor toy_state_codec] in Hb. injection Hb as <-.
  cbn [state_from_cbor toy_state_codec]. rewrite undigits_digits, decode_encode.
  cbn [mbind option_bind]. by rewrite fields_state_fields.
Qed.
