(* ===== verification/PersistenceProperties.v ===== *)
(** * Properties of the durable state

    Saving a device and restoring it loses the sessions and the mark of the
    pending change, and nothing else. *)

From S2P Require Import Prelude Error Frame Firmware Algorithm Capability Protocol KeyCore Toy.
From S2P Require Import Wire Objects Authorization SessionObjects Requests SecureChannel.
From S2P Require Import DeviceState ObjectStore ObjectCommands KeyUse Wrapping Attestation.
From S2P Require Import SessionObjectCommands Dispatch CommandEffects StoreProperties.
From S2P Require Import QueryProperties DeviceInvariant Sessions Persistence ToyState.

Section restore.
Context `{Build} `{HX : X509} `{Der} `{StateCodec} `{Fuel} `{!KeyStorageLaws}.

(** ** One object *)

(** The material has the shape of the algorithm: a parsed key where a private
    key belongs, of the kind of the algorithm, and raw bytes elsewhere. *)
Definition key_typed (r : ObjectRecord) : Prop :=
  ∃ a, Algorithm.from_byte (Objects.algorithm (info r)) = Some a ∧
  match material r with
  | SigningKey k =>
      holds_private_key (info r) = true ∧ Objects.key_kind a = Ok (KeyCore.key_kind k) ∧
      (is_rsa_key a = true → ∃ modulus, public_key k = PublicRsa modulus [1; 0; 1])
  | MontgomeryKey k =>
      holds_private_key (info r) = true ∧
      (a = X25519 ∧ montgomery_curve k = CurveX25519 ∨ a = X448 ∧ montgomery_curve k = CurveX448)
  | MlKemKey k => holds_private_key (info r) = true ∧ ml_kem a = Some (ml_kem_parameter_set k)
  | HybridKemKey k => holds_private_key (info r) = true ∧ hybrid_kem a = Some (hybrid_construction k)
  | Secret _ => holds_private_key (info r) = false
  | _ => True
  end.

Lemma left_pad_ok b n p : left_pad b n = Ok p → p = zeros (n - len b) ++ b ∧ len p = n ∧ 0 ≤ n - len b.
Proof.
  unfold left_pad. intros Hp. apply outcome_bind_ok in Hp as ([] & Hl & [= <-]).
  apply reject_if_ok in Hl. bool_prop. rewrite len_app, len_zeros by lia.
  split; [done|]. lia.
Qed.

(** A key of each kind is found again from its stored secret. *)
Lemma signing_key_restores i k m a :
  Algorithm.from_byte (Objects.algorithm i) = Some a → holds_private_key i = true →
  Objects.key_kind a = Ok (KeyCore.key_kind k) →
  (is_rsa_key a = true → ∃ modulus, public_key k = PublicRsa modulus [1; 0; 1]) →
  to_stored (mkObjectRecord i (SigningKey k)) = Ok m → from_stored m = Ok (mkObjectRecord i (SigningKey k)).
Proof.
  intros Ha Hh Hk Hrsa Hs. unfold to_stored in Hs. cbn [info material] in Hs.
  apply outcome_bind_ok in Hs as (stored & Hs & [= <-]). rewrite Ha in Hs. cbn in Hs.
  destruct (is_rsa_key a) eqn:Hr.
  - destruct (Hrsa eq_refl) as [modulus Hpub].
    apply outcome_bind_ok in Hs as ([p q] & Hc & Hs). apply ok_or_ok in Hc.
    apply outcome_bind_ok in Hs as (n & Hn & Hs). apply ok_or_ok in Hn.
    apply outcome_bind_ok in Hs as (p' & Hp & Hs). apply outcome_bind_ok in Hs as (q' & Hq & [= <-]).
    apply left_pad_ok in Hp as (-> & Hlp & Hzp). apply left_pad_ok in Hq as (-> & Hlq & Hzq).
    cbn [fst snd] in *.
    assert (∃ bits, KeyCore.key_kind k = KindRsa bits ∧ n / 2 = bits / 16 ∧ n = n / 2 + n / 2 ∧
      n mod 2 = 0 ∧ ml_kem a = None ∧ hybrid_kem a = None ∧ a ≠ X25519 ∧ a ≠ X448)
      as (bits & Hkind & Hhalf & Hsum & Heven & Hml & Hhy & Hx1 & Hx2).
    { destruct a; try done; injection Hn as <-; injection Hk as <-; eexists; done. }
    unfold from_stored. cbn [stored_material stored_info]. rewrite Hh.
    unfold typed_private_material. rewrite Ha. cbn [ok_or mbind outcome_bind].
    rewrite Hml, Hhy, Hr, Hn. rewrite bool_decide_false by naive_solver. cbn [ok_or mbind outcome_bind].
    rewrite (proj2 (Z.eqb_eq _ n)), Heven by (rewrite len_app; lia).
    cbn [negb orb Z.eqb reject_if mbind outcome_bind].
    rewrite (ztake_app_eq (n / 2)), (zdrop_app_eq (n / 2)) by done.
    by rewrite (rsa_primes_restore k bits modulus) by (done || congruence).
  - apply outcome_bind_ok in Hs as (b & Hb & [= <-]). apply ok_or_ok in Hb.
    assert (ml_kem a = None ∧ hybrid_kem a = None ∧ a ≠ X25519 ∧ a ≠ X448)
      as (Hml & Hhy & Hx1 & Hx2) by by destruct a.
    unfold from_stored. cbn [stored_material stored_info]. rewrite Hh.
    unfold typed_private_material. rewrite Ha. cbn [ok_or mbind outcome_bind].
    rewrite Hml, Hhy, Hr, Hk. rewrite bool_decide_false by naive_solver. cbn [ok_or mbind outcome_bind].
    by rewrite (serialized_restores _ _ Hb).
Qed.

Lemma record_restores r s : key_typed r → to_stored r = Ok s → from_stored s = Ok r.
Proof.
  destruct r as [i m]. intros (a & Ha & Ht) Hs. cbn [info material] in *.
  destruct m as [v|k|k|k|k|v|v|v|nonce v].
  - injection Hs as <-. done.
  - destruct Ht as (Hh & Hk & Hr). by eapply signing_key_restores.
  - destruct Ht as [Hh Hc]. injection Hs as <-. unfold from_stored. cbn. rewrite Hh.
    unfold typed_private_material. rewrite Ha. cbn [ok_or mbind outcome_bind].
    pose proof (montgomery_restores k) as Hk.
    destruct Hc as [[-> Hc]|[-> Hc]]; rewrite Hc in Hk; cbn [ml_kem hybrid_kem ok_or mbind outcome_bind].
    + rewrite (bool_decide_true (_ ∨ _)), bool_decide_true by auto. by rewrite Hk.
    + rewrite (bool_decide_true (_ ∨ _)), bool_decide_false by auto. by rewrite Hk.
  - destruct Ht as [Hh Hc]. injection Hs as <-. unfold from_stored. cbn. rewrite Hh.
    unfold typed_private_material. rewrite Ha. cbn. rewrite Hc. cbn. by rewrite ml_kem_restores.
  - destruct Ht as [Hh Hc]. injection Hs as <-. unfold from_stored. cbn. rewrite Hh.
    unfold typed_private_material. rewrite Ha. cbn. rewrite Hc.
    assert (ml_kem a = None) as -> by by destruct a. cbn. by rewrite hybrid_restores.
  - injection Hs as <-. unfold from_stored. cbn. by rewrite Ht.
  - injection Hs as <-. done.
  - injection Hs as <-. done.
  - injection Hs as <-. done.
Qed.

Lemma restore_object_current r s :
  key_typed r → validate r = Ok tt → to_stored r = Ok s →
  restore_object PERSISTENT_STATE_VERSION s = Ok r.
Proof.
  intros Ht Hv Hs. unfold restore_object. rewrite (record_restores _ _ Ht Hs).
  cbn [mbind outcome_bind]. cbn. by rewrite Hv.
Qed.

(** ** The store *)

(** What restoring a list of objects adds to a store. *)
Definition add_records (m : gmap ObjectKey ObjectRecord) (rs : list ObjectRecord) :
    gmap ObjectKey ObjectRecord :=
  foldl (λ m r, <[Info.key (info r) := r]> m) m rs.

Lemma restore_objects_add rs stored m :
  Forall (λ r, key_typed r ∧ validate r = Ok tt) rs → stored_objects rs = Ok stored →
  NoDup ((λ r, Info.key (info r)) <$> rs) →
  (∀ r, r ∈ rs → m !! Info.key (info r) = None) →
  restore_objects PERSISTENT_STATE_VERSION m stored = Ok (add_records m rs).
Proof.
  intros Hrs. revert stored m. induction Hrs as [|r rs [Ht Hv] _ IH]; intros stored m Hs Hn Hm.
  { by injection Hs as <-. }
  cbn in Hs. apply outcome_bind_ok in Hs as (s & Hs & Hrest).
  apply outcome_bind_ok in Hrest as (rest & Hrest & [= <-]).
  apply NoDup_cons in Hn as [Hnin Hn]. cbn [restore_objects].
  rewrite (restore_object_current r) by done. cbn [mbind outcome_bind].
  rewrite bool_decide_false by (rewrite (Hm r) by left; by intros []).
  cbn [reject_if mbind outcome_bind]. apply IH; [done..|].
  intros r' Hr'. rewrite lookup_insert_ne; [apply Hm; by right|].
  intros Heq. apply Hnin. rewrite Heq. by apply (list_elem_of_fmap_2 (λ r, Info.key (info r))).
Qed.

Lemma lookup_add_records rs m k :
  NoDup ((λ r, Info.key (info r)) <$> rs) →
  (∀ r, r ∈ rs → Info.key (info r) = k → add_records m rs !! k = Some r) ∧
  ((∀ r, r ∈ rs → Info.key (info r) ≠ k) → add_records m rs !! k = m !! k).
Proof.
  revert m. induction rs as [|r rs IH]; intros m Hn; [split; [by intros r Hr%elem_of_nil|done]|].
  apply NoDup_cons in Hn as [Hnin Hn].
  change (add_records m (r :: rs)) with (add_records (<[Info.key (info r) := r]> m) rs).
  destruct (IH (<[Info.key (info r) := r]> m) Hn) as [IH1 IH2]. split.
  - intros r' [->|Hr']%elem_of_cons Hk; [|by apply IH1]. subst k. rewrite IH2.
    + by rewrite lookup_insert_eq.
    + intros r'' Hr'' Heq. apply Hnin. rewrite <- Heq.
      by apply (list_elem_of_fmap_2 (λ r, Info.key (info r))).
  - intros Hall. rewrite IH2 by (intros; apply Hall; by right).
    rewrite lookup_insert_ne; [done|]. apply Hall. by left.
Qed.

(** The values of a well-formed store rebuild it. *)
Lemma add_object_values (m : gmap ObjectKey ObjectRecord) :
  map_Forall (λ k r, Info.key (info r) = k) m → add_records ∅ (object_values m) = m.
Proof.
  intros Hm. assert (NoDup ((λ r, Info.key (info r)) <$> object_values m)) as Hn
    by (rewrite object_values_keys by done; apply ordered_keys_NoDup).
  apply map_eq. intros k. destruct (lookup_add_records (object_values m) ∅ k Hn) as [Hin Hout].
  destruct (m !! k) as [r|] eqn:Hl.
  - apply Hin; [|by apply Hm]. apply elem_of_object_values. by exists k.
  - rewrite Hout; [apply lookup_empty|]. intros r [k' Hk']%elem_of_object_values Heq.
    rewrite (Hm _ _ Hk') in Heq. congruence.
Qed.

(** ** The state *)

Context `{!StateCodecLaws}.

Lemma options_valid_list (m : gmap Z Z) :
  map_Forall (λ _ v, valid_option_value v = true) m →
  forallb (λ e, valid_option_value e.2) (map_to_list m) = true.
Proof.
  intros Hm. apply forallb_forall. intros [k v] Hin. apply list_elem_of_In, elem_of_map_to_list in Hin.
  by apply (Hm k).
Qed.

Lemma history_valid (h : gmap Z Z) : map_Forall generation_ok h → history_validate h = true.
Proof.
  intros Hh. apply forallb_forall. intros [id g] Hin. apply list_elem_of_In, elem_of_map_to_list in Hin.
  destruct (Hh _ _ Hin) as [[Hz Hm] _].
  by rewrite (proj2 (Z.eqb_neq _ _) Hz), (proj2 (Z.eqb_neq _ _) Hm).
Qed.

Lemma saved_state_acceptable d stored key :
  device_ok d →
  state_acceptable (config d)
    (mkPersistentState PERSISTENT_STATE_SCHEMA PERSISTENT_STATE_VERSION (config d) stored key
       (state_epoch d) (sequence_history d) (options d) (audit d)) = true.
Proof.
  intros [_ _ _ [Hf Hc Ha Hfips] [_ _ _ Hb]]. unfold state_acceptable. cbn -[Z.leb].
  rewrite Hf, Hfips, !options_valid_list, Z.eqb_refl by done.
  by rewrite (proj2 (Z.leb_le _ _) Hb).
Qed.

(** C34: a restart keeps everything but the sessions. The saved state of a device
    that satisfies the invariant and holds keys of the kinds of their algorithms
    is read back, under the same configuration, as the same device: the same
    objects with their keys, generations, options, audit log, identity key and
    epoch, without sessions and without a pending change. *)
Theorem saved_state_restores (d : Device) (encoded : bytes) :
  device_ok d → map_Forall (λ _ r, key_typed r) (objects d) →
  KeyCore.key_kind (device_static_private d) = KindEc P256 →
  persistent_state d = Ok encoded →
  from_persistent_state (config d) encoded = Ok (set_persistent_change false (set_sessions ∅ d)).
Proof.
  intros Hd Ht Hk Hp. unfold persistent_state in Hp.
  apply outcome_bind_ok in Hp as (stored & Hs & Hp).
  apply outcome_bind_ok in Hp as (key & Hkey & Hp). apply ok_or_ok in Hkey.
  apply outcome_bind_ok in Hp as ([] & _ & Hp). apply ok_or_ok in Hp.
  unfold from_persistent_state. rewrite (state_round_trip _ _ Hp). cbn [ok_or mbind outcome_bind].
  rewrite Z.eqb_refl, saved_state_acceptable by done. cbn [negb orb reject_if mbind outcome_bind].
  cbn [state_static_private state_sequence_history state_version state_objects state_state_epoch
       state_options state_audit].
  pose proof (serialized_restores _ _ Hkey) as Hkr. rewrite Hk in Hkr. rewrite Hkr.
  cbn [ok_or mbind outcome_bind]. pose proof Hd as [Hobj _ Hhist _ _].
  rewrite history_valid by done. cbn [negb reject_if mbind outcome_bind].
  assert (map_Forall (λ k r, Info.key (info r) = k) (objects d)) as Hkeys
    by (intros k r Hl; by destruct (Hobj _ _ Hl)).
  rewrite (restore_objects_add (object_values (objects d))); [| |done| |].
  - cbn [mbind outcome_bind]. rewrite add_object_values by done. done.
  - apply Forall_forall. intros r [k Hl]%elem_of_object_values.
    split; [by apply (Ht k)|by destruct (Hobj k r Hl)].
  - rewrite object_values_keys by done. apply ordered_keys_NoDup.
  - intros r _. apply lookup_empty.
Qed.
End restore.

(** ** Witness *)

#[local] Existing Instance default_build.
#[local] Existing Instance toy_fuel.

Lemma example_device_ok : device_ok example_device.
Proof. by apply (factory_device_ok default_config). Qed.

Lemma saved_state_restores_witness :
  ∃ encoded, persistent_state example_device = Ok encoded ∧
    from_persistent_state default_config encoded = Ok example_device.
Proof.
  eexists. split; [reflexivity|].
  apply (saved_state_restores example_device); [apply example_device_ok| |done|reflexivity].
  intros k r Hl. cbn in Hl. apply lookup_insert_Some in Hl as [[_ <-]|[_ Hl]].
  - exists Algorithm.Aes128YubicoAuthentication. done.
  - by rewrite lookup_empty in Hl.
Defined.
