(* ===== verification/SessionSteps.v ===== *)
(** * The session table as a state machine

    An abstract specification of what one frame may do to the session table, the
    proof that the entry points implement it, and what follows: who can execute
    a command, how long a session keeps its rights, and how large the table
    gets. *)

From S2P Require Import Prelude Error Frame Firmware Algorithm Capability Protocol KeyCore Toy.
From S2P Require Import Wire Objects Authorization SessionObjects Requests SecureChannel.
From S2P Require Import DeviceState ObjectStore ObjectCommands KeyUse Wrapping Attestation.
From S2P Require Import SessionObjectCommands Dispatch SessionObjectProperties.
From S2P Require Import CommandEffects StoreProperties DeviceInvariant.
From S2P Require Import Sessions.

Section steps.
Context `{Build} `{HX : X509} `{Der} `{Fuel}.

(** ** The specification *)

(** A new session: its rights are those of a stored authentication key; a
    session from a symmetric key waits for the host cryptogram, one from an
    asymmetric key is complete. *)
Record fresh_session (d : Device) (sid : Z) (entry : SessionEntry) : Prop := {
  fresh_rights : session_authorization d (authentication_key_id (authorization entry))
                 = Ok (authorization entry);
  fresh_sid : SecureChannel.sid (secure entry) = sid;
  fresh_objects : session_objects entry = ∅;
  fresh_expected : authenticated entry = negb (bool_decide (is_Some (expected_host_cryptogram entry)));
}.

(** Authentication: the frame proves the host cryptogram under the MAC key. *)
Record confirms (request : Frame) (old new : SessionEntry) : Prop := {
  confirm_pending : authenticated old = false;
  confirm_proof : ∃ expected mac, expected_host_cryptogram old = Some expected ∧
    authenticated_by (secure old) request mac (SecureChannel.sid (secure old) :: expected) ∧
    new = mkSessionEntry (authorization old)
            (set_counter (increment_counter (counter (secure old)))
               (set_chaining mac (secure old)))
            None true (last_activity new) (session_objects old);
}.

(** One command: the frame verifies under the MAC key, and the message counter
    advances; rights and keys do not change. *)
Record uses (request : Frame) (old new : SessionEntry) : Prop := {
  use_authenticated : authenticated old = true;
  use_still_authenticated : authenticated new = true;
  use_rights : authorization new = authorization old;
  use_expected : expected_host_cryptogram new = expected_host_cryptogram old;
  use_objects : session_objects_ok (session_objects old) → session_objects_ok (session_objects new);
  use_proof : ∃ mac payload,
    authenticated_by (secure old) request mac payload ∧
    head payload = Some (SecureChannel.sid (secure old)) ∧
    secure new = set_counter (increment_counter (counter (secure old)))
                   (set_chaining mac (secure old));
}.

(** What one frame may do to the table, on the device [d]. *)
Inductive session_step (d : Device) (request : Frame) (t : gmap Z SessionEntry) :
    gmap Z SessionEntry → Prop :=
| step_kept : session_step d request t t
| step_opened sid entry :
    t !! sid = None → 0 ≤ sid < MAX_SESSIONS → fresh_session d sid entry →
    session_step d request t (<[sid := entry]> t)
| step_dropped sid :
    is_Some (t !! sid) → head (data request) = Some sid → session_step d request t (delete sid t)
| step_confirmed sid old new :
    t !! sid = Some old → head (data request) = Some sid → confirms request old new →
    session_step d request t (<[sid := new]> t)
| step_used sid old new :
    t !! sid = Some old → head (data request) = Some sid → uses request old new →
    session_step d request t (<[sid := new]> t)
| step_cleared sid old :
    t !! sid = Some old → authenticated old = true →
    contains (session_capabilities (authorization old)) Capability.ResetDevice = true →
    session_step d request t ∅.

(** ** The pieces *)

Lemma free_session_id_spec d sid :
  free_session_id d = Some sid → 0 ≤ sid < MAX_SESSIONS ∧ sessions d !! sid = None.
Proof.
  intros Hf. apply List.find_some in Hf as [Hin Hs]. bool_prop.
  apply list_elem_of_In, list_elem_of_fmap in Hin as (n & -> & Hn).
  apply elem_of_seq in Hn. unfold MAX_SESSIONS in *. split; [lia|by apply eq_None_not_Some].
Qed.

Lemma session_authorization_key d id auth :
  session_authorization d id = Ok auth → authentication_key_id auth = id.
Proof.
  unfold session_authorization. intros Ha. apply outcome_bind_ok in Ha as (r & _ & Ha).
  destruct (material r); try done. by injection Ha as <-.
Qed.

Lemma begin_symmetric_sid sid keys host card s c h :
  begin_symmetric sid keys host card = Ok (s, c, h) → SecureChannel.sid s = sid.
Proof. unfold begin_symmetric. intros. inv_ok. done. Qed.

Lemma begin_asymmetric_sid sid key host eph w s p r w' :
  begin_asymmetric sid key host eph w = (Ok (s, p, r), w') → SecureChannel.sid s = sid.
Proof.
  unfold begin_asymmetric. intros Hb.
  repeat (apply eff_bind_ok in Hb as (? & ? & _ & Hb)). by injection Hb as <- <- <- <-.
Qed.

(** ** Invariants

    A predicate on the device that every command and all the bookkeeping of the
    sessions preserve. *)

Class CommandInvariant (I : Device → Prop) : Prop := {
  invariant_inner auth request d r d' : inner_outcome auth request d r d' → I d → I d';
  invariant_append auth c request n d : I d → I (append_audit_entry d auth c request n);
  invariant_unlogged d : I d → I (record_unlogged_authentication_if_full d);
  invariant_sessions t d : I d → I (set_sessions t d);
}.

#[export] Instance no_invariant : CommandInvariant (λ _, True).
Proof. by split. Qed.

#[export] Instance device_ok_invariant `{!KdfLaws} : CommandInvariant device_ok.
Proof.
  split; intros.
  - by eapply inner_outcome_ok.
  - by apply append_audit_entry_ok.
  - by apply record_unlogged_ok.
  - by apply set_sessions_ok.
Qed.

Context (I : Device → Prop) `{!CommandInvariant I}.

(** Bookkeeping that follows a session command. *)
Definition table_change (d d' : Device) : Prop :=
  same_store (set_sessions ∅ d) (set_sessions ∅ d') ∧ marked d d' ∧ (I d → I d').

#[export] Instance table_change_preorder : PreOrder table_change.
Proof.
  split; [by split|]. intros a b c (? & ? & ?) (? & ? & ?).
  split; [by etransitivity|]. split; [by etransitivity|auto].
Qed.

Lemma same_store_table d d' :
  same_store d d' → marked d d' → (I d → I d') → table_change d d'.
Proof. intros [] ? ?. split; [|done]. by split. Qed.

Lemma set_sessions_change t d : table_change d (set_sessions t d).
Proof. split; [by split|]. split; [by right|apply invariant_sessions]. Qed.

Lemma record_unlogged_change d : table_change d (record_unlogged_authentication_if_full d).
Proof.
  apply same_store_table; [apply record_unlogged_store|apply record_unlogged_marked|].
  apply invariant_unlogged.
Qed.

Lemma append_audit_change auth c request n d :
  table_change d (append_audit_entry d auth c request n).
Proof.
  apply same_store_table; [apply append_audit_entry_store|apply append_audit_entry_marked|].
  apply invariant_append.
Qed.

(** The audit of a session command leaves the table to the command. *)
Lemma wp_audited auth c request m (P : gmap Z SessionEntry → Prop) d0 s :
  wp m (λ _ s', P (sessions s'.1) ∧ table_change d0 s'.1) s →
  wp (audited auth c request m) (λ _ s', P (sessions s'.1) ∧ table_change d0 s'.1) s.
Proof.
  intros Hm. unfold audited. apply wp_bind, wp_attempt. eapply wp_mono; [exact Hm|].
  intros r s' Hs. cbv beta in *.
  assert (∀ n, let d' := if should_audit s'.1 c then append_audit_entry s'.1 auth c request n else s'.1 in
    P (sessions d') ∧ table_change d0 d') as Ha.
  { intros n. destruct (should_audit _ _); [|done]. destruct Hs as [Hp Hc]. split.
    - by rewrite (same_sessions _ _ (append_audit_entry_store _ _ _ _ _)).
    - etransitivity; [done|apply append_audit_change]. }
  destruct r; [| |done|done]; apply wp_bind, wp_modify; cbn [fst snd]; apply wp_lift; apply Ha.
Qed.

Lemma open_session_step d0 auth id host request (w : World) :
  session_authorization d0 id = Ok auth →
  wp (open_session auth id host) (λ _ s', session_step d0 request (sessions d0) (sessions s'.1) ∧
    table_change d0 s'.1) (d0, w).
Proof.
  intros Ha. assert (∀ sid entry, free_session_id d0 = Some sid → authorization entry = auth →
    SecureChannel.sid (secure entry) = sid → session_objects entry = ∅ →
    authenticated entry = negb (bool_decide (is_Some (expected_host_cryptogram entry))) →
    session_step d0 request (sessions d0) (<[sid := entry]> (sessions d0))) as Hopen.
  { intros sid entry [? ?]%free_session_id_spec <- ? ? ?. apply step_opened; [done..|].
    split; [|done..]. by rewrite (session_authorization_key _ _ _ Ha). }
  assert (session_step d0 request (sessions d0) (sessions d0) ∧ table_change d0 d0) as Hbad
    by (split; [apply step_kept|done]).
  unfold open_session, open_symmetric_session, open_asymmetric_session.
  wp_walk_with ltac:(exact Hbad).
  - apply wp_bind, wp_modify. apply wp_ret. cbn [fst snd]. inv_ok. split.
    + apply Hopen; try done. by eapply begin_symmetric_sid.
    + apply set_sessions_change.
  - apply wp_bind, wp_modify. cbn [fst snd]. apply wp_bind, wp_modify. apply wp_ret. cbn [fst snd].
    inv_ok. split.
    + rewrite (same_sessions _ _ (record_unlogged_store _)).
      apply Hopen; try done. by eapply begin_asymmetric_sid.
    + etransitivity; [apply set_sessions_change|apply record_unlogged_change].
Qed.

Lemma create_session_step request d w :
  wp (create_session request) (λ _ s', session_step d request (sessions d) (sessions s'.1) ∧
    table_change d s'.1) (d, w).
Proof.
  assert (session_step d request (sessions d) (sessions d) ∧ table_change d d) as Hbad
    by (split; [apply step_kept|done]).
  unfold create_session. wp_walk_with ltac:(exact Hbad).
  apply (wp_audited _ _ _ _ (session_step d request (sessions d))). by apply open_session_step.
Qed.

Lemma decode_envelope_head data sid body :
  decode SessionEnvelopeRequest data = Ok (SessionEnvelopeRequest_ sid body) →
  data = sid :: body.
Proof.
  destruct data as [|b data]; [done|].
  unfold decode, decode_fields, decode_session_envelope, decoder, mbind, eff_bind.
  rewrite read_u8_cons. cbn. by intros [= -> ->].
Qed.

Lemma run_channel_ok {A} (m : Eff SecureSession DeviceError A) s a s' :
  run_channel m s = Ok (a, s') → m s = (Ok a, s').
Proof. unfold run_channel. destruct (m s) as [[] ?]; intros; inv_ok; done. Qed.

Lemma authenticate_symmetric_ok request expected s s' :
  authenticate_symmetric request expected s = (Ok tt, s') →
  ∃ mac, authenticated_by s request mac (sid s :: expected) ∧
    s' = set_counter (increment_counter (counter s)) (set_chaining mac s).
Proof.
  unfold authenticate_symmetric. intros Ha.
  apply eff_bind_ok in Ha as (payload & s1 & Hv & Ha).
  apply verify_request_mac_ok in Hv as (mac & prefix & Hmac & Hp & Hd & ->).
  apply eff_bind_ok in Ha as (? & ? & [= <- <-] & Ha). rewrite lift_bind in Ha.
  destruct (reject_if _ _) eqn:Hr; try done. apply reject_if_ok in Hr.
  injection Ha as <-. bool_prop. exists mac. split; [|done]. exists prefix.
  split; [done|]. split; [done|]. rewrite Hd. f_equal.
  destruct payload as [|b payload]; [done|]. cbn in *. simplify_eq. done.
Qed.

Lemma authenticate_session_step request d w :
  wp (authenticate_session request) (λ _ s', session_step d request (sessions d) (sessions s'.1) ∧
    table_change d s'.1) (d, w).
Proof.
  assert (session_step d request (sessions d) (sessions d) ∧ table_change d d) as Hbad
    by (split; [apply step_kept|done]).
  unfold authenticate_session. wp_walk_with ltac:(exact Hbad).
  match goal with Hd : decode _ _ = _ |- _ => apply decode_envelope_head in Hd end. inv_ok.
  apply wp_bind, wp_modify. cbn [fst snd].
  match goal with Hl : sessions d !! ?i = Some ?e |- _ => rename i into sid, e into entry end.
  assert (session_step d request (sessions d) (delete sid (sessions d)) ∧
    table_change d (remove_session sid d)) as Hdrop.
  { split; [|apply set_sessions_change]. apply step_dropped; [by eexists|].
    by match goal with Hd : data request = _ |- _ => rewrite Hd end. }
  apply (wp_audited _ _ _ _ (session_step d request (sessions d))).
  unfold authenticate_entry. wp_walk_with ltac:(exact Hdrop).
  apply wp_bind, wp_modify. cbn [fst snd]. apply wp_bind, wp_modify. apply wp_ret. cbn [fst snd].
  inv_ok.
  match goal with Hr : run_channel _ _ = Ok (?u, _) |- _ =>
    destruct u; apply run_channel_ok, authenticate_symmetric_ok in Hr as (mac & Hm & Heq) end.
  split.
  - rewrite (same_sessions _ _ (record_unlogged_store _)). cbn [sessions insert_session set_sessions remove_session].
    rewrite insert_delete_eq. eapply step_confirmed; [done| |].
    + by match goal with Hd : data request = _ |- _ => rewrite Hd end.
    + split; [done|]. do 2 eexists. split; [done|]. split; [done|]. cbn. by rewrite Heq.
  - etransitivity; [apply (set_sessions_change (delete sid (sessions d)))|].
    etransitivity; [apply set_sessions_change|].
    apply record_unlogged_change.
Qed.

(** ** Commands and the table *)

Lemma effect_sessions auth data d d' c :
  command_effect auth data d d' c →
  sessions d' = sessions d ∨ (c = CommandCode.ResetDevice ∧ sessions d' = ∅).
Proof.
  by intros [c' ? ->|c' ? (? & ? & ->)|? ? ? ? ? ? (? & ? & ? & ? & ->)
    |? ? ? ? (? & ? & ? & ? & ->)|? ? ? ? ? ->|? ? ->|? ? ->|? ->]; [left..|right].
Qed.

Lemma known_command_from_byte b c : known_command b = Some c → CommandCode.from_byte b = Some c.
Proof.
  unfold known_command. destruct (CommandCode.from_byte b) as [c'|]; [|done]. cbn.
  by destruct (CommandCode.supported_by_firmware c').
Qed.

(** Durable changes are marked, the epoch and the configuration stay, and the
    invariant is preserved: what every command and every frame
    guarantees. *)
Record kept (d d' : Device) : Prop := {
  kept_marked : marked d d';
  kept_epoch : state_epoch d' = state_epoch d;
  kept_config : config d' = config d;
  kept_invariant : I d → I d';
}.

#[export] Instance kept_preorder : PreOrder kept.
Proof.
  split; [by split|]. intros a b c [] []. split; [by etransitivity|congruence..|auto].
Qed.

Lemma table_change_kept d d' : table_change d d' → kept d d'.
Proof. by intros ([] & ? & ?). Qed.

Lemma set_sessions_kept t d : kept d (set_sessions t d).
Proof. apply table_change_kept, set_sessions_change. Qed.

Lemma effect_epoch auth data d d' c :
  command_effect auth data d d' c → state_epoch d' = state_epoch d ∧ config d' = config d.
Proof.
  by intros [c' ? ->|c' ? (? & ? & ->)|? ? ? ? ? ? (? & ? & ? & ? & ->)
    |? ? ? ? (? & ? & ? & ? & ->)|? ? ? ? ? ->|? ? ->|? ? ->|? ->].
Qed.

Lemma inner_outcome_kept auth request d r d' :
  inner_outcome auth request d r d' → kept d d'.
Proof.
  intros Ho.
  assert (state_epoch d' = state_epoch d ∧ config d' = config d) as [? ?].
  { destruct Ho as [|result d1 He _|]; [done| |done].
    rewrite (same_epoch _ _ (record_execution_store auth request _ result d1)).
    rewrite (same_config _ _ (record_execution_store auth request _ result d1)).
    destruct result; [|cbn in He; by subst..].
    destruct He as (? & _ & _ & He & _). by eapply effect_epoch. }
  split; [by eapply inner_outcome_marked|done|done|].
  intros ?. by eapply invariant_inner.
Qed.

(** A command clears the table only as a device reset that succeeds. *)
Lemma inner_outcome_sessions auth request d r d' :
  inner_outcome auth request d r d' →
  sessions d' = sessions d ∨
  (sessions d' = ∅ ∧ CommandCode.from_byte (command request) = Some CommandCode.ResetDevice ∧
   contains (session_capabilities auth) Capability.ResetDevice = true ∧
   ∃ answer, r = Ok answer ∧ succeeded answer ∧ secure_response_fits answer = true).
Proof.
  intros [? ?|result d1 He Hs|? ?]; [by left| |by left].
  rewrite (same_sessions _ _ (record_execution_store auth request _ result d1)).
  destruct result as [answer|e| |]; [|cbn in He; subst; by left..].
  destruct He as (c & Hk & Ha & He & _).
  destruct (effect_sessions _ _ _ _ _ He) as [?|[-> ?]]; [by left|right].
  split; [done|]. split; [by apply known_command_from_byte|].
  apply outcome_bind_ok in Ha as ([] & Hcap & _). split; [by apply require_capability_ok|].
  eexists. split; [done|]. split; [apply response_succeeded|].
  pose proof (len_nonneg answer).
  apply secure_response_data_fits_spec; cbn; lia.
Qed.

Lemma inner_outcome_stopped auth request d r d' :
  inner_outcome auth request d r d' → is_ok r = false → d' = d.
Proof. by intros []. Qed.

Lemma execute_in_session_outcome auth inner table d w :
  wp (execute_in_session auth inner table)
    (λ r s', inner_outcome auth inner d (fst <$> r) s'.1) (d, w).
Proof.
  pose proof (execute_inner_outcome auth inner d w (Some table)) as Ho.
  unfold wp, execute_in_session in *.
  destruct (execute_inner_with_session auth inner (d, w, Some table)) as [r [[d' w'] t']].
  cbn in *. by destruct r.
Qed.

(** *** The handle table *)

(** The handle table of the dispatcher, when there is one, is within its bounds. *)
Definition handles_ok (t : option SessionObjects) : Prop :=
  match t with Some t => session_objects_ok t | None => True end.

Definition keeps_handles {A} (m : Eff ((Device * World) * option SessionObjects) DeviceError A) : Prop :=
  ∀ s, handles_ok s.2 → wp m (λ _ s', handles_ok s'.2) s.

Lemma on_device_handles {A} (m : Dev A) : keeps_handles (on_device m).
Proof. intros s Hs. unfold wp, on_device. by destruct (m s.1). Qed.

Lemma lift_handles {A} (r : Result A) : keeps_handles (lift r).
Proof. intros s Hs. by apply wp_lift. Qed.

Lemma bind_handles {A B} (m : Eff _ DeviceError A) (f : A → Eff _ DeviceError B) :
  keeps_handles m → (∀ a, keeps_handles (f a)) → keeps_handles (m ≫= f).
Proof.
  intros Hm Hf s Hs. apply wp_bind. eapply wp_mono; [by apply Hm|].
  intros [] s' ?; [by apply Hf|done..].
Qed.

Lemma attempt_handles {A} (m : Eff _ DeviceError A) : keeps_handles m → keeps_handles (attempt m).
Proof. intros Hm s Hs. apply wp_attempt. eapply wp_mono; [by apply Hm|]. by intros [] ?. Qed.

Lemma on_table_handles m :
  (∀ self, table_kept (m self)) → keeps_handles (on_table m).
Proof.
  intros Hm [[d w] [t|]] Ht; [|done]. specialize (Hm d t w Ht).
  unfold wp, on_table in *. cbn [fst snd] in *. by destruct (m d (t, w)) as [r [t' w']].
Qed.

Lemma run_command_handles auth c data : keeps_handles (run_command auth c data).
Proof.
  destruct c; cbn [run_command];
    first [ apply on_device_handles | apply lift_handles
          | apply on_table_handles; intros; apply session_object_command_kept ].
Qed.

Lemma execute_inner_handles auth inner : keeps_handles (execute_inner_with_session auth inner).
Proof.
  intros s Hs. unfold wp, execute_inner_with_session.
  destruct (_ && _ && _); [done|].
  match goal with |- handles_ok (?m s).2.2 => assert (keeps_handles m) as Hm; [|by apply Hm] end.
  apply bind_handles; [apply attempt_handles, bind_handles|intros r; apply bind_handles].
  - intros s' Hs'. unfold wp, execute_inner_result.
    destruct (execute_plain_or_authenticated _ _); [done|].
    match goal with |- handles_ok (?m s').2.2 => assert (keeps_handles m) as Hm; [|by apply Hm] end.
    repeat (apply bind_handles; [first [apply lift_handles|apply on_device_handles]|intros ?]).
    apply run_command_handles.
  - intros a. apply bind_handles; [apply lift_handles|intros _; apply lift_handles].
  - apply on_device_handles.
  - intros _. apply lift_handles.
Qed.

Lemma execute_in_session_handles auth inner table s :
  wp (execute_in_session auth inner table)
    (λ r _, match r with
            | Ok (_, t) => session_objects_ok table → session_objects_ok t
            | _ => True
            end) s.
Proof.
  destruct (execute_in_session auth inner table s) as [r0 s0] eqn:He.
  unfold wp at 1. rewrite He. destruct r0 as [[answer t0]|e| |]; [|done..]. intros Ht.
  pose proof (execute_inner_handles auth inner (s, Some table) Ht) as Hw.
  unfold wp in Hw. unfold execute_in_session in He.
  destruct (execute_inner_with_session auth inner (s, Some table)) as [r [s' [t|]]]; cbn in *;
    destruct r; simplify_eq/=; [done|apply empty_session_objects].
Qed.

(** The state after the built-in or the external execution of a command. *)
Inductive handled_outcome (auth : SessionAuthorization) (inner : Frame) (d : Device)
    (external : bool) (answer : Frame) (d' : Device) : Prop :=
| handled_external : external = true → d' = d → handled_outcome auth inner d external answer d'
| handled_builtin :
    external = false → inner_outcome auth inner d (Ok answer) d' →
    handled_outcome auth inner d external answer d'.

Lemma handled_outcome_kept auth inner d b answer d' :
  handled_outcome auth inner d b answer d' → kept d d'.
Proof. intros [_ ->|_ Ho]; [done|by eapply inner_outcome_kept]. Qed.

(** A session survives its command only when the table did. *)
Lemma handled_outcome_sessions auth inner d b answer d' :
  handled_outcome auth inner d b answer d' →
  sessions d' = sessions d ∨
  (sessions d' = ∅ ∧ contains (session_capabilities auth) Capability.ResetDevice = true ∧
   closes_session inner (if secure_response_fits answer then answer else error WrongLength) b = true).
Proof.
  intros [_ ->|Hb Ho]; [by left|subst b].
  destruct (inner_outcome_sessions _ _ _ _ _ Ho) as [?|(? & Hc & ? & a & [= <-] & Hs & Hf)]; [by left|].
  right. split; [done|]. split; [done|]. rewrite Hf. unfold closes_session.
  rewrite (bool_decide_true (_ = Some CommandCode.ResetDevice)) by done. cbn.
  apply orb_true_iff. right. unfold succeeded in Hs. by apply negb_true_iff, Z.eqb_neq.
Qed.

Lemma encrypt_response_ok answer s outer s' :
  encrypt_response answer s = (Ok outer, s') →
  s' = set_counter (increment_counter (counter s)) s.
Proof.
  unfold encrypt_response. intros He.
  apply eff_bind_ok in He as (? & ? & [= <- <-] & He).
  repeat (apply eff_bind_ok in He as (? & ? & [= _ <-] & He)).
  by injection He as _ <-.
Qed.

(** A verified command, seen from the device without its session. *)
Record verified (request : Frame) (d : Device) (sid : Z) (entry : SessionEntry)
    (secure' : SecureSession) : Prop := {
  verified_entry : sessions d !! sid = Some entry;
  verified_head : head (data request) = Some sid;
  verified_authenticated : authenticated entry = true;
  verified_proof : ∃ mac payload, authenticated_by (secure entry) request mac payload ∧
    head payload = Some (SecureChannel.sid (secure entry)) ∧
    secure' = set_chaining mac (secure entry);
}.

Lemma verified_dropped request d sid entry secure' :
  verified request d sid entry secure' →
  session_step d request (sessions d) (delete sid (sessions d)) ∧ kept d (remove_session sid d).
Proof. intros []. split; [by apply step_dropped; [eexists|]|apply set_sessions_kept]. Qed.

Lemma answer_command_step `{!Hooks} request d sid entry inner secure' time b answer table d' w :
  verified request d sid entry secure' →
  (session_objects_ok (session_objects entry) → session_objects_ok table) →
  handled_outcome (authorization entry) inner (remove_session sid d) b answer d' →
  wp (answer_command sid entry inner secure' time b answer table)
    (λ _ s', session_step d request (sessions d) (sessions s'.1) ∧ kept d s'.1) (d', w).
Proof.
  intros Hv Htab Ho. pose proof (verified_dropped _ _ _ _ _ Hv) as [Hdrop Hm].
  assert (kept d d') as Hmark
    by (etransitivity; [exact Hm|by eapply handled_outcome_kept]).
  destruct Hv as [Hl Hhead Hauth (mac & payload & Hmac & Hpay & ->)].
  destruct (handled_outcome_sessions _ _ _ _ _ _ Ho) as [Hs|(Hs & Hcap & Hc)].
  - assert (session_step d request (sessions d) (sessions d') ∧ kept d d') as Hbad by by rewrite Hs.
    unfold answer_command. wp_walk_with ltac:(exact Hbad); [by apply wp_ret|].
    apply wp_bind, wp_modify, wp_ret. cbn [fst snd]. split; [|by etransitivity; [|apply set_sessions_kept]].
    cbn. rewrite Hs. cbn. rewrite insert_delete_eq. eapply step_used; [done..|].
    split; [done..|]. exists mac, payload. split; [done|]. split; [done|]. cbn.
    match goal with Hr : run_channel _ _ = Ok _ |- _ =>
      apply run_channel_ok, encrypt_response_ok in Hr as -> end. done.
  - assert (session_step d request (sessions d) (sessions d') ∧ kept d d') as Hbad.
    { rewrite Hs. split; [by eapply step_cleared|done]. }
    unfold answer_command. wp_walk_with ltac:(exact Hbad); [by apply wp_ret|congruence].
Qed.

Lemma session_command_step `{!Hooks} request d sid entry inner secure' w :
  verified request d sid entry secure' →
  wp (session_command sid entry inner secure')
    (λ _ s', session_step d request (sessions d) (sessions s'.1) ∧ kept d s'.1)
    (remove_session sid d, w).
Proof.
  intros Hv. pose proof (verified_dropped _ _ _ _ _ Hv) as Hdrop.
  unfold session_command. wp_walk_with ltac:(exact Hdrop).
  - eapply answer_command_step; [done..|by apply handled_external].
  - apply wp_bind. eapply wp_mono.
    { apply wp_conj; [apply execute_in_session_outcome|].
      apply (execute_in_session_handles (authorization entry) inner (session_objects entry)). }
    intros r s'. destruct s' as [d' ?], r as [[answer table]|e| |]; intros [Ho Ht]; cbn [fst snd].
    1: eapply answer_command_step; [done|exact Ht|by apply handled_builtin].
    all: by rewrite (inner_outcome_stopped _ _ _ _ d' Ho).
Qed.

Lemma decrypt_request_verified request d sid entry inner secure' :
  sessions d !! sid = Some entry → head (data request) = Some sid → authenticated entry = true →
  decrypt_request request (secure entry) = (Ok inner, secure') →
  verified request d sid entry secure'.
Proof.
  intros Hl Hh Ha Hd. split; [done..|].
  apply decrypt_request_cases in Hd as [[_ ?]|(mac & payload & ? & -> & _ & Hok)]; [done|].
  exists mac, payload. by destruct (Hok eq_refl).
Qed.

Lemma session_message_step `{!Hooks} request d w :
  wp (session_message_with request)
    (λ _ s', session_step d request (sessions d) (sessions s'.1) ∧ kept d s'.1) (d, w).
Proof.
  assert (session_step d request (sessions d) (sessions d) ∧ kept d d) as Hbad
    by (split; [apply step_kept|done]).
  unfold session_message_with. wp_walk_with ltac:(exact Hbad).
  match goal with Hd : decode _ _ = _ |- _ => apply decode_envelope_head in Hd end. inv_ok.
  match goal with Hl : sessions d !! ?i = Some ?e |- _ => rename i into sid, e into entry, Hl into Hl end.
  assert (head (data request) = Some sid) as Hhead
    by by match goal with Hd : data request = _ |- _ => rewrite Hd end.
  assert (session_step d request (sessions d) (delete sid (sessions d)) ∧
    kept d (remove_session sid d)) as Hdrop.
  { split; [by apply step_dropped; [eexists|]|apply set_sessions_kept]. }
  apply wp_bind, wp_modify. cbn [fst snd]. wp_walk_with ltac:(exact Hdrop).
  apply session_command_step. inv_ok. bool_prop. eapply decrypt_request_verified; [done..|].
  by eapply run_channel_ok.
Qed.

(** ** One frame *)

Lemma expire_change time d : table_change d (expire_inactive_sessions time d).
Proof. apply set_sessions_change. Qed.

(** The table when the frame is processed: the sessions idle for less than the
    timeout. *)
Definition active_table (time : Z) (d : Device) : gmap Z SessionEntry :=
  sessions (expire_inactive_sessions time d).

(** The rule of expiry, apart from the code: a session is live at a time if its
    last use is less than thirty seconds old. *)
Definition live_at (time : Z) (entry : SessionEntry) : Prop :=
  time - last_activity entry < 30000.

(** What is left of a table at a time: its live entries, as they are. *)
Definition live_part (time : Z) (t t' : gmap Z SessionEntry) : Prop :=
  ∀ sid entry, t' !! sid = Some entry ↔ t !! sid = Some entry ∧ live_at time entry.

Lemma still_active_live time entry : still_active time entry = true ↔ live_at time entry.
Proof. unfold still_active, live_at, SESSION_INACTIVITY_TIMEOUT. rewrite Z.ltb_lt. lia. Qed.

Lemma live_part_active time d : live_part time (sessions d) (active_table time d).
Proof.
  intros sid entry. unfold active_table, expire_inactive_sessions. cbn [sessions set_sessions].
  rewrite map_lookup_filter_Some. cbn [snd]. by rewrite still_active_live.
Qed.

(** What a frame leaves: the table steps, durable changes are marked, and only a
    verified session message may change the store. *)
Record frame_effect (request : Frame) (d : Device) (time : Z) (d' : Device) : Prop := {
  frame_step : session_step d request (active_table time d) (sessions d');
  frame_kept : kept d d';
  frame_store : table_change d d' ∨
    ∃ sid entry secure',
      CommandCode.from_byte (command request) = Some CommandCode.SessionMessage ∧
      verified request (expire_inactive_sessions time d) sid entry secure';
}.

(** [session_authorization] reads only the objects. *)
Lemma session_step_expired time d request t t' :
  session_step (expire_inactive_sessions time d) request t t' → session_step d request t t'.
Proof.
  intros [|sid entry Hl Hb [Hr ? ? ?]|?|?|?|?];
    [apply step_kept|by apply step_opened|by apply step_dropped|by eapply step_confirmed
    |by eapply step_used|by eapply step_cleared].
Qed.

(** A session message changes the store only through a verified command. *)
Lemma session_message_store `{!Hooks} request d w :
  wp (session_message_with request)
    (λ r s', (s'.2 = w ∧ is_ok r = false ∧
              (s'.1 = d ∨ ∃ sid, s'.1 = remove_session sid d ∧ head (data request) = Some sid)) ∨
             ∃ sid entry secure', verified request d sid entry secure') (d, w).
Proof.
  unfold session_message_with. wp_walk_with ltac:(left; split; [done|split; [done|by left]]).
  match goal with Hd : decode _ _ = _ |- _ => apply decode_envelope_head in Hd end. inv_ok.
  match goal with Hl : sessions d !! ?i = Some ?e |- _ => rename i into sid, e into entry end.
  assert (head (data request) = Some sid) as Hhead
    by by match goal with Hd : data request = _ |- _ => rewrite Hd end.
  apply wp_bind, wp_modify. cbn [fst snd].
  wp_walk_with ltac:(left; split; [done|split; [done|right; by exists sid]]).
  right. inv_ok. bool_prop. do 3 eexists.
  eapply decrypt_request_verified; [done..|by eapply run_channel_ok].
Qed.

Lemma handle_frame_effect `{!Hooks} request d w :
  wp (handle_frame_with_hooks request)
    (λ _ s', frame_effect request d (instant_now w).1 s'.1) (d, w).
Proof.
  unfold handle_frame_with_hooks. apply wp_bind. unfold wp at 1, on_world, reading, now.
  cbn [fst snd]. destruct (instant_now w) as [time w1]. cbn [fst snd].
  apply wp_bind, wp_modify. cbn [fst snd].
  set (d1 := expire_inactive_sessions time d).
  assert (∀ d', session_step d1 request (sessions d1) (sessions d') → table_change d1 d' →
    frame_effect request d time d') as Htable.
  { intros d' Hs Hc. assert (table_change d d') as Hc' by (etransitivity; [apply (expire_change time)|done]).
    split; [by apply session_step_expired in Hs|by apply table_change_kept|by left]. }
  assert (frame_effect request d time d1) as Hbad by (apply Htable; [apply step_kept|done]).
  assert (∀ m : Dev Frame, wp m (λ _ s', frame_effect request d time s'.1) (d1, w1) →
    wp (r ← attempt m; mret (match r with Ok r => r | Err e => error e | _ => error StorageFailed end))
      (λ _ s', frame_effect request d time s'.1) (d1, w1)) as Hguard.
  { intros m Hm. apply wp_bind, wp_attempt. eapply wp_mono; [exact Hm|].
    by intros [] ? ?; try apply wp_ret. }
  destruct (CommandCode.from_byte (command request)) as [[]|] eqn:Hc;
    try (apply wp_get_bind, wp_lift; exact Hbad); apply Hguard; try (by apply wp_fail).
  - eapply wp_mono; [apply create_session_step|]. intros ? s' [? ?]. by apply Htable.
  - eapply wp_mono; [apply authenticate_session_step|]. intros ? s' [? ?]. by apply Htable.
  - eapply wp_mono; [apply wp_conj; [apply session_message_step|apply session_message_store]|].
    intros r s' [[Hs Hm] Hv]. cbv beta in *.
    split; [by apply session_step_expired in Hs|etransitivity; [apply (table_change_kept _ _ (expire_change time d))|done]|].
    destruct Hv as [(_ & _ & Hv)|(sid & entry & secure' & Hv)].
    + left. etransitivity; [apply (expire_change time)|].
      destruct Hv as [->|(sid & -> & _)]; [done|apply set_sessions_change].
    + right. by exists sid, entry, secure'.
Qed.

Lemma handle_encoded_effect `{!Hooks} encoded d w :
  wp (handle_encoded_hooks encoded)
    (λ _ s', match parse encoded with
             | Ok request => frame_effect request d (instant_now w).1 s'.1
             | _ => s'.1 = d
             end) (d, w).
Proof.
  unfold handle_encoded_hooks. apply wp_bind.
  destruct (parse encoded) as [request|e| |] eqn:Hp; [|by apply wp_ret, wp_ret|done..].
  eapply wp_mono; [apply handle_frame_effect|]. by intros [] s' ?; try apply wp_ret.
Qed.

(** The same, by cases. *)
Lemma handle_encoded_cases `{!Hooks} encoded d w :
  wp (handle_encoded_hooks encoded)
    (λ _ s', s'.1 = d ∨ ∃ request, parse encoded = Ok request ∧
               frame_effect request d (instant_now w).1 s'.1) (d, w).
Proof.
  eapply wp_mono; [apply handle_encoded_effect|]. intros r s'.
  destruct (parse encoded) as [request|e| |]; [right; by exists request|by left..].
Qed.
End steps.
