(* ===== verification/SessionProperties.v ===== *)
(** * Properties of sessions and of the entry points

    Complete mediation at the connector, the evolution of the session table, its
    invariant over every history of frames, and the durability of acknowledged
    changes. *)

From S2P Require Import Prelude Error Io Frame Firmware Algorithm Capability Protocol KeyCore Toy.
From S2P Require Import Wire Objects Authorization SessionObjects Requests SecureChannel.
From S2P Require Import DeviceState ObjectStore ObjectCommands KeyUse Wrapping Attestation.
From S2P Require Import SessionObjectCommands Dispatch CommandEffects StoreProperties DeviceInvariant.
From S2P Require Import Sessions Persistence SessionSteps.

Section sessions.
Context `{Build} `{HX : X509} `{Der} `{StateCodec} `{Fuel}.

(** Nothing is claimed of the device. *)
#[local] Abbreviation no_claim := (λ _ : Device, True).

Lemma handle_encoded_kept I `{!CommandInvariant I} (h : Hooks) encoded d w :
  wp (handle_encoded_hooks encoded) (λ _ s', kept I d s'.1) (d, w).
Proof.
  eapply wp_mono; [apply (handle_encoded_cases I)|]. by intros r s' [->|(? & _ & [])].
Qed.

(** ** Histories of the device

    Any sequence of encoded frames, under any hooks, with the sessions cleared
    and pending changes collected in between. *)

Inductive entry_step (s : Device * World) : Device * World → Prop :=
| entry_frame (h : Hooks) encoded : entry_step s (handle_encoded_hooks encoded s).2
| entry_cleared : entry_step s (clear_sessions s.1, s.2)
| entry_collected : entry_step s (take_persistent_change s).2.

(** The invariant of the table: a session is stored under its own number, below
    the bound, is authenticated exactly when no host cryptogram is awaited, and
    keeps its handle table within its bounds. *)
Record session_ok (sid : Z) (entry : SessionEntry) : Prop := {
  session_number : 0 ≤ sid < MAX_SESSIONS;
  session_channel : SecureChannel.sid (secure entry) = sid;
  session_pending : authenticated entry = negb (bool_decide (is_Some (expected_host_cryptogram entry)));
  session_handles : session_objects_ok (session_objects entry);
}.

Definition table_ok (t : gmap Z SessionEntry) : Prop := map_Forall session_ok t.

Lemma table_ok_insert t sid entry :
  table_ok t → session_ok sid entry → table_ok (<[sid := entry]> t).
Proof. intros. by apply map_Forall_insert_2. Qed.

Lemma table_ok_delete t sid : table_ok t → table_ok (delete sid t).
Proof. apply map_Forall_delete. Qed.

Lemma table_ok_active time d : table_ok (sessions d) → table_ok (active_table time d).
Proof. intros Ht sid entry Hl. apply map_lookup_filter_Some in Hl as [Hl _]. by apply Ht. Qed.

Lemma session_step_ok d request t t' : table_ok t → session_step d request t t' → table_ok t'.
Proof.
  intros Ht [|sid entry _ Hb [_ Hs Ho He]|sid _ _
    |sid old new Hl _ [_ (expected & mac & _ & _ & ->)]
    |sid old new Hl _ [Ha Hn _ Hx Ho (mac & payload & _ & _ & Hs)]|]; [done|..].
  - apply table_ok_insert; [done|]. split; [done..|]. rewrite Ho. apply empty_session_objects.
  - by apply table_ok_delete.
  - apply table_ok_insert; [done|]. destruct (Ht _ _ Hl) as [? <- _ ?]. by split.
  - apply table_ok_insert; [done|]. destruct (Ht _ _ Hl) as [? ? Hp ?].
    split; [done|by rewrite Hs| |by apply Ho]. rewrite Hn, Hx. congruence.
  - apply map_Forall_empty.
Qed.

Lemma table_ok_size t : table_ok t → Z.of_nat (size t) ≤ MAX_SESSIONS.
Proof.
  intros Ht. rewrite <- size_dom. change MAX_SESSIONS with (Z.of_nat 16). apply Nat2Z.inj_le.
  change 16%nat with (size (list_to_set (Z.of_nat <$> seq 0 16) : gset Z)).
  apply subseteq_size. intros sid Hs. apply elem_of_dom in Hs as [entry Hl].
  destruct (Ht _ _ Hl) as [Hb _ _ _]. apply elem_of_list_to_set, list_elem_of_fmap.
  exists (Z.to_nat sid). rewrite elem_of_seq. unfold MAX_SESSIONS in Hb. lia.
Qed.

Lemma entry_step_ok s s' : table_ok (sessions s.1) → entry_step s s' → table_ok (sessions s'.1).
Proof.
  destruct s as [d w]. intros Ht [h encoded| |].
  - pose proof (handle_encoded_cases no_claim encoded d w) as He. unfold wp in He.
    destruct He as [->|(request & _ & [Hs _ _])]; [done|].
    eapply session_step_ok; [|exact Hs]. by apply table_ok_active.
  - apply map_Forall_empty.
  - unfold take_persistent_change, get_left, lift, modify, mbind, eff_bind. cbn.
    destruct (persistent_change d); [|done]. cbn. by destruct (checked_add _ _).
Qed.

(** C17: the session table over every history. Whatever frames arrive, under
    whatever hooks, a session is always stored under its own number below
    sixteen, is authenticated exactly when no host cryptogram is awaited, holds at
    most sixty-four volatile objects, and there are at most sixteen sessions. *)
Theorem session_table_invariant (s s' : Device * World) :
  table_ok (sessions s.1) → rtc entry_step s s' →
  table_ok (sessions s'.1) ∧ active_session_count s'.1 ≤ MAX_SESSIONS.
Proof.
  intros Ht Hs. assert (table_ok (sessions s'.1)) as Ht'.
  { induction Hs; [done|]. eauto using entry_step_ok. }
  split; [done|]. by apply table_ok_size.
Qed.

(** C7: the evolution of sessions. A frame that parses removes exactly the sessions
    that were last used thirty seconds ago or earlier, whatever it asks for and
    whether it succeeds, and then does one step of the specification to what is
    left: it leaves it, opens a session with the rights of a stored authentication
    key at a free number, drops the session it names, completes a pending session
    that it proves the host cryptogram of, uses an authenticated session whose MAC
    it carries, or clears the table from a session that may reset the device. Bytes
    that do not parse leave the device as it is. *)
Theorem frames_step_the_session_table `{!Hooks} (encoded : bytes) (d : Device) (w : World) :
  wp (handle_encoded_hooks encoded) (λ _ s',
    match parse encoded with
    | Ok request => ∃ live, live_part (instant_now w).1 (sessions d) live ∧
                            session_step d request live (sessions s'.1)
    | _ => s'.1 = d
    end) (d, w).
Proof.
  eapply wp_mono; [apply (handle_encoded_effect no_claim)|]. intros r s'.
  destruct (parse encoded) as [request|e| |]; [|done..]. intros [Hs _ _].
  exists (active_table (instant_now w).1 d). by split; [apply live_part_active|].
Qed.

(** What an unauthenticated peer must not change. *)
Definition store (d : Device) :=
  (config d, objects d, device_static_private d, state_epoch d, sequence_history d, options d).

(** C1: complete mediation at the connector. If handling an encoded frame changes
    an object, the generation history, an option or the identity key, then the
    frame is a session message for a live, authenticated session and its MAC
    verifies under that session's key and chaining value. *)
Theorem changes_need_a_verified_session `{!Hooks} (encoded : bytes) (d : Device) (w : World) :
  wp (handle_encoded_hooks encoded) (λ _ s', store s'.1 ≠ store d →
    ∃ request sid entry mac payload,
      parse encoded = Ok request ∧
      CommandCode.from_byte (command request) = Some CommandCode.SessionMessage ∧
      head (data request) = Some sid ∧ sessions d !! sid = Some entry ∧
      still_active (instant_now w).1 entry = true ∧ authenticated entry = true ∧
      authenticated_by (secure entry) request mac payload ∧
      head payload = Some (SecureChannel.sid (secure entry))) (d, w).
Proof.
  eapply wp_mono; [apply (handle_encoded_cases no_claim)|].
  intros r s' [->|(request & Hp & [_ _ Hs])] Hne; [done|].
  destruct Hs as [[[] _]|(sid & entry & secure' & Hc & [Hl ? ? (mac & payload & ? & ? & _)])].
  - destruct Hne. unfold store. cbn in *. congruence.
  - apply map_lookup_filter_Some in Hl as [Hl Hact].
    by exists request, sid, entry, mac, payload.
Qed.

(** C18: an unverified message executes nothing. When a session message names no
    live authenticated session or its MAC does not verify, the answer is an error
    frame, the device differs at most by the idle sessions and the named one, and
    nothing outside the device happens after the clock is read: no key operation,
    no random draw, no hook. *)
Theorem unverified_messages_execute_nothing `{!Hooks} (request : Frame) (d : Device) (w : World) :
  CommandCode.from_byte (command request) = Some CommandCode.SessionMessage →
  let live := expire_inactive_sessions (instant_now w).1 d in
  (∀ sid entry secure', ¬ verified request live sid entry secure') →
  wp (handle_frame_with_hooks request) (λ r s',
    s'.2 = (instant_now w).2 ∧ (is_ok r = true → ∃ e, r = Ok (error e)) ∧
    (s'.1 = live ∨ ∃ sid, s'.1 = remove_session sid live ∧ head (data request) = Some sid)) (d, w).
Proof.
  intros Hc live Hnv. unfold handle_frame_with_hooks. apply wp_bind.
  subst live. unfold wp at 1, on_world, reading, now. cbn [fst snd].
  destruct (instant_now w) as [time w1]. cbn [fst snd] in *.
  apply wp_bind, wp_modify. cbn [fst snd]. rewrite Hc. apply wp_bind, wp_attempt.
  eapply wp_mono; [apply session_message_store|].
  intros r s' [(Hw & Hr & Hd)|(sid & entry & secure' & Hv)]; [|by destruct (Hnv _ _ _ Hv)].
  destruct r as [|e| |]; [done|apply wp_ret|split; [done|]; split; [done|]; by eauto..].
  split; [done|]. split; [by exists e|done].
Qed.

(** ** The invariant *)

Lemma collected_ok s : device_ok s.1 → device_ok (take_persistent_change s).2.1.
Proof.
  destruct s as [d w]. unfold take_persistent_change, get_left, lift, modify, mbind, eff_bind.
  cbn. destruct (persistent_change d); [|done]. cbn. destruct (checked_add _ _); [|done].
  by intros []; split.
Qed.

Lemma entry_step_device_ok `{!KdfLaws} s s' : device_ok s.1 → entry_step s s' → device_ok s'.1.
Proof.
  destruct s as [d w]. intros Hd [h encoded| |].
  - pose proof (handle_encoded_kept device_ok h encoded d w) as [_ _ _ Hk]. by apply Hk.
  - by apply set_sessions_ok.
  - by apply collected_ok.
Qed.

(** C32: the invariant of the device. In every state that a factory-fresh device
    reaches, whatever frames it is sent and under whatever hooks, each object is
    stored under its own key and satisfies the validation of its type, algorithm
    and length; each identifier in use has a generation; each option holds a valid
    value; and the audit log is within its capacity and is a digest chain of
    consecutive entries. *)
Theorem device_invariant `{!KdfLaws} (c : DeviceConfig) (static_private : bytes) (d : Device)
    (w : World) (s' : Device * World) :
  0 ≤ log_capacity c → factory_default_with_device_static_private c static_private = Ok d →
  rtc entry_step (d, w) s' → device_ok s'.1.
Proof.
  intros Hc Hf Hs. assert (device_ok d) as Hd.
  { unfold factory_default_with_device_static_private in Hf.
    apply outcome_bind_ok in Hf as (key & _ & [= <-]). by apply factory_device_ok. }
  change d with (d, w).1 in Hd. clear Hf. induction Hs as [|? ? ? Hstep _ IH]; [done|].
  eauto using entry_step_device_ok.
Qed.

(** ** Durability *)

Context `{!StateWriter}.

(** Collecting a pending change advances the epoch and clears the mark. *)
Lemma take_persistent_change_spec s b s' :
  take_persistent_change s = (Ok b, s') →
  s'.2 = s.2 ∧ b = persistent_change s.1 ∧ persistent_change s'.1 = false ∧
  state_epoch s'.1 = state_epoch s.1 + (if b then 1 else 0) ∧
  objects s'.1 = objects s.1 ∧ sequence_history s'.1 = sequence_history s.1 ∧
  options s'.1 = options s.1 ∧ audit s'.1 = audit s.1 ∧ sessions s'.1 = sessions s.1.
Proof.
  destruct s as [d w]. unfold take_persistent_change. intros Ht.
  apply eff_bind_ok in Ht as (? & ? & [= <- <-] & Ht). cbn [fst] in *.
  destruct (persistent_change d) eqn:Hp; cbn in Ht.
  - rewrite lift_bind in Ht. unfold checked_add in Ht. destruct (_ <? _); [|done]. cbn in Ht.
    injection Ht as <- <-. done.
  - injection Ht as <- <-. cbn. rewrite Z.add_0_r. done.
Qed.

(** C16: acknowledged changes are durable. When the runtime answers a request, and
    an object, an option, the generation history or the audit log changed, then
    the epoch of the state was advanced, a mutation was recorded by the state
    writer and its completion was awaited before the answer was released; no
    pending change is left behind. *)
Theorem acknowledged_changes_are_durable
    (o : SessionAuthorization → Frame → Frame → World → World) (encoded answer : bytes)
    (d d' : Device) (w w' : World) :
  execute_observing o encoded (d, w) = (Ok answer, (d', w')) →
  persistent_change d' = false ∧
  ((objects d', options d', sequence_history d', audit d') ≠
     (objects d, options d, sequence_history d, audit d) ∨ persistent_change d = true →
   state_epoch d' = state_epoch d + 1 ∧
   ∃ w1 w2 m, record_mutation w1 = (inl m, w2) ∧ wait_mutation m w2 = (None, w')).
Proof.
  unfold execute_observing. intros He.
  apply eff_bind_ok in He as ([] & [d0 w0] & Hh & He).
  apply eff_bind_ok in He as ([] & [d1 w1] & Hl & He).
  assert (d1 = d) as ->.
  { unfold on_world, reading in *. cbn in *. destruct (io_check _ _), (lock_state _). congruence. }
  apply eff_bind_ok in He as (a & [d2 w2] & Ha & He).
  apply eff_bind_ok in He as (b & [d3 w3] & Ht & He).
  assert (kept no_claim d d2) as [Hm Hepoch _ _].
  { pose proof (handle_encoded_kept no_claim {| handler := no_handler; observer := o |} encoded d w1) as Hk.
    unfold in_device in Ha. unfold wp, handle_encoded_observing in *.
    destruct (handle_encoded_hooks encoded (d, w1)) as [r s2]. by injection Ha as _ ->. }
  assert (take_persistent_change (d2, w2) = (Ok b, (d3, w3))) as Ht'.
  { unfold in_device in Ht. destruct (take_persistent_change _) as [[] s3]; cbn in Ht; congruence. }
  apply take_persistent_change_spec in Ht' as (Hw3 & Hb & Hp & He3 & Ho & Hq & Hopt & Haud & _).
  cbn [fst snd] in *. subst w3 b.
  apply eff_bind_ok in He as ([] & [d4 w4] & Hlast & [= -> -> <-]).
  destruct (persistent_change d2) eqn:Hp2.
  - apply eff_bind_ok in Hlast as (m & [d5 w5] & Hr & Hwait).
    unfold on_world, reading, io_call, io_check in Hr, Hwait. cbn [fst snd] in *.
    destruct (record_mutation w2) as [[m'|] w6] eqn:Hrec; [|done]. injection Hr as <- <- <-.
    destruct (wait_mutation m' w6) as [[] w7] eqn:Hwm; [done|]. injection Hwait as <- <-.
    split; [done|]. intros _. split; [congruence|]. by exists w2, w6, m'.
  - unfold on_world, reading, io_check in Hlast. cbn [fst snd] in *.
    destruct (check_health w2) as [[] w6]; [done|]. injection Hlast as <- <-.
    split; [done|]. destruct Hm as [?|[Hd Hpd]]; [congruence|]. injection Hd as ? ? ? ? ? ?.
    intros [Hne|?]; [destruct Hne|]; congruence.
Qed.
End sessions.

(** ** Witnesses *)

#[local] Existing Instance default_build.
#[local] Existing Instance toy_fuel.
#[local] Existing Instance no_hooks.

(** The example device, auditing session creation. *)
Definition auditing_device : Device :=
  set_options (mkOptions 0 {[CommandCode.to_byte CommandCode.CreateSession := 1]} ∅ 0) example_device.

Definition example_create_session : bytes :=
  encode (mkFrame (CommandCode.to_byte CommandCode.CreateSession) [0; 1; 1; 2; 3; 4; 5; 6; 7; 8]).

(** A state writer that always succeeds. *)
Definition example_state_writer : StateWriter := {|
  Mutation := unit;
  fs_read _ w := (inr (mkIoError NotFound "no state file"), w);
  replace_file_atomically _ _ w := (None, w);
  lock_poisoned w := (false, w);
  check_health w := (None, w);
  record_mutation w := (inl tt, w);
  wait_mutation _ w := (None, w);
|}.
#[local] Existing Instance example_state_writer.

Lemma session_table_invariant_witness :
  active_session_count
    (handle_encoded_hooks example_create_session (auditing_device, toy_world)).2.1 = 1 ∧
  table_ok (sessions
    (handle_encoded_hooks example_create_session (auditing_device, toy_world)).2.1).
Proof.
  split; [by vm_compute|].
  refine (proj1 (session_table_invariant (auditing_device, toy_world) _ _ (rtc_once _ _ _))).
  - apply map_Forall_empty.
  - apply (entry_frame _ no_hooks).
Defined.

Lemma acknowledged_changes_are_durable_witness :
  state_epoch (execute_observing no_observer example_create_session (auditing_device, toy_world)).2.1 = 1.
Proof.
  assert (is_ok (execute_observing no_observer example_create_session (auditing_device, toy_world)).1
    = true) as Hok by by vm_compute.
  assert (len (entries (audit (execute_observing no_observer example_create_session
    (auditing_device, toy_world)).2.1)) = 1) as Hlog by by vm_compute.
  destruct (execute_observing _ _ _) as [[a|e| |] [d' w']] eqn:He; [|done..].
  cbn [fst snd] in *.
  destruct (acknowledged_changes_are_durable _ _ _ _ _ _ _ He) as [_ Hc].
  apply Hc. left. intros Heq. injection Heq as _ _ _ Haud. by rewrite Haud in Hlog.
Defined.

Lemma device_invariant_witness :
  device_ok (handle_encoded_hooks example_create_session (example_device, toy_world)).2.1.
Proof.
  apply (device_invariant default_config (zeros 32) example_device toy_world).
  - by vm_compute.
  - reflexivity.
  - apply rtc_once, (entry_frame _ no_hooks).
Defined.

Definition pending_session : SessionEntry :=
  mkSessionEntry example_session (mkSecure 3 (zeros 16) (zeros 16) (zeros 16) (zeros 16) (zeros 16))
    (Some (zeros 8)) false 1000 ∅.

(** A message for a session that is not authenticated yet. *)
Lemma unverified_messages_execute_nothing_witness :
  wp (handle_frame_with_hooks (mkFrame 5 (3 :: replicate 24 7)))
    (λ r s', s'.2 = (instant_now toy_world).2 ∧ (is_ok r = true → ∃ e, r = Ok (error e)))
    (set_sessions {[3 := pending_session]} example_device, toy_world).
Proof.
  eapply wp_mono; [apply (unverified_messages_execute_nothing
    (mkFrame 5 (3 :: replicate 24 7)) (set_sessions {[3 := pending_session]} example_device) toy_world)|].
  - by vm_compute.
  - intros sid entry secure' [Hl _ Ha _]. apply map_lookup_filter_Some in Hl as [Hl _].
    cbn [sessions set_sessions] in Hl.
    apply lookup_singleton_Some in Hl as [_ <-]. done.
  - by intros r s' (? & ? & _).
Defined.
