(* ===== verification/HostSession.v ===== *)
(** * The host side of a session (crates/yubihsm-qualification/src/lib.rs)

    The qualification client opens a symmetric session and exchanges messages
    over any transport of frames. The text of a failed case is the code's, except
    that it does not repeat the error value of a cryptographic library. *)

From S2P Require Import Prelude Error Io Frame Firmware Algorithm Protocol KeyCore Toy SecureChannel.

(** The trait [FrameTransport]: one exchange of encoded frames. *)
Class FrameTransport (T : Type) := exchange : bytes → T → outcome string bytes * T.

Definition ensure (condition : bool) (message : string) : outcome string unit :=
  if condition then Ok tt else Err message.

(** [Result::map_err] onto the message of a failed case. *)
Definition map_err {E A} (message : E → string) (r : outcome E A) : outcome string A :=
  match r with
  | Ok a => Ok a
  | Err e => Err (message e)
  | Panic => Panic
  | Diverge => Diverge
  end.

(** [Result::unwrap]. *)
Definition expect {E A} (r : outcome E A) : outcome string A :=
  match r with
  | Ok a => Ok a
  | Diverge => Diverge
  | _ => Panic
  end.

Lemma ensure_ok condition message u : ensure condition message = Ok u → condition = true.
Proof. unfold ensure. by destruct condition. Qed.

Lemma map_err_ok {E A} (message : E → string) (r : outcome E A) a : map_err message r = Ok a → r = Ok a.
Proof. destruct r; by intros [= ->]. Qed.

Lemma expect_ok {E A} (r : outcome E A) a : expect r = Ok a → r = Ok a.
Proof. destruct r; by intros [= ->]. Qed.

Definition sum_or {A B} (r : A + B) (message : string) : outcome string A :=
  match r with inl a => Ok a | inr _ => Err message end.

Record SymmetricSession : Set := mkHost {
  host_sid : Z;
  host_s_enc : bytes;
  host_s_mac : bytes;
  host_s_rmac : bytes;
  host_counter : bytes;
  host_command_mac : bytes;
}.

Definition command_name (command : CommandCode.CommandCode) : string := CommandCode.debug command.

Definition expect_response (response : Frame) (command : CommandCode.CommandCode) :
    outcome string bytes :=
  if Frame.command response =? ERROR_COMMAND then
    let error := match head (data response) ≫= Error.from_byte with
                 | Some error => Error.display error
                 | None => "unknown device error payload " +:+ hex_bytes (data response)
                 end in
    Err (command_name command +:+ " returned " +:+ error)
  else
    _ ← ensure (Frame.command response =? Z.lor (CommandCode.to_byte command) RESPONSE_BIT)
          (command_name command +:+ " returned response command 0x" +:+ hex_byte (Frame.command response));
    Ok (data response).

(** [Frame::parse] with the message of a frame that cannot be read. *)
Definition parse_frame (what : string) (encoded : bytes) : outcome string Frame :=
  map_err (λ error, what +:+ ": " +:+ Error.display error) (parse encoded).

Section host.
Context `{SoftwareKeyCore} {T : Type} `{FrameTransport T}.

Definition exchange_raw (request : bytes) : Eff T string Frame :=
  response ← exchange request;
  lift (parse_frame "invalid response frame" response).

Definition exchange_frame (request : Frame) : Eff T string Frame :=
  exchange_raw (encode request).

Definition host_challenge : bytes := [0x51; 0x75; 0x61; 0x6c; 0x69; 0x66; 0x79; 0x21].

Definition open_symmetric (authentication_key_id : Z) (static_keys : bytes) :
    Eff T string SymmetricSession :=
  let create_data := u16_to_be_bytes authentication_key_id ++ host_challenge in
  request ← lift (expect (new (CommandCode.to_byte CommandCode.CreateSession) create_data));
  response ← exchange_frame request;
  create ← lift (expect_response response CommandCode.CreateSession);
  _ ← lift (ensure (len create =? 17) ("Create Session returned " +:+ decimal (len create) +:+ " bytes"));
  sid ← lift (index create 0);
  card ← lift (slice create 1 9);
  let context := host_challenge ++ card in
  s_enc ← lift (ok_or (scp03_key (ztake 16 static_keys) 0x04 context) "S-ENC derivation failed"%string);
  s_mac ← lift (ok_or (scp03_key (zdrop 16 static_keys) 0x06 context) "S-MAC derivation failed"%string);
  s_rmac ← lift (ok_or (scp03_key (zdrop 16 static_keys) 0x07 context) "S-RMAC derivation failed"%string);
  card_cryptogram ← lift (ok_or (scp03_cryptogram s_mac 0x00 context)
                            "card cryptogram derivation failed"%string);
  _ ← lift (ensure (bool_decide (zdrop 9 create = card_cryptogram))
              "card cryptogram did not verify");
  host_cryptogram ← lift (ok_or (scp03_cryptogram s_mac 0x01 context)
                            "host cryptogram derivation failed"%string);
  let authenticate_payload := sid :: host_cryptogram in
  let encoded_without_mac :=
    [CommandCode.to_byte CommandCode.AuthenticateSession; 0; 17] ++ authenticate_payload in
  command_mac ← lift (sum_or (aes_cmac s_mac (zeros AES_BLOCK_SIZE ++ encoded_without_mac))
                        "Authenticate Session MAC failed");
  short_mac ← lift (slice command_mac 0 MAC_LENGTH);
  request ← lift (expect (new (CommandCode.to_byte CommandCode.AuthenticateSession)
                            (authenticate_payload ++ short_mac)));
  response ← exchange_frame request;
  _ ← lift (expect_response response CommandCode.AuthenticateSession);
  mret (mkHost sid s_enc s_mac s_rmac (zeros (AES_BLOCK_SIZE - 1) ++ [1]) command_mac).

(** The first half of [command]: the IV, the full command MAC and the frame sent. *)
Definition seal_command (self : SymmetricSession) (inner : Frame) :
    outcome string (bytes * bytes * Frame) :=
  iv ← sum_or (encrypt_aes_block (host_s_enc self) (host_counter self))
         "session IV generation failed";
  let clear := pad_iso7816 (encode inner) in
  ciphertext ← sum_or (encrypt_aes_cbc (host_s_enc self) iv clear) "session encryption failed";
  let data := host_sid self :: ciphertext in
  let total_length := len data + MAC_LENGTH in
  let encoded_without_mac :=
    [CommandCode.to_byte CommandCode.SessionMessage;
     Z.shiftr total_length 8 mod 256; total_length mod 256] ++ data in
  command_mac ← sum_or (aes_cmac (host_s_mac self) (host_command_mac self ++ encoded_without_mac))
                  "session command MAC failed";
  short_mac ← slice command_mac 0 MAC_LENGTH;
  request ← expect (new (CommandCode.to_byte CommandCode.SessionMessage) (data ++ short_mac));
  Ok (iv, command_mac, request).

(** The second half: verify and decrypt the answer. *)
Definition open_response (self : SymmetricSession) (iv command_mac : bytes) (outer : Frame) :
    outcome string (Frame * SymmetricSession) :=
  if Frame.command outer =? ERROR_COMMAND then Ok (outer, self)
  else
    _ ← ensure (Frame.command outer =? SESSION_MESSAGE_RESPONSE)
          ("unexpected Session Message response command 0x" +:+ hex_byte (Frame.command outer));
    _ ← ensure (1 + AES_BLOCK_SIZE + MAC_LENGTH <=? len (data outer))
          "Session Message response is too short";
    let payload_length := len (data outer) - MAC_LENGTH in
    prefix ← slice (encode outer) 0 (3 + payload_length);
    expected_rmac ← sum_or (aes_cmac (host_s_rmac self) (command_mac ++ prefix))
                      "session response MAC failed";
    short_rmac ← slice expected_rmac 0 MAC_LENGTH;
    _ ← ensure (bool_decide (zdrop payload_length (data outer) = short_rmac))
          "Session Message response MAC did not verify";
    first ← index (data outer) 0;
    _ ← ensure (first =? host_sid self) "Session Message response changed SID";
    ciphertext ← slice (data outer) 1 payload_length;
    clear ← sum_or (decrypt_aes_cbc (host_s_enc self) iv ciphertext)
              "session response decryption failed";
    clear ← ok_or (unpad_iso7816 clear) "session response padding failed"%string;
    response ← parse_frame "invalid inner response frame" clear;
    Ok (response,
        mkHost (host_sid self) (host_s_enc self) (host_s_mac self) (host_s_rmac self)
          (increment_counter (host_counter self)) command_mac).

Definition command (self : SymmetricSession) (inner : Frame) :
    Eff T string (Frame * SymmetricSession) :=
  sealed ← lift (seal_command self inner);
  outer ← exchange_frame sealed.2;
  lift (open_response self sealed.1.1 sealed.1.2 outer).
End host.

(** ** Lemmas: the two ends of a channel *)

(** Both ends hold the same keys, counter and chaining value. *)
Record synced (s : SecureSession) (h : SymmetricSession) : Prop := {
  synced_sid : host_sid h = sid s;
  synced_s_enc : host_s_enc h = s_enc s;
  synced_s_mac : host_s_mac h = s_mac s;
  synced_s_rmac : host_s_rmac h = s_rmac s;
  synced_counter : host_counter h = counter s;
  synced_chaining : host_command_mac h = mac_chaining_value s;
}.

(** The length bytes the host writes are those of [u16::to_be_bytes]. *)
Lemma host_length_bytes n :
  [Z.shiftr n 8 mod 256; n mod 256] = u16_to_be_bytes n.
Proof. rewrite Z.shiftr_div_pow2 by lia. done. Qed.

Lemma u16_to_be_bytes_small n : 0 ≤ n < 65536 →
  u16_to_be_bytes (n mod 65536) = u16_to_be_bytes n.
Proof. intros. by rewrite Z.mod_small. Qed.

Section channel.
Context `{ChannelLaws}.

Implicit Types s : SecureSession.

(** The IV and the ciphertext of a frame that fits an outer frame. *)
Lemma seal_frame (key count : bytes) (f : Frame) :
  len key = 16 → len count = 16 → len (data f) ≤ 8172 →
  ∃ iv c, encrypt_aes_block key count = inl iv ∧
    encrypt_aes_cbc key iv (pad_iso7816 (encode f)) = inl c ∧
    decrypt_aes_cbc key iv c = inl (pad_iso7816 (encode f)) ∧
    0 < len c ≤ 8176 ∧ len c mod 16 = 0.
Proof.
  intros Hk Hc Hf. destruct (encrypt_aes_block_total key count Hk Hc) as [iv Hiv].
  pose proof (encrypt_aes_block_length _ _ _ Hiv) as H16.
  assert (len (pad_iso7816 (encode f)) = (len (data f) + 3 + 1 + 15) / 16 * 16) as Hpad.
  { rewrite pad_length, len_encode. unfold HEADER_LENGTH. do 2 f_equal. lia. }
  destruct (encrypt_aes_cbc_total key iv (pad_iso7816 (encode f)) Hk H16) as [c Hcbc].
  { rewrite Hpad. apply Z.mod_mul. lia. }
  pose proof (encrypt_aes_cbc_length _ _ _ _ Hcbc) as Hlen.
  exists iv, c. split; [done|]. split; [done|].
  split; [by apply decrypt_encrypt_cbc|]. rewrite Hlen, Hpad.
  split; [apply div_ceil_data; pose proof (len_nonneg (data f)); lia|apply Z.mod_mul; lia].
Qed.

Lemma seal_command_ok s h inner :
  channel_ok s → synced s h → len (data inner) ≤ 8172 →
  ∃ iv mac c outer,
    seal_command h inner = Ok (iv, mac, outer) ∧
    encrypt_aes_block (s_enc s) (counter s) = inl iv ∧
    decrypt_aes_cbc (s_enc s) iv c = inl (pad_iso7816 (encode inner)) ∧
    0 < len c ≤ 8176 ∧ len c mod 16 = 0 ∧
    aes_cmac (s_mac s)
      (mac_chaining_value s ++ 5 :: u16_to_be_bytes (len (sid s :: c) + MAC_LENGTH) ++ sid s :: c)
      = inl mac ∧
    outer = mkFrame 5 ((sid s :: c) ++ ztake MAC_LENGTH mac).
Proof.
  intros [? ? ? ? [Hcl _] ?] [Hsid Hsenc Hsmac Hsrmac Hctr Hcv] Hl.
  destruct (seal_frame (s_enc s) (counter s) inner) as (iv & c & Hiv & Hc & Hd & Hlc & Hm);
    [done..|].
  destruct (aes_cmac_total (s_mac s)
    (mac_chaining_value s ++ 5 :: u16_to_be_bytes (len (sid s :: c) + MAC_LENGTH) ++ sid s :: c))
    as [mac Hmac]; [done|].
  pose proof (aes_cmac_length _ _ _ Hmac) as H16.
  exists iv, mac, c, (mkFrame 5 ((sid s :: c) ++ ztake MAC_LENGTH mac)).
  split; [|done]. unfold seal_command.
  rewrite Hsenc, Hctr, Hiv. cbn [sum_or mbind outcome_bind]. cbn zeta.
  rewrite Hc. cbn [sum_or mbind outcome_bind].
  rewrite Hsid, Hsmac, Hcv.
  change ([CommandCode.to_byte CommandCode.SessionMessage;
     Z.shiftr (len (sid s :: c) + MAC_LENGTH) 8 mod 256;
     (len (sid s :: c) + MAC_LENGTH) mod 256] ++ sid s :: c)
    with (5 :: [Z.shiftr (len (sid s :: c) + MAC_LENGTH) 8 mod 256;
     (len (sid s :: c) + MAC_LENGTH) mod 256] ++ sid s :: c).
  rewrite host_length_bytes, Hmac. cbn [sum_or mbind outcome_bind].
  rewrite slice_ok by (unfold MAC_LENGTH; lia). cbn [mbind outcome_bind].
  rewrite Z.sub_0_r, zdrop_0.
  rewrite new_fits; [done|]. rewrite len_app, len_cons, len_ztake by (unfold MAC_LENGTH; lia).
  unfold MAX_DATA_LENGTH, MAX_FRAME_LENGTH, HEADER_LENGTH, MAC_LENGTH. lia.
Qed.

(** The device recovers the request and takes the host's new chaining value. *)
Lemma decrypt_sealed s h inner iv mac outer :
  channel_ok s → synced s h → len (data inner) ≤ 8172 →
  seal_command h inner = Ok (iv, mac, outer) →
  decrypt_request outer s = (Ok inner, set_chaining mac s) ∧ len mac = 16 ∧
  encrypt_aes_block (s_enc s) (counter s) = inl iv.
Proof.
  intros Hs Hsync Hl Hseal.
  destruct (seal_command_ok s h inner Hs Hsync Hl)
    as (iv' & mac' & c & outer' & Heq & Hiv & Hd & Hlc & Hm & Hmac & ->).
  rewrite Hseal in Heq. injection Heq as -> -> ->.
  split; [|split; [by eapply aes_cmac_length|done]].
  unfold decrypt_request, mbind, eff_bind.
  rewrite (verify_request_mac_accepts s 5 (sid s :: c) mac') by
    (done || (rewrite len_cons; unfold MAX_DATA_LENGTH, MAX_FRAME_LENGTH, HEADER_LENGTH, MAC_LENGTH; lia)).
  unfold get_state, lift, reject_if. cbn [sid set_chaining head].
  assert (16 ≤ len c).
  { pose proof (Z.div_mod (len c) 16). lia. }
  rewrite len_cons. replace (1 + len c - 1) with (len c) by lia.
  unfold BLOCK_SIZE, AES_BLOCK_SIZE. rewrite Hm, bool_decide_true by done.
  rewrite (proj2 (Z.ltb_ge _ _)) by lia. cbn [orb negb Z.eqb].
  unfold encrypt_block. cbn [s_enc set_chaining counter]. rewrite Hiv. cbn [map_symmetric].
  unfold cbc_decrypt. change (zdrop 1 (sid s :: c)) with c. rewrite Hd. cbn [map_symmetric].
  unfold unpad. rewrite unpad_pad. cbn [ok_or].
  destruct inner as [ic id]. by rewrite encode_parse_ok by
    (unfold MAX_DATA_LENGTH, MAX_FRAME_LENGTH, HEADER_LENGTH; cbn [data] in Hl; lia).
Qed.

Lemma encrypted_response_frame s response :
  channel_ok s → len (data response) ≤ 8172 →
  ∃ iv c rmac,
    encrypt_aes_block (s_enc s) (counter s) = inl iv ∧
    decrypt_aes_cbc (s_enc s) iv c = inl (pad_iso7816 (encode response)) ∧
    0 < len c ≤ 8176 ∧ len c mod 16 = 0 ∧ len rmac = 16 ∧
    aes_cmac (s_rmac s)
      (mac_chaining_value s ++
       SESSION_MESSAGE_RESPONSE :: u16_to_be_bytes (len (sid s :: c) + MAC_LENGTH) ++ sid s :: c)
      = inl rmac ∧
    encrypt_response response s =
      (Ok (mkFrame SESSION_MESSAGE_RESPONSE ((sid s :: c) ++ ztake MAC_LENGTH rmac)),
       set_counter (increment_counter (counter s)) s).
Proof.
  intros [? ? ? ? [Hcl _] ?] Hl.
  destruct (seal_frame (s_enc s) (counter s) response) as (iv & c & Hiv & Hc & Hd & Hlc & Hm);
    [done..|].
  destruct (aes_cmac_total (s_rmac s)
    (mac_chaining_value s ++
       SESSION_MESSAGE_RESPONSE :: u16_to_be_bytes (len (sid s :: c) + MAC_LENGTH) ++ sid s :: c))
    as [rmac Hmac]; [done|].
  pose proof (aes_cmac_length _ _ _ Hmac) as H16.
  exists iv, c, rmac. do 6 (split; [done|]).
  unfold encrypt_response, mbind, eff_bind, get_state, lift, encrypt_block, cbc_encrypt, pad, cmac.
  rewrite Hiv. cbn [map_symmetric]. rewrite Hc. cbn [map_symmetric].
  rewrite u16_to_be_bytes_small by (rewrite len_cons; unfold MAC_LENGTH; lia).
  rewrite Hmac. cbn [map_symmetric].
  rewrite slice_ok by (unfold MAC_LENGTH; lia). rewrite Z.sub_0_r, zdrop_0.
  unfold set_state. f_equal. apply new_ok. split; [done|].
  rewrite len_app, len_cons, len_ztake by (unfold MAC_LENGTH; lia).
  unfold MAX_DATA_LENGTH, MAX_FRAME_LENGTH, HEADER_LENGTH, MAC_LENGTH. lia.
Qed.

(** The host recovers the response that the device encrypted. *)
Lemma open_encrypted s h mac iv response outer s' :
  channel_ok s → synced (set_chaining (host_command_mac h) s) h →
  mac_chaining_value s = mac → encrypt_aes_block (s_enc s) (counter s) = inl iv →
  len (data response) ≤ 8172 →
  encrypt_response response s = (Ok outer, s') →
  ∃ h', open_response h iv mac outer = Ok (response, h') ∧ synced s' h' ∧
    s' = set_counter (increment_counter (counter s)) s.
Proof.
  intros Hs [Hsid Hsenc Hsmac Hsrmac Hctr Hcv] Hchain Hiv Hl Henc.
  destruct (encrypted_response_frame s response Hs Hl)
    as (iv' & c & rmac & Hiv' & Hd & Hlc & Hm & H16 & Hmac & Heq).
  remember (sid s :: c) as p eqn:Hp.
  rewrite Heq in Henc. injection Henc as <- <-. rewrite Hiv in Hiv'. injection Hiv' as <-.
  cbn [sid s_enc s_mac s_rmac counter mac_chaining_value set_chaining] in *.
  assert (16 ≤ len c) by (pose proof (Z.div_mod (len c) 16); lia).
  assert (len (ztake MAC_LENGTH rmac) = MAC_LENGTH) as H8 by (apply len_ztake; unfold MAC_LENGTH; lia).
  assert (len p = 1 + len c) as Hlp by (by rewrite Hp, len_cons).
  assert (len (p ++ ztake MAC_LENGTH rmac) = len p + MAC_LENGTH) as Hdl by (rewrite len_app; lia).
  assert (len p + MAC_LENGTH ≤ MAX_DATA_LENGTH) as Hmax
    by (unfold MAX_DATA_LENGTH, MAX_FRAME_LENGTH, HEADER_LENGTH, MAC_LENGTH; lia).
  eexists. split; [|split; [|done]].
  - unfold open_response. cbn [Frame.command].
    change (SESSION_MESSAGE_RESPONSE =? ERROR_COMMAND) with false. cbn iota. unfold ensure.
    rewrite Z.eqb_refl. cbn [mbind outcome_bind]. cbn [data].
    rewrite Hdl, (proj2 (Z.leb_le _ _)) by (unfold AES_BLOCK_SIZE, MAC_LENGTH; lia).
    cbn [mbind outcome_bind]. cbn zeta.
    replace (len p + MAC_LENGTH - MAC_LENGTH) with (len p) by lia.
    rewrite (encode_prefix _ p) by done. cbn [mbind outcome_bind].
    rewrite Hsrmac, <- Hchain, Hmac. cbn [sum_or mbind outcome_bind].
    rewrite (slice_ok rmac) by (unfold MAC_LENGTH; lia). cbn [mbind outcome_bind].
    rewrite Z.sub_0_r, zdrop_0, zdrop_app, bool_decide_true by done. cbn [mbind outcome_bind].
    replace (index (p ++ ztake MAC_LENGTH rmac) 0) with (Ok (E := string) (sid s)) by by rewrite Hp.
    cbn [mbind outcome_bind]. rewrite Hsid, Z.eqb_refl. cbn [mbind outcome_bind].
    rewrite slice_ok by (rewrite ?Hdl; unfold MAC_LENGTH; lia). cbn [mbind outcome_bind].
    replace (zdrop 1 (p ++ ztake MAC_LENGTH rmac)) with (c ++ ztake MAC_LENGTH rmac) by by rewrite Hp.
    rewrite ztake_app_eq by lia.
    rewrite Hsenc, Hd. cbn [sum_or mbind outcome_bind].
    rewrite unpad_pad. cbn [ok_or mbind outcome_bind].
    unfold parse_frame. destruct response as [rc rd]. rewrite encode_parse_ok by
      (unfold MAX_DATA_LENGTH, MAX_FRAME_LENGTH, HEADER_LENGTH; cbn [data] in Hl; lia).
    cbn [map_err mbind outcome_bind]. reflexivity.
  - split; cbn; congruence.
Qed.

(** One exchange: the frames both ends produce, and the channel afterwards. *)
Lemma channel_exchange s h request response :
  channel_ok s → synced s h → len (data request) ≤ 8172 → len (data response) ≤ 8172 →
  ∃ iv mac rest s1 outer' s2 h',
    seal_command h request = Ok (iv, mac, mkFrame 5 (sid s :: rest)) ∧
    len (sid s :: rest) ≤ MAX_DATA_LENGTH ∧
    decrypt_request (mkFrame 5 (sid s :: rest)) s = (Ok request, s1) ∧
    encrypt_response response s1 = (Ok outer', s2) ∧ len (data outer') ≤ MAX_DATA_LENGTH ∧
    open_response h iv mac outer' = Ok (response, h') ∧
    synced s2 h' ∧ channel_ok s2 ∧ sid s2 = sid s ∧
    counter s2 = increment_counter (counter s).
Proof.
  intros Hs Hsync Hreq Hresp.
  destruct (seal_command_ok s h request Hs Hsync Hreq)
    as (iv & mac & c & outer & Hseal & Hiv & _ & Hlc & _ & _ & ->).
  destruct (decrypt_sealed s h request iv mac _ Hs Hsync Hreq Hseal) as (Hdec & H16 & _).
  pose proof Hs as [? ? ? ? [Hcl Hcb] ?].
  assert (channel_ok (set_chaining mac s)) as Hs1 by (by split).
  destruct (encrypted_response_frame (set_chaining mac s) response Hs1 Hresp)
    as (iv' & c' & rmac & _ & _ & Hlc' & _ & H16' & _ & Henc).
  destruct (increment_counter_spec (counter s) Hcb) as (Hib & Hil & _).
  destruct (open_encrypted (set_chaining mac s) h mac iv response _ _ Hs1
              ltac:(by destruct Hsync; split) eq_refl Hiv Hresp Henc) as (h' & Hopen & Hsync' & _).
  assert (len (c ++ ztake MAC_LENGTH mac) = len c + 8) as Hmlen
    by (rewrite len_app, len_ztake by (unfold MAC_LENGTH; lia); done).
  exists iv, mac, (c ++ ztake MAC_LENGTH mac), (set_chaining mac s). eexists _, _, h'.
  split; [done|]. split.
  { rewrite len_cons, Hmlen. unfold MAX_DATA_LENGTH, MAX_FRAME_LENGTH, HEADER_LENGTH. lia. }
  split; [done|]. split; [exact Henc|]. split.
  { cbn [data]. rewrite len_app, len_cons, len_ztake by (unfold MAC_LENGTH; lia).
    unfold MAX_DATA_LENGTH, MAX_FRAME_LENGTH, HEADER_LENGTH, MAC_LENGTH. lia. }
  split; [done|]. split; [done|].
  cbn [counter set_chaining set_counter sid]. rewrite Hcl in Hil. split; [by split|done].
Qed.

(** What [begin_symmetric] computes, from its inputs. *)
Lemma begin_symmetric_ok sid keys host card s cc hc :
  begin_symmetric sid keys host card = Ok (s, cc, hc) →
  len keys = 32 ∧ s = mkSecure sid (s_enc s) (s_mac s) (s_rmac s) (zeros 16) (zeros 16) ∧
  scp03_key (ztake 16 keys) 0x04 (host ++ card) = Some (s_enc s) ∧
  scp03_key (zdrop 16 keys) 0x06 (host ++ card) = Some (s_mac s) ∧
  scp03_key (zdrop 16 keys) 0x07 (host ++ card) = Some (s_rmac s) ∧
  scp03_cryptogram (s_mac s) 0x00 (host ++ card) = Some cc ∧
  scp03_cryptogram (s_mac s) 0x01 (host ++ card) = Some hc.
Proof.
  unfold begin_symmetric, derive_key, derive_cryptogram. intros Hb.
  apply outcome_bind_ok in Hb as ([] & Hr & Hb). apply reject_if_ok in Hr. bool_prop.
  repeat (apply outcome_bind_ok in Hb as (? & ?%ok_or_ok & Hb)). by injection Hb as <- <- <-.
Qed.

(** The host computes what the device computed, and accepts its answers, over any
    transport. *)
Lemma host_handshake `{FrameTransport T} (id : Z) keys sid card s cc hc mac create proof (t t1 t2 : T) :
  len card = 8 → begin_symmetric sid keys host_challenge card = Ok (s, cc, hc) →
  aes_cmac (s_mac s) (zeros AES_BLOCK_SIZE ++ [4; 0; 17] ++ sid :: hc) = inl mac →
  create = mkFrame 3 (u16_to_be_bytes id ++ host_challenge) →
  proof = mkFrame 4 ((sid :: hc) ++ ztake MAC_LENGTH mac) →
  exchange_frame create t
  = (Ok (response (CommandCode.to_byte CommandCode.CreateSession) (sid :: card ++ cc)), t1) →
  exchange_frame proof t1
  = (Ok (response (CommandCode.to_byte CommandCode.AuthenticateSession) []), t2) →
  open_symmetric id keys t
  = (Ok (mkHost sid (s_enc s) (s_mac s) (s_rmac s) (zeros (AES_BLOCK_SIZE - 1) ++ [1]) mac), t2).
Proof.
  intros Hcard Hbegin Hcmac -> -> Hex1 Hex2.
  destruct (begin_symmetric_ok _ _ _ _ _ _ _ Hbegin) as (Hkeys & Hs & Henc & Hmac & Hrmac & Hcc & Hhc).
  pose proof (scp03_cryptogram_length _ _ _ _ Hcc) as Hlcc.
  pose proof (scp03_cryptogram_length _ _ _ _ Hhc) as Hlhc.
  pose proof (aes_cmac_length _ _ _ Hcmac) as H16.
  unfold open_symmetric. cbv zeta.
  rewrite (lift_run _ _ _ (mkFrame 3 (u16_to_be_bytes id ++ host_challenge))) by by rewrite new_fits.
  rewrite (eff_run _ _ _ _ _ Hex1). rewrite (lift_run _ _ _ (sid :: card ++ cc)) by done.
  rewrite (lift_run _ _ _ tt) by (rewrite len_cons, len_app, Hcard, Hlcc; done).
  rewrite (lift_run _ _ _ sid) by done.
  rewrite (lift_run _ _ _ card) by (apply (slice_mid [sid]); [done|by rewrite Hcard]).
  rewrite (lift_run _ _ _ (s_enc s)) by by rewrite Henc.
  rewrite (lift_run _ _ _ (s_mac s)) by by rewrite Hmac.
  rewrite (lift_run _ _ _ (s_rmac s)) by by rewrite Hrmac.
  rewrite (lift_run _ _ _ cc) by by rewrite Hcc.
  assert (zdrop 9 (sid :: card ++ cc) = cc) as ->.
  { change (sid :: card ++ cc) with ((sid :: card) ++ cc). apply zdrop_app_eq.
    rewrite len_cons, Hcard. done. }
  rewrite (lift_run _ _ _ tt) by by rewrite bool_decide_true.
  rewrite (lift_run _ _ _ hc) by by rewrite Hhc.
  rewrite (lift_run _ _ _ mac) by (cbn in Hcmac |- *; by rewrite Hcmac).
  rewrite (lift_run _ _ _ (ztake MAC_LENGTH mac)).
  2:{ apply (slice_parts _ [] _ (zdrop MAC_LENGTH mac)); [by rewrite ztake_zdrop|done|].
      rewrite len_ztake by (unfold MAC_LENGTH; lia). done. }
  rewrite (lift_run _ _ _ (mkFrame 4 ((sid :: hc) ++ ztake MAC_LENGTH mac))).
  2:{ rewrite new_fits; [done|].
      rewrite len_app, len_cons, len_ztake, Hlhc by (unfold MAC_LENGTH; lia). done. }
  rewrite (eff_run _ _ _ _ _ Hex2). by rewrite (lift_run _ _ _ []).
Qed.
End channel.

(** ** Properties *)

(** C8: one round trip over the secure channel. For synchronised ends, the
    frame a host seals is decrypted by the device to exactly the request; the
    device's encrypted response opens at the host to exactly the response; and
    both ends agree again on counter and chaining value afterwards, with the
    counter advanced by one. Nothing on the path panics or fails for a request
    and a response of up to 8172 bytes of data. *)
Theorem secure_channel_round_trip `{ChannelLaws} (s : SecureSession) (h : SymmetricSession)
    (request response : Frame) :
  channel_ok s → synced s h →
  len (data request) ≤ 8172 → len (data response) ≤ 8172 →
  ∃ iv mac outer s1 outer' s2 h',
    seal_command h request = Ok (iv, mac, outer) ∧
    decrypt_request outer s = (Ok request, s1) ∧
    encrypt_response response s1 = (Ok outer', s2) ∧
    open_response h iv mac outer' = Ok (response, h') ∧
    synced s2 h' ∧ channel_ok s2 ∧
    from_be_bytes (counter s2) = (from_be_bytes (counter s) + 1) mod 2 ^ 128.
Proof.
  intros Hs Hsync Hreq Hresp.
  destruct (channel_exchange s h request response Hs Hsync Hreq Hresp)
    as (iv & mac & rest & s1 & outer' & s2 & h' & ? & _ & ? & ? & _ & ? & ? & ? & _ & Hctr).
  exists iv, mac, (mkFrame 5 (sid s :: rest)), s1, outer', s2, h'. do 6 (split; [done|]).
  rewrite Hctr. destruct Hs as [? ? ? ? [Hcl Hcb] ?].
  destruct (increment_counter_spec (counter s) Hcb) as (_ & _ & ->). by rewrite Hcl.
Qed.

Definition example_secure : SecureSession :=
  mkSecure 3 (zeros 16) (replicate 16 1) (replicate 16 2) (zeros 16) (replicate 16 9).
Definition example_host : SymmetricSession :=
  mkHost 3 (zeros 16) (replicate 16 1) (replicate 16 2) (zeros 16) (replicate 16 9).

Lemma example_secure_ok : channel_ok example_secure.
Proof. split; try (split; by_computation); by_computation. Qed.

Lemma secure_channel_round_trip_witness :
  ∃ iv mac outer s1,
    seal_command example_host (mkFrame 1 [1; 2; 3]) = Ok (iv, mac, outer) ∧
    decrypt_request outer example_secure = (Ok (mkFrame 1 [1; 2; 3]), s1).
Proof.
  destruct (secure_channel_round_trip example_secure example_host (mkFrame 1 [1; 2; 3])
              (mkFrame 0x81 [7])) as (iv & mac & outer & s1 & _ & _ & _ & H1 & H2 & _).
  - apply example_secure_ok.
  - split; reflexivity.
  - by vm_compute.
  - by vm_compute.
  - exists iv, mac, outer, s1. split; [exact H1|exact H2].
Defined.
