(* ===== verification/InProcess.v ===== *)
(** * A host and the device in one process
    (crates/yubihsm-qualification/src/lib.rs, lines 93-122)

    The in-process transport calls the device directly. The host of
    [HostSession] and the device of [Sessions] meet over it: a host that knows
    the keys gets a session, and a session is a transparent channel to the
    command execution of [Dispatch]. *)

From S2P Require Import Prelude Error Frame Firmware Algorithm Capability Protocol KeyCore Toy.
From S2P Require Import Wire Objects Authorization SessionObjects Requests SecureChannel.
From S2P Require Import DeviceState ObjectStore ObjectCommands KeyUse Wrapping Attestation.
From S2P Require Import SessionObjectCommands Dispatch CommandEffects StoreProperties.
From S2P Require Import Sessions SessionSteps HostSession.

Section in_process.
Context `{Build} `{HX : X509} `{Der} `{Fuel}.

#[local] Existing Instance no_hooks.

(** [InProcessTransport::exchange]. *)
Definition in_process_exchange (request : bytes) : Eff (Device * World) string bytes := λ s,
  let '(reply, s) := handle_encoded request s in
  (map_err Error.display reply, s).

#[export] Instance in_process : FrameTransport (Device * World) := in_process_exchange.

(** ** The specification

    What a session answers to a command, whatever the encryption: the missing
    capability, or the outcome of its execution. *)

Definition session_answer (auth : SessionAuthorization) (inner : Frame) (table : SessionObjects) :
    Dev (Frame * SessionObjects) :=
  match authorization_error auth inner with
  | Some e => mret (error e, table)
  | None => execute_in_session auth inner table
  end.

(** A host and a device that hold the two ends of an authenticated session. *)
Record connected (d : Device) (h : SymmetricSession) (entry : SessionEntry) : Prop := {
  connected_entry : sessions d !! host_sid h = Some entry;
  connected_authenticated : authenticated entry = true;
  connected_channel : channel_ok (secure entry);
  connected_synced : synced (secure entry) h;
}.

(** The session after a command. *)
Definition used_entry (entry : SessionEntry) (secure' : SecureSession) (time : Z)
    (table : SessionObjects) : SessionEntry :=
  mkSessionEntry (authorization entry) secure' (expected_host_cryptogram entry) true time table.

(** The commands of a session, one after the other, without any cryptography: idle
    sessions expire, the command is answered, and the session lives on unless the
    command closed it. A session that is over answers nothing. *)
Fixpoint served (auth : SessionAuthorization) (inners : list Frame) (table : SessionObjects)
    (last : Z) : Dev (list Frame) :=
  match inners with
  | [] => mret []
  | inner :: rest =>
      time ← on_world now;
      _ ← modify (expire_inactive_sessions time);
      _ ← lift (reject_if (negb (Z.max 0 (time - last) <? SESSION_INACTIVITY_TIMEOUT)) InvalidSession);
      last ← on_world now;
      '(answer, table) ← session_answer auth inner table;
      answers ← (if closes_session inner answer false then
                   _ ← lift (reject_if (negb (bool_decide (rest = []))) InvalidSession); mret []
                 else served auth rest table last);
      mret (answer :: answers)
  end.

(** The same commands, sent by the host. *)
Fixpoint conversation (h : SymmetricSession) (inners : list Frame) :
    Eff (Device * World) string (list Frame * SymmetricSession) :=
  match inners with
  | [] => mret ([], h)
  | inner :: rest =>
      '(answer, h) ← command h inner;
      '(answers, h) ← conversation h rest;
      mret (answer :: answers, h)
  end.

(** ** Lemmas *)

Lemma parse_encoded f : len (data f) ≤ MAX_DATA_LENGTH → parse (encode f) = Ok f.
Proof. destruct f. cbn. apply encode_parse_ok. Qed.

Lemma exchange_frame_device request s reply s' :
  len (data request) ≤ MAX_DATA_LENGTH → len (data reply) ≤ MAX_DATA_LENGTH →
  handle_frame request s = (Ok reply, s') →
  exchange_frame request s = (Ok reply, s').
Proof.
  intros Hreq Hrep Hh. unfold exchange_frame, exchange_raw, parse_frame, exchange, in_process, in_process_exchange.
  unfold handle_encoded, handle_encoded_hooks. rewrite (parse_encoded request) by done.
  unfold mbind at 1, eff_bind at 1. unfold mbind at 1, eff_bind at 1. fold handle_frame. rewrite Hh.
  cbn [map_err mret eff_ret]. unfold lift. by rewrite (parse_encoded reply).
Qed.

(** A session command, after the expiry of the idle sessions. *)
Lemma handle_session_frame (m : Frame → Dev Frame) c request (d : Device) (w : World) time w0 reply s' :
  CommandCode.from_byte (Frame.command request) = Some c →
  match c with
  | CommandCode.CreateSession => m = create_session
  | CommandCode.AuthenticateSession => m = authenticate_session
  | CommandCode.SessionMessage => m = session_message_with
  | _ => False
  end →
  instant_now w = (time, w0) →
  m request (expire_inactive_sessions time d, w0) = (Ok reply, s') →
  handle_frame request (d, w) = (Ok reply, s').
Proof.
  intros Hc Hm Hw Hr. unfold handle_frame, handle_frame_with_hooks.
  unfold mbind, eff_bind, on_world, reading, now, modify. cbn [fst snd]. rewrite Hw. cbn [fst snd].
  rewrite Hc. unfold attempt. destruct c; try done; subst m; by rewrite Hr.
Qed.

Lemma random_run n w b w1 : getrandom_fill n w = (Some b, w1) → random_bytes n w = (Ok b, w1).
Proof. intros Hg. unfold random_bytes. by rewrite Hg. Qed.

Lemma now_run w t w1 : instant_now w = (t, w1) → now w = (Ok t, w1).
Proof. intros Ht. unfold now. by rewrite Ht. Qed.

Lemma decode_envelope sid rest :
  decode SessionEnvelopeRequest (sid :: rest) = Ok (SessionEnvelopeRequest_ sid rest).
Proof.
  unfold decode, decode_fields, decode_session_envelope, decoder, mbind, eff_bind.
  by rewrite read_u8_cons.
Qed.

(** An accepted message runs its command. *)
Lemma session_message_run request d w sid rest entry inner secure' :
  data request = sid :: rest → sessions d !! sid = Some entry → authenticated entry = true →
  decrypt_request request (secure entry) = (Ok inner, secure') →
  session_message_with request (d, w)
  = session_command sid entry inner secure' (remove_session sid d, w).
Proof.
  intros Hd Hl Ha Hdec. unfold session_message_with. rewrite Hd.
  rewrite (lift_run _ _ _ _ (decode_envelope sid rest)).
  rewrite (eff_run _ _ _ d (d, w)) by done.
  rewrite (lift_run _ _ _ entry) by by rewrite Hl.
  rewrite (eff_run _ _ _ tt (remove_session sid d, w)) by done.
  rewrite (lift_run _ _ _ tt) by by rewrite Ha.
  rewrite (lift_run _ _ _ (inner, secure')); [done|]. unfold run_channel. by rewrite Hdec.
Qed.

(** The answer of a session, up to encryption, fits its frame. *)
Lemma session_answer_fits auth inner table d w answer table' s' :
  session_answer auth inner table (d, w) = (Ok (answer, table'), s') →
  len (data answer) ≤ 8172.
Proof.
  unfold session_answer. destruct (authorization_error auth inner) as [e|].
  { by intros [= <- _ _]. }
  intros He. pose proof (execute_in_session_outcome auth inner table d w) as Ho.
  unfold wp in Ho. rewrite He in Ho. cbn in Ho.
  inversion Ho as [| result d1 _ Hl Hr |]; [done| |done].
  destruct result; [done|done|done|done].
Qed.

(** The device's side of an accepted command. *)
Lemma session_command_run sid entry inner secure' secure'' d w0 t1 w1 answer table d2 w2 outer :
  instant_now w0 = (t1, w1) →
  session_answer (authorization entry) inner (session_objects entry) (d, w1)
  = (Ok (answer, table), (d2, w2)) →
  encrypt_response answer secure' = (Ok outer, secure'') →
  session_command sid entry inner secure' (d, w0)
  = (Ok outer, (if closes_session inner answer false then d2
                else insert_session sid (used_entry entry secure'' t1 table) d2, w2)).
Proof.
  intros Ht Ha He. pose proof (session_answer_fits _ _ _ _ _ _ _ _ Ha) as Hfit.
  assert (secure_response_fits answer = true) as Hf.
  { pose proof (len_nonneg (data answer)). apply secure_response_data_fits_spec; lia. }
  assert (∀ b, closes_session inner answer b = closes_session inner answer false →
    answer_command sid entry inner secure' t1 b answer table (d2, w2)
    = (Ok outer, (if closes_session inner answer false then d2
                  else insert_session sid (used_entry entry secure'' t1 table) d2, w2))) as Hrun.
  { intros b Hb. unfold answer_command. rewrite Hf.
    rewrite (world_run _ _ _ _ tt w2) by done.
    rewrite (lift_run _ _ _ (outer, secure'')) by (unfold run_channel; by rewrite He).
    rewrite Hb. by destruct (closes_session inner answer false). }
  unfold session_command. rewrite (world_run _ _ _ _ _ _ (now_run _ _ _ Ht)).
  unfold session_answer in Ha.
  destruct (authorization_error (authorization entry) inner) as [e|] eqn:Hauth.
  - rewrite (world_run _ _ _ _ (Some (error e)) w1) by (unfold handled_response; by rewrite Hauth).
    injection Ha as <- <- <- <-. apply Hrun. unfold closes_session. cbn. by rewrite !andb_false_r.
  - rewrite (world_run _ _ _ _ None w1) by (unfold handled_response; by rewrite Hauth).
    rewrite (eff_run _ _ _ (answer, table) (d2, w2)) by done. by apply Hrun.
Qed.

Lemma lookup_active d t sid entry :
  sessions d !! sid = Some entry → still_active t entry = true →
  sessions (expire_inactive_sessions t d) !! sid = Some entry.
Proof. intros Hl Ha. by apply map_lookup_filter_Some. Qed.

Section channel_laws.
Context `{!ChannelLaws}.

Lemma command_run d h entry inner w t0 w0 t1 w1 answer table d2 w2 :
  connected d h entry → len (data inner) ≤ 8172 →
  instant_now w = (t0, w0) → instant_now w0 = (t1, w1) → still_active t0 entry = true →
  session_answer (authorization entry) inner (session_objects entry)
    (remove_session (host_sid h) (expire_inactive_sessions t0 d), w1)
  = (Ok (answer, table), (d2, w2)) →
  ∃ h' secure', synced secure' h' ∧ channel_ok secure' ∧ host_sid h' = host_sid h ∧
    command h inner (d, w)
    = (Ok (answer, h'),
       (if closes_session inner answer false then d2
        else insert_session (host_sid h) (used_entry entry secure' t1 table) d2, w2)).
Proof.
  intros [Hl Hauth Hch Hsync] Hinner Ht0 Ht1 Hact Hans.
  pose proof (session_answer_fits _ _ _ _ _ _ _ _ Hans) as Hfit.
  destruct (channel_exchange _ _ inner answer Hch Hsync Hinner Hfit)
    as (iv & mac & rest & s1 & outer & s2 & h' & Hseal & Hlen & Hdec & Henc & Hlen' & Hopen & Hsync'
        & Hok & Hsid & _).
  pose proof (synced_sid _ _ Hsync) as Hhs. pose proof (synced_sid _ _ Hsync') as Hhs'.
  exists h', s2. split; [done|]. split; [done|]. split; [congruence|].
  unfold command. rewrite (lift_run _ _ _ _ Hseal). cbn [fst snd].
  rewrite (eff_run _ _ _ outer
    (if closes_session inner answer false then d2
     else insert_session (host_sid h) (used_entry entry s2 t1 table) d2, w2)).
  { unfold lift. by rewrite Hopen. }
  apply exchange_frame_device; [done..|].
  eapply (handle_session_frame session_message_with CommandCode.SessionMessage); [done|done|exact Ht0|].
  rewrite (session_message_run _ _ _ (sid (secure entry)) rest entry inner s1); [|done| |done|done].
  - rewrite <- Hhs. by eapply session_command_run.
  - rewrite <- Hhs. by apply lookup_active.
Qed.

(** *** Conversations *)

Lemma expire_remove t sid d :
  expire_inactive_sessions t (remove_session sid d) = remove_session sid (expire_inactive_sessions t d).
Proof. unfold expire_inactive_sessions, remove_session. cbn. by rewrite map_filter_delete. Qed.

Lemma session_answer_sessions auth inner table d w answer table' d' w' :
  session_answer auth inner table (d, w) = (Ok (answer, table'), (d', w')) →
  sessions d' = sessions d ∨ sessions d' = ∅.
Proof.
  unfold session_answer. destruct (authorization_error auth inner) as [e|].
  { intros [= _ _ <- _]. by left. }
  intros He. pose proof (execute_in_session_outcome auth inner table d w) as Ho.
  unfold wp in Ho. rewrite He in Ho. cbn in Ho.
  apply inner_outcome_sessions in Ho as [?|[? _]]; auto.
Qed.

Lemma remove_insert sid entry d :
  sessions d !! sid = None → remove_session sid (insert_session sid entry d) = d.
Proof.
  intros Hn. unfold remove_session, insert_session. cbn. rewrite delete_insert_eq, delete_id by done.
  by destruct d.
Qed.

Lemma conversation_run inners : ∀ d h entry w answers d' w',
  connected d h entry → Forall (λ f, len (data f) ≤ 8172) inners →
  served (authorization entry) inners (session_objects entry) (last_activity entry)
    (remove_session (host_sid h) d, w) = (Ok answers, (d', w')) →
  ∃ h' d'', conversation h inners (d, w) = (Ok (answers, h'), (d'', w')) ∧
    remove_session (host_sid h) d'' = d'.
Proof.
  induction inners as [|inner rest IH]; intros d h entry w answers d' w' Hc Hall Hs.
  { injection Hs as <- <- <-. by exists h, d. }
  apply Forall_cons in Hall as [Hinner Hall]. cbn [served] in Hs.
  apply eff_bind_ok in Hs as (t0 & [d0 w0] & Hn0 & Hs). unfold on_world, reading, now in Hn0. cbn in Hn0.
  destruct (instant_now w) as [t0' w0'] eqn:Ht0. injection Hn0 as <- <- <-.
  apply eff_bind_ok in Hs as ([] & s1 & [= <-] & Hs). rewrite lift_bind in Hs.
  destruct (reject_if _ _) as [[]| | |] eqn:Hact; try done. apply reject_if_ok, negb_false_iff in Hact.
  apply eff_bind_ok in Hs as (t1 & [d1 w1] & Hn1 & Hs). unfold on_world, reading, now in Hn1. cbn in Hn1.
  destruct (instant_now w0') as [t1' w1'] eqn:Ht1. injection Hn1 as <- <- <-.
  apply eff_bind_ok in Hs as ([answer table] & [d2 w2] & Hans & Hs).
  cbn [fst snd] in Hans. rewrite expire_remove in Hans.
  destruct (command_run d h entry inner w t0' w0' t1' w1' answer table d2 w2)
    as (h1 & s1 & Hsync & Hok & Hsid & Hrun); [done..|].
  assert (sessions d2 !! host_sid h = None) as Hnone.
  { apply session_answer_sessions in Hans as [->| ->]; [apply lookup_delete_eq|apply lookup_empty]. }
  apply eff_bind_ok in Hs as (answers' & [d3 w3] & Hrest & [= <- <- <-]).
  cbn [conversation].
  destruct (closes_session inner answer false).
  - rewrite lift_bind in Hrest. destruct (reject_if _ _) as [[]| | |] eqn:Hr; try done.
    apply reject_if_ok, negb_false_iff, bool_decide_eq_true in Hr as ->.
    injection Hrest as <- <- <-. exists h1, d2.
    rewrite (eff_run _ _ _ _ _ Hrun). split; [done|].
    unfold remove_session. rewrite delete_id by done. by destruct d2.
  - set (entry' := used_entry entry s1 t1' table) in *.
    destruct (IH (insert_session (host_sid h) entry' d2) h1 entry' w2 answers' d3 w3)
      as (h' & d'' & Hconv & Hd); [|done| |].
    + split; [rewrite Hsid; apply lookup_insert_eq|done..].
    + rewrite Hsid, remove_insert by done. exact Hrest.
    + exists h', d''. rewrite (eff_run _ _ _ _ _ Hrun), (eff_run _ _ _ _ _ Hconv).
      split; [done|]. by rewrite <- Hsid.
Qed.

(** *** The handshake *)

(** Only the session table, the audit log and the mark of a durable change may
    differ. *)
Definition only_sessions (d d' : Device) : Prop :=
  same_store (set_sessions ∅ d) (set_sessions ∅ d').

Lemma only_sessions_trans a b c : only_sessions a b → only_sessions b c → only_sessions a c.
Proof. unfold only_sessions. intros ? ?. by etransitivity. Qed.

Lemma only_sessions_store d d' : same_store d d' → only_sessions d d'.
Proof. intros []. by split. Qed.

Lemma only_sessions_table t d : only_sessions d (set_sessions t d).
Proof. by split. Qed.

(** A handshake of two frames, at [t0] and [t2], adds a session under a number
    that no live session has; the other sessions that are live at both times stay
    as they are, and the rest are gone. *)
Record joins (sid t0 t2 : Z) (d d' : Device) : Prop := {
  joins_free : ∀ entry, sessions d !! sid = Some entry → ¬ live_at t0 entry;
  joins_others : ∀ n entry, n ≠ sid →
    sessions d' !! n = Some entry ↔
    sessions d !! n = Some entry ∧ live_at t0 entry ∧ live_at t2 entry;
}.

Lemma active_free t0 d sid :
  sessions (expire_inactive_sessions t0 d) !! sid = None →
  ∀ entry, sessions d !! sid = Some entry → ¬ live_at t0 entry.
Proof.
  intros Hn entry Hl Hlive. pose proof (proj2 (live_part_active t0 d sid entry) (conj Hl Hlive)) as Ha.
  unfold active_table in Ha. congruence.
Qed.

(** Two expiries and one insertion at the number. *)
Lemma joins_tables sid t0 t2 d d1 d' entry1 :
  sessions (expire_inactive_sessions t0 d) !! sid = None →
  sessions d1 = <[sid := entry1]> (sessions (expire_inactive_sessions t0 d)) →
  (∀ n, n ≠ sid → sessions d' !! n = sessions (expire_inactive_sessions t2 d1) !! n) →
  joins sid t0 t2 d d'.
Proof.
  intros Hf Hd1 Hd'. split; [by apply active_free|]. intros n entry Hn. rewrite Hd' by done.
  rewrite (live_part_active t2 d1 n entry), Hd1, lookup_insert_ne by done.
  rewrite (live_part_active t0 d n entry). tauto.
Qed.

(** An audited step that succeeds: its answer, and the table it left. *)
Lemma audited_run auth c request m s answer d' w' :
  m s = (Ok answer, (d', w')) →
  ∃ d'', audited auth c request m s = (Ok answer, (d'', w')) ∧
    sessions d'' = sessions d' ∧ only_sessions d' d''.
Proof.
  intros Hm. exists (if should_audit d' c
    then append_audit_entry d' auth c request (result_code (Ok answer)) else d').
  split; [|split].
  - unfold audited. rewrite (eff_run _ _ _ (Ok answer) (d', w')); [done|].
    unfold attempt. by rewrite Hm.
  - destruct (should_audit d' c); [|done].
    by rewrite (same_sessions _ _ (append_audit_entry_store _ _ _ _ _)).
  - apply only_sessions_store. destruct (should_audit d' c); [|done]. apply append_audit_entry_store.
Qed.

Lemma decode_create_session_app id host :
  u16 id →
  decode CreateSessionRequest (u16_to_be_bytes id ++ host) = Ok (CreateSessionRequest_ id host).
Proof.
  intros Hid. unfold decode, decode_fields, decode_create_session, decoder, mbind, eff_bind.
  by rewrite read_u16_app.
Qed.

(** What opens a session opens it under audit. *)
Lemma create_session_opens d w0 id host auth request answer d1 w1 :
  u16 id → data request = u16_to_be_bytes id ++ host → session_authorization d id = Ok auth →
  open_session auth id host (d, w0) = (Ok answer, (d1, w1)) →
  ∃ d', create_session request (d, w0) = (Ok answer, (d', w1)) ∧
    sessions d' = sessions d1 ∧ only_sessions d1 d'.
Proof.
  intros Hid Hd Ha Hopen.
  destruct (audited_run auth CommandCode.CreateSession request _ _ _ _ _ Hopen) as (d' & Hrun & Hss & Ho).
  exists d'. split; [|done].
  unfold create_session. rewrite Hd. rewrite (lift_run _ _ _ _ (decode_create_session_app id host Hid)).
  rewrite (eff_run _ _ _ d (d, w0)) by done. by rewrite (lift_run _ _ _ _ Ha).
Qed.

(** The device opens a session that waits for the host cryptogram. *)
Lemma create_session_run d w0 id keys host auth sid card w1 s cc hc t1 w2 request :
  u16 id → len host = CHALLENGE_LENGTH → data request = u16_to_be_bytes id ++ host →
  session_authorization d id = Ok auth →
  authentication_key_material d id = Ok (Symmetric keys) → free_session_id d = Some sid →
  getrandom_fill CHALLENGE_LENGTH w0 = (Some card, w1) →
  begin_symmetric sid keys host card = Ok (s, cc, hc) → instant_now w1 = (t1, w2) →
  ∃ d', create_session request (d, w0)
        = (Ok (response (CommandCode.to_byte CommandCode.CreateSession) (sid :: card ++ cc)), (d', w2)) ∧
    sessions d' = <[sid := mkSessionEntry auth s (Some hc) false t1 ∅]> (sessions d) ∧
    only_sessions d d'.
Proof.
  intros Hid Hlen Hd Ha Hm Hs Hr Hb Ht.
  assert (open_session auth id host (d, w0)
    = (Ok (response (CommandCode.to_byte CommandCode.CreateSession) (sid :: card ++ cc)),
       (insert_session sid (mkSessionEntry auth s (Some hc) false t1 ∅) d, w2))) as Hopen.
  { unfold open_session. rewrite (eff_run _ _ _ d (d, w0)) by done. rewrite (lift_run _ _ _ _ Hm).
    rewrite (lift_run _ _ _ sid) by by rewrite Hs.
    unfold open_symmetric_session. rewrite (lift_run _ _ _ tt) by by rewrite Hlen.
    rewrite (world_run _ _ _ _ _ _ (random_run _ _ _ _ Hr)). rewrite (lift_run _ _ _ _ Hb).
    by rewrite (world_run _ _ _ _ _ _ (now_run _ _ _ Ht)). }
  destruct (create_session_opens _ _ _ _ _ _ _ _ _ Hid Hd Ha Hopen) as (d' & Hrun & Hss & Ho).
  exists d'. split; [done|]. split; [by rewrite Hss|].
  eapply only_sessions_trans; [|exact Ho]. apply only_sessions_table.
Qed.

(** The frame that proves the host cryptogram completes the session. *)
Lemma authenticate_session_run d w0 sid entry expected mac w1 t1 :
  sessions d !! sid = Some entry → authenticated entry = false →
  expected_host_cryptogram entry = Some expected → len expected = MAC_LENGTH →
  SecureChannel.sid (secure entry) = sid →
  aes_cmac (s_mac (secure entry))
    (mac_chaining_value (secure entry)
     ++ 4 :: u16_to_be_bytes (len (sid :: expected) + MAC_LENGTH) ++ sid :: expected) = inl mac →
  instant_now w0 = (t1, w1) →
  let secure' := set_counter (increment_counter (counter (secure entry)))
                   (set_chaining mac (secure entry)) in
  ∃ d', authenticate_session (mkFrame 4 ((sid :: expected) ++ ztake MAC_LENGTH mac)) (d, w0)
        = (Ok (response (CommandCode.to_byte CommandCode.AuthenticateSession) []), (d', w1)) ∧
    sessions d'
    = <[sid := mkSessionEntry (authorization entry) secure' None true t1 (session_objects entry)]> (sessions d) ∧
    only_sessions d d'.
Proof.
  intros Hl Hauth Hexp Hlen Hsid Hmac Ht secure'.
  set (request := mkFrame 4 ((sid :: expected) ++ ztake MAC_LENGTH mac)).
  set (entry' := mkSessionEntry (authorization entry) secure' None true t1 (session_objects entry)).
  assert (authenticate_symmetric request expected (secure entry) = (Ok tt, secure')) as Hv.
  { unfold authenticate_symmetric.
    rewrite (eff_run _ _ _ (sid :: expected) (set_chaining mac (secure entry))).
    2:{ apply verify_request_mac_accepts; [done|]. rewrite len_cons, Hlen. done. }
    rewrite (eff_run _ _ _ (set_chaining mac (secure entry)) (set_chaining mac (secure entry))) by done.
    rewrite len_cons, Hlen, Z.eqb_refl. cbn [head SecureChannel.sid set_chaining].
    rewrite Hsid, bool_decide_true by done. change (zdrop 1 (sid :: expected)) with expected.
    by rewrite bool_decide_true. }
  assert (authenticate_entry sid entry request (remove_session sid d, w0)
    = (Ok (response (CommandCode.to_byte CommandCode.AuthenticateSession) []),
       (record_unlogged_authentication_if_full (insert_session sid entry' (remove_session sid d)), w1)))
    as Hrun.
  { unfold authenticate_entry. rewrite Hauth, (lift_run _ _ _ tt) by done. rewrite Hexp.
    rewrite (lift_run _ _ _ expected) by done.
    rewrite (lift_run _ _ _ (tt, secure')) by (unfold run_channel; by rewrite Hv).
    by rewrite (world_run _ _ _ _ _ _ (now_run _ _ _ Ht)). }
  destruct (audited_run (authorization entry) CommandCode.AuthenticateSession request _ _ _ _ _ Hrun)
    as (d' & Haud & Hss & Ho).
  exists d'. split; [|split].
  - unfold authenticate_session. change (data request) with (sid :: expected ++ ztake MAC_LENGTH mac).
    rewrite (lift_run _ _ _ _ (decode_envelope sid _)).
    rewrite (eff_run _ _ _ d (d, w0)) by done.
    rewrite (lift_run _ _ _ entry) by by rewrite Hl. done.
  - rewrite Hss, (same_sessions _ _ (record_unlogged_store _)). apply insert_delete_eq.
  - eapply only_sessions_trans; [|exact Ho].
    eapply only_sessions_trans; [|apply only_sessions_store, record_unlogged_store].
    unfold insert_session, remove_session. by split.
Qed.

(** The channel both ends hold once the host cryptogram is proved. *)
Lemma handshake_channel s mac :
  s = mkSecure (sid s) (s_enc s) (s_mac s) (s_rmac s) (zeros 16) (zeros 16) →
  0 ≤ sid s < 16 → len (s_enc s) = 16 → len (s_mac s) = 16 → len (s_rmac s) = 16 → len mac = 16 →
  let s' := set_counter (increment_counter (counter s)) (set_chaining mac s) in
  channel_ok s' ∧
  synced s' (mkHost (sid s) (s_enc s) (s_mac s) (s_rmac s) (zeros (AES_BLOCK_SIZE - 1) ++ [1]) mac).
Proof.
  intros -> Hsid ? ? ? ? s'. unfold s'. cbn [set_counter set_chaining counter SecureChannel.sid s_enc s_mac s_rmac] in *.
  split; split; cbn; try done.
  - unfold u8. lia.
  - split; by_computation.
Qed.

(** The host opens a session on a device that holds its keys. *)
Lemma open_symmetric_run d w id keys auth sid card s cc hc t0 w0 w1 t1 w2 t2 w3 t3 w4 :
  u16 id → len card = CHALLENGE_LENGTH →
  session_authorization d id = Ok auth → authentication_key_material d id = Ok (Symmetric keys) →
  instant_now w = (t0, w0) → free_session_id (expire_inactive_sessions t0 d) = Some sid →
  getrandom_fill CHALLENGE_LENGTH w0 = (Some card, w1) →
  begin_symmetric sid keys host_challenge card = Ok (s, cc, hc) →
  instant_now w1 = (t1, w2) → instant_now w2 = (t2, w3) → instant_now w3 = (t3, w4) →
  t2 - t1 < SESSION_INACTIVITY_TIMEOUT →
  ∃ h d' entry,
    open_symmetric id keys (d, w) = (Ok h, (d', w4)) ∧ connected d' h entry ∧
    authorization entry = auth ∧ session_objects entry = ∅ ∧ last_activity entry = t3 ∧
    only_sessions d d' ∧ host_sid h = sid ∧ joins sid t0 t2 d d'.
Proof.
  intros Hid Hcard Hauth Hmat Ht0 Hfree Hrand Hbegin Ht1 Ht2 Ht3 Hfresh.
  apply free_session_id_spec in Hfree as Hsid. destruct Hsid as [Hsid Hnone].
  pose proof (begin_symmetric_ok _ _ _ _ _ _ _ Hbegin)
    as (Hkeys & Hs & Henc & Hmac & Hrmac & Hcc & Hhc).
  assert (SecureChannel.sid s = sid) as Hss by by rewrite Hs.
  pose proof (scp03_cryptogram_length _ _ _ _ Hcc) as Hlcc.
  pose proof (scp03_cryptogram_length _ _ _ _ Hhc) as Hlhc.
  pose proof (scp03_key_length _ _ _ _ Hmac) as Hlm.
  unfold CHALLENGE_LENGTH in Hcard.
  (* the first exchange *)
  set (create := mkFrame 3 (u16_to_be_bytes id ++ host_challenge)).
  destruct (create_session_run (expire_inactive_sessions t0 d) w0 id keys host_challenge auth sid card
    w1 s cc hc t1 w2 create Hid eq_refl eq_refl Hauth Hmat Hfree Hrand Hbegin Ht1)
    as (d1 & Hcreate & Hd1 & Ho1).
  set (entry := mkSessionEntry auth s (Some hc) false t1 ∅) in *.
  assert (exchange_frame create (d, w)
    = (Ok (response (CommandCode.to_byte CommandCode.CreateSession) (sid :: card ++ cc)), (d1, w2))) as Hex1.
  { apply exchange_frame_device.
    - unfold create. cbn [data]. rewrite len_app, len_u16_to_be_bytes. done.
    - cbn [data response]. rewrite len_cons, len_app, Hcard, Hlcc. done.
    - by eapply (handle_session_frame create_session CommandCode.CreateSession). }
  (* the second exchange *)
  destruct (aes_cmac_total (s_mac s) (zeros AES_BLOCK_SIZE ++ [4; 0; 17] ++ sid :: hc)) as [mac Hcmac];
    [done|].
  pose proof (aes_cmac_length _ _ _ Hcmac) as H16.
  set (proof := mkFrame 4 ((sid :: hc) ++ ztake MAC_LENGTH mac)).
  assert (still_active t2 entry = true) as Hact.
  { unfold still_active, entry. cbn [last_activity]. apply Z.ltb_lt. unfold SESSION_INACTIVITY_TIMEOUT in *. lia. }
  destruct (authenticate_session_run (expire_inactive_sessions t2 d1) w3 sid entry hc mac w4 t3)
    as (d2 & Hauthenticate & Hd2 & Ho2); [|done|done|done|done| |done|].
  { apply lookup_active; [|done]. rewrite Hd1. apply lookup_insert_eq. }
  { rewrite len_cons, Hlhc. cbn [secure entry]. by rewrite Hs. }
  assert (exchange_frame proof (d1, w2)
    = (Ok (response (CommandCode.to_byte CommandCode.AuthenticateSession) []), (d2, w4))) as Hex2.
  { apply exchange_frame_device; [|done|].
    - unfold proof. cbn [data]. rewrite len_app, len_cons, len_ztake, Hlhc by (unfold MAC_LENGTH; lia). done.
    - by eapply (handle_session_frame authenticate_session CommandCode.AuthenticateSession). }
  destruct (handshake_channel s mac) as [Hok Hsync]; [by rewrite Hss|by rewrite Hss|by eapply scp03_key_length..|done|].
  rewrite Hss in Hsync.
  exists (mkHost sid (s_enc s) (s_mac s) (s_rmac s) (zeros (AES_BLOCK_SIZE - 1) ++ [1]) mac), d2.
  eexists. split; [|split; [split; [rewrite Hd2; apply lookup_insert_eq|done..]|do 3 (split; [done|])]].
  2:{ split; [|split; [done|eapply joins_tables; [exact Hnone|exact Hd1|]]].
      2:{ intros n Hn. by rewrite Hd2, lookup_insert_ne. }
      eapply only_sessions_trans; [|exact Ho2]. eapply only_sessions_trans; [|apply only_sessions_table].
      eapply only_sessions_trans; [|exact Ho1]. apply only_sessions_table. }
  by eapply (host_handshake id keys sid card s cc hc mac create proof).
Qed.

(** ** Properties *)

(** C9: a session is a transparent channel. Whatever commands a host sends in an
    authenticated session whose ends agree, it decrypts exactly the answers that
    the command execution of the device gives to the same commands in the same
    order, and the device is left as that execution leaves it, but for the session
    itself. *)
Theorem sessions_are_transparent (inners : list Frame) (d : Device) (h : SymmetricSession)
    (entry : SessionEntry) (w : World) (answers : list Frame) (d' : Device) (w' : World) :
  connected d h entry → Forall (λ f, len (data f) ≤ 8172) inners →
  served (authorization entry) inners (session_objects entry) (last_activity entry)
    (remove_session (host_sid h) d, w) = (Ok answers, (d', w')) →
  ∃ h' d'', conversation h inners (d, w) = (Ok (answers, h'), (d'', w')) ∧
    remove_session (host_sid h) d'' = d'.
Proof. apply conversation_run. Qed.

(** C10: a host that knows the keys gets a session. When the device stores the
    symmetric authentication key that the host names, has a free session number
    and draws a challenge from which the keys can be derived, and the host proves
    itself before the session expires, the handshake succeeds: the host holds an
    authenticated session with the rights of that key and no volatile objects,
    whose ends agree, and the device has changed nothing else but its log: every
    other session stays under its number as it was, unless it was last used thirty
    seconds or more before one of the two frames of the handshake, and there is no
    other new one. *)
Theorem handshake_opens_a_session (d : Device) (w : World) (id : Z) (keys : bytes)
    (auth : SessionAuthorization) (sid : Z) (card : bytes) (s : SecureSession) (cc hc : bytes)
    (t0 t1 t2 t3 : Z) (w0 w1 w2 w3 w4 : World) :
  u16 id → len card = CHALLENGE_LENGTH →
  session_authorization d id = Ok auth → authentication_key_material d id = Ok (Symmetric keys) →
  instant_now w = (t0, w0) → free_session_id (expire_inactive_sessions t0 d) = Some sid →
  getrandom_fill CHALLENGE_LENGTH w0 = (Some card, w1) →
  begin_symmetric sid keys host_challenge card = Ok (s, cc, hc) →
  instant_now w1 = (t1, w2) → instant_now w2 = (t2, w3) → instant_now w3 = (t3, w4) →
  t2 - t1 < SESSION_INACTIVITY_TIMEOUT →
  ∃ h d' entry,
    open_symmetric id keys (d, w) = (Ok h, (d', w4)) ∧ connected d' h entry ∧
    authorization entry = auth ∧ session_objects entry = ∅ ∧ last_activity entry = t3 ∧
    only_sessions d d' ∧ host_sid h = sid ∧ joins sid t0 t2 d d'.
Proof. apply open_symmetric_run. Qed.
End channel_laws.
End in_process.

(** ** Witnesses *)

#[local] Existing Instance default_build.
#[local] Existing Instance toy_fuel.

Definition example_entry : SessionEntry :=
  mkSessionEntry example_session example_secure None true 1000 ∅.

Definition example_connected : Device := set_sessions {[3 := example_entry]} example_device.

(** An echo, a listing and the end of the session. *)
Definition example_commands : list Frame :=
  [mkFrame 0x01 [1; 2; 3]; mkFrame 0x48 []; mkFrame 0x40 []].

Lemma sessions_are_transparent_witness :
  ∃ answers h' d'' w', len answers = 3 ∧
    conversation example_host example_commands (example_connected, toy_world)
    = (Ok (answers, h'), (d'', w')).
Proof.
  assert (match (served example_session example_commands ∅ 1000
            (remove_session 3 example_connected, toy_world)).1 with
          | Ok answers => len answers =? 3 | _ => false end = true) as Hok by by vm_compute.
  destruct (served example_session example_commands ∅ 1000
              (remove_session 3 example_connected, toy_world)) as [[answers|e| |] [d' w']] eqn:Hs;
    [|done..].
  destruct (sessions_are_transparent example_commands example_connected example_host example_entry
              toy_world answers d' w') as (h' & d'' & Hc & _).
  - split; [apply lookup_insert_eq|done|apply example_secure_ok|split; reflexivity].
  - by_computation.
  - exact Hs.
  - exists answers, h', d'', w'. split; [|exact Hc]. cbn [fst] in Hok. by bool_prop.
Defined.

Lemma handshake_opens_a_session_witness :
  ∃ h d' entry w',
    open_symmetric 1 (yubico_password_kdf (ascii_bytes "password")) (example_device, toy_world)
    = (Ok h, (d', w')) ∧ connected d' h entry.
Proof.
  set (keys := yubico_password_kdf (ascii_bytes "password")).
  set (card := to_be_bytes 8 42).
  destruct (begin_symmetric 0 keys host_challenge card) as [[[s cc] hc]|e| |] eqn:Hb.
  2-4: exfalso; by vm_compute in Hb.
  destruct (handshake_opens_a_session example_device toy_world 1 keys
    (mkAuthorization 1 ALL ALL u16_max) 0 card s cc hc 1000 1000 1000 1000 toy_world (42, 1000)
    (42, 1000) (42, 1000) (42, 1000))
    as (h & d' & entry & Ho & Hc & _).
  - by_computation.
  - reflexivity.
  - vm_compute. reflexivity.
  - vm_compute. reflexivity.
  - reflexivity.
  - vm_compute. reflexivity.
  - reflexivity.
  - exact Hb.
  - reflexivity.
  - reflexivity.
  - reflexivity.
  - reflexivity.
  - exists h, d', entry, (42, 1000). split; [exact Ho|exact Hc].
Defined.
