(* ===== verification/WorkerProtocol.v ===== *)
(** * Worker-control records (src/worker_protocol.rs)

    The records that the USB worker exchanges with its supervisor, one per
    packet of a sequenced socket, and the table of its initial resources. The
    socket is a parameter: what [libc::send] and [libc::recvmsg] return, and the
    constants of the platform. *)

From S2P Require Import Prelude Error Io KeyCore Toy.

(** ** Records *)

Definition MAGIC : bytes := ascii_bytes "UGSP".
Definition VERSION : Z := 1.
Definition HEADER_LENGTH : Z := 20.
Definition MAX_BODY_LENGTH : Z := 1024 * 1024.
Definition MAX_DESCRIPTORS : Z := 32.

Inductive Kind : Set :=
| InitialResources | UsbEndpoints | UsbBusEvent | UsbControlRequest | Quiesce
| ConfigurationRejected | Configure | UsbControlResponse | Serving | Quiesced.

#[export] Instance Kind_eq_dec : EqDecision Kind.
Proof. solve_decision. Defined.

Definition kind_to_byte (k : Kind) : Z :=
  match k with
  | InitialResources => 0x01 | UsbEndpoints => 0x02 | UsbBusEvent => 0x03 | UsbControlRequest => 0x04
  | Quiesce => 0x11 | ConfigurationRejected => 0x12 | Configure => 0x80
  | UsbControlResponse => 0x81 | Serving => 0x82 | Quiesced => 0x84
  end.

(** [{:?}] of a kind. *)
Definition kind_debug (k : Kind) : string :=
  match k with
  | InitialResources => "InitialResources" | UsbEndpoints => "UsbEndpoints"
  | UsbBusEvent => "UsbBusEvent" | UsbControlRequest => "UsbControlRequest" | Quiesce => "Quiesce"
  | ConfigurationRejected => "ConfigurationRejected" | Configure => "Configure"
  | UsbControlResponse => "UsbControlResponse" | Serving => "Serving" | Quiesced => "Quiesced"
  end.

Definition kind_from_byte (value : Z) : IoResult Kind :=
  match value with
  | 0x01 => Ok InitialResources
  | 0x02 => Ok UsbEndpoints
  | 0x03 => Ok UsbBusEvent
  | 0x04 => Ok UsbControlRequest
  | 0x11 => Ok Quiesce
  | 0x12 => Ok ConfigurationRejected
  | 0x80 => Ok Configure
  | 0x81 => Ok UsbControlResponse
  | 0x82 => Ok Serving
  | 0x84 => Ok Quiesced
  | _ => invalid ("unknown worker-control kind 0x" +:+ hex_byte value)
  end.

(** An open file, by its descriptor. *)
Abbreviation File := Z (only parsing).

Record WorkerRecord : Set := mkRecord {
  kind : Kind;
  generation : Z;
  request_id : Z;
  body : bytes;
  files : list File;
}.

(** [Record::new]. *)
Definition new_record (kind : Kind) (generation request_id : Z) (body : bytes) : WorkerRecord :=
  mkRecord kind generation request_id body [].

(** ** The socket *)

(** One ancillary object of a received message: its header and the descriptors
    of its data. *)
Record Ancillary : Set := mkAncillary {
  cmsg_level : Z;
  cmsg_type : Z;
  cmsg_len : Z;
  cmsg_data : list File;
}.

Record Received : Set := mkReceived {
  packet : bytes;
  msg_flags : Z;
  ancillary : list Ancillary;
}.

(** [libc]: the size of the header of an ancillary object, the constants, and
    one send and one receive on the control descriptor. A negative result is the
    last system error. *)
Class ControlSocket `{Platform} := {
  CMSG_LEN_0 : Z;
  SOL_SOCKET : Z;
  SCM_RIGHTS : Z;
  MSG_TRUNC : Z;
  MSG_CTRUNC : Z;
  socket_send : bytes → World → (Z + IoError) * World;
  socket_receive : Z → World → (Received + IoError) * World;
}.

Section channel.
Context `{ControlSocket}.

(** [size_of::<libc::c_int>()]. *)
Definition C_INT_SIZE : Z := 4.

Definition encode_record (record : WorkerRecord) : bytes :=
  MAGIC ++ [VERSION; kind_to_byte (kind record)] ++ u16_to_be_bytes 0
  ++ u32_to_be_bytes (generation record) ++ u32_to_be_bytes (request_id record)
  ++ u32_to_be_bytes (len (body record) mod 2 ^ 32) ++ body record.

Definition send (record : WorkerRecord) : Eff World IoError unit :=
  _ ← lift (reject_if (negb (bool_decide (files record = [])) || (MAX_BODY_LENGTH <? len (body record)))
              (data_error "invalid outbound worker-control record"));
  let packet := encode_record record in
  length ← io_call (socket_send packet);
  lift (reject_if (negb (length =? len packet))
          (mkIoError WriteZero "worker-control record was not sent atomically")).

(** The loop over the ancillary objects. *)
Fixpoint received_descriptors (l : list Ancillary) : IoResult (list File) :=
  match l with
  | [] => Ok []
  | a :: rest =>
      if negb (cmsg_level a =? SOL_SOCKET) || negb (cmsg_type a =? SCM_RIGHTS)
      then invalid "unexpected ancillary worker-control data"
      else if (cmsg_len a <? CMSG_LEN_0) || negb ((cmsg_len a - CMSG_LEN_0) mod C_INT_SIZE =? 0)
      then invalid "malformed SCM_RIGHTS payload"
      else
        let count := (cmsg_len a - CMSG_LEN_0) / C_INT_SIZE in
        descriptors ← received_descriptors rest;
        Ok (ztake count (cmsg_data a) ++ descriptors)
  end.

(** [receive], after the system call. *)
Definition decode_received (r : Received) : IoResult WorkerRecord :=
  let p := packet r in
  _ ← reject_if (len p =? 0) (mkIoError UnexpectedEof "worker-control channel closed");
  _ ← reject_if (negb (Z.land (msg_flags r) (Z.lor MSG_TRUNC MSG_CTRUNC) =? 0) || (len p <? HEADER_LENGTH))
         (data_error "truncated worker-control record");
  magic ← slice p 0 4;
  version ← index p 4;
  _ ← reject_if (negb (bool_decide (magic = MAGIC)) || negb (version =? VERSION))
         (data_error "invalid worker-control header");
  kind_byte ← index p 5;
  kind ← kind_from_byte kind_byte;
  declared_files ← from_be_bytes <$> slice p 6 8;
  generation ← from_be_bytes <$> slice p 8 12;
  request_id ← from_be_bytes <$> slice p 12 16;
  body_length ← from_be_bytes <$> slice p 16 20;
  _ ← reject_if ((MAX_BODY_LENGTH <? body_length) || negb (len p =? HEADER_LENGTH + body_length))
         (data_error "invalid worker-control body length");
  descriptors ← received_descriptors (ancillary r);
  _ ← reject_if (negb (len descriptors =? declared_files) || (MAX_DESCRIPTORS <? len descriptors))
         (data_error "worker-control descriptor count mismatch");
  Ok (mkRecord kind generation request_id (zdrop HEADER_LENGTH p) descriptors).

Definition receive : Eff World IoError WorkerRecord :=
  r ← io_call (socket_receive (HEADER_LENGTH + MAX_BODY_LENGTH + 1));
  lift (decode_received r).

(** ** Initial resources *)

(** [slice.get(a..b)]. *)
Definition get_range (l : bytes) (a b : Z) : option bytes :=
  if (0 <=? a) && (a <=? b) && (b <=? len l) then Some (ztake (b - a) (zdrop a l)) else None.

(** The loop over the name table, from an offset. *)
Fixpoint resource_names (body : bytes) (count : nat) (offset : Z) : IoResult (list bytes * Z) :=
  match count with
  | O => Ok ([], offset)
  | S count =>
      length ← ok_or (get_range body offset (offset + 2)) (data_error "truncated initial resource name");
      let offset := offset + 2 in
      let length := from_be_bytes length in
      name ← ok_or (get_range body offset (offset + length))
               (data_error "truncated initial resource name");
      _ ← ok_or (from_utf8 name) (data_error "initial resource name is not UTF-8");
      '(names, offset) ← resource_names body count (offset + length);
      Ok (name :: names, offset)
  end.

Definition validate_initial_resources (record : WorkerRecord) : IoResult (list (bytes * File)) :=
  _ ← reject_if (negb (bool_decide (kind record = InitialResources)) || negb (generation record =? 0)
          || negb (request_id record =? 0))
         (data_error "expected initial worker resources");
  _ ← reject_if (len (body record) <? 2)
         (data_error "invalid initial resource-name table");
  count ← from_be_bytes <$> slice (body record) 0 2;
  _ ← reject_if (negb (count =? len (files record)))
         (data_error "initial resource names and descriptors differ");
  '(names, offset) ← resource_names (body record) (Z.to_nat count) 2;
  _ ← reject_if (negb (offset =? len (body record)))
         (data_error "initial resource-name table has trailing data");
  Ok (zip names (files record)).
End channel.

(** ** Specification: the packets of records and of name tables *)

Definition u32 (z : Z) : Prop := 0 ≤ z < 2 ^ 32.

Record record_ok (r : WorkerRecord) : Prop := {
  record_generation : u32 (generation r);
  record_request : u32 (request_id r);
  record_body : len (body r) ≤ MAX_BODY_LENGTH;
  record_files : len (files r) ≤ MAX_DESCRIPTORS;
}.

(** The packet of a record that may carry descriptors. *)
Definition packet_of (r : WorkerRecord) : bytes :=
  MAGIC ++ [VERSION; kind_to_byte (kind r)] ++ u16_to_be_bytes (len (files r))
  ++ u32_to_be_bytes (generation r) ++ u32_to_be_bytes (request_id r)
  ++ u32_to_be_bytes (len (body r)) ++ body r.

(** The names of resources, each with its length before it. *)
Definition name_table (names : list bytes) : bytes :=
  concat (map (λ n, u16_to_be_bytes (len n) ++ n) names).

Definition name_ok (n : bytes) : Prop := len n ≤ u16_max ∧ is_Some (from_utf8 n).

(** ** Lemmas *)

Lemma kind_from_to_byte k : kind_from_byte (kind_to_byte k) = Ok k.
Proof. by destruct k. Qed.

Lemma kind_from_byte_ok b k : kind_from_byte b = Ok k → b = kind_to_byte k.
Proof. unfold kind_from_byte. intros Hb. repeat case_match; simplify_eq; done. Qed.

Lemma from_to_be_bytes_u32 v : u32 v → from_be_bytes (u32_to_be_bytes v) = v.
Proof. intros. unfold u32_to_be_bytes. rewrite from_to_be_bytes. by apply Z.mod_small. Qed.

(** A byte string is split after a number of its bytes, and its parts are numbers. *)
Lemma split_len (n : Z) (l : bytes) :
  bytes_ok l → 0 ≤ n ≤ len l → ∃ a b, l = a ++ b ∧ len a = n ∧ bytes_ok a ∧ bytes_ok b.
Proof.
  intros Hl Hn. exists (ztake n l), (zdrop n l). rewrite ztake_zdrop, len_ztake by done.
  split; [done|]. split; [done|]. split; [by apply Forall_take|by apply Forall_drop].
Qed.

Lemma number_of n (b : bytes) :
  bytes_ok b → len b = Z.of_nat n →
  to_be_bytes n (from_be_bytes b) = b ∧ 0 ≤ from_be_bytes b < 256 ^ Z.of_nat n.
Proof.
  intros Hb Hl. assert (length b = n) as <- by (unfold len in Hl; lia).
  split; [by apply to_from_be_bytes|by apply from_be_bytes_bound].
Qed.

(** Any packet that is long enough is a header and a body. *)
Lemma header_fields (p : bytes) :
  bytes_ok p → HEADER_LENGTH ≤ len p →
  ∃ magic version kind files gen req size body,
    p = magic ++ [version; kind] ++ u16_to_be_bytes files ++ u32_to_be_bytes gen
          ++ u32_to_be_bytes req ++ u32_to_be_bytes size ++ body ∧
    len magic = 4 ∧ u16 files ∧ u32 gen ∧ u32 req ∧ u32 size.
Proof.
  unfold HEADER_LENGTH. intros Hp Hl.
  destruct (split_len 4 p) as (m & p1 & -> & Hm & _ & H1); [done|lia|].
  destruct (split_len 2 p1) as (vk & p2 & -> & Hvk & _ & H2); [done|len_lia|].
  destruct (split_len 2 p2) as (f & p3 & -> & Hf & Hbf & H3); [done|len_lia|].
  destruct (split_len 4 p3) as (g & p4 & -> & Hg & Hbg & H4); [done|len_lia|].
  destruct (split_len 4 p4) as (q & p5 & -> & Hq & Hbq & H5); [done|len_lia|].
  destruct (split_len 4 p5) as (s & b & -> & Hs & Hbs & _); [done|len_lia|].
  destruct (len_two vk) as (version & kind & ->); [done|].
  destruct (number_of 2 f) as [Ef ?], (number_of 4 g) as [Eg ?], (number_of 4 q) as [Eq ?],
    (number_of 4 s) as [Es ?]; try done.
  exists m, version, kind, (from_be_bytes f), (from_be_bytes g), (from_be_bytes q), (from_be_bytes s), b.
  unfold u16_to_be_bytes, u32_to_be_bytes. rewrite Ef, Eg, Eq, Es. done.
Qed.

(** [packet_of] with arbitrary magic, version, kind, count and size. *)
Definition raw_packet (magic : bytes) (version kind files gen req size : Z) (body : bytes) : bytes :=
  magic ++ [version; kind] ++ u16_to_be_bytes files ++ u32_to_be_bytes gen
  ++ u32_to_be_bytes req ++ u32_to_be_bytes size ++ body.

Lemma len_raw_packet magic version kind files gen req size body :
  len magic = 4 → len (raw_packet magic version kind files gen req size body) = 20 + len body.
Proof. intros Hm. unfold raw_packet. autorewrite with yhsm_len. lia. Qed.

(** The fields of a packet by their offsets. *)
Lemma packet_slices (m : bytes) version kind (f g q s b : bytes) :
  len m = 4 → len f = 2 → len g = 4 → len q = 4 → len s = 4 →
  let p := m ++ [version; kind] ++ f ++ g ++ q ++ s ++ b in
  slice (E := IoError) p 0 4 = Ok m ∧ index (E := IoError) p 4 = Ok version ∧
  index (E := IoError) p 5 = Ok kind ∧ slice (E := IoError) p 6 8 = Ok f ∧
  slice (E := IoError) p 8 12 = Ok g ∧ slice (E := IoError) p 12 16 = Ok q ∧
  slice (E := IoError) p 16 20 = Ok s ∧ zdrop 20 p = b.
Proof.
  intros Hm Hf Hg Hq Hs p.
  split; [apply (slice_parts p [] m ([version; kind] ++ f ++ g ++ q ++ s ++ b)); done|].
  split; [apply index_ok; [lia|]; unfold p; rewrite lookup_app_r by (unfold len in Hm; lia);
          by replace (Z.to_nat 4 - length m)%nat with 0%nat by (unfold len in Hm; lia)|].
  split; [apply index_ok; [lia|]; unfold p; rewrite lookup_app_r by (unfold len in Hm; lia);
          by replace (Z.to_nat 5 - length m)%nat with 1%nat by (unfold len in Hm; lia)|].
  split; [apply (slice_parts p (m ++ [version; kind]) f (g ++ q ++ s ++ b)); [|by len_lia..];
          unfold p; by rewrite <- !app_assoc|].
  split; [apply (slice_parts p (m ++ [version; kind] ++ f) g (q ++ s ++ b)); [|by len_lia..];
          unfold p; by rewrite <- !app_assoc|].
  split; [apply (slice_parts p (m ++ [version; kind] ++ f ++ g) q (s ++ b)); [|by len_lia..];
          unfold p; by rewrite <- !app_assoc|].
  split; [apply (slice_parts p (m ++ [version; kind] ++ f ++ g ++ q) s b); [|by len_lia..];
          unfold p; by rewrite <- !app_assoc|].
  assert (p = (m ++ [version; kind] ++ f ++ g ++ q ++ s) ++ b) as ->
    by (unfold p; by rewrite <- !app_assoc).
  apply zdrop_app_eq. len_lia.
Qed.

Section decoding.
Context `{ControlSocket}.

(** [decode_received] on a header and a body. *)
Lemma decode_packet magic version kind_byte count gen req size body flags anc :
  len magic = 4 → u16 count → u32 gen → u32 req → u32 size →
  decode_received (mkReceived (raw_packet magic version kind_byte count gen req size body) flags anc)
  = (_ ← reject_if (negb (Z.land flags (Z.lor MSG_TRUNC MSG_CTRUNC) =? 0))
         (data_error "truncated worker-control record");
     _ ← reject_if (negb (bool_decide (magic = MAGIC)) || negb (version =? VERSION))
         (data_error "invalid worker-control header");
     kind ← kind_from_byte kind_byte;
     _ ← reject_if ((MAX_BODY_LENGTH <? size) || negb (len body =? size))
         (data_error "invalid worker-control body length");
     descriptors ← received_descriptors anc;
     _ ← reject_if (negb (len descriptors =? count) || (MAX_DESCRIPTORS <? len descriptors))
         (data_error "worker-control descriptor count mismatch");
     Ok (mkRecord kind gen req body descriptors)).
Proof.
  intros Hm Hc Hg Hq Hs. unfold decode_received. cbn [packet msg_flags ancillary].
  pose proof (len_nonneg body). rewrite len_raw_packet by done.
  rewrite (proj2 (Z.eqb_neq (20 + len body) 0)) by lia.
  rewrite (proj2 (Z.ltb_ge _ HEADER_LENGTH)), orb_false_r by (unfold HEADER_LENGTH; lia).
  destruct (negb (Z.land _ _ =? 0)); [done|]. cbn [reject_if mbind outcome_bind]. unfold raw_packet.
  destruct (packet_slices magic version kind_byte (u16_to_be_bytes count) (u32_to_be_bytes gen)
    (u32_to_be_bytes req) (u32_to_be_bytes size) body) as (-> & -> & -> & -> & -> & -> & -> & Hd);
    try by len_lia.
  unfold HEADER_LENGTH. rewrite Hd. cbn [mbind outcome_bind fmap outcome_fmap].
  rewrite from_to_be_bytes_u16, !from_to_be_bytes_u32 by done.
  by replace (20 + len body =? 20 + size) with (len body =? size)
    by (destruct (Z.eqb_spec (len body) size), (Z.eqb_spec (20 + len body) (20 + size)); lia).
Qed.

(** *** The name table *)

Lemma get_range_app a b c :
  get_range (a ++ b ++ c) (len a) (len a + len b) = Some b.
Proof.
  unfold get_range. pose proof (len_nonneg a). pose proof (len_nonneg b). pose proof (len_nonneg c).
  rewrite !len_app, !(proj2 (Z.leb_le _ _)) by lia. cbn [andb].
  rewrite zdrop_app. f_equal. apply ztake_app_eq. lia.
Qed.

Lemma get_range_some l a b r :
  get_range l a b = Some r → 0 ≤ a ∧ b = a + len r ∧ b ≤ len l ∧ zdrop a l = r ++ zdrop b l.
Proof.
  unfold get_range. destruct (_ && _) eqn:Hc; [|done]. bool_prop. intros [= <-].
  assert (len (ztake (b - a) (zdrop a l)) = b - a) as Hl by (apply len_ztake; rewrite len_zdrop by lia; lia).
  rewrite Hl. split; [done|]. split; [lia|]. split; [done|].
  replace (zdrop b l) with (zdrop (b - a) (zdrop a l)); [by rewrite ztake_zdrop|].
  unfold zdrop. rewrite drop_drop. f_equal. lia.
Qed.

Lemma resource_names_table names pre post :
  Forall name_ok names →
  resource_names (pre ++ name_table names ++ post) (length names) (len pre)
  = Ok (names, len pre + len (name_table names)).
Proof.
  intros Hn. revert pre. induction Hn as [|n names [Hl [cs Hu]] _ IH]; intros pre.
  { cbn. by rewrite Z.add_0_r. }
  unfold name_table. cbn [map concat length resource_names]. fold (name_table names).
  unfold u16_max in Hl. pose proof (len_nonneg n).
  replace (len pre + 2) with (len pre + len (u16_to_be_bytes (len n))) by len_lia.
  rewrite <- !(app_assoc (_ ++ _)), <- (app_assoc (u16_to_be_bytes _)), get_range_app.
  cbn [ok_or mbind outcome_bind]. rewrite from_to_be_bytes_u16 by (unfold u16; lia).
  rewrite <- len_app, (app_assoc pre), get_range_app. cbn [ok_or mbind outcome_bind].
  rewrite Hu. cbn [ok_or mbind outcome_bind]. rewrite <- len_app, (app_assoc (pre ++ _)), IH.
  cbn [mbind outcome_bind]. do 2 f_equal. len_lia.
Qed.

Lemma resource_names_ok l n offset names offset' :
  bytes_ok l → 0 ≤ offset ≤ len l → resource_names l n offset = Ok (names, offset') →
  length names = n ∧ Forall name_ok names ∧ offset' ≤ len l ∧ 0 ≤ offset' ∧
  zdrop offset l = name_table names ++ zdrop offset' l.
Proof.
  intros Hb. revert offset names. induction n as [|n IH]; intros offset names Ho Hr; cbn in Hr.
  { injection Hr as <- <-. split; [done|]. split; [constructor|]. split; [lia|]. split; [lia|done]. }
  apply outcome_bind_ok in Hr as (len2 & (? & Hl2 & ? & Hs2)%ok_or_ok%get_range_some & Hr).
  apply outcome_bind_ok in Hr as (name & (? & Hln & ? & Hsn)%ok_or_ok%get_range_some & Hr).
  apply outcome_bind_ok in Hr as (cs & Hu%ok_or_ok & Hr).
  apply outcome_bind_ok in Hr as ([names' o] & Hr & [= <- <-]).
  pose proof (len_nonneg name).
  assert (bytes_ok len2) as Hb2.
  { assert (bytes_ok (zdrop offset l)) as Hz by by apply Forall_drop.
    rewrite Hs2 in Hz. by apply Forall_app in Hz as [? _]. }
  destruct (number_of 2 len2 Hb2) as [He Hbd]; [lia|].
  assert (from_be_bytes len2 = len name) as Hsize by lia.
  apply IH in Hr as (Hlen & Hall & Hle & Hnn & Hz); [|lia]. split; [cbn; lia|].
  split; [constructor; [split; [unfold u16_max; lia|by eexists]|done]|].
  split; [done|]. split; [done|]. rewrite Hs2. unfold name_table. cbn [map concat].
  replace (offset + 2) with (offset + len len2) in * by lia.
  rewrite <- Hsize. unfold u16_to_be_bytes. rewrite He, <- !app_assoc. f_equal.
  rewrite Hsn. f_equal. exact Hz.
Qed.

(** C27: the worker-control records. A received packet is accepted as a record
    exactly when it is the packet of that record, was not truncated, and came
    with the descriptors of that record; nothing on the way panics. What the worker
    sends for a record without descriptors is its packet. *)
Theorem worker_records_decode (p : bytes) (flags : Z) (anc : list Ancillary) (r : WorkerRecord) :
  bytes_ok p →
  (decode_received (mkReceived p flags anc) = Ok r ↔
   record_ok r ∧ p = packet_of r ∧ Z.land flags (Z.lor MSG_TRUNC MSG_CTRUNC) = 0 ∧
   received_descriptors anc = Ok (files r)) ∧
  (record_ok r → files r = [] → encode_record r = packet_of r).
Proof.
  intros Hp. split.
  2:{ intros Hr Hf. pose proof (record_body _ Hr). pose proof (len_nonneg (body r)).
      unfold encode_record, packet_of, MAX_BODY_LENGTH in *. by rewrite Hf, Z.mod_small by lia. }
  split.
  - intros Hd. destruct (decide (HEADER_LENGTH ≤ len p)) as [Hl|Hl].
    2:{ exfalso. unfold decode_received in Hd. cbn [packet msg_flags] in Hd.
        inv_ok. bool_prop. lia. }
    destruct (header_fields p Hp Hl)
      as (m & v & k & count & gen & req & size & b & -> & Hm & ? & ? & ? & ?).
    fold (raw_packet m v k count gen req size b) in Hd. rewrite decode_packet in Hd by done.
    inv_ok. bool_prop. subst.
    match goal with Hk : kind_from_byte _ = Ok _ |- _ => apply kind_from_byte_ok in Hk as -> end.
    split; [by split|done].
  - intros ([? ? ? ?] & -> & Hfl & Hfs).
    pose proof (len_nonneg (files r)). pose proof (len_nonneg (body r)).
    unfold MAX_BODY_LENGTH, MAX_DESCRIPTORS in *.
    change (packet_of r) with (raw_packet MAGIC VERSION (kind_to_byte (kind r)) (len (files r))
      (generation r) (request_id r) (len (body r)) (body r)).
    rewrite decode_packet by (try done; unfold u16, u32; lia).
    rewrite Hfl, kind_from_to_byte, Hfs. cbn [Z.eqb negb reject_if mbind outcome_bind].
    rewrite bool_decide_true, !Z.eqb_refl by done. unfold MAX_BODY_LENGTH, MAX_DESCRIPTORS.
    rewrite (proj2 (Z.ltb_ge _ (len (body r)))), (proj2 (Z.ltb_ge _ (len (files r)))) by lia.
    cbn. by destruct r.
Qed.

(** The initial resources. A record is accepted as the initial resources
    exactly when it is the first record of its kind and its body is the table of as
    many UTF-8 names as it has descriptors, with nothing after it; each name then
    goes to the descriptor at its place. *)
Theorem initial_resources_decode (r : WorkerRecord) (resources : list (bytes * File)) :
  bytes_ok (body r) →
  validate_initial_resources r = Ok resources ↔
  kind r = InitialResources ∧ generation r = 0 ∧ request_id r = 0 ∧
  ∃ names, Forall name_ok names ∧ len names = len (files r) ∧ len names ≤ u16_max ∧
    body r = u16_to_be_bytes (len names) ++ name_table names ∧ resources = zip names (files r).
Proof.
  intros Hb. unfold validate_initial_resources. split.
  - intros Hv. inv_ok. bool_prop.
    match goal with H : resource_names _ _ _ = Ok ?p |- _ => destruct p as [names offset] end.
    inv_ok. bool_prop. subst.
    match goal with H : _ <$> slice _ _ _ = Ok _ |- _ => rename H into Hs end.
    rewrite slice_ok in Hs by lia. injection Hs as Hs.
    match goal with H : resource_names _ _ _ = Ok _ |- _ => rename H into Hr end.
    apply resource_names_ok in Hr as (Hlen & Hall & _ & _ & Hz); [|done|lia].
    unfold len in Hz at 1. unfold zdrop at 2 in Hz. rewrite Nat2Z.id, drop_all, app_nil_r in Hz.
    destruct (number_of 2 (ztake 2 (body r))) as [He Hbd];
      [by apply Forall_take|by rewrite len_ztake by lia|].
    change (ztake (2 - 0) (zdrop 0 (body r))) with (ztake 2 (body r)) in Hs. rewrite Hs in He, Hbd.
    assert (len names = len (files r)) as Hn by (unfold len in *; lia).
    do 3 (split; [done|]). exists names. split; [done|]. split; [done|].
    split; [unfold u16_max; lia|]. split; [|done].
    rewrite Hn. unfold u16_to_be_bytes. rewrite He, <- Hz.
    by rewrite ztake_zdrop.
  - intros (-> & -> & -> & names & Hall & Hn & Hmax & Hbody & ->).
    pose proof (len_nonneg names). pose proof (len_nonneg (name_table names)).
    rewrite Hbody, bool_decide_true by done. cbn [negb orb Z.eqb reject_if mbind outcome_bind].
    rewrite (proj2 (Z.ltb_ge _ _)) by (unfold u16_max in *; len_lia). cbn [reject_if mbind outcome_bind].
    rewrite (slice_parts _ [] (u16_to_be_bytes (len names)) (name_table names)) by (done || len_lia).
    cbn [fmap outcome_fmap mbind outcome_bind].
    rewrite from_to_be_bytes_u16 by (unfold u16, u16_max in *; lia).
    rewrite Hn, Z.eqb_refl. cbn [negb reject_if mbind outcome_bind]. rewrite <- Hn.
    pose proof (resource_names_table names (u16_to_be_bytes (len names)) [] Hall) as Hr.
    rewrite app_nil_r, len_u16_to_be_bytes in Hr. replace (Z.to_nat (len names)) with (length names) by (unfold len; lia). rewrite Hr.
    cbn [mbind outcome_bind]. rewrite len_app, len_u16_to_be_bytes, Z.eqb_refl. done.
Qed.
End decoding.

(** ** Witnesses *)

(** A socket that takes every packet and has nothing to deliver, on Linux. *)
Definition toy_socket : ControlSocket := {|
  CMSG_LEN_0 := 16; SOL_SOCKET := 1; SCM_RIGHTS := 1; MSG_TRUNC := 0x20; MSG_CTRUNC := 8;
  socket_send p w := (inl (len p), w);
  socket_receive _ w := (inr (mkIoError WouldBlock "no record"), w);
|}.
#[local] Existing Instance toy_socket.

(** Two USB endpoints of generation 1, with their descriptors. *)
Definition example_record : WorkerRecord :=
  mkRecord UsbEndpoints 1 1 [0; 2; 1; 2; 0; 64; 0x81; 2; 0; 64] [7; 8].

Lemma worker_records_decode_witness :
  decode_received (mkReceived (packet_of example_record) 0 [mkAncillary 1 1 24 [7; 8]])
  = Ok example_record.
Proof.
  apply (worker_records_decode (packet_of example_record) 0 [mkAncillary 1 1 24 [7; 8]] example_record).
  - by_computation.
  - split; [split; try (split; done); by vm_compute|]. split; [done|]. split; by vm_compute.
Defined.

Definition example_names : list bytes := [ascii_bytes "display-spi"; ascii_bytes "reconnect-button"].

Lemma initial_resources_decode_witness :
  validate_initial_resources
    (mkRecord InitialResources 0 0 (u16_to_be_bytes 2 ++ name_table example_names) [4; 5])
  = Ok (zip example_names [4; 5]).
Proof.
  apply initial_resources_decode; [by_computation|].
  do 3 (split; [done|]). exists example_names. split; [|by split].
  repeat constructor; try (by vm_compute); eexists; by vm_compute.
Defined.
