(* ===== verification/Display.v ===== *)
(** * The status display (src/display.rs)

    The thread that shows on a small display whether the virtual key is plugged
    in, working or asked to identify itself. The indicator controller and the
    display back ends are libraries, and parameters here; [std::sync::mpsc] and
    the mutex around the hardware are operations of the environment. *)

From S2P Require Import Prelude Error Io KeyCore.

(** ** Data *)

Inductive DisplayKind : Set := St7789Spi | Sh1106Spi | Sh1106I2c.

(** The commands of the thread. *)
Inductive DisplayCommand : Set :=
| Identify (seconds : Z)
| PersonalityPresent | PersonalityAbsent | Bind | Unbind | Suspend | Resume | Shutdown.

(** The result of waiting for a command. *)
Inductive ReceivedCommand : Set :=
| GotCommand (command : DisplayCommand) | ReceiveTimeout | ReceiveDisconnected.

(** [display_backends]: the back end of a display, by its descriptors, one frame
    written to it and its end. *)
Class DisplayBackend `{Platform} := {
  OpenDisplay : Type;
  from_raw_fds : DisplayKind → Z → Z → World → (OpenDisplay + IoError) * World;
  write_native_frame : OpenDisplay → bytes → World → option IoError * World;
  shutdown_display : OpenDisplay → World → option IoError * World;
}.

(** The indicator controller of [display_backends]: the blinking in the
    background and the attention signal, which lasts until its guard is dropped;
    and the channel of the commands, with the time to wait. *)
Class Indicator `{Platform} := {
  AttentionGuard : Type;
  indicator_enable : World → option IoError * World;
  indicator_disable : World → option IoError * World;
  indicator_shutdown : World → option IoError * World;
  indicator_attention : World → (AttentionGuard + IoError) * World;
  drop_guard : AttentionGuard → World → World;
  receive_command : option Z → World → ReceivedCommand * World;
  hardware_poisoned : World → bool * World;
}.

(** The frames, [include_bytes!] of the assets. *)
Class Frames := {
  LED_OFF_FRAME : bytes; LED_ON_FRAME : bytes;
  OLED_LED_OFF_FRAME : bytes; OLED_LED_ON_FRAME : bytes;
}.

Section display.
Context `{HP : Platform} `{HD : !DisplayBackend} `{HI : !Indicator} `{HF : Frames}.

(** ** The hardware *)

Record Hardware := mkHardware {
  bus : Z;
  control : Z;
  display_kind : DisplayKind;
  display : option OpenDisplay;
  error_reported : bool;
}.

(** [Hardware::new]. *)
Definition new_hardware (bus control : Z) (kind : DisplayKind) : Hardware :=
  mkHardware bus control kind None false.

Definition set_display (d : option OpenDisplay) (h : Hardware) : Hardware :=
  mkHardware (bus h) (control h) (display_kind h) d (error_reported h).

Definition report_error (h : Hardware) : Hardware :=
  mkHardware (bus h) (control h) (display_kind h) None true.

Definition native_frame (kind : DisplayKind) (led_on : bool) : bytes :=
  match kind, led_on with
  | St7789Spi, false => LED_OFF_FRAME
  | St7789Spi, true => LED_ON_FRAME
  | Sh1106Spi, false | Sh1106I2c, false => OLED_LED_OFF_FRAME
  | Sh1106Spi, true | Sh1106I2c, true => OLED_LED_ON_FRAME
  end.

(** Opens the display when there is none; an error drops it. *)
Definition render (led_on : bool) (h : Hardware) (w : World) : Hardware * World :=
  let '(h, w) :=
    match display h with
    | Some _ => (h, w)
    | None =>
        let '(r, w) := from_raw_fds (display_kind h) (bus h) (control h) w in
        match r with
        | inl d => (mkHardware (bus h) (control h) (display_kind h) (Some d) false, w)
        | inr _ => (report_error h, w)
        end
    end in
  match display h with
  | None => (h, w)
  | Some d =>
      let '(r, w) := write_native_frame d (native_frame (display_kind h) led_on) w in
      (match r with None => h | Some _ => report_error h end, w)
  end.

Definition turn_off (h : Hardware) (w : World) : Hardware * World :=
  match display h with
  | None => (h, w)
  | Some d =>
      let '(r, w) := shutdown_display d w in
      (match r with None => set_display None h | Some _ => report_error (set_display None h) end, w)
  end.

(** ** The thread *)

Record DisplayState := mkDisplay {
  hardware : Hardware;
  personality_present : bool;
  bound : bool;
  suspended : bool;
  identify_until : option Z;
  identify_guard : option AttentionGuard;
}.

Definition initial_display (h : Hardware) : DisplayState := mkDisplay h false false false None None.

Abbreviation Thread := (Eff (DisplayState * World) IoError).

(** [lock_hardware(&hardware)?] and one method of the hardware. *)
Definition with_hardware (f : Hardware → World → Hardware * World) : Thread unit := λ s,
  let '(poisoned, w) := hardware_poisoned s.2 in
  if poisoned then (Err (mkIoError OtherKind "YubiHSM display lock poisoned"), (s.1, w))
  else
    let '(h, w) := f (hardware s.1) w in
    (Ok tt, (mkDisplay h (personality_present s.1) (bound s.1) (suspended s.1)
               (identify_until s.1) (identify_guard s.1), w)).

(** [drop(identify_guard.take())]. *)
Definition drop_identify_guard : Thread unit := λ s,
  let st := s.1 in
  let w := match identify_guard st with None => s.2 | Some g => drop_guard g s.2 end in
  (Ok tt, (mkDisplay (hardware st) (personality_present st) (bound st) (suspended st)
             (identify_until st) None, w)).

(** The three flags, with the identification over. *)
Definition set_flags (present bound suspended : bool) : Thread unit :=
  modify (λ st, mkDisplay (hardware st) present bound suspended None (identify_guard st)).

Definition set_identify (until : option Z) (guard : option AttentionGuard) : Thread unit :=
  modify (λ st, mkDisplay (hardware st) (personality_present st) (bound st) (suspended st) until guard).

Definition when (c : bool) (m : Thread unit) : Thread unit := if c then m else mret tt.

(** One command; [None] when the thread goes on. *)
Definition display_command (command : DisplayCommand) : Thread bool :=
  st ← get_left;
  match command with
  | Identify seconds =>
      _ ← when (personality_present st && bound st && negb (suspended st) && negb (seconds =? 0))
            (_ ← drop_identify_guard;
             guard ← on_world (io_call indicator_attention);
             _ ← set_identify (identify_until st) (Some guard);
             time ← on_world (λ w, let '(t, w) := instant_now w in (Ok t, w));
             set_identify (Some (time + seconds * 1000)) (Some guard));
      mret true
  | PersonalityPresent =>
      _ ← set_flags true false false;
      _ ← drop_identify_guard;
      _ ← on_world (io_check indicator_disable);
      _ ← with_hardware (render false);
      mret true
  | PersonalityAbsent =>
      _ ← set_flags false false false;
      _ ← drop_identify_guard;
      result ← attempt (on_world (io_check indicator_disable));
      _ ← with_hardware turn_off;
      _ ← lift result;
      mret true
  | Bind =>
      _ ← set_flags (personality_present st) true false;
      _ ← drop_identify_guard;
      _ ← when (personality_present st)
            (_ ← with_hardware (render false); on_world (io_check indicator_enable));
      mret true
  | Unbind =>
      _ ← set_flags (personality_present st) false false;
      _ ← drop_identify_guard;
      _ ← on_world (io_check indicator_disable);
      _ ← when (personality_present st) (with_hardware (render false));
      mret true
  | Suspend =>
      _ ← set_flags (personality_present st) (bound st) true;
      _ ← drop_identify_guard;
      _ ← on_world (io_check indicator_disable);
      _ ← when (personality_present st) (with_hardware (render false));
      mret true
  | Resume =>
      _ ← when (personality_present st && bound st && suspended st)
            (_ ← modify (λ st, mkDisplay (hardware st) (personality_present st) (bound st) false
                                 (identify_until st) (identify_guard st));
             _ ← with_hardware (render false);
             on_world (io_check indicator_enable));
      mret true
  | Shutdown =>
      _ ← drop_identify_guard;
      result ← attempt (on_world (io_check indicator_shutdown));
      _ ← with_hardware turn_off;
      _ ← lift result;
      mret false
  end.

(** The next command: an identification that is over is dropped. *)
Definition display_receive : Thread (option DisplayCommand) :=
  st ← get_left;
  received ← on_world (λ w,
    match identify_until st with
    | Some deadline =>
        let '(time, w) := instant_now w in
        let '(r, w) := receive_command (Some (Z.max 0 (deadline - time))) w in (Ok r, w)
    | None =>
        let '(r, w) := receive_command None w in
        (Ok (match r with GotCommand c => GotCommand c | _ => ReceiveDisconnected end), w)
    end);
  match received with
  | GotCommand command => mret (Some command)
  | ReceiveTimeout =>
      _ ← set_identify None (identify_guard st);
      _ ← drop_identify_guard;
      mret None
  | ReceiveDisconnected => mret (Some Shutdown)
  end.

(** [display_loop], for a number of rounds. *)
Fixpoint display_loop (rounds : nat) : Thread unit :=
  match rounds with
  | O => lift Diverge
  | S rounds =>
      received ← display_receive;
      match received with
      | None => display_loop rounds
      | Some command =>
          goes_on ← display_command command;
          if goes_on : bool then display_loop rounds else mret tt
      end
  end.
End display.

(** ** What the code relies on

    Two observations of the world: whether the indicator blinks, and what the
    thread has been given by its channel so far. The indicator controller blinks
    exactly between a successful [enable] and a successful [disable], and what
    has been received grows by the result of each wait and by nothing else. *)
Class IndicatorGhost `{HP : Platform} := {
  indicator_on : World → bool;
  heard : World → list ReceivedCommand;
}.

Definition ghost `{IndicatorGhost} (w : World) : bool * list ReceivedCommand :=
  (indicator_on w, heard w).

Class IndicatorLaws `{HP : Platform} `{HD : !DisplayBackend} `{HI : !Indicator} `{HG : !IndicatorGhost} := {
  enable_on w w' : indicator_enable w = (None, w') → ghost w' = (true, heard w);
  disable_off w w' : indicator_disable w = (None, w') → ghost w' = (false, heard w);
  receive_hears d w :
    ghost (receive_command d w).2 = (indicator_on w, heard w ++ [(receive_command d w).1]);
  attention_keeps w : ghost (indicator_attention w).2 = ghost w;
  drop_keeps g w : ghost (drop_guard g w) = ghost w;
  poisoned_keeps w : ghost (hardware_poisoned w).2 = ghost w;
  clock_keeps w : ghost (instant_now w).2 = ghost w;
  open_keeps k a b w : ghost (from_raw_fds k a b w).2 = ghost w;
  write_keeps d f w : ghost (write_native_frame d f w).2 = ghost w;
  close_keeps d w : ghost (shutdown_display d w).2 = ghost w;
}.

Section properties.
Context `{HP : Platform} `{HD : !DisplayBackend} `{HI : !Indicator} `{HF : Frames}.
Context `{HG : !IndicatorGhost} `{HL : !IndicatorLaws}.

(** ** Specification

    The bus as the commands describe it: a key is plugged in or not, bound by its
    host or not, asleep or not, and asked to identify itself or not. A newly
    plugged key is not bound; binding wakes it up; every change of the bus ends an
    identification, and so does the end of its time. *)
Record BusState := mkBus { plugged : bool; configured : bool; asleep : bool; asked : bool }.

Definition blinks (b : BusState) : bool := plugged b && configured b && negb (asleep b).

Definition bus_step (b : BusState) (received : ReceivedCommand) : BusState :=
  match received with
  | GotCommand PersonalityPresent => mkBus true false false false
  | GotCommand PersonalityAbsent => mkBus false false false false
  | GotCommand Bind => mkBus (plugged b) true false false
  | GotCommand Unbind => mkBus (plugged b) false false false
  | GotCommand Suspend => mkBus (plugged b) (configured b) true false
  | GotCommand Resume => mkBus (plugged b) (configured b) false (asked b)
  | GotCommand (Identify seconds) =>
      mkBus (plugged b) (configured b) (asleep b) (asked b || blinks b && negb (seconds =? 0))
  | ReceiveTimeout => mkBus (plugged b) (configured b) (asleep b) false
  | GotCommand Shutdown | ReceiveDisconnected => b
  end.

(** The bus after what the thread has heard. *)
Definition bus_after (history : list ReceivedCommand) : BusState :=
  fold_left bus_step history (mkBus false false false false).

(** What the state of the thread and the indicator show of a bus: the indicator
    blinks exactly while the key is plugged in, bound and awake, and attention is
    asked for exactly while it is to identify itself, which is no longer than
    that. The thread keeps a suspension the bus has left while no host is bound,
    so its flags agree with the bus only as far as the indicator goes. *)
Definition asking (st : DisplayState) : bool :=
  match identify_guard st with Some _ => true | None => false end.

Record shows (b : BusState) (s : DisplayState * World) : Prop := {
  shows_blinks : indicator_on s.2 = blinks b;
  shows_asked : asking s.1 = asked b;
  shows_bounded : asked b = true → blinks b = true;
  shows_plugged : personality_present s.1 = plugged b;
  shows_configured : bound s.1 = configured b;
  shows_asleep : blinks b = plugged b && configured b && negb (suspended s.1);
}.

Definition follows (s : DisplayState * World) : Prop := shows (bus_after (heard s.2)) s.

(** ** Lemmas *)

Lemma render_keeps led h w : ghost (render led h w).2 = ghost w.
Proof.
  unfold render. destruct (display h) as [d|] eqn:Hd.
  - rewrite Hd. pose proof (write_keeps d (native_frame (display_kind h) led) w).
    by destruct (write_native_frame _ _ w).
  - pose proof (open_keeps (display_kind h) (bus h) (control h) w).
    destruct (from_raw_fds _ _ _ w) as [[d|e] w1]; cbn in *; [|done].
    pose proof (write_keeps d (native_frame (display_kind h) led) w1).
    destruct (write_native_frame _ _ w1); cbn in *. congruence.
Qed.

Lemma turn_off_keeps h w : ghost (turn_off h w).2 = ghost w.
Proof.
  unfold turn_off. destruct (display h) as [d|]; [|done].
  pose proof (close_keeps d w). by destruct (shutdown_display d w).
Qed.

(** A step of the hardware changes only the hardware. *)
Definition same_flags (s s' : DisplayState * World) : Prop :=
  personality_present s'.1 = personality_present s.1 ∧ bound s'.1 = bound s.1 ∧
  suspended s'.1 = suspended s.1 ∧ identify_guard s'.1 = identify_guard s.1.

Lemma wp_hardware_bind {A} f (k : unit → Eff (DisplayState * World) IoError A) Q s :
  (∀ h w, ghost (f h w).2 = ghost w) →
  (∀ s', ghost s'.2 = ghost s.2 → same_flags s s' → wp (k tt) Q s') →
  (∀ (o : IoResult A) s', is_ok o = false → o ≠ Diverge → Q o s') →
  wp (with_hardware f ≫= k) Q s.
Proof.
  intros Hf Hk Hbad. apply wp_bind. unfold wp at 1, with_hardware.
  pose proof (poisoned_keeps s.2). destruct (hardware_poisoned s.2) as [[] w]; cbn in *.
  - by apply Hbad.
  - pose proof (Hf (hardware s.1) w). destruct (f _ w) as [h w']; cbn in *.
    apply Hk; [cbn; congruence|by split].
Qed.

Lemma wp_check_bind {A} (f : World → option IoError * World) (k : unit → Eff (DisplayState * World) IoError A) Q s :
  (∀ w', f s.2 = (None, w') → wp (k tt) Q (s.1, w')) →
  (∀ (o : IoResult A) s', is_ok o = false → o ≠ Diverge → Q o s') →
  wp (on_world (io_check f) ≫= k) Q s.
Proof.
  intros Hk Hbad. apply wp_bind. unfold wp at 1, on_world, reading, io_check.
  destruct (f s.2) as [[e|] w'] eqn:Hf; cbn; [by apply Hbad|by apply Hk].
Qed.

Lemma wp_drop_bind {A} (k : unit → Eff (DisplayState * World) IoError A) Q s :
  (∀ s', ghost s'.2 = ghost s.2 →
     personality_present s'.1 = personality_present s.1 → bound s'.1 = bound s.1 →
     suspended s'.1 = suspended s.1 → identify_guard s'.1 = None → wp (k tt) Q s') →
  wp (drop_identify_guard ≫= k) Q s.
Proof.
  intros Hk. apply wp_bind. unfold wp at 1, drop_identify_guard.
  apply Hk; try done. cbn. destruct (identify_guard s.1); [apply drop_keeps|done].
Qed.

(** A command that does not end the thread leaves what the bus is after it, and
    receives nothing itself. *)
Definition shows_after (b : BusState) (c : DisplayCommand) (w : World)
    (r : IoResult bool) (s : DisplayState * World) : Prop :=
  r ≠ Diverge ∧
  (r = Ok true → c ≠ Shutdown ∧ heard s.2 = heard w ∧ shows (bus_step b (GotCommand c)) s).

Lemma shows_after_failed b c w (r : IoResult bool) s :
  is_ok r = false → r ≠ Diverge → shows_after b c w r s.
Proof. by destruct r. Qed.

(** Walks through a command, with the state each step leaves. *)
#[local] Ltac thread_walk :=
  repeat match goal with
  | |- wp ((_ ≫= _) ≫= _) _ _ => apply wp_bind_assoc
  | |- wp (mret _ ≫= _) _ _ => apply wp_ret_bind
  | |- wp (set_flags _ _ _ ≫= _) _ _ => apply wp_bind, wp_modify
  | |- wp (drop_identify_guard ≫= _) _ _ => apply wp_drop_bind; cbn; intros ? ? ? ? ? ?
  | |- wp (on_world (io_check _) ≫= _) _ _ =>
      apply wp_check_bind; [|apply shows_after_failed]; intros ? ?;
      repeat match goal with
      | H : indicator_enable _ = _ |- _ => apply enable_on in H
      | H : indicator_disable _ = _ |- _ => apply disable_off in H
      end
  | |- wp (with_hardware (render _) ≫= _) _ _ =>
      apply wp_hardware_bind; [apply render_keeps| |apply shows_after_failed]; cbn; intros ? ? (? & ? & ? & ?)
  end.

#[local] Ltac finish_shows :=
  unfold ghost in *; simplify_eq;
  match goal with |- shows (bus_step ?b _) _ => destruct b as [[] [] [] []] end;
  unfold blinks, asking in *; cbn in *;
  try discriminate; constructor; unfold blinks, asking; cbn;
  repeat match goal with
  | H : personality_present _ = _ |- context [personality_present _] => rewrite H
  | H : bound _ = _ |- context [bound _] => rewrite H
  | H : suspended _ = _ |- context [suspended _] => rewrite H
  | H : identify_guard _ = _ |- context [identify_guard _] => rewrite H
  end; cbn;
  first [done | congruence].

#[local] Ltac finish_command :=
  apply wp_ret; split; [done|intros _]; split; [done|]; split;
    [unfold ghost in *; cbn in *; congruence|finish_shows].

Lemma blinks_asked b x : blinks (mkBus (plugged b) (configured b) (asleep b) x) = blinks b.
Proof. done. Qed.

(** Identification: the old guard is dropped before the new one is taken. *)
Lemma display_identify seconds b s :
  shows b s → wp (display_command (Identify seconds)) (shows_after b (Identify seconds) s.2) s.
Proof.
  intros [Hon Hask Hbnd Hplug Hconf Hasl].
  unfold display_command. apply wp_get_bind. unfold when.
  destruct (_ && negb (seconds =? 0)) eqn:Hc.
  - apply andb_true_iff in Hc as [Hc Hz].
    apply wp_bind_assoc, wp_drop_bind. intros s1 Hw1 Hp1 Hb1 Hs1 Hg1.
    apply wp_bind_assoc, wp_bind. unfold wp at 1, on_world, reading, io_call.
    pose proof (attention_keeps s1.2). destruct (indicator_attention s1.2) as [[g|e] w2]; cbn in *; [|done].
    apply wp_bind_assoc, wp_bind, wp_modify. cbn [fst snd].
    apply wp_bind_assoc, wp_bind. unfold wp at 1, on_world, reading. cbn [fst snd].
    pose proof (clock_keeps w2). destruct (instant_now w2) as [time w3]; cbn in *.
    apply wp_bind, wp_modify. apply wp_ret. split; [done|intros _]. split; [done|].
    unfold ghost in *; cbn in *; simplify_eq. split; [congruence|].
    rewrite Hplug, Hconf in Hc. rewrite <-Hasl in Hc.
    constructor; cbn; rewrite ?blinks_asked; try congruence. by rewrite Hc, Hz, orb_true_r.
  - apply wp_ret_bind, wp_ret. split; [done|intros _]. split; [done|]. split; [done|].
    rewrite Hplug, Hconf, <-Hasl in Hc.
    constructor; cbn; rewrite ?blinks_asked, ?Hc, ?orb_false_r; done.
Qed.

Lemma display_command_shows command b s :
  shows b s → wp (display_command command) (shows_after b command s.2) s.
Proof.
  intros Hs. destruct command as [seconds| | | | | | |]; [by apply display_identify|..].
  all: destruct Hs as [Hon Hask Hbnd Hplug Hconf Hasl].
  all: unfold display_command; apply wp_get_bind; unfold when.
  - thread_walk; finish_command.
  - apply wp_bind, wp_modify. apply wp_drop_bind. cbn. intros s1 Hw1 Hp1 Hb1 Hs1 Hg1.
    apply wp_bind, wp_attempt. unfold wp at 1, on_world, reading, io_check.
    destruct (indicator_disable s1.2) as [[e|] w2] eqn:Hd; cbn [fst snd].
    + apply wp_hardware_bind; [apply turn_off_keeps| |apply shows_after_failed]. intros. by apply wp_bind, wp_lift.
    + apply disable_off in Hd. apply wp_hardware_bind; [apply turn_off_keeps| |apply shows_after_failed].
      intros s3 Hw3 (Hp3 & Hb3 & Hs3 & Hg3). apply wp_bind, wp_lift. finish_command.
  - destruct (personality_present s.1) eqn:Hp; thread_walk; finish_command.
  - destruct (personality_present s.1) eqn:Hp; thread_walk; finish_command.
  - destruct (personality_present s.1) eqn:Hp; thread_walk; finish_command.
  - destruct (_ && _ && suspended s.1) eqn:Hc.
    + apply andb_true_iff in Hc as [[Hp Hb]%andb_true_iff Hs].
      apply wp_bind_assoc, wp_bind, wp_modify. thread_walk. finish_command.
    + rewrite Hplug, Hconf in Hc. apply wp_ret_bind, wp_ret.
      split; [done|intros _]. split; [done|]. split; [done|].
      destruct (suspended s.1) eqn:Hsu; finish_shows.
  - apply wp_drop_bind. intros s1 _ _ _ _ _.
    apply wp_bind, wp_attempt. unfold wp at 1, on_world, reading, io_check.
    destruct (indicator_shutdown s1.2) as [[e|] w2]; cbn [fst snd];
      (apply wp_hardware_bind; [apply turn_off_keeps| |apply shows_after_failed]); intros;
      apply wp_bind, wp_lift; [done|].
    by apply wp_ret.
Qed.

(** Waiting hears one result: a command to act on, the end of the identification,
    or the end of the channel, which is a shutdown. *)
Definition heard_one (s : DisplayState * World) (r : IoResult (option DisplayCommand))
    (s' : DisplayState * World) : Prop :=
  r ≠ Diverge ∧
  match r with
  | Ok None => heard s'.2 = heard s.2 ++ [ReceiveTimeout] ∧ follows s'
  | Ok (Some c) =>
      shows (bus_after (heard s.2)) s' ∧
      (heard s'.2 = heard s.2 ++ [GotCommand c] ∨ c = Shutdown)
  | _ => True
  end.

Lemma shows_same_ghost b st w w' : shows b (st, w) → indicator_on w' = indicator_on w → shows b (st, w').
Proof. intros [] Hon. constructor; cbn in *; first [done|congruence]. Qed.

Lemma bus_after_app history received :
  bus_after (history ++ [received]) = bus_step (bus_after history) received.
Proof. by unfold bus_after; rewrite fold_left_app. Qed.

Lemma display_receive_shows s : follows s → wp display_receive (heard_one s) s.
Proof.
  intros Hs. unfold display_receive. apply wp_get_bind.
  apply wp_bind. unfold wp at 1, on_world, reading. cbn [fst snd].
  destruct s as [st w]. destruct (identify_until (st, w).1) as [deadline|]; cbn [fst snd] in *.
  - pose proof (clock_keeps w). destruct (instant_now w) as [time w1]. cbn in *.
    pose proof (receive_hears (Some (Z.max 0 (deadline - time))) w1).
    destruct (receive_command _ w1) as [r w2]; unfold ghost in *; cbn in *; simplify_eq.
    destruct r as [c| |]; cbn.
    + apply wp_ret. split; [done|]. split; [eapply shows_same_ghost; [done|congruence]|left; cbn; congruence].
    + apply wp_bind, wp_modify. apply wp_drop_bind. unfold ghost. cbn. intros [st3 w3] Hw3 Hp3 Hb3 Hs3 Hg3.
      cbn in *. simplify_eq. apply wp_ret. split; [done|]. cbn. split; [congruence|].
      destruct Hs as [Hon Hask Hbnd Hplug Hconf Hasl]. cbn in *.
      unfold follows. cbn. replace (heard w3) with (heard w ++ [ReceiveTimeout]) by congruence.
      rewrite bus_after_app. constructor; cbn; unfold asking; rewrite ?Hg3, ?blinks_asked; first [done|congruence].
    + apply wp_ret. split; [done|]. split; [eapply shows_same_ghost; [done|congruence]|by right].
  - pose proof (receive_hears None w). destruct (receive_command None w) as [r w1].
    unfold ghost in *; cbn in *; simplify_eq. destruct r as [c| |]; cbn.
    all: apply wp_ret; split; [done|];
      split; [eapply shows_same_ghost; [done|congruence]|first [left; cbn; congruence|by right]].
Qed.

(** ** Properties *)

(** C28: the display follows the bus. After any number of rounds the thread has
    waited exactly that often, and the indicator blinks exactly when, by all the
    commands received so far, the key is plugged in, bound and awake; attention is
    asked for exactly while an identification is running, which one of the
    commands asked for with a time that is not zero, and never while the indicator
    is not blinking. *)
Theorem display_follows_the_bus (rounds : nat) (s : DisplayState * World) :
  follows s →
  wp (display_loop rounds)
     (λ r s', r = Diverge →
        length (heard s'.2) = (length (heard s.2) + rounds)%nat ∧
        indicator_on s'.2 = blinks (bus_after (heard s'.2)) ∧
        asking s'.1 = asked (bus_after (heard s'.2)) ∧
        (asking s'.1 = true → indicator_on s'.2 = true)) s.
Proof.
  revert s. induction rounds as [|rounds IH]; intros s Hs.
  { apply wp_lift. intros _. destruct Hs as [Hon Hask Hbnd _ _ _].
    split; [lia|]. rewrite Hon, Hask. auto. }
  cbn [display_loop]. apply wp_bind. eapply wp_mono; [by apply display_receive_shows|].
  intros [received|e| |] s1 [Hd Hh]; try done. destruct received as [command|].
  - destruct Hh as [Hs1 Hc]. apply wp_bind.
    eapply wp_mono; [by eapply display_command_shows|].
    intros [[]|e| |] s2 [Hd2 Hh2]; try done. destruct (Hh2 eq_refl) as (Hsd & Hkeep & Hs2).
    destruct Hc as [Hc|]; [|done].
    eapply wp_mono; [apply IH|].
    + unfold follows. by rewrite Hkeep, Hc, bus_after_app.
    + intros r s3 Hr Hdv. specialize (Hr Hdv). rewrite Hkeep, Hc, length_app in Hr. cbn in Hr.
      split; [lia|apply Hr].
  - destruct Hh as [Hc Hs1]. eapply wp_mono; [by apply IH|].
    intros r s3 Hr Hdv. specialize (Hr Hdv). rewrite Hc, length_app in Hr. cbn in Hr.
    split; [lia|apply Hr].
Qed.
End properties.

(** ** Witness *)

(** A world that is what the laws observe: whether the indicator blinks and what
    has been received. Displays accept every frame; the clock runs by the waits. *)
Definition bench : Platform := {|
  World := bool * list ReceivedCommand;
  getrandom_fill _ w := (None, w);
  instant_now w := (len w.2, w);
|}.
#[local] Existing Instance bench.

Definition bench_display : DisplayBackend := {|
  OpenDisplay := unit;
  from_raw_fds _ _ _ w := (inl tt, w);
  write_native_frame _ _ w := (None, w);
  shutdown_display _ w := (None, w);
|}.
#[local] Existing Instance bench_display.

(** The key is plugged in, bound, asked to identify itself until the time is over,
    suspended and resumed. *)
Definition bench_script : list ReceivedCommand :=
  [GotCommand PersonalityPresent; GotCommand Bind; GotCommand (Identify 5);
   ReceiveTimeout; GotCommand Suspend; GotCommand Resume].

Definition bench_indicator : Indicator := {|
  AttentionGuard := unit;
  indicator_enable w := (None, (true, w.2));
  indicator_disable w := (None, (false, w.2));
  indicator_shutdown w := (None, (false, w.2));
  indicator_attention w := (inl tt, w);
  drop_guard _ w := w;
  receive_command _ w :=
    let received := nth (Datatypes.length w.2) bench_script ReceiveDisconnected in
    (received, (w.1, w.2 ++ [received]));
  hardware_poisoned w := (false, w);
|}.
#[local] Existing Instance bench_indicator.

Definition bench_frames : Frames := {|
  LED_OFF_FRAME := [0]; LED_ON_FRAME := [1]; OLED_LED_OFF_FRAME := [2]; OLED_LED_ON_FRAME := [3];
|}.
#[local] Existing Instance bench_frames.

Definition bench_ghost : IndicatorGhost := {| indicator_on w := w.1; heard w := w.2 |}.
#[local] Existing Instance bench_ghost.

#[local] Instance bench_laws : IndicatorLaws.
Proof. split; unfold ghost; by intros; simplify_eq/=. Defined.

(** The thread just started. *)
Definition bench_start : DisplayState * World :=
  (initial_display (new_hardware 4 5 Sh1106I2c), (false, [])).

Lemma display_follows_the_bus_witness :
  let after rounds := (display_loop rounds bench_start).2 in
  follows bench_start ∧
  (indicator_on (after 1%nat).2 = false ∧ indicator_on (after 2%nat).2 = true ∧
   asking (after 3%nat).1 = true ∧ asking (after 4%nat).1 = false ∧
   indicator_on (after 5%nat).2 = false) ∧
  length (heard (after 6%nat).2) = 6%nat ∧
  indicator_on (after 6%nat).2 = blinks (bus_after bench_script) ∧
  blinks (bus_after bench_script) = true.
Proof.
  assert (follows bench_start) as Hstart by (by split).
  split; [done|]. split; [by vm_compute|].
  assert ((display_loop 6 bench_start).1 = Diverge) as Hruns by (by vm_compute).
  pose proof (display_follows_the_bus 6 bench_start Hstart) as Hbus. unfold wp in Hbus.
  specialize (Hbus Hruns). destruct Hbus as (Hlen & Hon & _).
  split; [exact Hlen|]. rewrite Hon.
  assert (heard (display_loop 6 bench_start).2.2 = bench_script) as Hheard by (by vm_compute).
  cbv zeta. rewrite Hheard. split; [reflexivity|by vm_compute].
Defined.
