(* ===== verification/UsbIdentity.v ===== *)
(** * The USB identity (src/usb_identity.rs)

    The descriptors the worker publishes: the device, its one configuration with
    two bulk endpoints, its strings and the Microsoft compatible ID. The record
    types are those of the gadget library, with the fields the code fills. *)

From S2P Require Import Prelude Error Io.

Definition BULK_OUT : Z := 0x01.
Definition BULK_IN : Z := 0x81.
Definition MAX_PACKET_SIZE : Z := 64.
Definition VENDOR_ID : Z := 0x1050.
Definition PRODUCT_ID : Z := 0x0030.

(** ** The records of the gadget library *)

Record StringDescriptor : Set := mkString {
  string_index : Z; language_id : Z; descriptor : bytes;
}.

Record MicrosoftOs10 : Set := mkMicrosoft {
  vendor_code : Z;
  compatible_interface : Z;
  compatible_id : string;
  sub_compatible_id : string;
}.

Record UsbPersonality : Set := mkPersonality {
  full_speed : bool;
  device_descriptor : bytes;
  configuration_descriptor_bytes : bytes;
  strings : list StringDescriptor;
  microsoft_os_1 : option MicrosoftOs10;
}.

(** ** The descriptors *)

(** [u16::to_le_bytes]. *)
Definition u16_to_le_bytes (v : Z) : bytes := reverse (u16_to_be_bytes v).

Definition endpoint (output : bytes) (address : Z) : bytes :=
  output ++ [7; 5; address; 0x02; as_u8 MAX_PACKET_SIZE; as_u8 (Z.shiftr MAX_PACKET_SIZE 8); 0].

Definition configuration_descriptor {E} : outcome E bytes :=
  let body := endpoint (endpoint [9; 4; 0; 0; 2; 0xff; 0; 0; 0] BULK_OUT) BULK_IN in
  total_length ← unwrap (u16_try_from (9 + len body));
  Ok ([9; 2; as_u8 total_length; as_u8 (Z.shiftr total_length 8); 1; 1; 0; 0x80; 15] ++ body).

(** [str::encode_utf16], from the code points of the text. *)
Fixpoint encode_utf16 (l : list Z) : list Z :=
  match l with
  | [] => []
  | c :: l =>
      (if c <? 0x10000 then [c]
       else [0xd800 + Z.shiftr (c - 0x10000) 10; 0xdc00 + Z.land (c - 0x10000) 0x3ff])
      ++ encode_utf16 l
  end.

(** A string descriptor; [u8::try_from] panics when the string is too long. *)
Definition string_descriptor {E} (value : list Z) : outcome E bytes :=
  let words := encode_utf16 value in
  let length := 2 + len words * 2 in
  if length <? 256 then Ok (length :: 3 :: concat (map u16_to_le_bytes words)) else Panic.

Definition personality {E} (serial : Z) : outcome E UsbPersonality :=
  let device :=
    [18; 1; 0x00; 0x02; 0; 0; 0; 64] ++ u16_to_le_bytes VENDOR_ID ++ u16_to_le_bytes PRODUCT_ID
    ++ u16_to_le_bytes 0x0241 ++ [1; 2; 3; 1] in
  configuration ← configuration_descriptor;
  manufacturer ← string_descriptor (ascii_bytes "Virtual USB Gadget");
  product ← string_descriptor (ascii_bytes "Virtual YubiHSM 2");
  serial_number ← string_descriptor (decimal_digits serial);
  Ok (mkPersonality true device configuration
        [mkString 0 0 [4; 3; 0x09; 0x04]; mkString 1 0x0409 manufacturer;
         mkString 2 0x0409 product; mkString 3 0x0409 serial_number]
        (Some (mkMicrosoft 0x27 0 "WINUSB" ""))).

(** ** Specification: a chain of descriptors

    Every descriptor starts with its length and its type. *)
Inductive descriptor_chain : bytes → list (Z * bytes) → Prop :=
| chain_nil : descriptor_chain [] []
| chain_cons n ty content rest chain :
    n = 2 + len content → descriptor_chain rest chain →
    descriptor_chain (n :: ty :: content ++ rest) ((ty, content) :: chain).

(** ** Lemmas *)

Lemma encode_utf16_basic l : Forall (λ c, c < 0x10000) l → encode_utf16 l = l.
Proof.
  induction 1 as [|c l Hc _ IH]; [done|]. cbn [encode_utf16].
  by rewrite (proj2 (Z.ltb_lt _ _)), IH.
Qed.

Lemma len_word c : len (u16_to_le_bytes c) = 2.
Proof. unfold u16_to_le_bytes, len, u16_to_be_bytes. by rewrite length_reverse, length_to_be_bytes. Qed.

Lemma len_concat_words l : len (concat (map u16_to_le_bytes l)) = 2 * len l.
Proof.
  induction l as [|c l IH]; [done|]. cbn [map concat]. rewrite len_app, len_cons, len_word, IH. lia.
Qed.

Lemma string_descriptor_ok {E} l :
  Forall (λ c, c < 0x10000) l → len l ≤ 126 →
  ∃ d, string_descriptor (E := E) l = Ok d ∧
    d = (2 + 2 * len l) :: 3 :: concat (map u16_to_le_bytes l) ∧ len d = 2 + 2 * len l.
Proof.
  intros Hl Hn. unfold string_descriptor. rewrite encode_utf16_basic by done.
  rewrite (proj2 (Z.ltb_lt _ _)) by lia. eexists. split; [done|].
  rewrite !len_cons, len_concat_words. split; [f_equal; lia|lia].
Qed.

(** ** Properties *)

(** The published identity. For every serial number the descriptors are built
    without a panic; the configuration descriptor states its own length and is a
    chain of one vendor-specific interface and the two bulk endpoints of 64 bytes
    that the worker expects, host to device and device to host; and the serial
    string is the decimal serial number. *)
Theorem published_identity {E} (serial : Z) :
  0 ≤ serial < 2 ^ 32 →
  ∃ p body chain, personality (E := E) serial = Ok p ∧
    len (device_descriptor p) = 18 ∧
    configuration_descriptor_bytes p
      = 9 :: 2 :: u16_to_le_bytes (len (configuration_descriptor_bytes p)) ++ body ∧
    descriptor_chain (configuration_descriptor_bytes p) chain ∧
    filter (λ c, c.1 = 5) chain
      = [(5, BULK_OUT :: 2 :: u16_to_le_bytes MAX_PACKET_SIZE ++ [0]);
         (5, BULK_IN :: 2 :: u16_to_le_bytes MAX_PACKET_SIZE ++ [0])] ∧
    In (mkString 3 0x0409 ((2 + 2 * len (decimal_digits serial)) :: 3
          :: concat (map u16_to_le_bytes (decimal_digits serial)))) (strings p) ∧
    parse_digits 10 (2 ^ 32) 0 (decimal_digits serial) = Some serial.
Proof.
  intros Hs.
  assert (len (decimal_digits serial) ≤ 10) as Hlen.
  { unfold len, decimal_digits. pose proof (digits_length 10 20 serial 9). lia. }
  destruct (string_descriptor_ok (E := E) (decimal_digits serial)) as (d & Hd & -> & _); [|lia|].
  { eapply Forall_impl; [apply digits_ascii; lia|]. cbn. lia. }
  unfold personality. rewrite Hd. do 3 eexists. split; [reflexivity|].
  split; [done|]. split; [done|]. split.
  - cbn [configuration_descriptor_bytes].
    apply (chain_cons 9 2 [32; 0; 1; 1; 0; 0x80; 15]); [done|].
    apply (chain_cons 9 4 [0; 0; 2; 0xff; 0; 0; 0]); [done|].
    apply (chain_cons 7 5 [1; 2; 64; 0; 0]); [done|].
    apply (chain_cons 7 5 [0x81; 2; 64; 0; 0] []); [done|]. constructor.
  - split; [reflexivity|]. split; [cbn; tauto|].
    apply parse_digits_digits; lia.
Qed.

Lemma published_identity_witness :
  is_Some (head (decimal_digits 12345678)) ∧
  ∃ p, personality (E := IoError) 12345678 = Ok p ∧ len (device_descriptor p) = 18.
Proof.
  split; [by eexists|].
  destruct (published_identity (E := IoError) 12345678) as (p & _ & _ & Hp & Hl & _); [lia|].
  by exists p.
Defined.
