(* ===== verification/BulkTransfers.v ===== *)
(** * Transfers on a bulk endpoint

    The specification that the response writer of [Worker] is compared with: how
    writes travel as packets, and what a host that reads transfers receives. *)

From S2P Require Import Prelude UsbIdentity.

(** ** Specification: transfers on a bulk endpoint

    A write travels as packets of at most 64 bytes, an empty write as an empty
    packet. The host ends a transfer at a packet that is not full. *)

Fixpoint split_packets (n : nat) (b : bytes) : list bytes :=
  match n with
  | O => [b]
  | S n =>
      if len b <=? MAX_PACKET_SIZE then [b]
      else ztake MAX_PACKET_SIZE b :: split_packets n (zdrop MAX_PACKET_SIZE b)
  end.

Definition packets_of (b : bytes) : list bytes := split_packets (length b) b.

Fixpoint host_transfers (acc : bytes) (packets : list bytes) : list bytes :=
  match packets with
  | [] => []
  | p :: packets =>
      if len p <? MAX_PACKET_SIZE then (acc ++ p) :: host_transfers [] packets
      else host_transfers (acc ++ p) packets
  end.

(** What the host has received of the writes to an endpoint. *)
Definition received_by_host (writes : list bytes) : list bytes :=
  host_transfers [] (concat (map packets_of writes)).

(** The writes of one response. *)
Definition transfers_of (b : bytes) : list bytes :=
  if negb (bool_decide (b = [])) && (len b mod MAX_PACKET_SIZE =? 0) then [b; []] else [b].

Lemma split_packets_host n b acc rest :
  (length b ≤ n)%nat →
  host_transfers acc (split_packets n b ++ rest)
  = if negb (bool_decide (b = [])) && (len b mod 64 =? 0) then host_transfers (acc ++ b) rest
    else (acc ++ b) :: host_transfers [] rest.
Proof.
  revert b acc. induction n as [|n IH]; intros b acc Hn.
  { assert (b = []) as -> by (destruct b; [done|cbn in Hn; lia]). done. }
  cbn [split_packets]. unfold MAX_PACKET_SIZE. pose proof (len_nonneg b).
  destruct (Z.leb_spec (len b) 64) as [Hs|Hs].
  - cbn [app host_transfers]. unfold MAX_PACKET_SIZE.
    destruct (Z.ltb_spec (len b) 64) as [Ht|Ht].
    + destruct b as [|x b]; [done|]. rewrite len_cons in *.
      rewrite Z.mod_small by (pose proof (len_nonneg b); lia).
      rewrite (proj2 (Z.eqb_neq _ _)) by (pose proof (len_nonneg b); lia).
      by rewrite andb_false_r.
    + assert (len b = 64) as -> by lia.
      by rewrite bool_decide_eq_false_2 by (intros ->; done).
  - cbn [app host_transfers]. unfold MAX_PACKET_SIZE.
    rewrite len_ztake, (proj2 (Z.ltb_ge _ _)) by lia.
    rewrite IH by (unfold zdrop; rewrite length_drop; unfold len in *; lia).
    rewrite <- app_assoc, ztake_zdrop, len_zdrop by lia.
    rewrite (bool_decide_eq_false_2 (b = [])) by (intros ->; done).
    rewrite (bool_decide_eq_false_2 (zdrop _ _ = [])).
    2: { intros E%(f_equal len). rewrite len_zdrop in E by lia. change (len (@nil Z)) with 0 in E. lia. }
    replace (len b) with (len b - 64 + 1 * 64) at 2 by lia. by rewrite Z_mod_plus_full.
Qed.

(** A response is one transfer of the host, whatever its length. *)
Lemma transfers_received acc b rest :
  host_transfers acc (concat (map packets_of (transfers_of b)) ++ rest)
  = (acc ++ b) :: host_transfers [] rest.
Proof.
  unfold transfers_of, MAX_PACKET_SIZE.
  destruct (_ && _) eqn:Hb; cbn [map concat]; rewrite ?app_nil_r, <- ?app_assoc;
    unfold packets_of; rewrite split_packets_host, Hb by done; [|done].
  rewrite split_packets_host by done. cbn. by rewrite app_nil_r.
Qed.

Lemma host_transfers_app rs rest :
  host_transfers [] (concat (map packets_of (concat (map transfers_of rs))) ++ rest)
  = rs ++ host_transfers [] rest.
Proof.
  induction rs as [|r rs IH]; [done|]. cbn [map concat].
  rewrite map_app, concat_app, <- app_assoc, transfers_received, IH. done.
Qed.
