(* ===== verification/Worker.v ===== *)
(** * The USB worker (src/functionfs.rs, src/buttons.rs)

    The worker process serves one device on two bulk endpoints: a control loop
    that follows the supervisor and the eject button, a thread that reads and
    executes requests, and a thread that writes the responses. System calls, the
    channels between threads and the gadget library are operations of the
    environment; every loop that the code does not bound runs for a number of
    rounds. Each round is one step: the device is behind a mutex, so the rounds of
    the threads interleave but never overlap. *)

From S2P Require Import Prelude Error Io Frame Firmware Algorithm Capability Protocol KeyCore Toy.
From S2P Require Import Wire Objects Authorization SessionObjects Requests SecureChannel.
From S2P Require Import DeviceState ObjectStore ObjectCommands KeyUse Wrapping Attestation.
From S2P Require Import SessionObjectCommands Dispatch Sessions Persistence.
From S2P Require Import WorkerProtocol Display UsbIdentity.

(** ** The environment *)

Record LibcConstants : Set := { POLLIN : Z; POLLHUP : Z; POLLERR : Z; O_NONBLOCK : Z }.

(** Linux. *)
Definition linux : LibcConstants := {| POLLIN := 1; POLLHUP := 16; POLLERR := 8; O_NONBLOCK := 0x800 |}.

Class WorkerSystem `{Platform} := {
  libc : LibcConstants;
  (** One read of at most so many bytes, one write, the flags of a file. *)
  file_read : Z → Z → World → (bytes + IoError) * World;
  file_write : Z → bytes → World → (Z + IoError) * World;
  fcntl_getfl : Z → World → (Z + IoError) * World;
  fcntl_setfl : Z → Z → World → option IoError * World;
  (** The control descriptor and the button descriptor are polled together. *)
  poll_control : World → ((Z * Z * Z) + IoError) * World;
  (** The static [AtomicBool] that stops the worker. *)
  stop_load : World → bool * World;
  stop_store : bool → World → World;
  (** The channels: to the display thread, and to the response writer. *)
  display_send : DisplayCommand → World → bool * World;
  response_send : bytes → World → bool * World;
  response_receive : World → option bytes * World;
  (** The datagram socket of the button thread, the level it stored, the edge
      events of the line and its current level. *)
  reconnect_receive : World → (bytes + IoError) * World;
  reconnect_level : World → bool * World;
  line_read : Z → World → (bytes + IoError) * World;
  line_pressed : World → (bool + IoError) * World;
  reconnect_swap : bool → World → bool * World;
  reconnect_notify : World → (Z + IoError) * World;
  poll_buttons : World → ((Z * Z) + IoError) * World;
}.

Inductive BusEvent : Set :=
| BusBind | BusUnbind | BusEnable | BusDisable | BusSuspend | BusResume | BusOther.

#[export] Instance BusEvent_eq_dec : EqDecision BusEvent.
Proof. solve_decision. Defined.

(** [usb_gadget_worker]: the bus events, the encoding of a personality and the life cycle of the endpoints. *)
Class UsbGadget `{Platform} := {
  decode_bus_event : bytes → IoResult (BusEvent * Z);
  to_cbor : UsbPersonality → IoResult bytes;
  lifecycle_activate : Z → World → World;
  lifecycle_stop : World → World;
  wait_for_activation_after : Z → World → option Z * World;
}.

Definition RECEIVE_BUFFER_SIZE : Z := MAX_FRAME_LENGTH + MAX_PACKET_SIZE.

(** An update of the world alone. *)
Definition world_effect {W} (f : W → W) : Eff W IoError unit := λ w, (Ok tt, f w).

(** ** Logging helpers *)

(** The session that an outer frame names. *)
Definition session_id (request : Frame) : option Z :=
  match CommandCode.from_byte (command request) with
  | Some (CommandCode.AuthenticateSession | CommandCode.SessionMessage) => head (data request)
  | _ => None
  end.

Definition response_error (response : Frame) : option (Z * string) :=
  if negb (command response =? 0x7f) then None
  else
    let code := default 0xff (head (data response)) in
    Some (code, match Error.from_byte code with
                | Some error => Error.display error
                | None => "unknown device error"%string
                end).

Section worker.
Context `{Build} `{HX : X509} `{Der} `{Fuel} `{!StateWriter} `{!ControlSocket} `{!WorkerSystem}.

(** ** Responses on the bulk IN endpoint *)

Definition endpoint_is_unavailable (error : IoError) : bool :=
  match raw_os_error error with
  | Some n => (n =? 11) || (n =? 19) || (n =? 32) || (n =? 108)
  | None => false
  end.

(** One transfer; an interrupted write is repeated. *)
Fixpoint write_transfer (rounds : nat) (file : Z) (b : bytes) : Eff World IoError unit :=
  match rounds with
  | O => lift Diverge
  | S rounds =>
      result ← attempt (io_call (file_write file b));
      match result with
      | Ok length =>
          lift (reject_if (negb (length =? len b))
                  (mkIoError WriteZero
                     ("FunctionFS accepted " +:+ decimal length +:+ " of " +:+ decimal (len b)
                      +:+ " bytes")))
      | Err error =>
          if bool_decide (io_kind error = Interrupted) then write_transfer rounds file b
          else if endpoint_is_unavailable error then mret tt
          else fail error
      | _ => lift Panic
      end
  end.

(** A response that ends on a packet boundary is followed by an empty packet. *)
Definition write_response (file : Z) (b : bytes) : Eff World IoError unit :=
  _ ← write_transfer fuel file b;
  if negb (bool_decide (b = [])) && (len b mod MAX_PACKET_SIZE =? 0)
  then write_transfer fuel file [] else mret tt.

Fixpoint serve_responses (rounds : nat) (input : Z) : Eff World IoError unit :=
  match rounds with
  | O => lift Diverge
  | S rounds =>
      response ← (λ w, let '(r, w) := response_receive w in (Ok r, w));
      match response with
      | Some response => _ ← write_response input response; serve_responses rounds input
      | None => mret tt
      end
  end.

(** ** Resources and endpoints *)

Definition set_nonblocking (file : Z) : Eff World IoError unit :=
  flags ← io_call (fcntl_getfl file);
  io_check (fcntl_setfl file (Z.lor flags (O_NONBLOCK libc))).

Record InitialFiles : Set := mkInitialFiles {
  display_bus : Z; display_control : Z; reconnect_button : Z;
}.

(** The three slots while the resources are read; a name fills an empty slot. *)
Fixpoint initial_slots (bus control button : option Z) (resources : list (bytes * Z)) :
    IoResult (option Z * option Z * option Z) :=
  match resources with
  | [] => Ok (bus, control, button)
  | (name, file) :: rest =>
      if bool_decide (name = ascii_bytes "display-spi") || bool_decide (name = ascii_bytes "display-i2c")
      then _ ← reject_if (is_some_and bus (λ _, true)) (data_error ("duplicate initial resource " +:+ text name));
           initial_slots (Some file) control button rest
      else if bool_decide (name = ascii_bytes "display-control")
      then _ ← reject_if (is_some_and control (λ _, true)) (data_error ("duplicate initial resource " +:+ text name));
           initial_slots bus (Some file) button rest
      else if bool_decide (name = ascii_bytes "reconnect-button")
      then _ ← reject_if (is_some_and button (λ _, true)) (data_error ("duplicate initial resource " +:+ text name));
           initial_slots bus control (Some file) rest
      else invalid ("unexpected initial resource " +:+ text name)
  end.

Definition parse_initial_resources (resources : list (bytes * Z)) : IoResult InitialFiles :=
  '(bus, control, button) ← initial_slots None None None resources;
  display_bus ← ok_or bus (data_error "missing display-spi or display-i2c resource");
  display_control ← ok_or control (data_error "missing display-control resource");
  reconnect_button ← ok_or button (data_error "missing reconnect-button resource");
  Ok (mkInitialFiles display_bus display_control reconnect_button).

Record Endpoints : Set := mkEndpoints { output : Z; input : Z }.

(** The loop over the entries of the endpoint map. *)
Fixpoint endpoint_slots (out inp : option Z) (entries : bytes) (files : list Z) :
    Eff World IoError (option Z * option Z) :=
  match entries, files with
  | address :: transfer_type :: high :: low :: entries, file :: files =>
      _ ← set_nonblocking file;
      let packet_size := from_be_bytes [high; low] in
      _ ← lift (reject_if (negb (transfer_type =? 2) || negb (packet_size =? MAX_PACKET_SIZE))
                  (data_error "YubiHSM endpoints must be full-speed bulk endpoints"));
      if address =? BULK_OUT then
        _ ← lift (reject_if (is_some_and out (λ _, true)) (data_error ("duplicate USB endpoint 0x" +:+ hex_byte address)));
        endpoint_slots (Some file) inp entries files
      else if address =? BULK_IN then
        _ ← lift (reject_if (is_some_and inp (λ _, true)) (data_error ("duplicate USB endpoint 0x" +:+ hex_byte address)));
        endpoint_slots out (Some file) entries files
      else lift (invalid ("unexpected USB endpoint 0x" +:+ hex_byte address))
  | _, _ => mret (out, inp)
  end.

Definition endpoints_from_record (record : WorkerRecord) : Eff World IoError Endpoints :=
  count ← lift (ok_or (get_range (body record) 0 2) (data_error "truncated USB endpoint map"));
  let count := from_be_bytes count in
  _ ← lift (reject_if (negb (len (body record) =? 2 + count * 4) || negb (len (files record) =? count))
              (data_error "USB endpoint map and descriptors differ"));
  '(out, inp) ← endpoint_slots None None (zdrop 2 (body record)) (files record);
  output ← lift (ok_or out (data_error "missing YubiHSM OUT endpoint"));
  input ← lift (ok_or inp (data_error "missing YubiHSM IN endpoint"));
  mret (mkEndpoints output input).

(** ** The display and the buttons, from the control loop *)

(** [send_command], for the methods of [display::Controller]. *)
Definition display_do (command : DisplayCommand) : Eff World IoError unit := λ w,
  let '(sent, w) := display_send command w in
  (if sent then Ok tt else Err (mkIoError BrokenPipe "YubiHSM display thread stopped"), w).

(** [Controller::take_reconnect_state]: drains the notifications, then reads the
    latest level. *)
Fixpoint take_reconnect_state (rounds : nat) : Eff World IoError bool :=
  match rounds with
  | O => lift Diverge
  | S rounds =>
      result ← attempt (io_call reconnect_receive);
      match result with
      | Ok [0] => take_reconnect_state rounds
      | Ok packet =>
          fail (data_error ("invalid reconnect transition packet: length=" +:+ decimal (len packet)))
      | Err error =>
          match io_kind error with
          | WouldBlock => λ w, let '(pressed, w) := reconnect_level w in (Ok pressed, w)
          | Interrupted => take_reconnect_state rounds
          | _ => fail error
          end
      | _ => lift Panic
      end
  end.

Definition GPIO_V2_LINE_EVENT_SIZE : Z := 48.
Definition GPIO_V2_LINE_EVENT_ID_OFFSET : Z := 8.

(** [u32::from_ne_bytes] on a little-endian machine. *)
Definition from_ne_bytes (l : bytes) : Z := from_be_bytes (reverse l).

(** The loop over the edge events of the line: was there a transition? *)
Fixpoint drain_events (rounds : nat) (lines : Z) (saw_transition : bool) : Eff World IoError bool :=
  match rounds with
  | O => lift Diverge
  | S rounds =>
      result ← attempt (io_call (line_read GPIO_V2_LINE_EVENT_SIZE));
      match result with
      | Ok event =>
          if len event =? GPIO_V2_LINE_EVENT_SIZE then
            id ← lift (from_ne_bytes <$> slice event GPIO_V2_LINE_EVENT_ID_OFFSET
                                           (GPIO_V2_LINE_EVENT_ID_OFFSET + 4));
            drain_events rounds lines (saw_transition || (id =? 1) || (id =? 2))
          else if len event =? 0
          then fail (mkIoError UnexpectedEof "reconnect-button descriptor closed")
          else fail (data_error ("partial GPIO edge event: " +:+ decimal (len event) +:+ " bytes"))
      | Err error =>
          match io_kind error with
          | WouldBlock => mret saw_transition
          | Interrupted => drain_events rounds lines saw_transition
          | _ => fail error
          end
      | _ => lift Panic
      end
  end.

Definition drain_reconnect_events (lines : Z) : Eff World IoError unit :=
  saw_transition ← drain_events fuel lines false;
  if saw_transition : bool then
    current ← io_call line_pressed;
    old ← (λ w, let '(old, w) := reconnect_swap current w in (Ok old, w));
    if eqb (old : bool) current then mret tt
    else
      result ← attempt (io_call reconnect_notify);
      match result with
      | Ok length =>
          lift (reject_if (negb (length =? 1))
                  (mkIoError WriteZero ("sent " +:+ decimal length +:+ " reconnect notification bytes")))
      | Err error => if bool_decide (io_kind error = WouldBlock) then mret tt else fail error
      | _ => lift Panic
      end
  else mret tt.

(** One round of [button_loop]; the poll gives the events of the line and of the
    shutdown socket. [true] when the thread goes on. *)
Definition button_loop_round (lines : Z) : Eff World IoError bool :=
  polled ← attempt (io_call poll_buttons);
  match polled with
  | Err error => if bool_decide (io_kind error = Interrupted) then mret true else fail error
  | Ok (line_events, shutdown_events) =>
      if negb (Z.land shutdown_events (POLLIN libc) =? 0) then mret false
      else
        _ ← (if negb (Z.land line_events (POLLIN libc) =? 0) then drain_reconnect_events lines
             else mret tt);
        _ ← lift (reject_if (negb (Z.land line_events (Z.lnot (POLLIN libc)) =? 0))
                    (mkIoError OtherKind ("button descriptor reported poll events 0x"
                       +:+ hex_word (Z.land line_events (Z.lnot (POLLIN libc))))));
        _ ← lift (reject_if (negb (Z.land shutdown_events (Z.lnot (POLLIN libc)) =? 0))
                    (mkIoError OtherKind ("button descriptor reported poll events 0x"
                       +:+ hex_word (Z.land shutdown_events (Z.lnot (POLLIN libc))))));
        mret true
  | _ => lift Panic
  end.

Fixpoint button_loop (rounds : nat) (lines : Z) : Eff World IoError unit :=
  match rounds with
  | O => lift Diverge
  | S rounds =>
      goes_on ← button_loop_round lines;
      if goes_on : bool then button_loop rounds lines else mret tt
  end.

(** ** The control loop *)

Context `{!UsbGadget}.

Definition publish_personality (generation request_id : Z) (personality : bytes) :
    Eff World IoError unit :=
  _ ← send (new_record Configure generation request_id personality);
  display_do (if bool_decide (personality = []) then PersonalityAbsent else PersonalityPresent).

Inductive ControlOutcome : Set :=
| Quiesced_ (request_id : Z) (ejected : bool) | Exit.

(** [*configure_request] and [unconfiguration_pending]. *)
Record ControlState : Set := mkControl { request_of : Z; unconfiguration_pending : bool }.

(** The next request number, on [u32]. *)
Definition next_request (request : Z) : IoResult Z :=
  if request + 1 <? 2 ^ 32 then Ok (request + 1)
  else Err (mkIoError OtherKind "USB configuration request overflow").

(** One bus event: the sessions end when the configuration does. *)
Definition bus_event (event : BusEvent) (activation : Z) : Eff (Device * World) IoError unit :=
  _ ← on_world (if bool_decide (event = BusEnable)
                then world_effect (lifecycle_activate activation) else mret tt);
  _ ← (match event with
       | BusBind | BusUnbind | BusDisable => runtime_clear_sessions
       | _ => mret tt
       end);
  on_world (match event with
            | BusBind => display_do Bind
            | BusUnbind => display_do Unbind
            | BusSuspend => display_do Suspend
            | BusResume => display_do Resume
            | _ => mret tt
            end).

(** One runtime record. *)
Definition control_record (generation_ : Z) (st : ControlState) (record : WorkerRecord) :
    Eff (Device * World) IoError (option ControlOutcome) :=
  _ ← lift (reject_if (negb (generation record =? generation_) || negb (bool_decide (files record = [])))
              (data_error "supervisor sent a mismatched runtime record"));
  match kind record with
  | UsbBusEvent =>
      if request_id record =? 0 then
        '(event, activation) ← lift (decode_bus_event (body record));
        _ ← bus_event event activation;
        mret None
      else lift (invalid ("unexpected runtime record " +:+ kind_debug (kind record)))
  | UsbControlRequest =>
      if negb (request_id record =? 0) then
        _ ← on_world (send (new_record UsbControlResponse generation_ (request_id record) [0]));
        mret None
      else lift (invalid ("unexpected runtime record " +:+ kind_debug (kind record)))
  | Quiesce =>
      if bool_decide (body record = []) then
        _ ← on_world (world_effect lifecycle_stop);
        _ ← on_world (display_do Unbind);
        if request_id record =? 0 then mret (Some (Quiesced_ 0 false))
        else if unconfiguration_pending st && (request_id record =? request_of st)
        then mret (Some (Quiesced_ (request_id record) true))
        else lift (invalid "supervisor quiesced an unknown configuration request")
      else lift (invalid ("unexpected runtime record " +:+ kind_debug (kind record)))
  | _ => lift (invalid ("unexpected runtime record " +:+ kind_debug (kind record)))
  end.

(** [revents & !POLLIN], and the answer to a button that was pressed. *)
Definition unexpected_events (revents : Z) : Z := Z.land revents (Z.lnot (POLLIN libc)).

Definition button_round (generation : Z) (revents : Z) (st : ControlState) :
    Eff World IoError ControlState :=
  pressed ← (if negb (Z.land revents (POLLIN libc) =? 0) && negb (unconfiguration_pending st)
             then take_reconnect_state fuel else mret false);
  st ← (if pressed : bool then
          request ← lift (next_request (request_of st));
          _ ← publish_personality generation request [];
          mret (mkControl request true)
        else mret st);
  _ ← lift (reject_if (negb (unexpected_events revents =? 0))
              (mkIoError OtherKind ("reconnect notification descriptor reported poll events 0x"
                 +:+ hex_word (unexpected_events revents))));
  mret st.

(** One round of [serve_control]: the new state, or the outcome. *)
Definition control_round (generation : Z) (st : ControlState) :
    Eff (Device * World) IoError (ControlState + ControlOutcome) :=
  polled ← attempt (on_world (io_call poll_control));
  match polled with
  | Err error => if bool_decide (io_kind error = Interrupted) then mret (inl st) else fail error
  | Ok (ready, control_events, button_events) =>
      stop ← on_world (λ w, let '(b, w) := stop_load w in (Ok b, w));
      if stop : bool then fail (mkIoError Interrupted "YubiHSM endpoint generation stopped")
      else if ready =? 0 then mret (inl st)
      else
        outcome ←
          (if negb (Z.land control_events (POLLIN libc) =? 0) then
             received ← attempt (on_world receive);
             match received with
             | Ok record => control_record generation st record
             | Err error =>
                 if bool_decide (io_kind error = UnexpectedEof) then mret (Some Exit) else fail error
             | _ => lift Panic
             end
           else if negb (control_events =? 0) then
             if negb (Z.land control_events (POLLHUP libc) =? 0) then mret (Some Exit)
             else fail (mkIoError OtherKind ("worker-control descriptor reported poll events 0x"
                                         +:+ hex_word control_events))
           else mret None);
        match outcome with
        | Some outcome => mret (inr outcome)
        | None => st ← on_world (button_round generation button_events st); mret (inl st)
        end
  | _ => lift Panic
  end.

Fixpoint serve_control (rounds : nat) (generation : Z) (st : ControlState) :
    Eff (Device * World) IoError (ControlState * ControlOutcome) :=
  match rounds with
  | O => lift Diverge
  | S rounds =>
      next ← control_round generation st;
      match next with
      | inl st => serve_control rounds generation st
      | inr outcome => mret (st, outcome)
      end
  end.

(** One round of [wait_for_reinsert]: [inl] to wait on, [inr] the answer and the
    request number. *)
Definition reinsert_round (generation : Z) (personality : bytes) (configure_request : Z) :
    Eff World IoError (unit + (bool * Z)) :=
  polled ← attempt (io_call poll_control);
  match polled with
  | Err error => if bool_decide (io_kind error = Interrupted) then mret (inl tt) else fail error
  | Ok (ready, control_events, button_events) =>
      stop ← (λ w, let '(b, w) := stop_load w in (Ok b, w));
      if stop : bool then mret (inr (false, configure_request))
      else if ready =? 0 then mret (inl tt)
      else if negb (control_events =? 0) then
        received ← attempt receive;
        match received with
        | Err error =>
            if bool_decide (io_kind error = UnexpectedEof) then mret (inr (false, configure_request))
            else fail error
        | Ok record => fail (data_error ("unexpected supervisor message while USB is ejected: "
                                    +:+ kind_debug (kind record)))
        | _ => lift Panic
        end
      else
        released ← (if negb (Z.land button_events (POLLIN libc) =? 0)
                    then pressed ← take_reconnect_state fuel; mret (negb pressed)
                    else mret false);
        if released : bool then
          request ← lift (next_request configure_request);
          _ ← publish_personality generation request personality;
          mret (inr (true, request))
        else
          _ ← lift (reject_if (negb (unexpected_events button_events =? 0))
                      (mkIoError OtherKind ("reconnect notification descriptor reported poll events 0x"
                 +:+ hex_word (unexpected_events button_events))));
          mret (inl tt)
  | _ => lift Panic
  end.

Fixpoint wait_for_reinsert (rounds : nat) (generation : Z) (personality : bytes)
    (configure_request : Z) : Eff World IoError (bool * Z) :=
  match rounds with
  | O => lift Diverge
  | S rounds =>
      next ← reinsert_round generation personality configure_request;
      match next with
      | inl _ => wait_for_reinsert rounds generation personality configure_request
      | inr answer => mret answer
      end
  end.

(** ** The request thread *)

(** The observer of the executed commands: a blink is shown on the display. A
    [BlinkDevice] response answers a request of one byte. *)
Definition blink_observer (auth : SessionAuthorization) (request response : Frame) (w : World) : World :=
  if (command request =? CommandCode.to_byte CommandCode.BlinkDevice)
     && (command response =? Z.lor (CommandCode.to_byte CommandCode.BlinkDevice) 0x80)
  then (display_send (Identify (default 0 (head (data request)))) w).2 else w.

Inductive EndpointNext : Set := ReadOn | EndpointDown | EndpointStopped.

(** One round of the inner loop of [serve_endpoint]. *)
Definition endpoint_round (output : Z) : Eff (Device * World) IoError EndpointNext :=
  stop ← on_world (λ w, let '(b, w) := stop_load w in (Ok b, w));
  if stop : bool then mret EndpointStopped
  else
    result ← attempt (on_world (io_call (file_read output RECEIVE_BUFFER_SIZE)));
    match result with
    | Ok [] => mret ReadOn
    | Ok request =>
        response ← execute_observing blink_observer request;
        _ ← on_world (λ w,
              let '(sent, w) := response_send response w in
              (if sent then Ok tt else Err (mkIoError OtherKind "YubiHSM response writer stopped"), w));
        mret ReadOn
    | Err error =>
        if bool_decide (io_kind error = Interrupted) then mret ReadOn
        else if endpoint_is_unavailable error then mret EndpointDown
        else fail error
    | _ => lift Panic
    end.

(** The requests of one activation: [true] when the worker was stopped. *)
Fixpoint serve_requests (rounds : nat) (output : Z) : Eff (Device * World) IoError bool :=
  match rounds with
  | O => lift Diverge
  | S rounds =>
      next ← endpoint_round output;
      match next with
      | ReadOn => serve_requests rounds output
      | EndpointDown => mret false
      | EndpointStopped => mret true
      end
  end.

Fixpoint serve_activations (rounds : nat) (output activation : Z) : Eff (Device * World) IoError unit :=
  match rounds with
  | O => lift Diverge
  | S rounds =>
      next ← on_world (λ w, let '(r, w) := wait_for_activation_after activation w in (Ok r, w));
      match next with
      | None => mret tt
      | Some activation =>
          stopped ← serve_requests fuel output;
          if stopped : bool then mret tt else serve_activations rounds output activation
      end
  end.

(** A failure of the thread stops the worker. *)
Definition serve_endpoint (output : Z) : Eff (Device * World) IoError unit := λ s,
  let '(result, s) := serve_activations fuel output 0 s in
  (result, match result with Ok _ => s | _ => (s.1, stop_store true s.2) end).

(** ** The worker *)

(** The threads of the worker, with the file that each one owns. *)
Inductive WorkerThread : Set :=
| ResponseThread (input : Z) | EndpointThread (output : Z) | ButtonThread (lines : Z) | DisplayThread.

(** Starting a thread and joining it (a thread that panicked gives [Panic]), the
    sockets of the button thread, the indicator controller, the environment of the
    process, and dropping a device that was not shut down. *)
Class WorkerThreads := {
  spawn : WorkerThread → World → option IoError * World;
  join : WorkerThread → World → IoResult unit * World;
  button_sockets : World → option IoError * World;
  button_shutdown_send : World → World;
  reconnect_store : bool → World → World;
  indicator_start : World → option IoError * World;
  geteuid : World → Z * World;
  env_var : string → World → option string * World;
  device_dropped : World → World;
}.

Context `{!StateCodec} `{!StateRuntime} `{!WorkerThreads}.

Definition join_thread (t : WorkerThread) (message : string) : Eff World IoError unit := λ w,
  let '(r, w) := join t w in
  (match r with Panic => Err (mkIoError OtherKind message) | _ => r end, w).

(** [EndpointRuntime::start]. *)
Definition endpoints_start (endpoints : Endpoints) : Eff World IoError unit :=
  _ ← io_check (spawn (ResponseThread (input endpoints)));
  io_check (spawn (EndpointThread (output endpoints))).

(** [EndpointRuntime::shutdown]: a panic ends it, otherwise the last error is kept. *)
Fixpoint join_endpoints (threads : list WorkerThread) (result : IoResult unit) :
    Eff World IoError unit :=
  match threads with
  | [] => lift result
  | t :: threads => λ w,
      let '(r, w) := join t w in
      match r with
      | Ok _ => join_endpoints threads result w
      | Panic => (Err (mkIoError OtherKind "YubiHSM endpoint thread panicked"), w)
      | _ => join_endpoints threads r w
      end
  end.

Definition endpoints_shutdown (endpoints : Endpoints) : Eff World IoError unit :=
  join_endpoints [EndpointThread (output endpoints); ResponseThread (input endpoints)] (Ok tt).

(** [display::Controller::start] and [shutdown]. *)
Definition display_start : Eff World IoError unit :=
  _ ← io_check indicator_start; io_check (spawn DisplayThread).

Definition display_shutdown : Eff World IoError unit :=
  _ ← attempt (display_do Shutdown); join_thread DisplayThread "YubiHSM display thread panicked".

(** [buttons::Controller::start], [reconnect_pressed] and [shutdown]. *)
Definition buttons_start (lines : Z) : Eff World IoError unit :=
  pressed ← io_call line_pressed;
  _ ← world_effect (reconnect_store pressed);
  _ ← set_nonblocking lines;
  _ ← io_check button_sockets;
  io_check (spawn (ButtonThread lines)).

Definition reconnect_pressed : Eff World IoError bool :=
  λ w, let '(pressed, w) := reconnect_level w in (Ok pressed, w).

Definition buttons_shutdown (lines : Z) : Eff World IoError unit :=
  _ ← world_effect button_shutdown_send;
  join_thread (ButtonThread lines) "YubiHSM reconnect-button thread panicked".

Definition worker_effect (f : World → World) : Eff (Device * World) IoError unit :=
  on_world (world_effect f).

(** One configuration of the endpoints, from its record to its outcome. *)
Definition serve_generation (configure_request : Z) (record : WorkerRecord) :
    Eff (Device * World) IoError (Z * ControlState * ControlOutcome) :=
  _ ← lift (reject_if (bool_decide (kind record = ConfigurationRejected))
              (data_error ("supervisor rejected USB personality: " +:+ text (from_utf8_lossy (body record)))));
  _ ← lift (reject_if (negb (bool_decide (kind record = UsbEndpoints)) || (generation record =? 0)
                       || negb (request_id record =? configure_request))
              (data_error "expected USB endpoints for the published personality"));
  let generation := generation record in
  endpoints ← on_world (endpoints_from_record record);
  _ ← worker_effect (stop_store false);
  _ ← on_world (endpoints_start endpoints);
  _ ← on_world (send (new_record Serving generation configure_request []));
  control_result ← attempt (serve_control fuel generation (mkControl configure_request false));
  _ ← worker_effect (stop_store true);
  _ ← worker_effect lifecycle_stop;
  runtime_result ← attempt (on_world (endpoints_shutdown endpoints));
  persistence_result ← attempt (on_world flush);
  '(st, outcome) ← lift control_result;
  _ ← lift runtime_result;
  _ ← lift persistence_result;
  mret (generation, st, outcome).

(** The loop over the configurations. *)
Fixpoint serve_generations (rounds : nat) (personality : bytes) (configure_request : Z) :
    Eff (Device * World) IoError unit :=
  match rounds with
  | O => lift Diverge
  | S rounds =>
      record ← on_world receive;
      '(generation, st, outcome) ← serve_generation configure_request record;
      match outcome with
      | Exit => mret tt
      | Quiesced_ request_id ejected =>
          _ ← on_world (send (new_record Quiesced generation request_id []));
          if negb ejected then mret tt
          else
            _ ← worker_effect (stop_store false);
            '(inserted, request) ←
              on_world (wait_for_reinsert fuel generation personality
                          (request_of st));
            if inserted : bool then serve_generations rounds personality request else mret tt
      end
  end.

(** ** Start and end of the process *)

Definition STATE_DIRECTORY_ENV : string := "STATE_DIRECTORY".

Definition require_absolute_path (name path : string) : IoResult string :=
  if is_absolute path then Ok path else invalid (name +:+ " must be an absolute path").

Definition required_path (name : string) : Eff World IoError string := λ w,
  let '(value, w) := env_var name w in
  (match value with
   | Some path =>
       if bool_decide (path = EmptyString) then Err (mkIoError NotFound (name +:+ " is not set"))
       else require_absolute_path name path
   | None => Err (mkIoError NotFound (name +:+ " is not set"))
   end, w).

(** The closure of [run_worker]: the first publication, then the configurations. *)
Definition worker_session (personality : bytes) : Eff (Device * World) IoError unit :=
  pressed ← on_world reconnect_pressed;
  if pressed : bool then
    _ ← on_world (publish_personality 0 1 []);
    '(inserted, request) ← on_world (wait_for_reinsert fuel 0 personality 1);
    if inserted : bool then serve_generations fuel personality request else mret tt
  else
    _ ← on_world (publish_personality 0 1 personality);
    serve_generations fuel personality 1.

(** [Result::and] of computations that all run. *)
Definition and_all (results : list (IoResult unit)) : IoResult unit :=
  foldl (λ acc r, match acc with Ok _ => r | _ => acc end) (Ok tt) results.

(** The display and the buttons; the display is shut down when the buttons fail. *)
Definition start_services (resources : InitialFiles) : Eff World IoError unit :=
  _ ← display_start;
  buttons ← attempt (buttons_start (reconnect_button resources));
  match buttons with
  | Err error => _ ← attempt display_shutdown; fail error
  | r => lift r
  end.

Definition shut_down_services (result : IoResult unit) (resources : InitialFiles) :
    Eff World IoError unit :=
  _ ← world_effect (stop_store true);
  persistence_result ← attempt shutdown;
  button_result ← attempt (buttons_shutdown (reconnect_button resources));
  display_result ← attempt display_shutdown;
  lift (and_all [result; persistence_result; button_result; display_result]).

(** The rest of [run_worker], once the device is open: when the services do not
    start, the device is dropped. *)
Definition serve_device (serial : Z) (resources : InitialFiles) (device : Device) :
    Eff World IoError unit := λ w,
  let '(started, w) :=
    (personality ← lift (personality serial);
     encoded ← lift (to_cbor personality);
     _ ← start_services resources;
     mret encoded) w in
  match started with
  | Ok encoded =>
      let '(result, (_, w)) := worker_session encoded (device, w) in
      shut_down_services result resources w
  | Err error => (Err error, device_dropped w)
  | Panic => (Panic, w)
  | Diverge => (Diverge, w)
  end.

(** [run_worker], in the order of the code: root is refused before anything is
    read, and the device is opened before the hardware. *)
Definition run_worker (serial : Z) : Eff World IoError unit :=
  uid ← (λ w, let '(uid, w) := geteuid w in (Ok uid, w));
  if (uid : Z) =? 0
  then fail (mkIoError PermissionDenied "refusing to run the protocol worker as root")
  else
    record ← receive;
    named ← lift (validate_initial_resources record);
    resources ← lift (parse_initial_resources named);
    directory ← required_path STATE_DIRECTORY_ENV;
    device ← open (config_with_serial serial) directory;
    serve_device serial resources device.
End worker.
