(* ===== verification/WorkerProperties.v ===== *)
(** * The USB worker: what its endpoints and its control loop guarantee

    Three contracts of [Worker]: the responses on the bulk IN endpoint arrive at
    the host one by one and unchanged; only the endpoints of the published
    identity are accepted; the control loop never touches the device beyond its
    sessions, and publishes an eject and quiesces for it exactly when the button was
    found pressed. *)

From S2P Require Import Prelude Error Io Frame Firmware Algorithm Capability Protocol KeyCore.
From S2P Require Import Wire Objects Authorization SessionObjects Requests SecureChannel.
From S2P Require Import DeviceState ObjectStore ObjectCommands KeyUse Wrapping Attestation.
From S2P Require Import SessionObjectCommands Dispatch Sessions Persistence.
From S2P Require Import WorkerProtocol Display UsbIdentity BulkTransfers Worker.


(** ** What the code relies on

    The endpoint and the response channel: a write is accepted whole or is
    interrupted, finitely often, and the channel gives what was sent to it. *)
Class BulkLaws `{HP : Platform} `{HW : !WorkerSystem} := {
  bulk_writes : World → list bytes;
  pending_responses : World → list bytes;
  interrupts : World → nat;
  file_write_law file b w w' r :
    file_write file b w = (r, w') →
    pending_responses w' = pending_responses w ∧
    ((r = inl (len b) ∧ bulk_writes w' = bulk_writes w ++ [b] ∧ interrupts w' = interrupts w) ∨
     (∃ e, r = inr e ∧ io_kind e = Interrupted ∧ bulk_writes w' = bulk_writes w ∧
       (interrupts w' < interrupts w)%nat));
  response_receive_law w w' r :
    response_receive w = (r, w') →
    r = head (pending_responses w) ∧ pending_responses w' = tail (pending_responses w) ∧
    bulk_writes w' = bulk_writes w ∧ interrupts w' = interrupts w;
}.

Section responses.
Context `{BulkLaws} `{Fuel}.

(** A computation of the writer succeeds with these writes and leaves the channel. *)
Definition writes (bs : list bytes) (w w' : World) : Prop :=
  bulk_writes w' = bulk_writes w ++ bs ∧ pending_responses w' = pending_responses w ∧
  (interrupts w' ≤ interrupts w)%nat.

Lemma write_transfer_ok rounds file b w :
  (interrupts w < rounds)%nat → ∃ w', write_transfer rounds file b w = (Ok tt, w') ∧ writes [b] w w'.
Proof.
  revert w. induction rounds as [|rounds IH]; intros w Hn; [lia|]. cbn [write_transfer].
  unfold mbind, eff_bind, attempt, io_call.
  destruct (file_write file b w) as [r w1] eqn:Hr.
  apply file_write_law in Hr as (Hp & [(-> & Hb & Hi)|(e & -> & He & Hb & Hi)]).
  - exists w1. unfold lift, reject_if, writes. rewrite Z.eqb_refl. cbn. rewrite Hi. split; [done|].
    split; [done|]. split; [done|lia].
  - rewrite bool_decide_eq_true_2 by done. destruct (IH w1) as (w2 & Hw & Hb2 & Hp2 & Hi2); [lia|].
    exists w2. split; [done|]. unfold writes. rewrite Hb2, Hp2, Hb, Hp. split; [done|].
    split; [done|lia].
Qed.

Lemma write_response_ok file b w :
  (interrupts w < fuel)%nat →
  ∃ w', write_response file b w = (Ok tt, w') ∧ writes (transfers_of b) w w'.
Proof.
  intros Hn. unfold write_response, transfers_of.
  destruct (write_transfer_ok fuel file b w) as (w1 & Hw & Hb & Hp & Hi); [done|].
  rewrite (eff_run _ _ _ _ _ Hw). destruct (_ && _); [|by exists w1].
  destruct (write_transfer_ok fuel file [] w1) as (w2 & Hw2 & Hb2 & Hp2 & Hi2); [lia|].
  exists w2. split; [done|]. unfold writes. rewrite Hb2, Hb, Hp2, Hp, <- app_assoc.
  split; [done|]. split; [done|lia].
Qed.

Lemma serve_responses_ok rounds input w :
  (interrupts w < fuel)%nat → (List.length (pending_responses w) < rounds)%nat →
  ∃ w', serve_responses rounds input w = (Ok tt, w') ∧
    bulk_writes w' = bulk_writes w ++ concat (map transfers_of (pending_responses w)).
Proof.
  revert w. induction rounds as [|rounds IH]; intros w Hi Hn; [lia|]. cbn [serve_responses].
  destruct (response_receive w) as [r w1] eqn:Hr.
  rewrite (eff_run _ _ _ r w1) by (by rewrite Hr).
  apply response_receive_law in Hr as (-> & Hp & Hb & Hi1).
  destruct (pending_responses w) as [|b rest]; cbn [head tail map concat] in *.
  { exists w1. by rewrite app_nil_r. }
  destruct (write_response_ok input b w1) as (w2 & Hw & Hb2 & Hp2 & Hi2); [lia|].
  rewrite (eff_run _ _ _ _ _ Hw).
  destruct (IH w2) as (w3 & Hw3 & Hb3); [lia|rewrite Hp2, Hp; cbn in Hn; lia|].
  exists w3. split; [done|]. by rewrite Hb3, Hb2, Hp2, Hp, Hb, <- app_assoc.
Qed.

(** C24: the responses reach the host. On an endpoint that only interrupts the
    writer, the response thread ends when the channel closes, and the host that
    reads transfers has received exactly the responses, in order and whole, also
    those whose length is a multiple of the packet size. *)
Theorem responses_reach_the_host rounds input w :
  (interrupts w < fuel)%nat → (List.length (pending_responses w) < rounds)%nat →
  bulk_writes w = [] →
  ∃ w', serve_responses rounds input w = (Ok tt, w') ∧
    received_by_host (bulk_writes w') = pending_responses w.
Proof.
  intros Hi Hn Hb. destruct (serve_responses_ok rounds input w) as (w' & Hw & Hb'); [done..|].
  exists w'. split; [done|]. rewrite Hb', Hb. unfold received_by_host. cbn [app].
  pose proof (host_transfers_app (pending_responses w) []) as Ht.
  rewrite !app_nil_r in Ht. exact Ht.
Qed.
End responses.

(** ** The endpoints *)

(** The entries of the endpoint map of the published personality, in either order. *)
Definition out_entry : bytes := [BULK_OUT; 2; 0; 64].
Definition in_entry : bytes := [BULK_IN; 2; 0; 64].

Definition publishes (record : WorkerRecord) (e : Endpoints) : Prop :=
  (body record = [0; 2] ++ out_entry ++ in_entry ∧ files record = [output e; input e]) ∨
  (body record = [0; 2] ++ in_entry ++ out_entry ∧ files record = [input e; output e]).

Section endpoints.
Context `{Platform} `{!WorkerSystem}.

(** What an entry that was accepted is. *)
Definition entry_of (address : Z) : bytes := [address; 2; 0; 64].

Lemma packet_size_bytes (high low : Z) :
  u8 high → u8 low → from_be_bytes [high; low] = 64 → high = 0 ∧ low = 64.
Proof. unfold u8, from_be_bytes. cbn. lia. Qed.

(** The two slots decide how many entries are left to read. *)
Lemma endpoint_slots_ok entries files out inp w out' inp' w' :
  bytes_ok entries → len entries = 4 * len files →
  endpoint_slots out inp entries files w = (Ok (out', inp'), w') →
  (entries = [] ∧ files = [] ∧ out' = out ∧ inp' = inp) ∨
  (∃ f entries2 files2 w2,
    bytes_ok entries2 ∧ len entries2 = 4 * len files2 ∧ files = f :: files2 ∧
    ((out = None ∧ entries = out_entry ++ entries2 ∧
      endpoint_slots (Some f) inp entries2 files2 w2 = (Ok (out', inp'), w')) ∨
     (inp = None ∧ entries = in_entry ++ entries2 ∧
      endpoint_slots out (Some f) entries2 files2 w2 = (Ok (out', inp'), w')))).
Proof.
  intros Hb Hl He. destruct files as [|f files].
  { assert (entries = []) as -> by (apply length_zero_iff_nil; unfold len in Hl; cbn in Hl; lia).
    injection He as <- <- <-. by left. }
  rewrite len_cons in Hl. pose proof (len_nonneg files).
  destruct entries as [|a [|t [|h [|l entries]]]]; try (unfold len in Hl; cbn in Hl; lia).
  rewrite !len_cons in Hl. apply Forall_cons in Hb as (_ & [_ (Hh & (Hlo & Hb)%Forall_cons)%Forall_cons]%Forall_cons).
  right. cbn [endpoint_slots] in He. cbv zeta in He. inv_ok.
  unfold lift in *. inv_ok. bool_prop. subst.
  match goal with Hp : from_be_bytes _ = _ |- _ => apply packet_size_bytes in Hp as [-> ->]; [|done..] end.
  destruct (Z.eqb_spec a BULK_OUT) as [->|]; [|destruct (Z.eqb_spec a BULK_IN) as [->|]; [|by inv_ok]];
    inv_ok; unfold lift in *; inv_ok;
    (exists f, entries, files; eexists; split; [exact Hb|]; split; [lia|]; split; [reflexivity|]).
  - left. split; [by destruct out|]. split; [reflexivity|]. eassumption.
  - right. split; [by destruct inp|]. split; [reflexivity|]. eassumption.
Qed.

(** A map that fills both empty slots has exactly one entry for each. *)
Lemma endpoint_slots_both entries files w o i w' :
  bytes_ok entries → len entries = 4 * len files →
  endpoint_slots None None entries files w = (Ok (Some o, Some i), w') →
  (entries = out_entry ++ in_entry ∧ files = [o; i]) ∨
  (entries = in_entry ++ out_entry ∧ files = [i; o]).
Proof.
  intros Hb Hl He.
  destruct (endpoint_slots_ok _ _ _ _ _ _ _ _ Hb Hl He)
    as [(_ & _ & [=] & _)|(f & e1 & f1 & w1 & Hb1 & Hl1 & -> & [(_ & -> & H1)|(_ & -> & H1)])];
    (destruct (endpoint_slots_ok _ _ _ _ _ _ _ _ Hb1 Hl1 H1)
       as [(_ & _ & ? & ?)|(g & e2 & f2 & w2 & Hb2 & Hl2 & -> & [(? & -> & H2)|(? & -> & H2)])];
     simplify_eq;
     destruct (endpoint_slots_ok _ _ _ _ _ _ _ _ Hb2 Hl2 H2)
       as [(-> & -> & ? & ?)|(? & ? & ? & ? & _ & _ & _ & [(? & _)|(? & _)])]; simplify_eq);
    [left|right]; by rewrite app_nil_r.
Qed.

(** A map of two entries is read entry by entry. *)
Lemma endpoint_slots_two a f b g w :
  (∀ file v, ∃ v', set_nonblocking file v = (Ok tt, v')) →
  (a = BULK_OUT ∧ b = BULK_IN) ∨ (a = BULK_IN ∧ b = BULK_OUT) →
  ∃ w', endpoint_slots None None [a; 2; 0; 64; b; 2; 0; 64] [f; g] w
        = (Ok (if a =? BULK_OUT then (Some f, Some g) else (Some g, Some f)), w').
Proof.
  intros Hs Hab. destruct (Hs f w) as (w1 & H1), (Hs g w1) as (w2 & H2).
  exists w2. destruct Hab as [[-> ->]|[-> ->]]; cbn [endpoint_slots]; cbv zeta;
    rewrite (eff_run _ _ _ _ _ H1), lift_bind; cbn -[set_nonblocking endpoint_slots];
    change (negb ((0 * 256 + 0) * 256 + 64 =? MAX_PACKET_SIZE)) with false; cbn [reject_if];
    rewrite lift_bind; by rewrite (eff_run _ _ _ _ _ H2).
Qed.

(** Only the endpoints of the published identity are served. When the
    descriptors can be made non-blocking, an endpoint record is accepted exactly
    when its map has one 64-byte bulk entry for host-to-device and one for
    device-to-host, with one descriptor each; they become the output and the
    input, in whichever order they come. *)
Theorem accepted_endpoints record e w :
  (∀ file v, ∃ v', set_nonblocking file v = (Ok tt, v')) →
  bytes_ok (body record) →
  (∃ w', endpoints_from_record record w = (Ok e, w')) ↔ publishes record e.
Proof.
  intros Hs Hb. unfold endpoints_from_record. split.
  - intros (w' & He). cbv zeta in He. inv_ok. unfold lift in *. inv_ok. bool_prop.
    match goal with Hg : get_range _ _ _ = Some _ |- _ => unfold get_range in Hg; rename Hg into Hg' end.
    destruct (_ && _) eqn:Hc in Hg'; [|done]. injection Hg' as <-. bool_prop.
    destruct (body record) as [|b0 [|b1 entries]] eqn:Hbody; try (unfold len in *; cbn in *; lia).
    apply Forall_cons in Hb as (Hb0 & (Hb1 & Hb)%Forall_cons).
    change (ztake (2 - 0) (zdrop 0 (b0 :: b1 :: entries))) with [b0; b1] in *.
    change (zdrop 2 (b0 :: b1 :: entries)) with entries in *.
    rewrite !len_cons in *.
    destruct_and?; simplify_eq.
    match goal with p : (option Z * option Z)%type |- _ => destruct p as [o1 i1] end. inv_ok. subst.
    match goal with Hm : mret _ _ = _ |- _ => injection Hm as <- _ end.
    match goal with Hl : len (files record) = _ |- _ => rewrite <- Hl in * |- end.
    assert (len (files record) = 2 ∧ (entries = out_entry ++ in_entry ∧ files record = [x; x1] ∨
              entries = in_entry ++ out_entry ∧ files record = [x1; x])) as [Hn Hcases].
    { destruct (endpoint_slots_both entries (files record) _ x x1 _ Hb ltac:(lia) ltac:(eassumption))
        as [[-> Hf]|[-> Hf]]; rewrite Hf; auto. }
    match goal with Hl : len (files record) = from_be_bytes _ |- _ => rewrite Hn in Hl; rename Hl into Hc2 end.
    assert (b0 = 0 ∧ b1 = 2) as [-> ->] by (unfold u8, from_be_bytes in *; cbn in Hc2; lia).
    unfold publishes. rewrite Hbody. cbn [output input].
    destruct Hcases as [[-> ->]|[-> ->]]; auto.
  - intros [[Hbody Hf]|[Hbody Hf]]; rewrite Hbody, Hf.
    + destruct (endpoint_slots_two BULK_OUT (output e) BULK_IN (input e) w Hs) as (w1 & Hw); [by left|].
      exists w1. rewrite (lift_run _ _ _ [0; 2]), (lift_run _ _ _ tt) by done.
      change (zdrop 2 ([0; 2] ++ out_entry ++ in_entry)) with [BULK_OUT; 2; 0; 64; BULK_IN; 2; 0; 64].
      rewrite (eff_run _ _ _ _ _ Hw). by destruct e.
    + destruct (endpoint_slots_two BULK_IN (input e) BULK_OUT (output e) w Hs) as (w1 & Hw); [by right|].
      exists w1. rewrite (lift_run _ _ _ [0; 2]), (lift_run _ _ _ tt) by done.
      change (zdrop 2 ([0; 2] ++ in_entry ++ out_entry)) with [BULK_IN; 2; 0; 64; BULK_OUT; 2; 0; 64].
      rewrite (eff_run _ _ _ _ _ Hw). by destruct e.
Qed.
End endpoints.

(** ** The control loop *)

(** What the control loop does to the supervisor and the display, and the levels
    of the button that it reads. *)
Inductive ControlEvent : Set :=
| Level (pressed : bool) | Sent (packet : bytes) | Shown (command : DisplayCommand).

(** The events of the world so far: a level that is read, a record that the socket
    took whole and a command that the display thread took; the other operations of
    the loop add none. *)
Class ControlLaws `{HP : Platform} `{HZ : !StateWriter} `{HS : !ControlSocket}
     `{HW : !WorkerSystem} `{HU : !UsbGadget} := {
  events : World → list ControlEvent;
  level_event w : events (reconnect_level w).2 = events w ++ [Level (reconnect_level w).1];
  send_event p w w' : socket_send p w = (inl (len p), w') → events w' = events w ++ [Sent p];
  display_event c w w' : display_send c w = (true, w') → events w' = events w ++ [Shown c];
  poll_event w : events (poll_control w).2 = events w;
  stop_event w : events (stop_load w).2 = events w;
  lock_event w : events (lock_poisoned w).2 = events w;
  notification_event w : events (reconnect_receive w).2 = events w;
  receive_event n w : events (socket_receive n w).2 = events w;
  activate_event a w : events (lifecycle_activate a w) = events w;
  lifecycle_stop_event w : events (lifecycle_stop w) = events w;
}.

(** The events about the eject: the button is found pressed, a configuration is
    published, the display is told about the personality. *)
Definition concerns_eject (event : ControlEvent) : bool :=
  match event with
  | Level pressed => pressed
  | Sent packet => bool_decide (nth 5 packet 0 = kind_to_byte Configure)
  | Shown PersonalityAbsent | Shown PersonalityPresent => true
  | Shown _ => false
  end.

Definition eject_events : list ControlEvent → list ControlEvent := filter concerns_eject.

(** One eject, under a request number: the button is found pressed, the empty
    personality is published, the display is told. *)
Definition eject_sequence (generation id : Z) : list ControlEvent :=
  [Level true; Sent (encode_record (new_record Configure generation id [])); Shown PersonalityAbsent].

(** How the loop goes from one state to another with these events: no eject, or one
    eject, the first of the generation, under the next request number. *)
Definition ejects (generation : Z) (st st' : ControlState) (es : list ControlEvent) : Prop :=
  (st' = st ∧ eject_events es = []) ∨
  (unconfiguration_pending st = false ∧ request_of st + 1 < 2 ^ 32 ∧
   st' = mkControl (request_of st + 1) true ∧
   eject_events es = eject_sequence generation (request_of st + 1)).

(** The outcomes that a state allows. *)
Definition allows (st : ControlState) (outcome : ControlOutcome) : Prop :=
  match outcome with
  | Quiesced_ id true => unconfiguration_pending st = true ∧ id = request_of st
  | Quiesced_ id false => id = 0
  | Exit => True
  end.

Lemma ejects_quiet generation st es : eject_events es = [] → ejects generation st st es.
Proof. by left. Qed.

Lemma ejects_trans generation st1 st2 st3 e1 e2 :
  ejects generation st1 st2 e1 → ejects generation st2 st3 e2 → ejects generation st1 st3 (e1 ++ e2).
Proof.
  unfold ejects, eject_events. rewrite filter_app.
  intros [[-> ->]|(Hp & Hr & -> & ->)] [[-> ->]|(Hp' & Hr' & -> & ->)]; [by left|by right| |done].
  right. by rewrite app_nil_r.
Qed.

(** A successful computation leaves these events. *)
Definition leaves {S A} (ev : S → list ControlEvent) (m : Eff S IoError A)
    (Φ : A → list ControlEvent → Prop) : Prop :=
  ∀ s a s', m s = (Ok a, s') → ∃ es, ev s' = ev s ++ es ∧ Φ a es.

Section leaves.
Context {S : Type} (ev : S → list ControlEvent).

Lemma leaves_bind {A B} (m : Eff S IoError A) (k : A → Eff S IoError B) Φ Ψ :
  leaves ev m Φ → (∀ a es, Φ a es → leaves ev (k a) (λ b es', Ψ b (es ++ es'))) → leaves ev (m ≫= k) Ψ.
Proof.
  intros Hm Hk s b s' Hr. unfold mbind, eff_bind in Hr. destruct (m s) as [[a|e| |] s1] eqn:Hs; try done.
  destruct (Hm _ _ _ Hs) as (es & He & HΦ). destruct (Hk _ _ HΦ _ _ _ Hr) as (es' & He' & HΨ).
  exists (es ++ es'). by rewrite He', He, app_assoc.
Qed.

Lemma leaves_mono {A} (m : Eff S IoError A) (Φ Ψ : A → list ControlEvent → Prop) :
  leaves ev m Φ → (∀ a es, Φ a es → Ψ a es) → leaves ev m Ψ.
Proof. intros Hm HΨ s a s' Hs. destruct (Hm _ _ _ Hs) as (es & He & HΦ). eauto. Qed.

Lemma leaves_lift {A} (r : IoResult A) (Φ : A → list ControlEvent → Prop) :
  (∀ a, r = Ok a → Φ a []) → leaves ev (lift r) Φ.
Proof. intros Hr s a s' [= -> ->]. exists []. rewrite app_nil_r. auto. Qed.

Lemma leaves_lift_bind {A B} (r : IoResult A) (k : A → Eff S IoError B) Ψ :
  (∀ a, r = Ok a → leaves ev (k a) Ψ) → leaves ev (lift r ≫= k) Ψ.
Proof. intros Hk s b s' Hr. destruct r as [a|e| |]; try done. by apply (Hk a eq_refl). Qed.

Lemma leaves_ret {A} (a : A) (Φ : A → list ControlEvent → Prop) : Φ a [] → leaves ev (mret a) Φ.
Proof. intros Ha s a' s' [= -> ->]. exists []. by rewrite app_nil_r. Qed.

Lemma leaves_fail {A} e (Φ : A → list ControlEvent → Prop) : leaves ev (fail e) Φ.
Proof. by intros s a s' ?. Qed.

(** Nothing, whatever the outcome. *)
Lemma leaves_silent {A} (m : Eff S IoError A) :
  (∀ s, ev (m s).2 = ev s) → leaves ev m (λ _ es, es = []).
Proof. intros Hm s a s' Hs. specialize (Hm s). rewrite Hs in Hm. exists []. by rewrite app_nil_r. Qed.

Lemma silent_attempt {A} (m : Eff S IoError A) :
  (∀ s, ev (m s).2 = ev s) → leaves ev (attempt m) (λ _ es, es = []).
Proof.
  intros Hm. apply leaves_silent. intros s. specialize (Hm s). unfold attempt.
  by destruct (m s) as [[] ?].
Qed.

Lemma leaves_silent_bind {A B} (m : Eff S IoError A) (k : A → Eff S IoError B) Ψ :
  leaves ev m (λ _ es, es = []) → (∀ a, leaves ev (k a) Ψ) → leaves ev (m ≫= k) Ψ.
Proof. intros Hm Hk. eapply leaves_bind; [exact Hm|]. intros a es ->. apply Hk. Qed.
End leaves.

Lemma leaves_world {D W A} (ev : W → list ControlEvent) (m : Eff W IoError A) Φ :
  leaves ev m Φ → leaves (λ s : D * W, ev s.2) (on_world m) Φ.
Proof.
  intros Hm [d w] a s' Hs. unfold on_world, reading in Hs. cbn in Hs.
  destruct (m w) as [r w'] eqn:Hr. injection Hs as -> <-. by eapply Hm.
Qed.

Section control.
Context `{Build} `{HX : X509} `{Der} `{Fuel} `{!StateWriter} `{!ControlSocket} `{!WorkerSystem} `{!UsbGadget}.
Context `{!ControlLaws}.

(** The device is left as it was, or without its sessions. *)
Definition only_ends_sessions (d d' : Device) : Prop := d' = d ∨ d' = clear_sessions d.

Lemma only_ends_sessions_refl d : only_ends_sessions d d.
Proof. by left. Qed.

Lemma only_ends_sessions_trans d1 d2 d3 :
  only_ends_sessions d1 d2 → only_ends_sessions d2 d3 → only_ends_sessions d1 d3.
Proof. by intros [->| ->] [->| ->]; [left|right|right|right]. Qed.

(** The events that end a configuration. *)
Definition ends_configuration (event : BusEvent) : bool :=
  match event with BusBind | BusUnbind | BusDisable => true | _ => false end.

Lemma bus_event_device event activation s :
  wp (bus_event event activation)
    (λ r s', only_ends_sessions s.1 s'.1 ∧
       (is_ok r = true → ends_configuration event = true → s'.1 = clear_sessions s.1)) s.
Proof.
  unfold bus_event, runtime_clear_sessions. wp_walk_with ltac:(idtac).
  all: repeat match goal with
       | |- wp (modify _ ≫= _) _ _ => apply wp_bind, wp_modify; cbn [fst snd]
       | |- wp (on_world _) _ _ => apply wp_on_world; intros; cbn [fst snd]
       end; (split; [first [by left|by right]|intros; first [done|congruence]]).
Qed.

(** A runtime record: the device only loses its sessions, and the end of a
    configuration ends them all. *)
Lemma control_record_device generation_ st record s :
  wp (control_record generation_ st record)
    (λ r s', only_ends_sessions s.1 s'.1 ∧
       (∀ event activation, kind record = UsbBusEvent → is_ok r = true →
          decode_bus_event (body record) = Ok (event, activation) →
          ends_configuration event = true → s'.1 = clear_sessions s.1)) s.
Proof.
  unfold control_record. apply wp_lift_bind; [intros [] _|]; cycle 1.
  { intros o Ho. split; [by left|congruence]. }
  destruct (kind record) eqn:Hk;
    try (apply wp_lift; split; [by left|done]);
    (destruct (_ : bool) eqn:Hc; [|apply wp_lift; split; [by left|done]]).
  - destruct (decode_bus_event (body record)) as [[event activation]|e| |] eqn:Hd;
      [|by (split; [by left|])..].
    apply wp_bind, wp_lift, wp_bind. eapply wp_mono; [apply bus_event_device|].
    intros [[]|e| |] s' [Hd' Hs']; (split; [done|]); intros ? ? _ Ho [= -> ->] He; by try apply Hs'.
  - apply wp_world_bind; intros; cbn [fst snd]; [apply wp_ret|]; (split; [by left|done]).
  - wp_walk_with ltac:(cbn [fst snd]; split; [by left|done]).
    all: by split; [left|].
Qed.

Lemma control_round_device generation st s :
  wp (control_round generation st) (λ r s', only_ends_sessions s.1 s'.1) s.
Proof.
  unfold control_round.
  apply wp_bind, wp_attempt, wp_on_world. intros w1. cbn [fst snd].
  destruct (io_call poll_control s.2).1 as [[[ready ce] be]|e| |]; [| |by left..].
  2: { destruct (bool_decide _); [apply wp_ret|apply wp_fail]; by left. }
  apply wp_world_bind; [|by left].
  intros stop w2 w3 _. cbn [fst snd].
  destruct stop; [apply wp_fail; by left|].
  destruct (ready =? 0); [apply wp_ret; by left|].
  apply wp_bind. eapply (wp_mono _ (λ r s', only_ends_sessions s.1 s'.1)).
  - destruct (negb _); [|destruct (negb _)].
    + apply wp_bind, wp_attempt, wp_on_world. intros w4. cbn [fst snd].
      destruct (receive w3).1 as [record|e| |]; [| |by left..].
      * eapply wp_mono; [by apply control_record_device|]. by intros r s' [Hd _].
      * destruct (bool_decide _); [apply wp_ret|apply wp_fail]; by left.
    + destruct (negb _); [apply wp_ret|apply wp_fail]; by left.
    + apply wp_ret. by left.
  - intros [[o|]|e| |] s' Hd; [by apply wp_ret| |done..].
    apply wp_bind, wp_on_world. intros w5. cbn [fst snd].
    by destruct (button_round generation be st s'.2).1 as [st'|e| |]; [apply wp_ret|..].
Qed.

Lemma serve_control_device rounds generation st s :
  wp (serve_control rounds generation st) (λ r s', only_ends_sessions s.1 s'.1) s.
Proof.
  revert st s. induction rounds as [|rounds IH]; intros st s; [by left|].
  cbn [serve_control]. apply wp_bind. eapply wp_mono; [by apply control_round_device|].
  intros [[st'|o]|e| |] s' Hd; [|by apply wp_ret|done..].
  eapply wp_mono; [by apply IH|]. intros r s2 Hd2. by eapply only_ends_sessions_trans.
Qed.

(** ** The events of the loop *)

Lemma silent_call {A} (f : World → (A + IoError) * World) :
  (∀ w, events (f w).2 = events w) → ∀ w, events (io_call f w).2 = events w.
Proof. intros Hf w. specialize (Hf w). unfold io_call. by destruct (f w). Qed.

Lemma silent_receive w : events (receive w).2 = events w.
Proof.
  unfold receive, mbind, eff_bind. pose proof (silent_call (socket_receive (HEADER_LENGTH + MAX_BODY_LENGTH + 1)) (receive_event _) w) as Hs.
  by destruct (io_call _ w) as [[] ?].
Qed.

Lemma leaves_display c : leaves events (display_do c) (λ _ es, es = [Shown c]).
Proof.
  intros w a w' Hr. unfold display_do in Hr. destruct (display_send c w) as [[] w1] eqn:Hs; [|done].
  injection Hr as <- <-. exists [Shown c]. split; [by apply display_event|done].
Qed.

Lemma leaves_send record : leaves events (send record) (λ _ es, es = [Sent (encode_record record)]).
Proof.
  unfold send. cbv zeta. intros w a w' Hr. inv_ok. unfold lift, io_call in *. inv_ok.
  repeat case_match; simplify_eq/=; bool_prop; subst.
  exists [Sent (encode_record record)]. split; [|done]. apply send_event. congruence.
Qed.

Lemma leaves_level rounds :
  leaves events (take_reconnect_state rounds) (λ pressed es, es = [Level pressed]).
Proof.
  induction rounds as [|rounds IH]; [done|]. cbn [take_reconnect_state].
  apply leaves_silent_bind; [apply silent_attempt, silent_call, notification_event|].
  intros [[|[] [|]]|e| |]; try apply leaves_fail; try apply leaves_lift; try done.
  destruct (io_kind e); try apply leaves_fail; [|done].
  intros w a w' Hr. pose proof (level_event w) as Hl. destruct (reconnect_level w) as [pressed w1].
  injection Hr as <- <-. by exists [Level pressed].
Qed.

#[local] Abbreviation seen := (λ s : Device * World, events s.2).

Lemma leaves_publish generation id :
  leaves events (publish_personality generation id [])
    (λ _ es, es = [Sent (encode_record (new_record Configure generation id [])); Shown PersonalityAbsent]).
Proof.
  unfold publish_personality. rewrite bool_decide_eq_true_2 by done.
  eapply leaves_bind; [apply leaves_send|]. intros [] es ->.
  eapply leaves_mono; [apply leaves_display|]. by intros [] es ->.
Qed.

Lemma leaves_button generation revents st :
  leaves events (button_round generation revents st) (ejects generation st).
Proof.
  unfold button_round.
  apply (leaves_bind _ _ _ (λ pressed es,
    if pressed : bool then unconfiguration_pending st = false ∧ es = [Level true]
    else eject_events es = [])).
  { destruct (_ && _) eqn:Hc; [|by apply leaves_ret].
    apply andb_true_iff in Hc as [_ Hp%negb_true_iff].
    eapply leaves_mono; [apply leaves_level|]. by intros [] es ->. }
  intros pressed es Hes. apply (leaves_bind _ _ _ (λ st' es', ejects generation st st' (es ++ es'))).
  - destruct pressed; [|apply leaves_ret; rewrite app_nil_r; by apply ejects_quiet].
    destruct Hes as [Hp ->]. apply leaves_lift_bind. intros id Hid. unfold next_request in Hid.
    destruct (Z.ltb_spec (request_of st + 1) (2 ^ 32)); [|done]. injection Hid as <-.
    eapply leaves_bind; [apply leaves_publish|]. intros [] es ->. apply leaves_ret.
    right. split; [done|]. split; [done|]. by split.
  - intros st' es' He. apply leaves_lift_bind. intros [] _. apply leaves_ret. cbn beta. by rewrite app_nil_r.
Qed.

Lemma leaves_bus_event event activation :
  leaves seen (bus_event event activation) (λ _ es, eject_events es = []).
Proof.
  unfold bus_event. apply leaves_silent_bind.
  { apply leaves_world, leaves_silent. intros w. destruct (bool_decide _); [|done].
    apply activate_event. }
  intros []. apply leaves_silent_bind.
  { destruct event; try by apply leaves_ret.
    all: apply leaves_silent_bind; [apply leaves_world, leaves_silent|intros []; by apply leaves_silent].
    all: intros w; pose proof (lock_event w) as Hl; unfold lock_state; by destruct (lock_poisoned w). }
  intros []. apply leaves_world. destruct event; try by apply leaves_ret.
  all: eapply leaves_mono; [apply leaves_display|]; by intros [] es ->.
Qed.

(** What a record leads to: an outcome that the state allows. *)
Lemma leaves_record generation_ st record :
  leaves seen (control_record generation_ st record)
    (λ o es, eject_events es = [] ∧ match o with Some outcome => allows st outcome | None => True end).
Proof.
  unfold control_record. apply leaves_lift_bind. intros [] _.
  destruct (kind record); try (by apply leaves_lift); (destruct (_ : bool); [|by apply leaves_lift]).
  - apply leaves_lift_bind. intros [event activation] _.
    eapply leaves_bind; [apply leaves_bus_event|]. intros [] es He. apply leaves_ret.
    cbn beta. by rewrite app_nil_r.
  - eapply leaves_bind; [apply leaves_world, leaves_send|]. intros [] es ->. apply leaves_ret.
    cbn beta. by rewrite app_nil_r.
  - apply leaves_silent_bind.
    { apply leaves_world, leaves_silent. intros w. apply lifecycle_stop_event. }
    intros []. eapply leaves_bind; [apply leaves_world, leaves_display|]. intros [] es ->.
    destruct (request_id record =? 0); [by apply leaves_ret|].
    destruct (_ && _) eqn:Hc; [|by apply leaves_lift].
    apply andb_true_iff in Hc as [Hp Hr%Z.eqb_eq]. by apply leaves_ret.
Qed.

Definition round_leaves (generation : Z) (st : ControlState) (next : ControlState + ControlOutcome)
    (es : list ControlEvent) : Prop :=
  match next with
  | inl st' => ejects generation st st' es
  | inr outcome => eject_events es = [] ∧ allows st outcome
  end.

Lemma leaves_round generation st :
  leaves seen (control_round generation st) (round_leaves generation st).
Proof.
  unfold control_round. apply leaves_silent_bind.
  { apply silent_attempt. intros [d w]. unfold on_world, reading. cbn.
    pose proof (silent_call poll_control poll_event w) as Hs. by destruct (io_call poll_control w). }
  intros [[[ready ce] be]|e| |]; try by apply leaves_lift.
  2: { destruct (bool_decide _); [apply leaves_ret; by left|apply leaves_fail]. }
  apply leaves_silent_bind.
  { apply leaves_world, leaves_silent. intros w. pose proof (stop_event w) as Hs. by destruct (stop_load w). }
  intros []; [apply leaves_fail|]. destruct (ready =? 0); [apply leaves_ret; by left|].
  apply (leaves_bind _ _ _ (λ o es, eject_events es = [] ∧
           match o with Some outcome => allows st outcome | None => True end)).
  - destruct (negb _); [|destruct (negb _); [destruct (negb _)|]];
      [|by apply leaves_ret|apply leaves_fail|by apply leaves_ret].
    apply leaves_silent_bind.
    { apply silent_attempt. intros [d w]. unfold on_world, reading. cbn.
      pose proof (silent_receive w) as Hs. by destruct (receive w). }
    intros [record|e| |]; [apply leaves_record| |by apply leaves_lift..].
    destruct (bool_decide _); [by apply leaves_ret|apply leaves_fail].
  - intros [outcome|] es [He Ho].
    + apply leaves_ret. cbn. by rewrite app_nil_r.
    + eapply leaves_bind; [apply leaves_world, leaves_button|]. intros st' es' Hb. apply leaves_ret.
      cbn. rewrite app_nil_r. eapply ejects_trans; [by apply ejects_quiet|done].
Qed.

Lemma leaves_serve rounds generation st :
  leaves seen (serve_control rounds generation st)
    (λ '(st', outcome) es, ejects generation st st' es ∧ allows st' outcome).
Proof.
  revert st. induction rounds as [|rounds IH]; intros st; [done|]. cbn [serve_control].
  eapply leaves_bind; [apply leaves_round|]. intros [st'|outcome] es He; cbn in He.
  - eapply leaves_mono; [apply IH|]. intros [st2 outcome] es' [He' Ho].
    split; [by eapply ejects_trans|done].
  - apply leaves_ret. cbn beta. rewrite app_nil_r. destruct He. split; [by apply ejects_quiet|done].
Qed.

(** A press that the loop is told of is an eject: the state of the next round. The
    premises say what the environment answers. *)
Record press (generation id : Z) (w w' : World) : Prop := {
  press_drained : ∃ error w1 w2 w3,
    reconnect_receive w = (inr error, w1) ∧ io_kind error = WouldBlock ∧
    reconnect_level w1 = (true, w2) ∧
    (let packet := encode_record (new_record Configure generation id []) in
     socket_send packet w2 = (inl (len packet), w3)) ∧
    display_send PersonalityAbsent w3 = (true, w');
}.

Lemma pressed_button generation request w w' :
  (0 < fuel)%nat → POLLIN libc ≠ 0 → request + 1 < 2 ^ 32 → press generation (request + 1) w w' →
  button_round generation (POLLIN libc) (mkControl request false) w
  = (Ok (mkControl (request + 1) true), w').
Proof.
  intros Hf Hin Hreq [(error & w1 & w2 & w3 & Hnone & Hkind & Hlevel & Hsend & Hshow)].
  cbv zeta in Hsend. unfold button_round. rewrite Z.land_diag, (proj2 (Z.eqb_neq (POLLIN libc) 0)) by done.
  cbn [negb andb unconfiguration_pending].
  rewrite (eff_run _ _ _ true w2).
  2: { destruct fuel as [|n]; [lia|]. cbn [take_reconnect_state].
       rewrite (eff_run _ _ _ (Err error) w1) by (unfold attempt, io_call; by rewrite Hnone).
       by rewrite Hkind, Hlevel. }
  rewrite (eff_run _ _ _ (mkControl (request + 1) true) w').
  2: { unfold next_request. cbn [request_of]. rewrite (proj2 (Z.ltb_lt _ _)) by done.
       rewrite lift_bind. rewrite (eff_run _ _ _ tt w'); [done|].
       unfold publish_personality. rewrite (eff_run _ _ _ tt w3).
       - rewrite bool_decide_eq_true_2 by done. unfold display_do. by rewrite Hshow.
       - unfold send. cbn [files body new_record]. rewrite bool_decide_eq_true_2 by done.
         cbn [negb orb]. change (MAX_BODY_LENGTH <? len []) with false. cbn [reject_if].
         rewrite lift_bind. cbv zeta. rewrite (eff_run _ _ _ _ w3) by (unfold io_call; by rewrite Hsend).
         by rewrite Z.eqb_refl. }
  unfold unexpected_events. by rewrite Z.land_lnot_diag.
Qed.

Lemma pressed_round rounds generation request d ready w w1 w2 w' :
  (0 < fuel)%nat → ready ≠ 0 → POLLIN libc ≠ 0 → request + 1 < 2 ^ 32 →
  poll_control w = (inl (ready, 0, POLLIN libc), w1) → stop_load w1 = (false, w2) →
  press generation (request + 1) w2 w' →
  serve_control (S rounds) generation (mkControl request false) (d, w)
  = serve_control rounds generation (mkControl (request + 1) true) (d, w').
Proof.
  intros Hf Hready Hin Hreq Hpoll Hstop Hpress. cbn [serve_control].
  rewrite (eff_run _ _ _ (inl (mkControl (request + 1) true)) (d, w')); [done|].
  unfold control_round.
  rewrite (eff_run _ _ _ (Ok (ready, 0, POLLIN libc)) (d, w1))
    by (unfold attempt, on_world, reading, io_call; cbn; by rewrite Hpoll).
  rewrite (eff_run _ _ _ false (d, w2)) by (unfold on_world, reading; cbn; by rewrite Hstop).
  rewrite (proj2 (Z.eqb_neq ready 0)) by done. cbn [negb]. rewrite Z.land_0_l. cbn [Z.eqb negb].
  rewrite (eff_run _ _ _ None (d, w2)) by done.
  rewrite (eff_run _ _ _ (mkControl (request + 1) true) (d, w')); [done|].
  unfold on_world, reading. cbn [fst snd]. by rewrite (pressed_button _ _ _ w').
Qed.

(** A bus event that ends the configuration ends the sessions, in the round that
    receives it. *)
Lemma ended_round generation st d w ready ce be w1 w2 record w3 event activation u s' :
  ready ≠ 0 → Z.land ce (POLLIN libc) ≠ 0 →
  poll_control w = (inl (ready, ce, be), w1) → stop_load w1 = (false, w2) →
  receive w2 = (Ok record, w3) →
  kind record = UsbBusEvent → decode_bus_event (body record) = Ok (event, activation) →
  ends_configuration event = true →
  control_round generation st (d, w) = (Ok u, s') → s'.1 = clear_sessions d.
Proof.
  intros Hready Hce Hpoll Hstop Hrec Hk Hd He Hr. unfold control_round in Hr.
  rewrite (eff_run _ _ _ (Ok (ready, ce, be)) (d, w1)) in Hr
    by (unfold attempt, on_world, reading, io_call; cbn; by rewrite Hpoll).
  rewrite (eff_run _ _ _ false (d, w2)) in Hr by (unfold on_world, reading; cbn; by rewrite Hstop).
  rewrite (proj2 (Z.eqb_neq ready 0)) in Hr by done.
  rewrite (proj2 (Z.eqb_neq (Z.land ce (POLLIN libc)) 0)) in Hr by done.
  cbn [negb] in Hr. unfold mbind at 1, eff_bind at 1 in Hr.
  rewrite (eff_run _ _ _ (Ok record) (d, w3)) in Hr
    by (unfold attempt, on_world, reading; cbn; by rewrite Hrec).
  pose proof (control_record_device generation st record (d, w3)) as Hw.
  destruct (control_record generation st record (d, w3)) as [[o|e| |] s2] eqn:Hc; try done.
  apply (wp_elim _ _ _ _ _ Hw) in Hc as [_ Hs]. specialize (Hs event activation Hk eq_refl Hd He).
  destruct o as [o|]; [by injection Hr as _ <-|].
  unfold mbind, eff_bind, on_world, reading in Hr. destruct (button_round generation be st s2.2) as [[st'|e| |] w4];
    try done. by injection Hr as _ <-.
Qed.

(** C22: the control loop is safe. Whatever the supervisor sends and the button
    does, the control loop of a configuration leaves the device as it was except
    for its sessions. When it ends, either the button was never found pressed and
    nothing was published, or it was found pressed once and the empty personality
    was published and shown, in that order, once and under the next request number,
    which did not overflow; it ends with an eject only in the second case and under
    that number, and otherwise it quiesces for request zero or its supervisor is
    gone. A press that it is told of while the environment takes what it sends has
    that effect in the same round. And the round that receives an event that binds,
    unbinds or disables the configuration, and succeeds, leaves no session. *)
Theorem control_loop_is_safe rounds generation request st d w :
  only_ends_sessions d (serve_control rounds generation (mkControl request false) (d, w)).2.1 ∧
  (∀ st' outcome s',
    serve_control rounds generation (mkControl request false) (d, w) = (Ok (st', outcome), s') →
    ∃ es, events s'.2 = events w ++ es ∧
      (st' = mkControl request false ∧ eject_events es = [] ∨
       st' = mkControl (request + 1) true ∧ request + 1 < 2 ^ 32 ∧
         eject_events es = eject_sequence generation (request + 1)) ∧
      match outcome with
      | Quiesced_ id true => st' = mkControl (request + 1) true ∧ id = request + 1
      | Quiesced_ id false => id = 0
      | Exit => True
      end) ∧
  (∀ ready w1 w2 w',
    (0 < fuel)%nat → ready ≠ 0 → POLLIN libc ≠ 0 → request + 1 < 2 ^ 32 →
    poll_control w = (inl (ready, 0, POLLIN libc), w1) → stop_load w1 = (false, w2) →
    press generation (request + 1) w2 w' →
    serve_control (S rounds) generation (mkControl request false) (d, w)
    = serve_control rounds generation (mkControl (request + 1) true) (d, w')) ∧
  (∀ ready ce be w1 w2 record w3 event activation u s',
    ready ≠ 0 → Z.land ce (POLLIN libc) ≠ 0 →
    poll_control w = (inl (ready, ce, be), w1) → stop_load w1 = (false, w2) →
    receive w2 = (Ok record, w3) →
    kind record = UsbBusEvent → decode_bus_event (body record) = Ok (event, activation) →
    ends_configuration event = true →
    control_round generation st (d, w) = (Ok u, s') → s'.1 = clear_sessions d).
Proof.
  split; [apply (serve_control_device _ _ _ (d, w))|]. split.
  - intros st' outcome s' Hr. destruct (leaves_serve _ _ _ _ _ _ Hr) as (es & He & Hej & Ho).
    exists es. split; [done|]. split.
    + destruct Hej as [[-> Hq]|(_ & Hlt & -> & Hq)]; [by left|by right].
    + destruct outcome as [id []|]; try done. destruct Ho as [Hp ->].
      by destruct Hej as [[-> _]|(_ & _ & -> & _)].
  - split.
    + intros ready w1 w2 w'. exact (pressed_round rounds generation request d ready w w1 w2 w').
    + intros ready ce be w1 w2 record w3 event activation u s'.
      exact (ended_round generation st d w ready ce be w1 w2 record w3 event activation u s').
Qed.
End control.

(** ** Witnesses *)

From S2P Require Import Toy StoreProperties SessionSteps SessionProperties.

(** A host that takes every write; the world is the writes, the responses that
    wait and the interrupts to come. *)
Definition bulk_platform : Platform := {|
  World := list bytes * list bytes * nat;
  getrandom_fill n w := (Some (zeros n), w);
  instant_now w := (1, w);
|}.

Section bulk_witness.
#[local] Existing Instance bulk_platform.

Definition bulk_write (file : Z) (b : bytes) (w : list bytes * list bytes * nat) :
    (Z + IoError) * (list bytes * list bytes * nat) :=
  match w with
  | (ws, rs, S n) => (inr (mkIoError Interrupted "interrupted"), (ws, rs, n))
  | (ws, rs, O) => (inl (len b), (ws ++ [b], rs, O))
  end.

(** The operations that a witness does not reach fail or do nothing. *)
Definition no_error {A} : A + IoError := inr (mkIoError WouldBlock "would block").

Definition bulk_system : WorkerSystem := {|
  libc := linux;
  file_read _ _ w := (no_error, w);
  file_write := bulk_write;
  fcntl_getfl _ w := (inl 2, w);
  fcntl_setfl _ _ w := (None, w);
  poll_control w := (no_error, w);
  stop_load w := (false, w);
  stop_store _ w := w;
  display_send _ w := (true, w);
  response_send _ w := (true, w);
  response_receive w := (head w.1.2, (w.1.1, tail w.1.2, w.2));
  reconnect_receive w := (no_error, w);
  reconnect_level w := (false, w);
  line_read _ w := (no_error, w);
  line_pressed w := (inl false, w);
  reconnect_swap b w := (b, w);
  reconnect_notify w := (no_error, w);
  poll_buttons w := (no_error, w);
|}.

#[local] Existing Instance bulk_system.

#[local] Instance bulk_laws : BulkLaws.
Proof.
  unshelve refine {| bulk_writes := _; pending_responses := _; interrupts := _ |}.
  - exact (λ w, w.1.1).
  - exact (λ w, w.1.2).
  - exact (λ w, w.2).
  - intros file b [[ws rs] [|n]] w' r [= <- <-]; (split; [done|]); [by left|].
    right. eexists. split; [done|]. do 2 (split; [done|]). cbn. lia.
  - intros [[ws rs] n] w' r [= <- <-]. done.
Defined.

#[local] Existing Instance toy_fuel.

(** A response of one packet exactly and a longer one, with one interrupt. *)
Lemma responses_reach_the_host_witness :
  ∃ w', serve_responses 3 4 ([], [zeros 64; replicate 65 1], 1%nat) = (Ok tt, w') ∧
    received_by_host w'.1.1 = [zeros 64; replicate 65 1].
Proof.
  exact (responses_reach_the_host 3 4 ([], [zeros 64; replicate 65 1], 1%nat)
           ltac:(by apply Nat.ltb_lt) ltac:(by apply Nat.ltb_lt) eq_refl).
Defined.

(** The endpoints as the supervisor hands them over, device-to-host first. *)
Lemma accepted_endpoints_witness :
  ∃ w', endpoints_from_record (mkRecord UsbEndpoints 1 1 ([0; 2] ++ in_entry ++ out_entry) [7; 8])
          ([], [], O) = (Ok (mkEndpoints 8 7), w').
Proof.
  apply accepted_endpoints; [|by_computation|by right].
  intros file v. exists v. vm_compute. reflexivity.
Defined.
End bulk_witness.

Section control_witness.
#[local] Existing Instance default_build.
#[local] Existing Instance example_state_writer.
#[local] Existing Instance toy_fuel.

(** The events are kept in the second component of the world, by their number. *)
#[local] Instance DisplayCommand_eq_dec : EqDecision DisplayCommand.
Proof. solve_decision. Defined.

#[local] Instance DisplayCommand_countable : Countable DisplayCommand.
Proof.
  refine (inj_countable'
    (λ c, match c with
          | Identify n => inl n | PersonalityPresent => inr 0 | PersonalityAbsent => inr 1
          | Bind => inr 2 | Unbind => inr 3 | Suspend => inr 4 | Resume => inr 5 | Shutdown => inr 6
          end)
    (λ n : Z + Z, match n with
          | inl n => Identify n | inr 0 => PersonalityPresent | inr 1 => PersonalityAbsent
          | inr 2 => Bind | inr 3 => Unbind | inr 4 => Suspend | inr 5 => Resume | inr _ => Shutdown
          end) _).
  by intros [].
Defined.

#[local] Instance ControlEvent_eq_dec : EqDecision ControlEvent.
Proof. solve_decision. Defined.

#[local] Instance ControlEvent_countable : Countable ControlEvent.
Proof.
  refine (inj_countable'
    (λ e, match e with Level b => inl b | Sent p => inr (inl p) | Shown c => inr (inr c) end)
    (λ n : bool + (bytes + DisplayCommand), match n with
          | inl b => Level b | inr (inl p) => Sent p | inr (inr c) => Shown c end) _).
  by intros [].
Defined.

Definition noted (w : Z * Z) : list ControlEvent := default [] (countable.decode (Z.to_pos w.2)).
Definition note (e : ControlEvent) (w : Z * Z) : Z * Z := (w.1, Zpos (countable.encode (noted w ++ [e]))).

Lemma noted_note e w : noted (note e w) = noted w ++ [e].
Proof. unfold noted at 1, note. cbn [snd Z.to_pos]. by rewrite decode_encode. Qed.

(** The button is pressed in the first round, and the supervisor quiesces for the
    request that it caused; later it says that the host is gone. *)
#[local] Instance quiesce_socket : ControlSocket := {|
  CMSG_LEN_0 := 16; SOL_SOCKET := 1; SCM_RIGHTS := 1; MSG_TRUNC := 0x20; MSG_CTRUNC := 8;
  socket_send p w := (inl (len p), note (Sent p) w);
  socket_receive _ w :=
    (inl (mkReceived (packet_of (if w.1 =? 51 then new_record UsbBusEvent 3 0 [1; 7]
                                 else new_record Quiesce 3 6 [])) 0 []), w);
|}.

#[local] Instance button_system : WorkerSystem := {|
  libc := linux;
  file_read _ _ w := (no_error, w);
  file_write _ _ w := (no_error, w);
  fcntl_getfl _ w := (inl 2, w);
  fcntl_setfl _ _ w := (None, w);
  poll_control w :=
    (inl (if w.1 =? 41 then (1, 0, POLLIN linux) else (1, POLLIN linux, 0)), (w.1 + 1, w.2));
  stop_load w := (false, w);
  stop_store _ w := w;
  display_send c w := (true, note (Shown c) w);
  response_send _ w := (true, w);
  response_receive w := (None, w);
  reconnect_receive w := (no_error, w);
  reconnect_level w := (true, note (Level true) w);
  line_read _ w := (no_error, w);
  line_pressed w := (inl false, w);
  reconnect_swap b w := (b, w);
  reconnect_notify w := (no_error, w);
  poll_buttons w := (no_error, w);
|}.

#[local] Instance bus_gadget : UsbGadget := {|
  decode_bus_event b := match b with [1; a] => Ok (BusUnbind, a) | _ => invalid "bus event" end;
  to_cbor _ := Ok [0xa0];
  lifecycle_activate _ w := w;
  lifecycle_stop w := w;
  wait_for_activation_after _ w := (None, w);
|}.

#[local] Instance noted_laws : ControlLaws.
Proof.
  refine {| events := noted |}; try done.
  - intros w. apply noted_note.
  - intros p w w' [= <-]. apply noted_note.
  - intros c w w' [= <-]. apply noted_note.
Defined.

Definition quiet_world : World := (41, Zpos (countable.encode (@nil ControlEvent))).
Definition later_world : World := (50, 1).

Lemma control_loop_is_safe_witness :
  let start := mkControl 5 false in
  (∃ s', serve_control 2 3 start (example_device, quiet_world)
         = (Ok (mkControl 6 true, Quiesced_ 6 true), s') ∧
     only_ends_sessions example_device s'.1 ∧
     eject_events (noted s'.2)
     = [Level true; Sent (encode_record (new_record Configure 3 6 [])); Shown PersonalityAbsent]) ∧
  (∃ w', serve_control 2 3 start (example_device, quiet_world)
         = serve_control 1 3 (mkControl 6 true) (example_device, w')) ∧
  (∃ s', control_round 3 start (example_device, later_world) = (Ok (inl start), s') ∧ sessions s'.1 = ∅).
Proof.
  cbv zeta. split; [|split].
  - destruct (serve_control 2 3 (mkControl 5 false) (example_device, quiet_world)) as [r s'] eqn:Hr.
    destruct (control_loop_is_safe 2 3 5 (mkControl 5 false) example_device quiet_world) as (Hd & Ho & _).
    rewrite Hr in Hd.
    assert ((serve_control 2 3 (mkControl 5 false) (example_device, quiet_world)).1
            = Ok (mkControl 6 true, Quiesced_ 6 true)) as Hc by (vm_compute; reflexivity).
    rewrite Hr in Hc. cbn [fst] in Hc. subst r. exists s'. split; [reflexivity|]. split; [exact Hd|].
    destruct (Ho _ _ _ Hr) as (es & Hes & [[Hst _]|(_ & _ & Hej)] & _); [discriminate Hst|].
    change (noted s'.2 = es) in Hes. rewrite Hes. exact Hej.
  - eexists. refine (proj1 (proj2 (proj2
      (control_loop_is_safe 1 3 5 (mkControl 5 false) example_device quiet_world)))
      1 (42, quiet_world.2) (42, quiet_world.2) _ _ _ _ _ eq_refl eq_refl _).
    + by apply Nat.ltb_lt.
    + done.
    + done.
    + done.
    + constructor. do 4 eexists. repeat split.
  - destruct (control_round 3 (mkControl 5 false) (example_device, later_world)) as [r s'] eqn:Hr.
    assert ((control_round 3 (mkControl 5 false) (example_device, later_world)).1
            = Ok (inl (mkControl 5 false))) as Hc by (vm_compute; reflexivity).
    rewrite Hr in Hc. cbn [fst] in Hc. subst r. exists s'. split; [reflexivity|].
    rewrite (proj2 (proj2 (proj2
      (control_loop_is_safe 1 3 5 (mkControl 5 false) example_device later_world)))
      1 (POLLIN linux) 0 (51, 1) (51, 1) (new_record UsbBusEvent 3 0 [1; 7]) (51, 1) BusUnbind 7
      (inl (mkControl 5 false)) s'); try done.
Defined.
End control_witness.
