(* ===== verification/Connector.v ===== *)
(** * The connector's HTTP transport
    (crates/yubihsm-qualification/src/lib.rs, lines 47-86 and 124-311)

    The host side posts a frame to a connector and reads the answer until the
    connection is closed: the URL and the authority, the HTTP response with its
    headers, and the chunked body. The TCP stream is a parameter. Text is a list
    of code points, or of bytes where only ASCII matters. *)

From S2P Require Import Prelude Firmware KeyCore Io.

(** ** Errors *)

Inductive TransportErrorKind : Set := OtherTransport | InvalidCommandFrame.

Record TransportError : Set := mkTransport {
  transport_kind : TransportErrorKind;
  message : string;
}.

(** [TransportError::new] and [invalid_command_frame]. *)
Definition transport_error (message : string) : TransportError := mkTransport OtherTransport message.
Definition invalid_command_frame (message : string) : TransportError :=
  mkTransport InvalidCommandFrame message.

(** ** Text *)

(** [windows(n).position]: where a pattern occurs first. *)
Fixpoint position (p l : list Z) : option nat :=
  match l with
  | [] => None
  | _ :: t => if starts_with p l then Some O else S <$> position p t
  end.

(** [split_once], and [rsplit_once] for one character. *)
Definition split_once (sep l : list Z) : option (list Z * list Z) :=
  i ← position sep l; Some (take i l, drop (i + List.length sep) l).

Fixpoint rsplit_once (c : Z) (l : list Z) : option (list Z * list Z) :=
  match l with
  | [] => None
  | x :: t =>
      match rsplit_once c t with
      | Some (a, b) => Some (x :: a, b)
      | None => if x =? c then Some ([], t) else None
      end
  end.

(** [split] at a pattern; each part is shorter than the text before it. *)
Fixpoint split_at (fuel : nat) (sep l : list Z) : list (list Z) :=
  match fuel with
  | O => [l]
  | S fuel =>
      match split_once sep l with
      | Some (a, b) => a :: split_at fuel sep b
      | None => [l]
      end
  end.

Definition split (sep l : list Z) : list (list Z) := split_at (List.length l) sep l.

(** [char::is_whitespace]. *)
Definition is_whitespace (c : Z) : bool :=
  ((9 <=? c) && (c <=? 13)) || (c =? 0x20) || (c =? 0x85) || (c =? 0xa0) || (c =? 0x1680)
  || ((0x2000 <=? c) && (c <=? 0x200a)) || (c =? 0x2028) || (c =? 0x2029) || (c =? 0x202f)
  || (c =? 0x205f) || (c =? 0x3000).

Fixpoint trim_start (drop : Z → bool) (l : list Z) : list Z :=
  match l with c :: t => if drop c then trim_start drop t else l | [] => [] end.
Definition trim_with (drop : Z → bool) (l : list Z) : list Z :=
  reverse (trim_start drop (reverse (trim_start drop l))).
Definition trim : list Z → list Z := trim_with is_whitespace.

(** [split_whitespace], with the word that is being read. *)
Fixpoint words (word l : list Z) : list (list Z) :=
  match l with
  | [] => if bool_decide (word = []) then [] else [word]
  | c :: t =>
      if is_whitespace c
      then (if bool_decide (word = []) then [] else [word]) ++ words [] t
      else words (word ++ [c]) t
  end.

Definition to_ascii_lowercase (l : list Z) : list Z :=
  map (λ c, if (0x41 <=? c) && (c <=? 0x5a) then c + 32 else c) l.
Definition eq_ignore_ascii_case (a b : list Z) : bool :=
  bool_decide (to_ascii_lowercase a = to_ascii_lowercase b).

Definition is_ascii_alphanumeric (c : Z) : bool :=
  ((0x30 <=? c) && (c <=? 0x39)) || ((0x41 <=? c) && (c <=? 0x5a)) || ((0x61 <=? c) && (c <=? 0x7a)).

Definition CRLF : list Z := [13; 10].
Definition usize_limit : Z := 2 ^ 64.

(** ** The address of the connector *)

Abbreviation TResult := (outcome TransportError).

Definition parse_port (value : list Z) : TResult Z :=
  ok_or (from_str_radix 10 65536 value) (transport_error "invalid connector port").

Definition parse_authority (authority : list Z) : TResult (list Z * Z) :=
  match authority with
  | 0x5b :: rest =>
      '(host, suffix) ← ok_or (split_once [0x5d] rest)
                          (transport_error "invalid bracketed IPv6 connector host");
      port ← match suffix with
             | [] => Ok 80
             | 0x3a :: value => parse_port value
             | _ => Err (transport_error "invalid connector authority")
             end;
      Ok (host, port)
  | _ =>
      match rsplit_once 0x3a authority with
      | Some (host, port) =>
          if existsb (Z.eqb 0x3a) host then Ok (authority, 80)
          else port ← parse_port port; Ok (host, port)
      | None => Ok (authority, 80)
      end
  end.

Record ConnectorHttpTransport : Set := mkConnector {
  host : list Z; port : Z; path : list Z; connector_serial : list Z;
}.

(** [ConnectorHttpTransport::new]. *)
Definition new_connector (base_url serial : list Z) : TResult ConnectorHttpTransport :=
  let scheme := ascii_bytes "http://" in
  if negb (starts_with scheme base_url)
  then Err (transport_error "connector URL must start with http://")
  else
    let rest := drop (List.length scheme) base_url in
    let '(authority, base_path) := default (rest, []) (split_once [0x2f] rest) in
    _ ← reject_if (bool_decide (authority = [])) (transport_error "connector URL has no host");
    '(host, port) ← parse_authority authority;
    let base_path := trim_with (Z.eqb 0x2f) base_path in
    let prefix := if bool_decide (base_path = []) then [] else 0x2f :: base_path in
    _ ← reject_if (bool_decide (serial = []) || negb (forallb is_ascii_alphanumeric serial))
          (transport_error "serial must contain only ASCII letters and digits");
    Ok (mkConnector host port
          (prefix ++ ascii_bytes "/v1/devices/" ++ serial ++ ascii_bytes "/commands") serial).

(** ** The response *)

Section response.
Context `{Build}.

(** [length + 2] on [usize], by the build profile. *)
Definition usize_add (a b : Z) : TResult Z :=
  if a + b <? usize_limit then Ok (a + b)
  else if overflow_checks then Panic else Ok ((a + b) mod usize_limit).

(** One chunk: its data and what follows, or [None] for the last chunk. *)
Definition decode_chunk (encoded : bytes) : TResult (option (bytes * bytes)) :=
  line_end ← ok_or (position CRLF encoded) (transport_error "invalid chunked connector response");
  length_text ← ok_or (from_utf8 (take line_end encoded)) (transport_error "invalid chunk length");
  size ← ok_or (from_str_radix 16 usize_limit (default [] (head (split [0x3b] length_text))))
           (transport_error "invalid chunk length");
  let encoded := drop (line_end + 2) encoded in
  if size =? 0 then Ok None
  else
    end_ ← usize_add size 2;
    if len encoded <? end_ then Err (transport_error "truncated chunked connector response")
    else
      mark ← slice encoded size end_;
      _ ← reject_if (negb (bool_decide (mark = CRLF)))
            (transport_error "truncated chunked connector response");
      Ok (Some (ztake size encoded, zdrop end_ encoded)).

Fixpoint decode_chunks (fuel : nat) (output encoded : bytes) : TResult bytes :=
  match fuel with
  | O => Diverge
  | S fuel =>
      chunk ← decode_chunk encoded;
      match chunk with
      | None => Ok output
      | Some (data, encoded) => decode_chunks fuel (output ++ data) encoded
      end
  end.

(** [decode_chunked]; every chunk takes bytes from the input. *)
Definition decode_chunked (encoded : bytes) : TResult bytes :=
  decode_chunks (S (List.length encoded)) [] encoded.

(** The names in lower case, the values as they are. *)
Definition header_line (line : list Z) : option (list Z * list Z) :=
  '(name, value) ← split_once [0x3a] line; Some (to_ascii_lowercase (trim name), trim value).

Definition parse_headers (lines : list (list Z)) : list (list Z * list Z) := omap header_line lines.

Definition parse_status (line : list Z) : option Z :=
  value ← words [] line !! 1%nat; from_str_radix 10 65536 value.

(** The body after the headers, by its framing. *)
Definition http_body (headers : list (list Z * list Z)) (body : bytes) : TResult bytes :=
  if existsb (λ h, bool_decide (h.1 = ascii_bytes "transfer-encoding")
                   && eq_ignore_ascii_case h.2 (ascii_bytes "chunked")) headers
  then decode_chunked body
  else
    match List.find (λ h, bool_decide (h.1 = ascii_bytes "content-length")) headers with
    | Some (_, value) =>
        expected ← ok_or (from_str_radix 10 usize_limit value)
                     (transport_error "connector returned invalid Content-Length");
        _ ← reject_if (negb (expected =? len body))
              (transport_error ("connector response body was " +:+ decimal (len body)
                 +:+ " bytes, expected " +:+ decimal expected));
        Ok body
    | None => Ok body
    end.

(** The JSON member that the connector adds to a rejected frame. *)
Definition invalid_frame_code : bytes :=
  [0x22] ++ ascii_bytes "code" ++ [0x22; 0x3a; 0x22] ++ ascii_bytes "invalid_command_frame" ++ [0x22].

Definition parse_http_response (encoded : bytes) : TResult bytes :=
  boundary ← ok_or (position (CRLF ++ CRLF) encoded)
    (transport_error ("connector returned an invalid HTTP response (" +:+ decimal (len encoded)
       +:+ " bytes)"));
  head_text ← ok_or (from_utf8 (take boundary encoded))
    (transport_error "connector returned non-UTF-8 HTTP headers");
  let lines := split CRLF head_text in
  status ← ok_or (head lines ≫= parse_status)
    (transport_error "connector returned an invalid HTTP status");
  let headers := parse_headers (tail lines) in
  let body := drop (boundary + 4) encoded in
  if negb (status =? 200) then
    let message := "connector returned HTTP " +:+ decimal status +:+ ": "
                   +:+ text (from_utf8_lossy body) in
    if (status =? 400) && bool_decide (is_Some (position invalid_frame_code body))
    then Err (invalid_command_frame message) else Err (transport_error message)
  else http_body headers body.

(** ** The exchange *)

Section exchange.
Context `{Platform}.

(** [TcpStream]: connecting, the two timeouts, writing everything and reading to
    the end; an error is its text. *)
Class TcpStream := {
  tcp_connect : list Z → Z → World → option string * World;
  tcp_set_read_timeout : World → option string * World;
  tcp_set_write_timeout : World → option string * World;
  tcp_write_all : bytes → World → option string * World;
  tcp_read_to_end : World → (bytes + string) * World;
}.

Context `{!TcpStream}.

Definition tcp_check (context : string) (f : World → option string * World) :
    Eff World TransportError unit := λ w,
  let '(r, w) := f w in
  (match r with None => Ok tt | Some e => Err (transport_error (context +:+ e)) end, w).

Definition http_request (self : ConnectorHttpTransport) (request : bytes) : bytes :=
  ascii_bytes "POST " ++ path self ++ ascii_bytes " HTTP/1.1" ++ CRLF
  ++ ascii_bytes "Host: " ++ host self ++ [0x3a] ++ decimal_digits (port self) ++ CRLF
  ++ ascii_bytes "Content-Type: application/octet-stream" ++ CRLF
  ++ ascii_bytes "Content-Length: " ++ decimal_digits (len request) ++ CRLF
  ++ ascii_bytes "Connection: close" ++ CRLF ++ CRLF.

Definition connector_exchange (self : ConnectorHttpTransport) (request : bytes) :
    Eff World TransportError bytes :=
  _ ← tcp_check "connector connection failed: " (tcp_connect (host self) (port self));
  _ ← tcp_check "cannot set read timeout: " tcp_set_read_timeout;
  _ ← tcp_check "cannot set write timeout: " tcp_set_write_timeout;
  _ ← tcp_check "connector request failed: " (tcp_write_all (http_request self request));
  _ ← tcp_check "connector request failed: " (tcp_write_all request);
  encoded ← (λ w, let '(r, w) := tcp_read_to_end w in
                  (match r with
                   | inl encoded => Ok encoded
                   | inr e => Err (transport_error ("connector response failed: " +:+ e))
                   end, w));
  lift (parse_http_response encoded).
End exchange.
End response.
