(* ===== verification/ConnectorProperties.v ===== *)
(** * The connector's HTTP transport: what a response decodes to

    The specification renders a response: a status line, header lines, and a body
    that is framed by its length or by chunks. *)

From S2P Require Import Prelude Firmware KeyCore Io Connector.

(** ** Specification *)

(** One chunk, with its extension, and a chunked body with whatever follows it. *)
Definition chunk (c : bytes * bytes) : bytes :=
  hex_digits 16 (len c.2) ++ c.1 ++ CRLF ++ c.2 ++ CRLF.
Definition chunked_body (chunks : list (bytes * bytes)) (trailer : bytes) : bytes :=
  concat (map chunk chunks) ++ [0x30] ++ CRLF ++ trailer.

(** An extension is ASCII text after a semicolon; a chunk is not empty. *)
Definition chunk_ok (c : bytes * bytes) : Prop :=
  (c.1 = [] ∨ ∃ e, c.1 = 0x3b :: e) ∧ Forall (λ x, 0 ≤ x < 0x80 ∧ x ≠ 13) c.1 ∧
  0 < len c.2 ∧ len c.2 + 2 < usize_limit.

(** Header lines: the name has no colon, and neither part has white space around it
    or a line break in it. *)
Definition header_text (h : list Z * list Z) : list Z := h.1 ++ [0x3a; 0x20] ++ h.2.

Record header_ok (h : list Z * list Z) : Prop := {
  header_ascii : Forall (λ x, 0 ≤ x < 0x80 ∧ x ≠ 13) (header_text h);
  header_name : Forall (λ x, x ≠ 0x3a) h.1;
  header_name_trimmed : trim h.1 = h.1;
  header_value_trimmed : trim (0x20 :: h.2) = h.2;
}.

Fixpoint join (lines : list (list Z)) : list Z :=
  match lines with
  | [] => []
  | [l] => l
  | l :: rest => l ++ CRLF ++ join rest
  end.

Definition status_line : list Z := ascii_bytes "HTTP/1.1 200 OK".

Definition http_message (headers : list (list Z * list Z)) (body : bytes) : bytes :=
  join (status_line :: map header_text headers) ++ CRLF ++ CRLF ++ body.

(** Header names are compared without regard to case, and so is the name of a
    transfer encoding. *)
Definition same_text (a b : list Z) : Prop := to_ascii_lowercase a = to_ascii_lowercase b.

Definition chunked_header (h : list Z * list Z) : Prop :=
  same_text h.1 (ascii_bytes "Transfer-Encoding") ∧ same_text h.2 (ascii_bytes "chunked").

Definition length_header (h : list Z * list Z) : Prop := same_text h.1 (ascii_bytes "Content-Length").

(** ** Searching *)

Lemma position_skip (x : Z) p l t :
  Forall (λ c, c ≠ x) l →
  position (x :: p) (l ++ t) = (Nat.add (List.length l)) <$> position (x :: p) t.
Proof.
  induction 1 as [|c l Hc _ IH]; [cbn [app]; by destruct (position (x :: p) t)|].
  cbn [app position starts_with]. rewrite (proj2 (Z.eqb_neq x c)) by done. cbn [andb].
  rewrite IH. by destruct (position (x :: p) t).
Qed.

Lemma starts_with_app p t : starts_with p (p ++ t) = true.
Proof. induction p as [|x p IH]; [done|]. cbn. by rewrite Z.eqb_refl, IH. Qed.

(** The first occurrence of a pattern after text without its first character. *)
Lemma position_first (x : Z) p l t :
  Forall (λ c, c ≠ x) l → position (x :: p) (l ++ (x :: p) ++ t) = Some (List.length l).
Proof.
  intros Hl. rewrite position_skip by done.
  change ((x :: p) ++ t) with (x :: (p ++ t)). cbn [position].
  change (x :: p ++ t) with ((x :: p) ++ t). rewrite starts_with_app. cbn. f_equal. lia.
Qed.

Lemma position_none (x : Z) p l : Forall (λ c, c ≠ x) l → position (x :: p) l = None.
Proof. intros Hl. rewrite <- (app_nil_r l), position_skip by done. done. Qed.

Lemma position_bound p l i : position p l = Some i → (i < List.length l)%nat.
Proof.
  revert i. induction l as [|x l IH]; intros i; [done|]. cbn [position].
  destruct (starts_with _ _); [intros [= <-]; cbn; lia|].
  destruct (position p l) as [j|]; [|done]. intros [= <-]. specialize (IH j eq_refl). cbn. lia.
Qed.

Lemma split_once_first x p l t :
  Forall (λ c, c ≠ x) l → split_once (x :: p) (l ++ (x :: p) ++ t) = Some (l, t).
Proof.
  intros Hl. unfold split_once. rewrite position_first by done. cbn [mbind option_bind].
  rewrite take_app_length. f_equal. f_equal.
  rewrite <- drop_drop, drop_app_length. apply (drop_app_length (x :: p)).
Qed.

(** ** Chunks *)

Lemma ascii_forallb l : Forall (λ x, 0 ≤ x < 0x80) l → forallb is_ascii l = true.
Proof.
  intros Hl. apply forallb_forall. intros x Hx%list_elem_of_In.
  rewrite Forall_forall in Hl. specialize (Hl x Hx). unfold is_ascii. lia.
Qed.

Lemma split_head x l e :
  Forall (λ c, c ≠ x) l → e = [] ∨ (∃ e', e = x :: e') → default [] (head (split [x] (l ++ e))) = l.
Proof.
  intros Hl [->|[e' ->]]; unfold split.
  - rewrite app_nil_r. destruct (List.length l) eqn:Hn; cbn [split_at]; [done|].
    unfold split_once. by rewrite position_none.
  - rewrite length_app. cbn [List.length]. rewrite Nat.add_succ_r. cbn [split_at].
    pose proof (split_once_first x [] l e' Hl) as Hs. cbn [app] in Hs. by rewrite Hs.
Qed.

Lemma digits16_char n : 0 ≤ n → Forall (λ c, 0x30 ≤ c < 0x80 ∧ c ≠ 0x3b) (digits 16 16 n).
Proof.
  intros Hn. apply digits_forall; [lia..|]. intros d Hd. unfold hex_digit.
  destruct (Z.ltb_spec d 10); lia.
Qed.

Section chunks.
Context `{Build}.

Lemma decode_chunk_chunk c rest :
  chunk_ok c → decode_chunk (chunk c ++ rest) = Ok (Some (c.2, rest)).
Proof.
  destruct c as [ext d]. intros (He & Hext & Hd & Hmax). cbn [fst snd] in *.
  unfold decode_chunk, chunk, hex_digits. cbn [fst snd].
  pose proof (digits16_char (len d) ltac:(lia)) as Hhex.
  set (hex := digits 16 16 (len d)) in *.
  assert (Forall (λ c, c ≠ 13) (hex ++ ext)) as Hcr.
  { apply Forall_app. split; eapply Forall_impl; eauto; cbn; lia. }
  rewrite <- !app_assoc, (app_assoc hex ext), (position_first 13 [10]) by done.
  cbn [ok_or mbind outcome_bind]. rewrite take_app_length, from_utf8_ascii; cycle 1.
  { apply ascii_forallb, Forall_app. split; eapply Forall_impl; eauto; cbn; lia. }
  cbn [ok_or mbind outcome_bind]. rewrite split_head; [|eapply Forall_impl; eauto; cbn; lia|done].
  unfold hex. rewrite decode_digits; [|lia|lia|unfold usize_limit in *; lia]. fold hex.
  cbn [ok_or mbind outcome_bind].
  rewrite <- drop_drop, drop_app_length. change (drop 2 (CRLF ++ d ++ CRLF ++ rest)) with (d ++ CRLF ++ rest).
  rewrite (proj2 (Z.eqb_neq _ _)) by lia. unfold usize_add.
  rewrite (proj2 (Z.ltb_lt _ _)) by lia. cbn [ok_or mbind outcome_bind].
  rewrite (proj2 (Z.ltb_ge _ _)) by (rewrite !len_app; pose proof (len_nonneg rest); change (len CRLF) with 2; lia).
  rewrite (slice_parts _ d CRLF rest) by (done || (change (len CRLF) with 2; lia)).
  cbn [ok_or mbind outcome_bind reject_if]. rewrite bool_decide_eq_true_2 by done. cbn [negb reject_if mbind outcome_bind].
  rewrite ztake_app. do 3 f_equal. rewrite app_assoc. apply zdrop_app_eq.
  rewrite len_app. by change (len CRLF) with 2.
Qed.

(** A chunk that is decoded shortens the input by more than its data. *)
Lemma decode_chunk_shorter encoded data rest :
  decode_chunk encoded = Ok (Some (data, rest)) → len data + len rest < len encoded.
Proof.
  unfold decode_chunk. intros Hd. inv_ok.
  match goal with Hp : position _ _ = Some ?i, Hs : from_str_radix _ _ _ = Some ?n |- _ =>
    set (line := i) in *; set (size := n) in *; apply position_bound in Hp end.
  assert (len (drop (line + 2) encoded) < len encoded) by (unfold len; rewrite length_drop; lia).
  destruct (size =? 0); [done|]. inv_ok. destruct (_ <? _) eqn:Hlt; [done|]. inv_ok. bool_prop.
  match goal with Hs : slice _ _ ?b = Ok _ |- _ => rename b into end_; unfold slice in Hs; rename Hs into Hs' end.
  destruct (_ && _) eqn:Hc in Hs'; [|done]. bool_prop. 
  unfold len, ztake, zdrop in *. rewrite length_take, !length_drop in *. lia.
Qed.

Lemma decode_chunk_not_diverge encoded : decode_chunk encoded ≠ Diverge.
Proof.
  unfold decode_chunk. destruct (position _ _); [|done]. cbn [ok_or mbind outcome_bind].
  destruct (from_utf8 _); [|done]. cbn [ok_or mbind outcome_bind].
  destruct (from_str_radix _ _ _) as [size|]; [|done]. cbn [ok_or mbind outcome_bind].
  destruct (size =? 0); [done|]. unfold usize_add.
  destruct (_ <? usize_limit), overflow_checks; cbn [mbind outcome_bind]; try done;
    (destruct (_ <? _); [done|]); unfold slice; (destruct (_ && _); [|done]);
    cbn [mbind outcome_bind]; by destruct (negb _).
Qed.

Lemma decode_chunks_total fuel output encoded :
  (List.length encoded < fuel)%nat →
  decode_chunks fuel output encoded ≠ Diverge ∧
  (∀ fuel', (List.length encoded < fuel')%nat →
     decode_chunks fuel' output encoded = decode_chunks fuel output encoded) ∧
  (∀ out, decode_chunks fuel output encoded = Ok out → len out ≤ len output + len encoded).
Proof.
  revert output encoded. induction fuel as [|fuel IH]; intros output encoded Hf; [lia|].
  cbn [decode_chunks]. destruct (decode_chunk encoded) as [[[data rest]|]|e| |] eqn:Hd;
    cbn [mbind outcome_bind].
  - apply decode_chunk_shorter in Hd as Hs.
    destruct (IH (output ++ data) rest) as (Hn & Hm & Ho); [unfold len in Hs; lia|].
    split; [done|]. split.
    + intros [|fuel'] Hf'; [lia|]. cbn [decode_chunks]. rewrite Hd. cbn [mbind outcome_bind].
      apply Hm. unfold len in Hs. lia.
    + intros out Hout. apply Ho in Hout. rewrite len_app in Hout. lia.
  - split; [done|]. split; [intros [|fuel'] Hf'; [lia|]; cbn [decode_chunks]; by rewrite Hd|].
    intros out [= <-]. pose proof (len_nonneg encoded). lia.
  - split; [done|]. split; [intros [|fuel'] Hf'; [lia|]; cbn [decode_chunks]; by rewrite Hd|done].
  - split; [done|]. split; [intros [|fuel'] Hf'; [lia|]; cbn [decode_chunks]; by rewrite Hd|done].
  - by destruct (decode_chunk_not_diverge encoded).
Qed.

Lemma decode_chunks_chunked fuel output chunks trailer :
  Forall chunk_ok chunks → (List.length chunks < fuel)%nat →
  decode_chunks fuel output (chunked_body chunks trailer) = Ok (output ++ concat (map snd chunks)).
Proof.
  intros Hc. revert fuel output. induction Hc as [|c chunks Hc _ IH]; intros [|fuel] output Hf; try (cbn in Hf; lia).
  - cbn. by rewrite app_nil_r.
  - unfold chunked_body. cbn [map concat decode_chunks]. rewrite <- app_assoc.
    rewrite decode_chunk_chunk by done. cbn [mbind outcome_bind].
    fold (chunked_body chunks trailer).
    rewrite (IH fuel (output ++ c.2)) by (cbn in Hf; lia). by rewrite <- app_assoc.
Qed.


Lemma decode_chunked_chunks chunks trailer :
  Forall chunk_ok chunks → decode_chunked (chunked_body chunks trailer) = Ok (concat (map snd chunks)).
Proof.
  intros Hc. unfold decode_chunked.
  destruct (decode_chunks_total (S (List.length chunks + List.length (chunked_body chunks trailer))) []
              (chunked_body chunks trailer)) as (_ & Hm & _); [lia|].
  rewrite Hm by lia. by rewrite decode_chunks_chunked by (done || lia).
Qed.

(** C25: chunked decoding ends, whatever the connector sends. The loop needs no
    more rounds than the input has bytes: with any such bound it gives the same
    answer and never runs out; the decoded body is no longer than the input; and a
    body of chunks, with any extensions and anything after the last chunk, is
    decoded to the concatenation of its chunks. *)
Theorem chunked_decoding_ends encoded fuel chunks trailer :
  (List.length encoded < fuel)%nat → Forall chunk_ok chunks →
  decode_chunked encoded ≠ Diverge ∧
  decode_chunks fuel [] encoded = decode_chunked encoded ∧
  (∀ out, decode_chunked encoded = Ok out → len out ≤ len encoded) ∧
  decode_chunked (chunked_body chunks trailer) = Ok (concat (map snd chunks)).
Proof.
  intros Hf Hc. unfold decode_chunked.
  destruct (decode_chunks_total (S (List.length encoded)) [] encoded) as (Hn & Hm & Ho); [lia|].
  split; [done|]. split; [by apply Hm|]. split; [done|]. by apply decode_chunked_chunks.
Qed.
End chunks.

(** A chunk length near the end of [usize] panics: the check for a truncated body
    overflows first. Without overflow checks the slice that follows panics. *)
Definition overflowing_chunk : bytes := ascii_bytes "fffffffffffffffe" ++ CRLF ++ [1].

Lemma chunk_length_overflow (b : Build) : decode_chunked overflowing_chunk = Panic.
Proof.
  destruct b as [? ? ? ? []]; vm_compute; reflexivity.
Qed.

(** ** Messages *)

Definition lower_name (h : list Z * list Z) : list Z * list Z := (to_ascii_lowercase h.1, h.2).

Lemma header_line_text h : header_ok h → header_line (header_text h) = Some (lower_name h).
Proof.
  destruct h as [name value]. intros [Ha Hn Ht Hv]. cbn [fst snd] in *. unfold header_line, header_text.
  cbn [fst snd].
  pose proof (split_once_first 0x3a [] name (0x20 :: value) Hn) as Hs.
  cbn [app] in Hs. cbn [app]. rewrite Hs. cbn [mbind option_bind]. by rewrite Ht, Hv.
Qed.

Lemma parse_headers_text headers :
  Forall header_ok headers → parse_headers (map header_text headers) = map lower_name headers.
Proof.
  unfold parse_headers. induction 1 as [|h l Hh _ IH]; [done|]. cbn. by rewrite header_line_text, IH.
Qed.

(** A line has no line break and is not empty. *)
Definition line_ok (l : list Z) : Prop := Forall (λ c, c ≠ 13) l ∧ l ≠ [].

Lemma join_cons l lines : line_ok l → ∃ c t, c ≠ 13 ∧ join (l :: lines) = c :: t.
Proof.
  intros [Hl Hne]. destruct l as [|c l]; [done|]. apply Forall_cons in Hl as [Hc _].
  destruct lines; eexists c, _; done.
Qed.

(** A line break that a line follows is not the end of the headers. *)
Lemma position_inside c t :
  c ≠ 13 → position (CRLF ++ CRLF) (CRLF ++ c :: t) = (λ n, S (S n)) <$> position (CRLF ++ CRLF) (c :: t).
Proof.
  intros Hc. remember (c :: t) as l eqn:Hl. unfold CRLF. cbn [app position].
  assert (starts_with [13; 10; 13; 10] (13 :: 10 :: l) = false) as ->.
  { subst l. cbn [starts_with]. by rewrite (proj2 (Z.eqb_neq 13 c)) by done. }
  change (starts_with [13; 10; 13; 10] (10 :: l)) with false. by destruct (position _ l).
Qed.

Lemma position_boundary lines body :
  Forall line_ok lines → lines ≠ [] →
  position (CRLF ++ CRLF) (join lines ++ CRLF ++ CRLF ++ body) = Some (List.length (join lines)).
Proof.
  induction 1 as [|l lines [Hl Hne] Hls IH]; [done|]. intros _.
  destruct lines as [|l2 lines]; [apply (position_first 13 [10; 13; 10] l body Hl)|].
  change (join (l :: l2 :: lines)) with (l ++ CRLF ++ join (l2 :: lines)). rewrite <- !app_assoc.
  change (CRLF ++ CRLF) with (13 :: [10; 13; 10]) at 1. rewrite position_skip by done.
  change (13 :: [10; 13; 10]) with (CRLF ++ CRLF).
  specialize (IH ltac:(done)). apply Forall_cons in Hls as [Hl2 _].
  destruct (join_cons l2 lines Hl2) as (c & t & Hc & Hj). rewrite Hj in *.
  change ((c :: t) ++ CRLF ++ CRLF ++ body) with (c :: (t ++ CRLF ++ CRLF ++ body)) in *.
  rewrite position_inside, IH by done. cbn [fmap option_fmap option_map].
  f_equal. rewrite !length_app. cbn [List.length CRLF]. lia.
Qed.

(** The lines of a joined text. *)
Lemma split_join fuel lines :
  Forall line_ok lines → lines ≠ [] → (List.length lines ≤ fuel)%nat →
  split_at fuel CRLF (join lines) = lines.
Proof.
  intros Hls. revert fuel. induction Hls as [|l lines [Hl Hne] Hls IH]; intros fuel Hn Hf; [done|].
  destruct fuel as [|fuel]; [cbn in Hf; lia|]. cbn [split_at].
  destruct lines as [|l2 lines].
  - cbn [join]. unfold split_once, CRLF. by rewrite (position_none 13 [10] l Hl).
  - change (join (l :: l2 :: lines)) with (l ++ CRLF ++ join (l2 :: lines)).
    change (l ++ CRLF ++ join (l2 :: lines)) with (l ++ [13; 10] ++ join (l2 :: lines)).
    unfold CRLF at 1. rewrite (split_once_first 13 [10] l _ Hl). f_equal.
    apply IH; [done|cbn in *; lia].
Qed.

Lemma join_length lines : Forall line_ok lines → (List.length lines ≤ List.length (join lines))%nat.
Proof.
  induction 1 as [|l lines [Hl Hne] Hls IH]; [done|].
  destruct lines as [|l2 lines]; [destruct l; [done|cbn; lia]|].
  change (join (l :: l2 :: lines)) with (l ++ CRLF ++ join (l2 :: lines)).
  rewrite !length_app. cbn [List.length CRLF] in *. lia.
Qed.

Lemma header_line_ok h : header_ok h → line_ok (header_text h).
Proof.
  intros [Ha _ _ _]. split; [eapply Forall_impl; [exact Ha|cbn; lia]|].
  unfold header_text. by destruct h.1.
Qed.

Lemma join_ascii lines :
  Forall (Forall (λ x, 0 ≤ x < 0x80)) lines → Forall (λ x, 0 ≤ x < 0x80) (join lines).
Proof.
  induction 1 as [|l lines Hl Hls IH]; [constructor|].
  destruct lines as [|l2 lines]; [done|]. change (join (l :: l2 :: lines)) with (l ++ CRLF ++ join (l2 :: lines)).
  rewrite !Forall_app. split; [done|]. split; [|done]. repeat constructor; lia.
Qed.

Section messages.
Context `{Build}.

Lemma parse_http_message headers body :
  Forall header_ok headers → parse_http_response (http_message headers body) = http_body (map lower_name headers) body.
Proof.
  intros Hh.
  set (lines := status_line :: map header_text headers).
  assert (Forall line_ok lines) as Hl.
  { constructor; [split; [|done]; by_computation|].
    apply Forall_map. eapply Forall_impl; [exact Hh|apply header_line_ok]. }
  assert (Forall (Forall (λ x, 0 ≤ x < 0x80)) lines) as Ha.
  { constructor; [by_computation|]. apply Forall_map. eapply Forall_impl; [exact Hh|].
    intros h [Ha _ _ _]. eapply Forall_impl; [exact Ha|cbn; lia]. }
  unfold parse_http_response, http_message. fold lines.
  rewrite position_boundary by done. cbn [ok_or mbind outcome_bind].
  rewrite take_app_length, from_utf8_ascii by (by apply ascii_forallb, join_ascii).
  cbn [ok_or mbind outcome_bind]. unfold split.
  rewrite split_join by (done || by apply join_length).
  change (head lines) with (Some status_line). cbn [mbind option_bind].
  change (parse_status status_line) with (Some 200). cbn [ok_or mbind outcome_bind].
  change (tail lines) with (map header_text headers). rewrite parse_headers_text by done.
  assert (drop (List.length (join lines) + 4) (join lines ++ CRLF ++ CRLF ++ body) = body) as ->
    by (rewrite <- drop_drop, drop_app_length; done).
  reflexivity.
Qed.

(** The search for chunked framing and for a length, on the headers as sent. *)
Lemma existsb_chunked headers :
  existsb (λ h, bool_decide (h.1 = ascii_bytes "transfer-encoding")
                && eq_ignore_ascii_case h.2 (ascii_bytes "chunked")) (map lower_name headers) = true
  ↔ Exists chunked_header headers.
Proof.
  rewrite existsb_exists, Exists_exists. unfold chunked_header, same_text, eq_ignore_ascii_case.
  change (to_ascii_lowercase (ascii_bytes "Transfer-Encoding")) with (ascii_bytes "transfer-encoding").
  split.
  - intros (h' & (h & <- & Hin)%in_map_iff & [Hn%bool_decide_eq_true Hv%bool_decide_eq_true]%andb_true_iff).
    exists h. by rewrite list_elem_of_In.
  - intros (h & Hin & Hn & Hv). exists (lower_name h). split; [by apply in_map, list_elem_of_In|].
    apply andb_true_iff. split; by apply bool_decide_eq_true.
Qed.

Lemma find_length before h after :
  Forall (λ h, ¬ length_header h) before → length_header h →
  List.find (λ h, bool_decide (h.1 = ascii_bytes "content-length")) (map lower_name (before ++ h :: after))
  = Some (lower_name h).
Proof.
  unfold length_header, same_text.
  change (to_ascii_lowercase (ascii_bytes "Content-Length")) with (ascii_bytes "content-length").
  intros Hb Hh. induction Hb as [|g l Hg _ IH]; cbn [app map List.find lower_name fst].
  - by rewrite bool_decide_true.
  - by rewrite bool_decide_false.
Qed.

Lemma find_no_length headers :
  Forall (λ h, ¬ length_header h) headers →
  List.find (λ h, bool_decide (h.1 = ascii_bytes "content-length")) (map lower_name headers) = None.
Proof.
  unfold length_header, same_text.
  change (to_ascii_lowercase (ascii_bytes "Content-Length")) with (ascii_bytes "content-length").
  induction 1 as [|g l Hg _ IH]; cbn [map List.find lower_name fst]; [done|]. by rewrite bool_decide_false.
Qed.

(** C26: a response of the connector is read. Take a message with a status line of
    200, any well-formed header lines, in any order and with names in any case, and
    a body. When some header says that the transfer is chunked, a body of chunks is
    read as their concatenation, whatever the other headers say. Otherwise the first
    header that states a length decides: the body is read as it is when it has that
    length, and refused with both lengths in the error when it does not. Without any
    of them the body is read as it is. *)
Theorem http_responses_are_read (headers : list (list Z * list Z)) :
  Forall header_ok headers →
  (∀ chunks trailer, Exists chunked_header headers → Forall chunk_ok chunks →
     parse_http_response (http_message headers (chunked_body chunks trailer))
     = Ok (concat (map snd chunks))) ∧
  (∀ before name n after body, Forall (λ h, ¬ chunked_header h) headers →
     headers = before ++ (name, decimal_digits n) :: after → Forall (λ h, ¬ length_header h) before →
     same_text name (ascii_bytes "Content-Length") → 0 ≤ n < usize_limit →
     parse_http_response (http_message headers body)
     = (if n =? len body then Ok body
        else Err (transport_error ("connector response body was " +:+ decimal (len body)
                  +:+ " bytes, expected " +:+ decimal n)))) ∧
  (∀ body, Forall (λ h, ¬ chunked_header h) headers → Forall (λ h, ¬ length_header h) headers →
     parse_http_response (http_message headers body) = Ok body).
Proof.
  intros Hh. assert (∀ body, Forall (λ h, ¬ chunked_header h) headers →
    http_body (map lower_name headers) body =
    match List.find (λ h, bool_decide (h.1 = ascii_bytes "content-length")) (map lower_name headers) with
    | Some (_, value) =>
        expected ← ok_or (from_str_radix 10 usize_limit value)
                     (transport_error "connector returned invalid Content-Length");
        _ ← reject_if (negb (expected =? len body))
              (transport_error ("connector response body was " +:+ decimal (len body)
                 +:+ " bytes, expected " +:+ decimal expected));
        Ok body
    | None => Ok body
    end) as Hplain.
  { intros body Hno. unfold http_body. destruct (existsb _ _) eqn:He; [|done].
    apply existsb_chunked, Exists_exists in He as (h & Hin & Hc).
    rewrite Forall_forall in Hno. by destruct (Hno h Hin). }
  split; [|split].
  - intros chunks trailer Hex%existsb_chunked Hc. rewrite parse_http_message by done.
    unfold http_body. rewrite Hex. by apply decode_chunked_chunks.
  - intros before name n after body Hno -> Hb Hname Hn. rewrite parse_http_message, Hplain by done.
    rewrite find_length by done. unfold decimal_digits. cbn [lower_name fst snd].
    rewrite decode_digits by (unfold usize_limit in *; lia).
    cbn [ok_or mbind outcome_bind]. by destruct (n =? len body).
  - intros body Hno Hnone. by rewrite parse_http_message, Hplain, find_no_length.
Qed.
End messages.

(** ** Witnesses *)

#[local] Existing Instance default_build.

Definition example_chunks : list (bytes * bytes) := [([], [1; 2; 3]); (ascii_bytes ";x=1", zeros 17)].

Lemma example_chunks_ok : Forall chunk_ok example_chunks.
Proof.
  apply Forall_cons. split; [|apply Forall_singleton].
  - split; [by left|]. by_computation.
  - split; [right; by eexists|]. by_computation.
Qed.

Lemma chunked_decoding_ends_witness :
  decode_chunked (chunked_body example_chunks [13; 10]) = Ok ([1; 2; 3] ++ zeros 17).
Proof.
  destruct (chunked_decoding_ends [] 1 example_chunks [13; 10]) as (_ & _ & _ & H).
  - apply Nat.ltb_lt. reflexivity.
  - apply example_chunks_ok.
  - exact H.
Defined.

(** A length after another header, and chunks after a length. *)
Definition length_headers : list (list Z * list Z) :=
  [(ascii_bytes "Server", ascii_bytes "connector"); (ascii_bytes "Content-Length", decimal_digits 3)].
Definition chunked_headers : list (list Z * list Z) :=
  length_headers ++ [(ascii_bytes "Transfer-Encoding", ascii_bytes "chunked")].

Lemma chunked_headers_ok : Forall header_ok chunked_headers.
Proof. repeat (constructor; [split; [by_computation..|vm_compute; reflexivity|vm_compute; reflexivity]|]). constructor. Qed.

Lemma http_responses_are_read_witness :
  parse_http_response (http_message length_headers [7; 8; 9]) = Ok [7; 8; 9] ∧
  parse_http_response (http_message chunked_headers (chunked_body example_chunks []))
  = Ok ([1; 2; 3] ++ zeros 17).
Proof.
  pose proof chunked_headers_ok as Hok. split.
  - apply Forall_app in Hok as [Hok _].
    destruct (http_responses_are_read length_headers Hok) as (_ & H & _).
    apply (H [(ascii_bytes "Server", ascii_bytes "connector")] (ascii_bytes "Content-Length") 3 []).
    + repeat constructor; intros [Hx _]; by vm_compute in Hx.
    + reflexivity.
    + repeat constructor; intros Hx; by vm_compute in Hx.
    + reflexivity.
    + by_computation.
  - destruct (http_responses_are_read chunked_headers Hok) as (H & _).
    apply H; [|apply example_chunks_ok]. do 2 apply Exists_cons_tl. apply Exists_cons_hd. by split.
Defined.
