(* ===== verification/I2c.v ===== *)
(** * The I2C front end (crates/virtual-yubihsm-i2c/src/recovery.rs, linux.rs)

    The front end reads requests from the target driver, answers its own recovery
    frames, and hands everything else to the durable device. The driver, the file
    system and the signals are operations of the environment; the loop runs for a
    number of rounds. *)

From S2P Require Import Prelude Error Io Frame Firmware Algorithm Capability Protocol KeyCore.
From S2P Require Import Wire Objects Authorization SessionObjects Requests SecureChannel.
From S2P Require Import DeviceState ObjectStore ObjectCommands KeyUse Wrapping Attestation.
From S2P Require Import SessionObjectCommands Dispatch Sessions Persistence.

(** ** Recovery frames *)

Definition PREFIX : bytes := [0; 0; 0x0d] ++ ascii_bytes "BSCRECOV" ++ [1].

Definition response (request : bytes) : option bytes :=
  if negb (len request =? len PREFIX + 4) || negb (starts_with PREFIX request) then None
  else Some (<[0%nat := 0x80]> request).

(** ** The environment *)

Definition POLLIN : Z := 1.
Definition POLLERR : Z := 8.
Definition POLLHUP : Z := 16.
Definition POLLNVAL : Z := 32.
Definition O_NONBLOCK : Z := 0x800.
Definition O_ACCMODE : Z := 3.
Definition O_RDWR : Z := 2.
Definition FD_CLOEXEC : Z := 1.

(** The driver of the target, descriptor 3 of the launcher, the metadata of a
    directory (is it one, and its mode) and the signal handlers. A poll that is
    interrupted is an error of that kind. *)
Class I2cSystem `{Platform} := {
  stop_requested : World → bool * World;
  target_read : Z → World → (bytes + IoError) * World;
  target_write : bytes → World → (Z + IoError) * World;
  target_poll : World → (Z + IoError) * World;
  ioctl_recover : World → option IoError * World;
  ioctl_get_info : World → (list Z + IoError) * World;
  open_device : string → World → option IoError * World;
  inherited_getfl : World → (Z + IoError) * World;
  inherited_setfd : Z → World → option IoError * World;
  inherited_setfl : Z → World → option IoError * World;
  fs_metadata : string → World → ((bool * Z) + IoError) * World;
  install_handler_sigint : World → option IoError * World;
  install_handler_sigterm : World → option IoError * World;
}.

(** The options of the command line; the persistence mode is the state writer's. *)
Inductive PersistenceOption : Set := Batched | Immediate.

#[export] Instance PersistenceOption_eq_dec : EqDecision PersistenceOption.
Proof. solve_decision. Defined.

Record Options : Set := mkI2cOptions {
  option_serial : Z;
  state_directory : string;
  device_path : string;
  inherited_device : bool;
  persistence : PersistenceOption;
}.

Definition with_context (error : IoError) (context : string) : IoError :=
  mkIoError (io_kind error) (context +:+ ": " +:+ io_message error).

(** [map_err] of a computation. *)
Definition map_io_err {W A} (f : IoError → IoError) (m : Eff W IoError A) : Eff W IoError A := λ w,
  let '(r, w) := m w in (match r with Err e => Err (f e) | r => r end, w).

Section i2c.
Context `{Build} `{HX : X509} `{Der} `{Fuel} `{!StateWriter} `{!I2cSystem}.

(** ** The driver *)

Fixpoint queue_response (rounds : nat) (response : bytes) : Eff World IoError unit :=
  match rounds with
  | O => lift Diverge
  | S rounds =>
      result ← attempt (io_call (target_write response));
      match result with
      | Ok length =>
          lift (reject_if (negb (length =? len response)) (mkIoError WriteZero "short I2C response write"))
      | Err error =>
          if bool_decide (io_kind error = Interrupted) then queue_response rounds response
          else fail (with_context error "queue I2C response")
      | _ => lift Panic
      end
  end.

Definition wait_for_descriptor : Eff World IoError unit :=
  result ← attempt (io_call target_poll);
  match result with
  | Ok revents =>
      lift (reject_if (negb (Z.land revents (Z.lor POLLERR (Z.lor POLLHUP POLLNVAL)) =? 0))
              (mkIoError OtherKind ("I2C target reported poll events 0x" +:+ hex_word revents)))
  | Err error => if bool_decide (io_kind error = Interrupted) then mret tt else fail error
  | _ => lift Panic
  end.

Definition validate_target_info (info : list Z) : IoResult unit :=
  info0 ← index info 0; info3 ← index info 3; info5 ← index info 5; info6 ← index info 6;
  _ ← reject_if (negb (info0 =? 3) || negb (info5 =? 1) || (Z.land info6 1 =? 0))
        (mkIoError OtherKind
           "I2C target requires driver ABI 3 with READY and explicit recovery support");
  reject_if (info3 <? MAX_FRAME_LENGTH)
    (mkIoError OtherKind ("I2C target supports " +:+ decimal info3 +:+ "-byte transfers; at least "
       +:+ decimal MAX_FRAME_LENGTH +:+ " bytes are required")).

Definition validate_target : Eff World IoError unit :=
  info ← map_io_err (λ e, with_context e "query I2C target ABI") (io_call ioctl_get_info);
  lift (validate_target_info info).

Definition open_target (options : Options) : Eff World IoError unit :=
  if negb (inherited_device options) then
    map_io_err (λ e, with_path e "open I2C target" (device_path options))
      (io_check (open_device (device_path options)))
  else
    flags ← map_io_err (λ e, with_context e "inherit I2C target on FD 3") (io_call inherited_getfl);
    _ ← lift (reject_if (negb (Z.land flags O_ACCMODE =? O_RDWR))
                (mkIoError PermissionDenied "FD 3 must be read/write"));
    _ ← io_check (inherited_setfd FD_CLOEXEC);
    io_check (inherited_setfl (Z.lor flags O_NONBLOCK)).

(** [{:04o}] of a mode. *)
Definition octal_mode (mode : Z) : string :=
  text (map (λ shift, 0x30 + Z.land (Z.shiftr mode shift) 7) [9; 6; 3; 0]).

Definition validate_state_directory (path : string) : Eff World IoError unit :=
  '(is_dir, mode) ← map_io_err (λ e, with_path e "inspect state directory" path)
                      (io_call (fs_metadata path));
  _ ← lift (reject_if (negb is_dir)
              (mkIoError InvalidInput ("state path " +:+ path +:+ " is not a directory")));
  let mode := Z.land mode 0x1ff in
  lift (reject_if (negb (Z.land mode 0x3f =? 0))
          (mkIoError PermissionDenied ("state directory " +:+ path +:+ " has mode " +:+ octal_mode mode
             +:+ "; remove all group and other permissions"))).

Definition install_signal_handlers : Eff World IoError unit :=
  _ ← io_check install_handler_sigint; io_check install_handler_sigterm.

(** ** The loop *)

(** One request that was read. A recovery frame clears the transmit state of the
    driver and is echoed; a newer request supersedes it. *)
Definition answer_request (request : bytes) : Eff (Device * World) IoError unit :=
  match response request with
  | Some response =>
      recovered ← attempt (on_world (io_check ioctl_recover));
      match recovered with
      | Ok _ => on_world (queue_response fuel response)
      | Err error =>
          if bool_decide (io_kind error = WouldBlock) then mret tt
          else fail (with_context error "recover I2C transmit state")
      | _ => lift Panic
      end
  | None =>
      response ← execute request;
      on_world (queue_response fuel response)
  end.

(** One round of [serve]: [false] when a signal asked to stop. *)
Definition serve_round : Eff (Device * World) IoError bool :=
  stop ← on_world (λ w, let '(b, w) := stop_requested w in (Ok b, w));
  if stop : bool then mret false
  else
    result ← attempt (on_world (io_call (target_read MAX_FRAME_LENGTH)));
    match result with
    | Ok [] => mret true
    | Ok request => _ ← answer_request request; mret true
    | Err error =>
        match io_kind error with
        | WouldBlock => _ ← on_world wait_for_descriptor; mret true
        | Interrupted => mret true
        | _ => fail (with_context error "read I2C request")
        end
    | _ => lift Panic
    end.

Fixpoint serve (rounds : nat) : Eff (Device * World) IoError unit :=
  match rounds with
  | O => lift Diverge
  | S rounds => goes_on ← serve_round; if goes_on : bool then serve rounds else mret tt
  end.

Context `{!StateCodec} `{!StateRuntime}.

(** [linux::run]; when it fails after the device is open the lock is released. *)
Definition serve_open (device : Device) : Eff World IoError unit := λ w,
  let '(result, (_, w)) := serve fuel (device, w) in
  let '(persistence_result, w) := shutdown w in
  (match result with Ok _ => persistence_result | _ => result end, w).

Definition run (options : Options) : Eff World IoError unit :=
  _ ← open_target options;
  _ ← install_signal_handlers;
  _ ← validate_state_directory (state_directory options);
  _ ← validate_target;
  device ← open (config_with_serial (option_serial options)) (state_directory options);
  serve_open device.
End i2c.
