(* ===== verification/Arguments.v ===== *)
(** * The command lines (src/main.rs, crates/virtual-yubihsm-i2c/src/main.rs)

    The options of the USB worker and of the I2C front end. The arguments are
    consumed one by one; an option that needs a value consumes the next one. *)

From S2P Require Import Prelude Io KeyCore Display I2c.

Definition invalid_input {A} (message : string) : IoResult A := Err (mkIoError InvalidInput message).

(** [str::parse::<u32>]. *)
Definition parse_u32 (value : string) : option Z := from_str_radix 10 (2 ^ 32) (ascii_bytes value).

Definition parse_persistence (value : string) : IoResult PersistenceOption :=
  if bool_decide (value = "batched"%string) then Ok Batched
  else if bool_decide (value = "immediate"%string) then Ok Immediate
  else invalid_input ("invalid persistence mode " +:+ debug value +:+ "; use batched or immediate").

(** ** The USB worker *)

Module WorkerLine.
Record Options : Set := mkOptions { serial : Z; display : DisplayKind; persistence : PersistenceOption }.

Definition parse_display (value : string) : IoResult DisplayKind :=
  if bool_decide (value = "st7789-spi"%string) then Ok St7789Spi
  else if bool_decide (value = "sh1106-spi"%string) then Ok Sh1106Spi
  else if bool_decide (value = "sh1106-i2c"%string) then Ok Sh1106I2c
  else invalid_input ("invalid display " +:+ debug value +:+ "; use st7789-spi, sh1106-spi, or sh1106-i2c").

Definition set_serial (z : Z) (o : Options) : Options := mkOptions z (display o) (persistence o).
Definition set_display (d : DisplayKind) (o : Options) : Options := mkOptions (serial o) d (persistence o).
Definition set_persistence (p : PersistenceOption) (o : Options) : Options := mkOptions (serial o) (display o) p.

Definition defaults : Options := mkOptions 12345678 St7789Spi Batched.

(** The loop over the arguments; [None] when the help was asked for. *)
Fixpoint parse_from (o : Options) (arguments : list string) : IoResult (option Options) :=
  match arguments with
  | [] => Ok (Some o)
  | argument :: rest =>
      if bool_decide (argument = "-h"%string) || bool_decide (argument = "--help"%string) then Ok None
      else if bool_decide (argument = "--serial"%string) then
        match rest with
        | [] => invalid_input "--serial needs a value"
        | value :: rest =>
            serial ← ok_or (parse_u32 value) (mkIoError InvalidInput "invalid decimal serial number");
            if serial =? 0 then invalid_input "serial number must be nonzero"
            else parse_from (set_serial serial o) rest
        end
      else if bool_decide (argument = "--display"%string) then
        match rest with
        | [] => invalid_input "--display needs a value"
        | value :: rest => display ← parse_display value; parse_from (set_display display o) rest
        end
      else if bool_decide (argument = "--persistence"%string) then
        match rest with
        | [] => invalid_input "--persistence needs a value"
        | value :: rest =>
            persistence ← parse_persistence value; parse_from (set_persistence persistence o) rest
        end
      else
        match strip_prefix "--display=" argument, strip_prefix "--persistence=" argument with
        | Some value, _ => display ← parse_display value; parse_from (set_display display o) rest
        | None, Some value =>
            persistence ← parse_persistence value; parse_from (set_persistence persistence o) rest
        | None, None => invalid_input ("unknown argument " +:+ argument)
        end
  end.

Definition parse_arguments (arguments : list string) : IoResult (option Options) :=
  parse_from defaults arguments.
End WorkerLine.

(** ** The I2C front end *)

Module FrontendLine.
(** The variables of the loop. *)
Record Parsed : Set := mkParsed {
  serial : option Z;
  state_directory : option string;
  device : string;
  persistence : PersistenceOption;
  inherited_device : bool;
  explicit_device : bool;
}.

Definition initial : Parsed := mkParsed None None "/dev/bsc-target0" Batched false false.

Definition set_serial z p :=
  mkParsed (Some z) (state_directory p) (device p) (persistence p) (inherited_device p) (explicit_device p).
Definition set_state_directory d p :=
  mkParsed (serial p) (Some d) (device p) (persistence p) (inherited_device p) (explicit_device p).
Definition set_device d p :=
  mkParsed (serial p) (state_directory p) d (persistence p) (inherited_device p) true.
Definition set_persistence m p :=
  mkParsed (serial p) (state_directory p) (device p) m (inherited_device p) (explicit_device p).
Definition set_inherited p :=
  mkParsed (serial p) (state_directory p) (device p) (persistence p) true (explicit_device p).

Fixpoint parse_from (p : Parsed) (arguments : list string) : IoResult (option Parsed) :=
  match arguments with
  | [] => Ok (Some p)
  | argument :: rest =>
      if bool_decide (argument = "-h"%string) || bool_decide (argument = "--help"%string) then Ok None
      else if bool_decide (argument = "--serial"%string) then
        match rest with
        | [] => invalid_input "--serial needs a value"
        | value :: rest =>
            parsed ← ok_or (parse_u32 value) (mkIoError InvalidInput "invalid decimal serial number");
            if parsed =? 0 then invalid_input "serial number must be nonzero"
            else parse_from (set_serial parsed p) rest
        end
      else if bool_decide (argument = "--state-directory"%string) then
        match rest with
        | [] => invalid_input "--state-directory needs a value"
        | value :: rest => parse_from (set_state_directory value p) rest
        end
      else if bool_decide (argument = "--inherited-device"%string) then parse_from (set_inherited p) rest
      else if bool_decide (argument = "--device"%string) then
        match rest with
        | [] => invalid_input "--device needs a value"
        | value :: rest => parse_from (set_device value p) rest
        end
      else if bool_decide (argument = "--persistence"%string) then
        match rest with
        | [] => invalid_input "--persistence needs a value"
        | value :: rest => mode ← parse_persistence value; parse_from (set_persistence mode p) rest
        end
      else
        match strip_prefix "--persistence=" argument with
        | Some value => mode ← parse_persistence value; parse_from (set_persistence mode p) rest
        | None => invalid_input ("unknown argument " +:+ argument)
        end
  end.

(** The checks after the loop. *)
Definition finish (p : Parsed) : IoResult Options :=
  serial ← ok_or (serial p) (mkIoError InvalidInput "--serial is required");
  directory ← ok_or (state_directory p) (mkIoError InvalidInput "--state-directory is required");
  _ ← reject_if (negb (is_absolute directory))
        (mkIoError InvalidInput "--state-directory must be an absolute path");
  _ ← reject_if (inherited_device p && explicit_device p)
        (mkIoError InvalidInput "--device and --inherited-device are mutually exclusive");
  _ ← reject_if (negb (is_absolute (device p)))
        (mkIoError InvalidInput "--device must be an absolute path");
  Ok (mkI2cOptions serial directory (device p) (inherited_device p) (persistence p)).

Definition parse_arguments (arguments : list string) : IoResult (option Options) :=
  parsed ← parse_from initial arguments;
  match parsed with
  | None => Ok None
  | Some p => Some <$> finish p
  end.
End FrontendLine.

(** ** Specification: what a command line can ask for *)

Definition serial_ok (z : Z) : Prop := 0 < z < 2 ^ 32.

Record frontend_ok (o : I2c.Options) : Prop := {
  frontend_serial : serial_ok (option_serial o);
  frontend_directory : is_absolute (I2c.state_directory o) = true;
  frontend_device : is_absolute (device_path o) = true;
  frontend_inherited : I2c.inherited_device o = true → device_path o = "/dev/bsc-target0"%string;
}.

Definition render_persistence (p : PersistenceOption) : string :=
  match p with Batched => "batched" | Immediate => "immediate" end.
Definition render_display (d : DisplayKind) : string :=
  match d with St7789Spi => "st7789-spi" | Sh1106Spi => "sh1106-spi" | Sh1106I2c => "sh1106-i2c" end.

Definition render_frontend (o : I2c.Options) : list string :=
  ["--serial"; decimal (option_serial o); "--state-directory"; I2c.state_directory o;
   "--persistence"; render_persistence (I2c.persistence o)]%string
  ++ (if I2c.inherited_device o then ["--inherited-device"]
      else ["--device"; device_path o])%string.

Definition render_worker (o : WorkerLine.Options) : list string :=
  ["--serial"; decimal (WorkerLine.serial o); "--display"; render_display (WorkerLine.display o);
   "--persistence"; render_persistence (WorkerLine.persistence o)]%string.

(** ** Lemmas *)

Lemma ascii_bytes_text l : Forall (λ c, 0 ≤ c < 256) l → ascii_bytes (text l) = l.
Proof.
  intros Hl. unfold ascii_bytes, text. rewrite String.list_ascii_of_string_of_list_ascii, map_map.
  induction Hl as [|c l Hc _ IH]; [done|]. cbn [map]. rewrite IH, Ascii.nat_ascii_embedding by lia.
  f_equal. lia.
Qed.

Lemma parse_u32_decimal z : 0 ≤ z < 2 ^ 32 → parse_u32 (decimal z) = Some z.
Proof.
  intros Hz. unfold parse_u32, decimal, decimal_digits. rewrite ascii_bytes_text.
  - apply decode_digits; lia.
  - eapply Forall_impl; [apply digits_ascii; lia|]. cbn. lia.
Qed.

Lemma parse_u32_bound s z : parse_u32 s = Some z → 0 ≤ z < 2 ^ 32.
Proof. apply from_str_radix_bound; lia. Qed.

Lemma parse_persistence_render p : parse_persistence (render_persistence p) = Ok p.
Proof. by destruct p. Qed.

Lemma parse_display_render d : WorkerLine.parse_display (render_display d) = Ok d.
Proof. by destruct d. Qed.

(** The state of the front end's loop: the serial number is valid, and the device
    is the default one until it is named. *)
Definition parsed_ok (p : FrontendLine.Parsed) : Prop :=
  (∀ z, FrontendLine.serial p = Some z → serial_ok z) ∧
  (FrontendLine.explicit_device p = false → FrontendLine.device p = "/dev/bsc-target0"%string).

Lemma frontend_parsed_ok n arguments p q :
  (List.length arguments ≤ n)%nat → parsed_ok p →
  FrontendLine.parse_from p arguments = Ok (Some q) → parsed_ok q.
Proof.
  revert arguments p. induction n as [|n IH]; intros [|argument rest] p Hn Hp Hq;
    cbn [List.length] in Hn; try lia; try (injection Hq as <-; exact Hp).
  cbn [FrontendLine.parse_from] in Hq.
  destruct (_ || _); [done|].
  destruct (bool_decide _); [|destruct (bool_decide _); [|destruct (bool_decide _);
    [|destruct (bool_decide _); [|destruct (bool_decide _)]]]].
  - destruct rest as [|value rest]; [done|]. inv_ok.
    destruct (_ =? 0) eqn:Hz; [done|]. eapply IH; [| |eassumption]; [cbn in Hn; lia|].
    split; [|apply Hp]. intros z [= <-]. bool_prop.
    match goal with Hu : parse_u32 _ = Some _ |- _ => apply parse_u32_bound in Hu end. unfold serial_ok. lia.
  - destruct rest as [|value rest]; [done|]. eapply IH; [| |eassumption]; [cbn in Hn; lia|apply Hp].
  - eapply IH; [| |eassumption]; [lia|apply Hp].
  - destruct rest as [|value rest]; [done|]. eapply IH; [| |eassumption]; [cbn in Hn; lia|].
    split; [apply Hp|done].
  - destruct rest as [|value rest]; [done|]. inv_ok. eapply IH; [| |eassumption]; [cbn in Hn; lia|apply Hp].
  - destruct (strip_prefix _ _); [|done]. inv_ok. eapply IH; [| |eassumption]; [lia|apply Hp].
Qed.

Lemma worker_parsed_ok n arguments o q :
  (List.length arguments ≤ n)%nat → serial_ok (WorkerLine.serial o) →
  WorkerLine.parse_from o arguments = Ok (Some q) → serial_ok (WorkerLine.serial q).
Proof.
  revert arguments o. induction n as [|n IH]; intros [|argument rest] o Hn Hp Hq;
    cbn [List.length] in Hn; try lia; try (injection Hq as <-; exact Hp).
  cbn [WorkerLine.parse_from] in Hq.
  destruct (_ || _); [done|].
  destruct (bool_decide _); [|destruct (bool_decide _); [|destruct (bool_decide _)]].
  - destruct rest as [|value rest]; [done|]. inv_ok.
    destruct (_ =? 0) eqn:Hz; [done|]. eapply IH; [| |eassumption]; [cbn in Hn; lia|].
    bool_prop. match goal with Hu : parse_u32 _ = Some _ |- _ => apply parse_u32_bound in Hu end.
    unfold serial_ok. cbn. lia.
  - destruct rest as [|value rest]; [done|]. inv_ok. eapply IH; [| |eassumption]; [cbn in Hn; lia|apply Hp].
  - destruct rest as [|value rest]; [done|]. inv_ok. eapply IH; [| |eassumption]; [cbn in Hn; lia|apply Hp].
  - destruct (strip_prefix _ _); [|destruct (strip_prefix _ _); [|done]]; inv_ok;
      (eapply IH; [| |eassumption]; [lia|apply Hp]).
Qed.

(** One option of a rendered command line at a time. *)
Lemma frontend_serial_step p z rest :
  serial_ok z →
  FrontendLine.parse_from p ("--serial"%string :: decimal z :: rest) = FrontendLine.parse_from (FrontendLine.set_serial z p) rest.
Proof.
  unfold serial_ok. intros Hz. transitivity
    (parsed ← ok_or (parse_u32 (decimal z)) (mkIoError InvalidInput "invalid decimal serial number");
     if parsed =? 0 then invalid_input "serial number must be nonzero"
     else FrontendLine.parse_from (FrontendLine.set_serial parsed p) rest); [reflexivity|].
  rewrite parse_u32_decimal by lia. cbn [ok_or mbind outcome_bind].
  by rewrite (proj2 (Z.eqb_neq z 0)) by lia.
Qed.

Lemma frontend_persistence_step p m rest :
  FrontendLine.parse_from p ("--persistence"%string :: render_persistence m :: rest)
  = FrontendLine.parse_from (FrontendLine.set_persistence m p) rest.
Proof. by destruct m. Qed.

Lemma worker_serial_step o z rest :
  serial_ok z →
  WorkerLine.parse_from o ("--serial"%string :: decimal z :: rest) = WorkerLine.parse_from (WorkerLine.set_serial z o) rest.
Proof.
  unfold serial_ok. intros Hz. transitivity
    (parsed ← ok_or (parse_u32 (decimal z)) (mkIoError InvalidInput "invalid decimal serial number");
     if parsed =? 0 then invalid_input "serial number must be nonzero"
     else WorkerLine.parse_from (WorkerLine.set_serial parsed o) rest); [reflexivity|].
  rewrite parse_u32_decimal by lia. cbn [ok_or mbind outcome_bind].
  by rewrite (proj2 (Z.eqb_neq z 0)) by lia.
Qed.
Lemma parse_render_frontend o :
  frontend_ok o → FrontendLine.parse_arguments (render_frontend o) = Ok (Some o).
Proof.
  intros [Hs Hd Hv Hi]. destruct o as [z directory dev inherited mode]. cbn in Hs, Hd, Hv, Hi.
  unfold FrontendLine.parse_arguments, render_frontend. cbn [option_serial I2c.state_directory
    I2c.persistence I2c.inherited_device device_path app].
  rewrite frontend_serial_step by done.
  change (FrontendLine.parse_from ?p ("--state-directory"%string :: ?d :: ?rest))
    with (FrontendLine.parse_from (FrontendLine.set_state_directory d p) rest).
  rewrite frontend_persistence_step. destruct inherited.
  - specialize (Hi eq_refl) as ->. change (FrontendLine.parse_from ?p ["--inherited-device"%string])
      with (@Ok IoError _ (Some (FrontendLine.set_inherited p))).
    cbn -[is_absolute]. by rewrite Hd.
  - change (FrontendLine.parse_from ?p ["--device"%string; dev])
      with (@Ok IoError _ (Some (FrontendLine.set_device dev p))).
    cbn -[is_absolute]. by rewrite Hd, Hv.
Qed.

Lemma parse_render_worker w :
  serial_ok (WorkerLine.serial w) → WorkerLine.parse_arguments (render_worker w) = Ok (Some w).
Proof.
  intros Hs. destruct w as [z d m]. cbn in Hs. unfold WorkerLine.parse_arguments, render_worker.
  cbn [WorkerLine.serial WorkerLine.display WorkerLine.persistence].
  rewrite worker_serial_step by done. by destruct d, m.
Qed.

(** ** Property *)

(** C29: what the command lines accept. A front end's options are those of some
    command line exactly when the serial number is a nonzero 32-bit number, the
    state directory and the device are absolute paths, and an inherited device is
    not named as well; the worker's, when the serial number is. And rendering such
    options gives a command line that is parsed to them. *)
Theorem command_lines_accepted (o : I2c.Options) (w : WorkerLine.Options) :
  ((∃ arguments, FrontendLine.parse_arguments arguments = Ok (Some o)) ↔ frontend_ok o) ∧
  ((∃ arguments, WorkerLine.parse_arguments arguments = Ok (Some w)) ↔ serial_ok (WorkerLine.serial w)) ∧
  (frontend_ok o → FrontendLine.parse_arguments (render_frontend o) = Ok (Some o)) ∧
  (serial_ok (WorkerLine.serial w) → WorkerLine.parse_arguments (render_worker w) = Ok (Some w)).
Proof.
  split; [|split; [|split; [apply parse_render_frontend|apply parse_render_worker]]].
  - split; [|intros Ho; eexists; by apply parse_render_frontend]. intros (arguments & Hp).
    unfold FrontendLine.parse_arguments in Hp.
    destruct (FrontendLine.parse_from _ _) as [[p|]|e| |] eqn:Hq; try done.
    apply (frontend_parsed_ok (List.length arguments)) in Hq as [Hz He]; [|done|by split].
    cbn [mbind outcome_bind] in Hp. destruct (FrontendLine.finish p) as [o'|e| |] eqn:Hfin; try done.
    injection Hp as ->. unfold FrontendLine.finish in Hfin. inv_ok. subst. bool_prop.
    split; cbn; [by apply Hz|done|done|]. intros Hi. apply He.
    match goal with H : _ && _ = false |- _ => rewrite Hi in H; exact H end.
  - split; [|intros Ho; eexists; by apply parse_render_worker]. intros (arguments & Hp).
    by apply (worker_parsed_ok (List.length arguments)) in Hp.
Qed.

(** Without a hypothesis: the witness evaluates both directions. *)
Lemma command_lines_accepted_witness :
  FrontendLine.parse_arguments
    (render_frontend (mkI2cOptions 42 "/var/lib/one" "/dev/bsc-target0" true Immediate))
  = Ok (Some (mkI2cOptions 42 "/var/lib/one" "/dev/bsc-target0" true Immediate)).
Proof.
  apply (command_lines_accepted _ WorkerLine.defaults). by split.
Defined.
