(* ===== verification/FrontEnds.v ===== *)
(** * What the front ends do to the device

    The I2C front end of [I2c] and the endpoint thread of [Worker] are loops over
    an environment that may do anything. Whatever it does, the device only changes
    by the frames that were read, each once, in order and directly after its read,
    so its invariant is kept; and the recovery frames of the I2C front end never
    reach it. *)

From S2P Require Import Prelude Error Io Frame Firmware Algorithm Capability Protocol KeyCore.
From S2P Require Import Wire Objects Authorization SessionObjects Requests SecureChannel.
From S2P Require Import DeviceState ObjectStore ObjectCommands KeyUse Wrapping Attestation.
From S2P Require Import SessionObjectCommands Dispatch CommandEffects StoreProperties DeviceInvariant.
From S2P Require Import Sessions Persistence SessionSteps SessionProperties.
From S2P Require Import WorkerProtocol Display UsbIdentity Worker I2c.

Section front_ends.
Context `{Build} `{HX : X509} `{Der} `{HF : Fuel} `{!StateWriter}.

(** ** Specification: what a front end may do

    A front end has a way to read, frames that it keeps for itself, an observer of
    the commands and operations of its environment that are not reads. *)
Section specification.
Context (read_next : World → (bytes + IoError) * World) (own : bytes → Prop)
        (o : SessionAuthorization → Frame → Frame → World → World) (env : World → World → Prop).

(** The state writer is healthy and the lock of the device is not poisoned; or not. *)
Definition admits (w w' : World) : Prop :=
  ∃ w1, check_health w = (None, w1) ∧ lock_poisoned w1 = (false, w').

Definition refuses (w w' : World) : Prop :=
  (∃ e, check_health w = (Some e, w')) ∨
  (∃ w1, check_health w = (None, w1) ∧ lock_poisoned w1 = (true, w')).

(** The operations of the state writer that follow a frame. *)
Inductive writer_step (w : World) : World → Prop :=
| writer_health : writer_step w (check_health w).2
| writer_record : writer_step w (record_mutation w).2
| writer_wait m : writer_step w (wait_mutation m w).2.

(** A frame is handled, and its persistent change is collected. *)
Definition handled (request : bytes) (s : Device * World) : Device * World :=
  match handle_encoded_observing o request s with
  | (Ok _, s1) => (take_persistent_change s1).2
  | (_, s1) => s1
  end.

(** One step, with the frame that it gives to the device. The device only moves
    when a frame was read in the same step; that frame is not kept back, nor is
    one kept back that is for the device, unless the state writer refuses it. *)
Inductive front_step : Device * World → list bytes → Device * World → Prop :=
| step_request d w request w1 w2 :
    read_next w = (inl request, w1) → request ≠ [] → ¬ own request → admits w1 w2 →
    front_step (d, w) [request] (handled request (d, w2))
| step_refused d w request w1 w2 :
    read_next w = (inl request, w1) → refuses w1 w2 → front_step (d, w) [] (d, w2)
| step_own d w request w1 :
    read_next w = (inl request, w1) → request = [] ∨ own request → front_step (d, w) [] (d, w1)
| step_no_frame d w e w1 :
    read_next w = (inr e, w1) → front_step (d, w) [] (d, w1)
| step_writer d w w' : writer_step w w' → front_step (d, w) [] (d, w')
| step_env d w w' : env w w' → front_step (d, w) [] (d, w').

(** Any number of steps, with the frames given to the device in their order. *)
Inductive front_steps (s : Device * World) : list bytes → Device * World → Prop :=
| steps_none : front_steps s [] s
| steps_more fs s1 f s2 : front_steps s fs s1 → front_step s1 f s2 → front_steps s (fs ++ f) s2.

Lemma front_steps_trans s1 f1 s2 f2 s3 :
  front_steps s1 f1 s2 → front_steps s2 f2 s3 → front_steps s1 (f1 ++ f2) s3.
Proof.
  intros Hs1 Hs2. induction Hs2 as [|f2 s f s' _ IH Hs]; [by rewrite app_nil_r|].
  rewrite app_assoc. by eapply steps_more.
Qed.

Lemma front_steps_once s f s' : front_step s f s' → front_steps s f s'.
Proof. intros Hs. rewrite <- (app_nil_l f). eapply steps_more; [apply steps_none|done]. Qed.

(** A computation that only makes such steps, whatever its outcome. *)
Definition steps {A} (m : Eff (Device * World) IoError A) : Prop :=
  ∀ s, ∃ requests, front_steps s requests (m s).2.

Lemma steps_bind {A B} (m : Eff _ IoError A) (f : A → Eff _ IoError B) :
  steps m → (∀ a, steps (f a)) → steps (m ≫= f).
Proof.
  intros Hm Hf s. destruct (Hm s) as [r1 Hr1]. unfold mbind, eff_bind.
  destruct (m s) as [[a|e| |] s1]; try by exists r1.
  destruct (Hf a s1) as [r2 Hr2]. eexists. by eapply front_steps_trans.
Qed.

Lemma steps_still {A} (m : Eff _ IoError A) : (∀ s, (m s).2 = s) → steps m.
Proof. intros Hm s. rewrite Hm. exists []. apply steps_none. Qed.

Lemma steps_ret {A} (a : A) : steps (mret a).
Proof. by apply steps_still. Qed.
Lemma steps_fail {A} e : steps (fail e : Eff _ IoError A).
Proof. by apply steps_still. Qed.
Lemma steps_lift {A} (r : IoResult A) : steps (lift r).
Proof. by apply steps_still. Qed.

Lemma steps_attempt {A} (m : Eff _ IoError A) : steps m → steps (attempt m).
Proof. intros Hm s. specialize (Hm s). unfold attempt. by destruct (m s) as [[] ?]. Qed.

Lemma steps_env {A} (m : Eff World IoError A) : (∀ w, rtc env w (m w).2) → steps (on_world m).
Proof.
  intros Hm [d w]. specialize (Hm w). unfold on_world, reading. cbn. destruct (m w) as [r w'].
  cbn in *. exists []. induction Hm as [w|w w1 w' He _ IH]; [apply steps_none|].
  eapply (front_steps_trans _ []); [by apply front_steps_once, step_env|done].
Qed.

Lemma steps_writer {A} (m : Eff World IoError A) : (∀ w, writer_step w (m w).2) → steps (on_world m).
Proof.
  intros Hm [d w]. specialize (Hm w). unfold on_world, reading. cbn. destruct (m w) as [r w'].
  exists []. by apply front_steps_once, step_writer.
Qed.

Lemma io_call_world {A} (f : World → (A + IoError) * World) w : (io_call f w).2 = (f w).2.
Proof. unfold io_call. by destruct (f w). Qed.

Lemma io_check_world (f : World → option IoError * World) w : (io_check f w).2 = (f w).2.
Proof. unfold io_check. by destruct (f w). Qed.

(** The rest of the execution, once the frame is handled, is the state writer's. *)
Lemma persisted_steps (changed : bool) :
  steps (if changed then
           mutation ← on_world (io_call record_mutation);
           on_world (io_check (wait_mutation mutation))
         else on_world (io_check check_health)).
Proof.
  destruct changed; [apply steps_bind; [|intros m]|]; apply steps_writer; intros w;
    rewrite ?io_call_world, ?io_check_world; constructor.
Qed.

(** Execution handles the frame once, unless the state writer refuses it. *)
Lemma execute_handled request d w1 w2 :
  admits w1 w2 →
  ∃ rest, front_steps (handled request (d, w2)) rest (execute_observing o request (d, w1)).2.
Proof.
  intros (w & Hh & Hl). unfold execute_observing, mbind, eff_bind, on_world, reading at 1 2, io_check at 1.
  cbn. rewrite Hh. cbn. unfold lock_state. rewrite Hl. cbn. unfold handled, in_device.
  destruct (handle_encoded_observing o request (d, w2)) as [[answer|e| |] s1]; cbn;
    try (eexists; apply steps_none).
  destruct (take_persistent_change s1) as [[changed|e| |] s2]; cbn in *;
    try (eexists; apply steps_none).
  exact (steps_bind _ _ (persisted_steps changed) (λ _, steps_ret answer) s2).
Qed.

Lemma execute_refused request d w1 w2 :
  refuses w1 w2 → (execute_observing o request (d, w1)).2 = (d, w2).
Proof.
  unfold execute_observing, mbind, eff_bind, on_world, reading at 1 2, io_check at 1, lock_state. cbn.
  intros [[e Hh]|(w & Hh & Hl)]; rewrite Hh; cbn; [done|]. by rewrite Hl.
Qed.

Lemma admits_or_refuses w : ∃ w', admits w w' ∨ refuses w w'.
Proof.
  unfold admits, refuses. destruct (check_health w) as [[e|] w1] eqn:Hh; [eauto 6|].
  destruct (lock_poisoned w1) as [[] w2] eqn:Hl; exists w2; [right; right|left]; by exists w1.
Qed.

(** A frame that was read is executed. *)
Lemma request_steps request d w w1 :
  read_next w = (inl request, w1) → request ≠ [] → ¬ own request →
  ∃ requests, front_steps (d, w) requests (execute_observing o request (d, w1)).2.
Proof.
  intros Hr Hne Hown. destruct (admits_or_refuses w1) as [w2 [Ha|Hf]].
  - destruct (execute_handled request d w1 w2 Ha) as [rest Hrest]. eexists.
    eapply front_steps_trans; [by eapply front_steps_once, step_request|done].
  - rewrite (execute_refused request d w1 w2 Hf). eexists. by eapply front_steps_once, step_refused.
Qed.

(** A read, and what is done with its result. *)
Lemma read_steps {A} (k : outcome IoError bytes → Eff (Device * World) IoError A) :
  (∀ request d w w1, read_next w = (inl request, w1) → request ≠ [] → ¬ own request →
     ∃ requests, front_steps (d, w) requests (k (Ok request) (d, w1)).2) →
  (∀ request, request = [] ∨ own request → steps (k (Ok request))) →
  (∀ request, own request ∨ ¬ own request) →
  (∀ e, steps (k (Err e))) →
  steps (attempt (on_world (io_call read_next)) ≫= k).
Proof.
  intros Hrequest Hown Hdec Herr [d w].
  unfold mbind, eff_bind, attempt, on_world, reading, io_call. cbn.
  destruct (read_next w) as [[request|e] w1] eqn:Hr.
  - destruct (decide (request = [])) as [Hnil|Hne].
    + destruct (Hown request (or_introl Hnil) (d, w1)) as [r Hs]. eexists.
      eapply front_steps_trans; [eapply front_steps_once, step_own; [done|by left]|done].
    + destruct (Hdec request) as [Ho|Hno]; [|by eapply Hrequest].
      destruct (Hown request (or_intror Ho) (d, w1)) as [r Hs]. eexists.
      eapply front_steps_trans; [eapply front_steps_once, step_own; [done|by right]|done].
  - destruct (Herr e (d, w1)) as [r Hs]. eexists.
    eapply front_steps_trans; [by eapply front_steps_once, step_no_frame|done].
Qed.

Lemma front_bind {A B} s s1 (m : Eff _ IoError A) (k : A → Eff _ IoError B) :
  (∃ requests, front_steps s requests (m s1).2) → (∀ a, steps (k a)) →
  ∃ requests, front_steps s requests ((m ≫= k) s1).2.
Proof.
  intros [r1 Hr1] Hk. unfold mbind, eff_bind. destruct (m s1) as [[a|e| |] s2]; try by exists r1.
  destruct (Hk a s2) as [r2 Hr2]. eexists. by eapply front_steps_trans.
Qed.

Lemma front_steps_ok `{!KdfLaws} s requests s' :
  device_ok s.1 → front_steps s requests s' → device_ok s'.1.
Proof.
  intros Hd Hs. induction Hs as [|fs s1 f s2 _ IH Hstep]; [done|].
  destruct Hstep as [d w request w1 w2 _ _ _ _| | | | |]; try done.
  unfold handled.
  assert (device_ok (handle_encoded_observing o request (d, w2)).2.1) as Hf.
  { apply (entry_step_device_ok (d, w2)); [done|].
    apply (entry_frame _ {| handler := no_handler; observer := o |}). }
  destruct (handle_encoded_observing o request (d, w2)) as [[answer|e| |] s3]; try exact Hf.
  apply (entry_step_device_ok s3); [exact Hf|]. destruct s3. apply entry_collected.
Qed.
End specification.


Lemma starts_with_spec p l : starts_with p l = true ↔ ∃ k, l = p ++ k.
Proof.
  split.
  - revert l. induction p as [|a p IH]; intros l; cbn; [by exists l|].
    destruct l as [|b l]; [done|]. intros [->%Z.eqb_eq Hp]%andb_true_iff.
    destruct (IH _ Hp) as [k ->]. by exists k.
  - intros [k ->]. induction p as [|a p IH]; [done|]. cbn. by rewrite Z.eqb_refl.
Qed.

Lemma response_recovery request reply :
  I2c.response request = Some reply ↔
  ∃ nonce, len nonce = 4 ∧ request = PREFIX ++ nonce ∧ reply = 0x80 :: tail PREFIX ++ nonce.
Proof.
  unfold I2c.response. split.
  - destruct (_ || _) eqn:Hc; [done|]. intros [= <-].
    apply orb_false_iff in Hc as [Hl%negb_false_iff%Z.eqb_eq Hs%negb_false_iff].
    apply starts_with_spec in Hs as [nonce ->]. exists nonce. rewrite len_app in Hl. split; [lia|done].
  - intros (nonce & Hn & -> & ->). rewrite (proj2 (starts_with_spec _ _)) by (by exists nonce).
    rewrite len_app, Hn, Z.eqb_refl. done.
Qed.

Lemma rtc_bind {A B} (env : relation World) (m : Eff World IoError A) (f : A → Eff World IoError B) :
  (∀ w, rtc env w (m w).2) → (∀ a w, rtc env w (f a w).2) → ∀ w, rtc env w ((m ≫= f) w).2.
Proof.
  intros Hm Hf w. specialize (Hm w). unfold mbind, eff_bind.
  destruct (m w) as [[a|e| |] w1]; cbn in *; [|done..]. etrans; [exact Hm|apply Hf].
Qed.

#[local] Hint Resolve steps_ret steps_fail steps_lift steps_attempt steps_env : steps.

(** Every computation built from these, by its structure. *)
Ltac steps_tac :=
  repeat match goal with
  | |- steps _ _ _ _ (_ ≫= _) => apply steps_bind; [|intros]
  | |- steps _ _ _ _ (match ?x with _ => _ end) => destruct x eqn:?
  | |- steps _ _ _ _ _ => solve [eauto with steps]
  end.

(** ** The loops *)

Section i2c_loop.
Context `{!I2cSystem}.

(** The frames that the front end answers itself: the recovery prefix and four
    more bytes. *)
Definition recovery_frame (request : bytes) : Prop := ∃ nonce, len nonce = 4 ∧ request = PREFIX ++ nonce.

(** What the I2C front end does besides reading and executing. *)
Inductive driver_step (w : World) : World → Prop :=
| driver_stop : driver_step w (stop_requested w).2
| driver_write b : driver_step w (target_write b w).2
| driver_poll : driver_step w (target_poll w).2
| driver_recover : driver_step w (ioctl_recover w).2.

#[local] Abbreviation i2c_runs := (front_steps (target_read MAX_FRAME_LENGTH) recovery_frame no_observer driver_step).
#[local] Abbreviation i2c_steps := (steps (target_read MAX_FRAME_LENGTH) recovery_frame no_observer driver_step).

Lemma queue_response_env rounds reply w : rtc driver_step w (queue_response rounds reply w).2.
Proof.
  revert w. induction rounds as [|rounds IH]; [done|]. cbn [queue_response]. apply rtc_bind.
  - intros w. unfold attempt, io_call. pose proof (driver_write w reply) as Hs.
    destruct (target_write reply w) as [[] w1]; by apply rtc_once.
  - intros [length|error| |] w; [done| |done..]. destruct (bool_decide _); [apply IH|done].
Qed.

Lemma wait_env w : rtc driver_step w (wait_for_descriptor w).2.
Proof.
  revert w. unfold wait_for_descriptor. apply rtc_bind.
  - intros w. unfold attempt, io_call. pose proof (driver_poll w) as Hs.
    destruct (target_poll w) as [[] w1]; by apply rtc_once.
  - intros [revents|error| |] w; [done| |done..]. by destruct (bool_decide _).
Qed.

Lemma recover_env w : rtc driver_step w (io_check ioctl_recover w).2.
Proof. rewrite io_check_world. apply rtc_once. constructor. Qed.

Lemma serve_steps rounds : i2c_steps (serve rounds).
Proof.
  pose proof queue_response_env. pose proof wait_env. pose proof recover_env.
  induction rounds as [|rounds IH]; [intros s; exists []; apply steps_none|].
  cbn [serve]. apply steps_bind; [|intros []; [exact IH|apply steps_ret]].
  unfold serve_round. apply steps_bind.
  { apply steps_env. intros w. pose proof (driver_stop w) as Hs.
    destruct (stop_requested w). by apply rtc_once. }
  intros []; [apply steps_ret|]. apply read_steps.
  - intros request d w w1 Hr Hne Hown. destruct request as [|b request]; [done|].
    unfold answer_request. destruct (I2c.response (b :: request)) as [reply|] eqn:Hp.
    { destruct Hown. apply response_recovery in Hp as (nonce & ? & ? & _). by exists nonce. }
    apply front_bind; [apply front_bind|].
    + eapply request_steps; [exact Hr|done..].
    + intros answer. apply steps_env, queue_response_env.
    + intros []. apply steps_ret.
  - intros request Hown. destruct request as [|b request]; [apply steps_ret|].
    destruct Hown as [|(nonce & Hn & Hreq)]; [done|]. unfold answer_request.
    rewrite (proj2 (response_recovery _ (0x80 :: tail PREFIX ++ nonce))) by (by exists nonce).
    apply steps_bind; [|intros; apply steps_ret]. steps_tac.
  - intros request. destruct (I2c.response request) as [reply|] eqn:Hp.
    + left. apply response_recovery in Hp as (nonce & ? & ? & _). by exists nonce.
    + right. intros (nonce & Hn & Hreq). rewrite (proj2 (response_recovery request (0x80 :: tail PREFIX ++ nonce))) in Hp; [done|].
      by exists nonce.
  - intros error. steps_tac.
Qed.
End i2c_loop.

Section worker_loop.
Context `{!ControlSocket} `{!WorkerSystem} `{!UsbGadget}.

(** What the endpoint thread does besides: nothing is kept back from the device. *)
Definition no_frame (request : bytes) : Prop := False.

Inductive thread_step (w : World) : World → Prop :=
| thread_stop : thread_step w (stop_load w).2
| thread_stopped : thread_step w (stop_store true w)
| thread_response b : thread_step w (response_send b w).2
| thread_activation a : thread_step w (wait_for_activation_after a w).2.

#[local] Abbreviation worker_runs output :=
  (front_steps (file_read output RECEIVE_BUFFER_SIZE) no_frame blink_observer thread_step).
#[local] Abbreviation worker_steps output :=
  (steps (file_read output RECEIVE_BUFFER_SIZE) no_frame blink_observer thread_step).

Lemma endpoint_round_steps output : worker_steps output (endpoint_round output).
Proof.
  unfold endpoint_round. apply steps_bind.
  { apply steps_env. intros w. pose proof (thread_stop w) as Hs.
    destruct (stop_load w). by apply rtc_once. }
  intros []; [apply steps_ret|]. apply read_steps.
  - intros request d w w1 Hr Hne Hown. destruct request as [|b request]; [done|].
    apply front_bind; [eapply request_steps; [exact Hr|done..]|].
    intros answer. apply steps_bind; [|intros; apply steps_ret]. apply steps_env. intros w2.
    pose proof (thread_response w2 answer) as Hs. destruct (response_send answer w2). by apply rtc_once.
  - intros request [->|[]]. apply steps_ret.
  - intros request. by right; intros [].
  - intros error. steps_tac.
Qed.

Lemma serve_requests_steps rounds output : worker_steps output (serve_requests rounds output).
Proof.
  induction rounds as [|rounds IH]; [intros s; exists []; apply steps_none|]. cbn [serve_requests].
  apply steps_bind; [apply endpoint_round_steps|]. intros []; [exact IH|apply steps_ret..].
Qed.

Lemma serve_activations_steps rounds output activation :
  worker_steps output (serve_activations rounds output activation).
Proof.
  revert activation. induction rounds as [|rounds IH]; intros activation;
    [intros s; exists []; apply steps_none|].
  cbn [serve_activations]. apply steps_bind.
  { apply steps_env. intros w. pose proof (thread_activation w activation) as Hs.
    destruct (wait_for_activation_after activation w). by apply rtc_once. }
  intros [next|]; [|apply steps_ret]. apply steps_bind; [apply serve_requests_steps|].
  intros []; [apply steps_ret|apply IH].
Qed.

Lemma serve_endpoint_steps output : worker_steps output (serve_endpoint output).
Proof.
  intros s. destruct (serve_activations_steps fuel output 0 s) as [r Hs]. unfold serve_endpoint.
  destruct (serve_activations fuel output 0 s) as [[] [d w]]; cbn in *; try by exists r.
  all: eexists; eapply front_steps_trans; [exact Hs|]; apply front_steps_once, step_env; constructor.
Qed.

(** A frame that is there is given to the device. *)
Lemma serve_requests_first rounds output d w w1 request w2 w3 :
  (0 < rounds)%nat →
  stop_load w = (false, w1) → file_read output RECEIVE_BUFFER_SIZE w1 = (inl request, w2) →
  request ≠ [] → admits w2 w3 →
  ∃ rest, front_steps (file_read output RECEIVE_BUFFER_SIZE) no_frame blink_observer thread_step
    (handled blink_observer request (d, w3)) rest (serve_requests rounds output (d, w)).2.
Proof.
  intros Hn Hstop Hr Hne Ha. destruct rounds as [|rounds]; [lia|]. cbn [serve_requests].
  apply front_bind; [|intros []; [apply serve_requests_steps|apply steps_ret..]].
  unfold endpoint_round. rewrite (eff_run _ _ _ false (d, w1)) by (unfold on_world, reading; cbn; by rewrite Hstop).
  rewrite (eff_run _ _ _ (Ok request) (d, w2))
    by (unfold attempt, on_world, reading, io_call; cbn; by rewrite Hr).
  destruct request as [|b request]; [done|].
  apply front_bind; [by apply execute_handled|].
  intros answer. apply steps_bind; [|intros; apply steps_ret]. apply steps_env. intros w4.
  pose proof (thread_response w4 answer) as Hs. destruct (response_send answer w4). by apply rtc_once.
Qed.

Lemma serve_endpoint_first output activation d w0 w w1 request w2 w3 :
  (0 < fuel)%nat →
  wait_for_activation_after 0 w0 = (Some activation, w) →
  stop_load w = (false, w1) → file_read output RECEIVE_BUFFER_SIZE w1 = (inl request, w2) →
  request ≠ [] → admits w2 w3 →
  ∃ rest, front_steps (file_read output RECEIVE_BUFFER_SIZE) no_frame blink_observer thread_step
    (handled blink_observer request (d, w3)) rest (serve_endpoint output (d, w0)).2.
Proof.
  intros Hn Hact Hstop Hr Hne Ha.
  assert (∀ rounds, (0 < rounds)%nat →
    ∃ rest, front_steps (file_read output RECEIVE_BUFFER_SIZE) no_frame blink_observer thread_step
      (handled blink_observer request (d, w3)) rest (serve_activations rounds output 0 (d, w0)).2) as Hloop.
  { intros [|rounds] Hrounds; [lia|]. cbn [serve_activations].
    rewrite (eff_run _ _ _ (Some activation) (d, w)) by (unfold on_world, reading; cbn; by rewrite Hact).
    apply front_bind; [by eapply serve_requests_first|].
    intros []; [apply steps_ret|apply serve_activations_steps]. }
  destruct (Hloop fuel Hn) as [r Hs]. unfold serve_endpoint.
  destruct (serve_activations fuel output 0 (d, w0)) as [[] [d1 w4]]; cbn in *; try by exists r.
  all: eexists; eapply front_steps_trans; [exact Hs|]; apply front_steps_once, step_env; constructor.
Qed.

Context `{!I2cSystem}.

Lemma serve_first rounds d w w1 request w2 w3 :
  stop_requested w = (false, w1) → target_read MAX_FRAME_LENGTH w1 = (inl request, w2) →
  request ≠ [] → ¬ recovery_frame request → admits w2 w3 →
  ∃ rest, front_steps (target_read MAX_FRAME_LENGTH) recovery_frame no_observer driver_step
    (handled no_observer request (d, w3)) rest (serve (S rounds) (d, w)).2.
Proof.
  intros Hstop Hr Hne Hown Ha. cbn [serve].
  apply front_bind; [|intros []; [apply serve_steps|apply steps_ret]]. unfold serve_round.
  rewrite (eff_run _ _ _ false (d, w1)) by (unfold on_world, reading; cbn; by rewrite Hstop).
  rewrite (eff_run _ _ _ (Ok request) (d, w2))
    by (unfold attempt, on_world, reading, io_call; cbn; by rewrite Hr).
  destruct request as [|b request]; [done|]. unfold answer_request.
  destruct (I2c.response (b :: request)) as [reply|] eqn:Hp.
  { destruct Hown. apply response_recovery in Hp as (nonce & ? & ? & _). by exists nonce. }
  apply front_bind; [apply front_bind; [by apply execute_handled|]|intros []; apply steps_ret].
  intros answer. apply steps_env, queue_response_env.
Qed.

(** ** Property *)

(** C23: the front ends only execute what they read. Whatever the driver, the
    endpoint, the signals, the display and the state writer do, in the loop of the
    I2C front end and in the endpoint thread of the worker the device only changes
    by frames that were read: each is handled once, in the order of the reads and
    at once after its read, with its persistent change collected, or refused by a
    state writer that failed or a poisoned lock. The I2C front end keeps back
    exactly the recovery frames, the endpoint thread nothing, and neither clears
    the sessions. So both keep the invariant of the device, also when they fail.
    And a round of a loop that was not stopped and reads a frame for the device
    does give it to the device first. *)
Theorem front_ends_only_execute `{!KdfLaws} (rounds : nat) (output : Z) (d : Device) (w : World) :
  device_ok d →
  ((∃ requests,
     front_steps (target_read MAX_FRAME_LENGTH) recovery_frame no_observer driver_step
       (d, w) requests (serve rounds (d, w)).2) ∧
   device_ok (serve rounds (d, w)).2.1 ∧
   (∀ w1 request w2 w3,
     stop_requested w = (false, w1) → target_read MAX_FRAME_LENGTH w1 = (inl request, w2) →
     request ≠ [] → ¬ recovery_frame request → admits w2 w3 →
     ∃ rest, front_steps (target_read MAX_FRAME_LENGTH) recovery_frame no_observer driver_step
       (handled no_observer request (d, w3)) rest (serve (S rounds) (d, w)).2)) ∧
  ((∃ requests,
     front_steps (file_read output RECEIVE_BUFFER_SIZE) no_frame blink_observer thread_step
       (d, w) requests (serve_endpoint output (d, w)).2) ∧
   device_ok (serve_endpoint output (d, w)).2.1 ∧
   (∀ activation w0 w1 request w2 w3, (0 < fuel)%nat →
     wait_for_activation_after 0 w = (Some activation, w0) →
     stop_load w0 = (false, w1) → file_read output RECEIVE_BUFFER_SIZE w1 = (inl request, w2) →
     request ≠ [] → admits w2 w3 →
     ∃ rest, front_steps (file_read output RECEIVE_BUFFER_SIZE) no_frame blink_observer thread_step
       (handled blink_observer request (d, w3)) rest (serve_endpoint output (d, w)).2)).
Proof.
  intros Hd. destruct (serve_steps rounds (d, w)) as [r1 Hr1].
  destruct (serve_endpoint_steps output (d, w)) as [r2 Hr2].
  split; (split; [by eexists|]); (split; [by eapply (front_steps_ok _ _ _ _ (d, w))|]).
  - intros. by eapply serve_first.
  - intros. by eapply serve_endpoint_first.
Qed.
End worker_loop.
End front_ends.

(** ** Recovery frames *)

(** The name and the version in a recovery frame, after its header. *)
Definition recovery_name : bytes := ascii_bytes "BSCRECOV" ++ [1].

(** Recovery frames are outside the protocol. The I2C front end answers itself
    exactly the requests that are the recovery prefix and four more bytes, and the
    answer is the request with its first byte replaced. Such a request is a
    well-formed frame whose command byte is no command of the device, so no command
    is taken from it, and the answer is the frame with the response bit. *)
Theorem recovery_frames_are_not_commands (request reply : bytes) :
  (I2c.response request = Some reply ↔
   ∃ nonce, len nonce = 4 ∧ request = PREFIX ++ nonce ∧ reply = 0x80 :: tail PREFIX ++ nonce) ∧
  (∀ nonce, len nonce = 4 →
     parse (PREFIX ++ nonce) = Ok (mkFrame 0 (recovery_name ++ nonce)) ∧
     CommandCode.from_byte 0 = None ∧
     0x80 :: tail PREFIX ++ nonce = encode (Frame.response 0 (recovery_name ++ nonce))).
Proof.
  split; [apply response_recovery|].
  intros nonce Hn. destruct nonce as [|a [|b [|c [|d [|? ?]]]]]; try (unfold len in Hn; cbn in Hn; lia).
  done.
Qed.

(** ** Witnesses *)

From S2P Require Import Toy.

Section witness.
#[local] Existing Instance default_build.
#[local] Existing Instance toy_fuel.
#[local] Existing Instance example_state_writer.

(** A driver that reads an echo command, then stops. *)
#[local] Instance echo_driver : I2cSystem := {|
  stop_requested w := (41 <? w.1, (w.1 + 1, w.2));
  target_read _ w := (inl [1; 0; 1; 7], w);
  target_write b w := (inl (len b), w);
  target_poll w := (inl 0, w);
  ioctl_recover w := (None, w);
  ioctl_get_info w := (inl [3; 0; 0; 3139; 0; 1; 1; 0], w);
  open_device _ w := (None, w);
  inherited_getfl w := (inl 2, w);
  inherited_setfd _ w := (None, w);
  inherited_setfl _ w := (None, w);
  fs_metadata _ w := (inl (true, 0x1c0), w);
  install_handler_sigint w := (None, w);
  install_handler_sigterm w := (None, w);
|}.

#[local] Instance silent_socket : ControlSocket := {|
  CMSG_LEN_0 := 16; SOL_SOCKET := 1; SCM_RIGHTS := 1; MSG_TRUNC := 0x20; MSG_CTRUNC := 8;
  socket_send p w := (inl (len p), w);
  socket_receive _ w := (inr (mkIoError UnexpectedEof "closed"), w);
|}.

(** An endpoint that gives the same command once it is activated, until it is
    stopped. *)
#[local] Instance echo_worker : WorkerSystem := {|
  libc := linux;
  file_read _ _ w := (inl [1; 0; 1; 7], w);
  file_write _ b w := (inl (len b), w);
  fcntl_getfl _ w := (inl 2, w);
  fcntl_setfl _ _ w := (None, w);
  poll_control w := (inl (0, 0, 0), w);
  stop_load w := (41 <? w.1, (w.1 + 1, w.2));
  stop_store _ w := w;
  display_send _ w := (true, w);
  response_send _ w := (true, w);
  response_receive w := (None, w);
  reconnect_receive w := (inl [0], w);
  reconnect_level w := (false, w);
  line_read _ w := (inl [], w);
  line_pressed w := (inl false, w);
  reconnect_swap b w := (b, w);
  reconnect_notify w := (inl 1, w);
  poll_buttons w := (inl (0, 0), w);
|}.

#[local] Instance active_gadget : UsbGadget := {|
  decode_bus_event _ := invalid "bus event";
  to_cbor _ := Ok [0xa0];
  lifecycle_activate _ w := w;
  lifecycle_stop w := w;
  wait_for_activation_after a w := (Some (a + 1), w);
|}.

Lemma front_ends_only_execute_witness :
  let s := (example_device, toy_world) in
  let request := [1; 0; 1; 7] in
  is_ok (serve 3 s).1 = true ∧ is_ok (serve_endpoint 4 s).1 = true ∧
  device_ok (serve 3 s).2.1 ∧
  (∃ rest, front_steps (target_read MAX_FRAME_LENGTH) recovery_frame no_observer driver_step
     (handled no_observer request (example_device, (42, 1000))) rest (serve 4 s).2) ∧
  device_ok (serve_endpoint 4 s).2.1 ∧
  (∃ rest, front_steps (file_read 4 RECEIVE_BUFFER_SIZE) no_frame blink_observer thread_step
     (handled blink_observer request (example_device, (42, 1000))) rest (serve_endpoint 4 s).2).
Proof.
  cbv zeta. split; [vm_compute; reflexivity|]. split; [vm_compute; reflexivity|].
  destruct (front_ends_only_execute 3 4 example_device toy_world) as ((_ & Hok & Hfirst) & _ & Hok' & Hfirst').
  { by apply (factory_device_ok default_config). }
  assert (admits (42, 1000) (42, 1000)) as Ha by (exists (42, 1000); split; reflexivity).
  split; [exact Hok|]. split.
  { apply (Hfirst (42, 1000) _ (42, 1000)); [reflexivity|reflexivity|done| |exact Ha].
    intros (nonce & _ & Hn). discriminate Hn. }
  split; [exact Hok'|].
  apply (Hfirst' 1 toy_world (42, 1000) _ (42, 1000)); [apply Nat.ltb_lt|..]; first [reflexivity|done|exact Ha].
Defined.
End witness.
