(* ===== verification/Programs.v ===== *)
(** * The two front-end programs (src/main.rs, crates/virtual-yubihsm-i2c/src/main.rs)

    [main] of the USB worker and of the I2C front end on Linux: the command line is
    parsed, the options choose the runtime and the display, and the outcome is the
    exit of the process. What the options choose among is a parameter, as the
    things themselves are. *)

From S2P Require Import Prelude Io Firmware KeyCore Wrapping Attestation Persistence.
From S2P Require Import WorkerProtocol Display UsbIdentity Worker I2c Arguments.

(** How a process ends: what it printed, and with [exit(1)] its error message. *)
Inductive Exit : Set :=
| ExitSuccess (stdout : list string)
| ExitFailure (stderr : string).

Section programs.
Context `{Platform}.

(** [main] around [run]: the name of the program comes before the error. *)
Definition exit_of (name : string) (run : Eff World IoError (list string)) : Eff World IoError Exit := λ w,
  let '(r, w) := run w in
  (match r with
   | Ok stdout => Ok (ExitSuccess stdout)
   | Err error => Ok (ExitFailure (name +:+ ": " +:+ io_message error))
   | Panic => Panic
   | Diverge => Diverge
   end, w).

(** [run] of both programs: the help was printed, or the service runs to its end. *)
Definition run_parsed {O} (options : IoResult (option O)) (usage : list string)
    (service : O → Eff World IoError unit) : Eff World IoError (list string) :=
  options ← lift options;
  match options with
  | None => mret usage
  | Some options => _ ← service options; mret []
  end.
End programs.

(** ** The USB worker *)

Definition WORKER_USAGE : list string :=
  ["Usage: virtual-yubihsm-worker [--serial DECIMAL] [--display BACKEND] [--persistence MODE]"; "";
   "Unprivileged YubiHSM 2 FunctionFS worker for usb-gadget-supervisor.";
   "Persistent state is stored in STATE_DIRECTORY.";
   "BACKEND is st7789-spi (default), sh1106-spi, or sh1106-i2c.";
   "MODE is batched (default, 500 ms) or immediate."]%string.

(** [libc::signal] with the handler that stops the worker, for both signals. *)
Class WorkerSignals `{Platform} := {
  signal_sigint : World → option IoError * World;
  signal_sigterm : World → option IoError * World;
}.

Section worker.
Context `{Build} `{SoftwareKeyCore} `{Fuel} `{!StateWriter} `{!ControlSocket} `{!WorkerSystem}.
Context `{!UsbGadget} `{!StateCodec} `{!WorkerSignals}.
(** The writer of the mode, and the threads that draw on the display of the kind. *)
Context (runtime_of : PersistenceOption → StateRuntime) (threads_of : DisplayKind → WorkerThreads).

Definition install_worker_signals : Eff World IoError unit :=
  _ ← io_check signal_sigint; io_check signal_sigterm.

Definition worker_service (options : WorkerLine.Options) : Eff World IoError unit :=
  _ ← install_worker_signals;
  @run_worker _ _ _ _ _ _ _ _ _ (runtime_of (WorkerLine.persistence options))
    (threads_of (WorkerLine.display options)) (WorkerLine.serial options).

Definition worker_main (arguments : list string) : Eff World IoError Exit :=
  exit_of "virtual-yubihsm-worker"
    (run_parsed (WorkerLine.parse_arguments arguments) WORKER_USAGE worker_service).
End worker.

(** ** The I2C front end *)

Definition FRONTEND_USAGE : list string :=
  ["Usage: virtual-yubihsm-i2c --serial DECIMAL --state-directory PATH [--device PATH | --inherited-device] [--persistence MODE]";
   "";
   "Serve one real virtual YubiHSM protocol endpoint through the BSC I2C";
   "target driver. The kernel module and overlay must already be loaded.";
   "The process needs read/write access to DEVICE, but does not require root.";
   "--inherited-device takes ownership of an already-open device on FD 3.";
   "MODE is batched (default, 500 ms) or immediate."]%string.

Section frontend.
Context `{Build} `{HX : X509} `{Der} `{Fuel} `{!StateWriter} `{!I2cSystem} `{!StateCodec}.
Context (runtime_of : PersistenceOption → StateRuntime).

Definition frontend_service (options : I2c.Options) : Eff World IoError unit :=
  @I2c.run _ _ _ _ _ _ _ _ _ (runtime_of (I2c.persistence options)) options.

Definition frontend_main (arguments : list string) : Eff World IoError Exit :=
  exit_of "virtual-yubihsm-i2c"
    (run_parsed (FrontendLine.parse_arguments arguments) FRONTEND_USAGE frontend_service).
End frontend.

(** ** Lemmas *)

Section lemmas.
Context `{Platform}.

(** A process fails exactly when its service does, or when its command line is
    refused; then, and when the help is asked for, nothing was done. *)
Lemma exit_of_parsed {O} name (options : IoResult (option O)) usage service w :
  exit_of name (run_parsed options usage service) w =
  match options with
  | Ok None => (Ok (ExitSuccess usage), w)
  | Ok (Some o) =>
      let '(r, w') := service o w in
      (match r with
       | Ok _ => Ok (ExitSuccess [])
       | Err error => Ok (ExitFailure (name +:+ ": " +:+ io_message error))
       | Panic => Panic
       | Diverge => Diverge
       end, w')
  | Err error => (Ok (ExitFailure (name +:+ ": " +:+ io_message error)), w)
  | Panic => (Panic, w)
  | Diverge => (Diverge, w)
  end.
Proof.
  unfold exit_of, run_parsed, mbind, eff_bind, lift. destruct options as [[o|]|e| |]; try done.
  by destruct (service o w) as [[] ?].
Qed.
End lemmas.

(** The worker refuses the I2C front end's options without touching anything. *)
Lemma worker_refuses_frontend_options `{SoftwareKeyCore} `{Build} `{Fuel} `{!StateWriter}
    `{!ControlSocket} `{!WorkerSystem} `{!UsbGadget} `{!StateCodec} `{!WorkerSignals} runtime_of threads_of w :
  worker_main runtime_of threads_of ["--inherited-device"%string] w
  = (Ok (ExitFailure "virtual-yubihsm-worker: unknown argument --inherited-device"), w).
Proof. unfold worker_main. by rewrite exit_of_parsed. Qed.
