(* ===== verification/HostRequests.v ===== *)
(** * Requests and queries of the qualification client
    (crates/yubihsm-qualification/src/lib.rs, lines 2421-2426 and 2672-2945)

    The frames that the client builds for the creation commands, and the queries
    it runs in a session. The device must read in a request what the client put
    into it. *)

From S2P Require Import Prelude Error Io Frame Firmware Algorithm Capability Protocol KeyCore.
From S2P Require Import Wire Objects Requests HostSession.

(** [Vec::resize] with zeros. *)
Definition resize (n : Z) (l : bytes) : bytes := ztake n l ++ zeros (n - len l).

(** [Frame::new(...).unwrap()]. *)
Definition new_frame (command : CommandCode.CommandCode) (data : bytes) : outcome string Frame :=
  expect (new (CommandCode.to_byte command) data).

(** The fields that every creation request starts with. *)
Definition object_header (id : Z) (label : bytes) (domains : Z) (capabilities : CapabilitySet)
    (algorithm : Algorithm) : bytes :=
  resize 42 (u16_to_be_bytes id ++ label) ++ u16_to_be_bytes domains ++ to_bytes capabilities
  ++ [Algorithm.to_byte algorithm].

Definition put_opaque (id domains : Z) (capabilities : CapabilitySet) (label payload : bytes) :
    outcome string Frame :=
  new_frame CommandCode.PutOpaque (object_header id label domains capabilities OpaqueData ++ payload).

Definition put_secret_key (command : CommandCode.CommandCode) (id : Z) (capabilities : CapabilitySet)
    (algorithm : Algorithm) (key label : bytes) : outcome string Frame :=
  new_frame command (object_header id label 1 capabilities algorithm ++ key).

Definition generate_asymmetric_key (id : Z) (capabilities : CapabilitySet) (algorithm : Algorithm)
    (label : bytes) : outcome string Frame :=
  new_frame CommandCode.GenerateAsymmetricKey (object_header id label 1 capabilities algorithm).

Definition put_wrap_key (id : Z) (algorithm : Algorithm)
    (capabilities delegated_capabilities : CapabilitySet) (key : bytes) : outcome string Frame :=
  new_frame CommandCode.PutWrapKey
    (object_header id (ascii_bytes "qualification wrap") 1 capabilities algorithm
     ++ to_bytes delegated_capabilities ++ key).

Definition generate_wrap_key (id : Z) (algorithm : Algorithm)
    (capabilities delegated_capabilities : CapabilitySet) (label : bytes) : outcome string Frame :=
  new_frame CommandCode.GenerateWrapKey
    (object_header id label 1 capabilities algorithm ++ to_bytes delegated_capabilities).

Definition put_public_wrap_key (id : Z) (algorithm : Algorithm)
    (capabilities delegated_capabilities : CapabilitySet) (modulus : bytes) : outcome string Frame :=
  new_frame CommandCode.PutPublicWrapKey
    (object_header id (ascii_bytes "qualification public wrap") 1 capabilities algorithm
     ++ to_bytes delegated_capabilities ++ modulus).

(** [u32::to_le_bytes]. *)
Definition u32_to_le_bytes (v : Z) : bytes := reverse (u32_to_be_bytes v).

Definition put_otp_aead_key (id : Z) (capabilities : CapabilitySet) (nonce_id : Z) (key : bytes) :
    outcome string Frame :=
  new_frame CommandCode.PutOtpAeadKey
    (object_header id (ascii_bytes "qualification otp") 1 capabilities Aes128YubicoOtp
     ++ u32_to_le_bytes nonce_id ++ key).

Definition put_named_authentication_key (id : Z) (label : bytes) (domains : Z)
    (capabilities delegated_capabilities : CapabilitySet) (static_keys : bytes) :
    outcome string Frame :=
  new_frame CommandCode.PutAuthenticationKey
    (object_header id label domains capabilities Aes128YubicoAuthentication
     ++ to_bytes delegated_capabilities ++ static_keys).

Definition put_authentication_key (id domains : Z)
    (capabilities delegated_capabilities : CapabilitySet) (static_keys : bytes) :
    outcome string Frame :=
  put_named_authentication_key id (ascii_bytes "qualification auth") domains capabilities
    delegated_capabilities static_keys.

Definition put_asymmetric_authentication_key (id domains : Z)
    (capabilities delegated_capabilities : CapabilitySet) (public_key : bytes) :
    outcome string Frame :=
  new_frame CommandCode.PutAuthenticationKey
    (object_header id (ascii_bytes "qualification asymmetric auth") domains capabilities
       EcP256YubicoAuthentication
     ++ to_bytes delegated_capabilities ++ public_key).

Definition object_key (id : Z) (object_type : ObjectType) : bytes :=
  u16_to_be_bytes id ++ [ObjectTypes.to_byte object_type].

Definition expect_device_error (response : Frame) (expected : DeviceError) : outcome string unit :=
  ensure ((Frame.command response =? ERROR_COMMAND)
          && bool_decide (data response = [Error.to_byte expected]))
    ("expected " +:+ Error.display expected +:+ ", got frame " +:+ hex_bytes (encode response)).

(** ** Queries in a session *)

Section queries.
Context `{SoftwareKeyCore} {T : Type} `{FrameTransport T}.

(** Code that holds a session: the transport's state and the session. A command
    that fails leaves the session as it was. *)
Abbreviation InSession := (Eff (T * SymmetricSession) string).

Definition exec (inner : Frame) : InSession Frame := λ '(t, self),
  let '(r, t) := HostSession.command self inner t in
  match r with
  | Ok (response, self) => (Ok response, (t, self))
  | Err e => (Err e, (t, self))
  | Panic => (Panic, (t, self))
  | Diverge => (Diverge, (t, self))
  end.

(** The exchange of a request that was built with [unwrap]. *)
Definition exec_frame (request : outcome string Frame) : InSession Frame :=
  request ← lift request; exec request.

(** A command, and its successful answer. *)
Definition session_query (code : CommandCode.CommandCode) (data : bytes) : InSession bytes :=
  response ← exec_frame (new_frame code data);
  lift (expect_response response code).

(** The entries of four bytes: identifier, type, sequence. *)
Fixpoint object_entries (data : bytes) : outcome string (list ObjectKey) :=
  match data with
  | high :: low :: object_type :: _ :: rest =>
      object_type ← ok_or (ObjectTypes.from_byte object_type)
        ("List Objects returned unknown type 0x" +:+ hex_byte object_type)%string;
      keys ← object_entries rest;
      Ok (mkObjectKey object_type (from_be_bytes [high; low]) :: keys)
  | _ => Ok []
  end.

(** The [BTreeSet] of the keys. *)
Definition list_objects : InSession (gset ObjectKey) :=
  data ← session_query CommandCode.ListObjects [];
  _ ← lift (ensure (len data mod 4 =? 0) "List Objects response is not a multiple of 4 bytes");
  keys ← lift (object_entries data);
  mret (list_to_set keys).

(** The first free identifier in [start..u16::MAX]. *)
Fixpoint find_unused (objects : gset ObjectKey) (object_type : ObjectType) (count : nat) (id : Z) :
    option Z :=
  match count with
  | O => None
  | S count =>
      if bool_decide (mkObjectKey object_type id ∈ objects)
      then find_unused objects object_type count (id + 1) else Some id
  end.

Definition unused_id (objects : gset ObjectKey) (object_type : ObjectType) (start : Z) :
    outcome string Z :=
  ok_or (find_unused objects object_type (Z.to_nat (u16_max - start)) start)
    ("no unused " +:+ ObjectTypes.debug object_type +:+ " object ID remains")%string.

Definition get_public_key (id : Z) (object_type : ObjectType) : InSession bytes :=
  session_query CommandCode.GetPublicKey
    (u16_to_be_bytes id
     ++ if bool_decide (object_type = AsymmetricKey) then [] else [ObjectTypes.to_byte object_type]).

Definition derive_ecdh (id : Z) (peer_public_without_marker : bytes) : InSession bytes :=
  session_query CommandCode.DeriveEcdh (u16_to_be_bytes id ++ [0x04] ++ peer_public_without_marker).

Definition derive_montgomery (id : Z) (peer_public : bytes) : InSession bytes :=
  session_query CommandCode.DeriveEcdh (u16_to_be_bytes id ++ peer_public).

Definition delete_object (id : Z) (object_type : ObjectType) : InSession unit :=
  _ ← session_query CommandCode.DeleteObject (object_key id object_type);
  mret tt.

(** [SymmetricSession::close]. *)
Definition close_session : InSession unit :=
  _ ← session_query CommandCode.CloseSession [];
  mret tt.
End queries.

(** ** Lemmas *)

Lemma find_unused_spec objects object_type count : ∀ id,
  match find_unused objects object_type count id with
  | Some n => id ≤ n < id + Z.of_nat count ∧ mkObjectKey object_type n ∉ objects
  | None => ∀ n, id ≤ n < id + Z.of_nat count → mkObjectKey object_type n ∈ objects
  end.
Proof.
  induction count as [|count IH]; intros id; cbn [find_unused]; [intros n ?; lia|].
  case_bool_decide as Hid; [|split; [lia|done]]. specialize (IH (id + 1)).
  destruct find_unused as [n|].
  - destruct IH. split; [lia|done].
  - intros n Hn. destruct (decide (n = id)) as [->|]; [done|]. apply IH. lia.
Qed.

(** Fewer objects than identifiers leave one free. *)
Lemma unused_id_found objects object_type start :
  Z.of_nat (size objects) < u16_max - start →
  ∃ id, unused_id objects object_type start = Ok id ∧ start ≤ id < u16_max ∧
    mkObjectKey object_type id ∉ objects.
Proof.
  intros Hsize. pose proof (find_unused_spec objects object_type (Z.to_nat (u16_max - start)) start) as Hf.
  unfold unused_id. destruct find_unused as [id|].
  { exists id. destruct Hf. split; [done|]. split; [lia|done]. }
  set (candidates := (λ n, mkObjectKey object_type (start + Z.of_nat n)) <$> seq 0 (Z.to_nat (u16_max - start))).
  assert (NoDup candidates) as Hnodup.
  { apply NoDup_fmap_2; [|apply NoDup_seq]. intros x y [= ?]. lia. }
  assert (size (list_to_set candidates : gset ObjectKey) ≤ size objects)%nat as Hle.
  { apply subseteq_size. intros k [n [-> Hn%elem_of_seq]]%elem_of_list_to_set%list_elem_of_fmap.
    apply Hf. lia. }
  rewrite size_list_to_set in Hle by done. unfold candidates in Hle.
  rewrite length_fmap, length_seq in Hle. lia.
Qed.

Definition padded (label : bytes) : bytes := label ++ zeros (40 - len label).

Lemma object_header_bytes id label domains capabilities algorithm :
  len label ≤ 40 →
  object_header id label domains capabilities algorithm
  = header_bytes (ObjectHeader_ id (padded label) domains capabilities (Algorithm.to_byte algorithm)).
Proof.
  intros Hl. unfold object_header, header_bytes, resize, padded.
  rewrite len_app, len_u16_to_be_bytes. pose proof (len_nonneg label).
  unfold ztake. rewrite take_ge.
  - rewrite <- !app_assoc. do 4 f_equal. lia.
  - rewrite length_app. pose proof (len_u16_to_be_bytes id). unfold len in *. lia.
Qed.

(** The material of a request that still fits a frame after the header. *)
Definition fits (material : bytes) : Prop := 53 + len material ≤ MAX_DATA_LENGTH.

Definition set8 (s : CapabilitySet) : Prop := len (to_bytes s) = 8.

Lemma header_ok_padded id label domains capabilities algorithm :
  u16 id → len label ≤ 40 → u16 domains → set8 capabilities →
  header_ok (ObjectHeader_ id (padded label) domains capabilities algorithm).
Proof.
  intros Hi Hl Hd Hc. pose proof (len_nonneg label). unfold header_ok, padded.
  rewrite len_app, len_zeros by lia. split; [done|]. split; [lia|done].
Qed.

Lemma new_frame_ok code h material :
  header_ok h → fits material →
  new_frame code (header_bytes h ++ material)
  = Ok (mkFrame (CommandCode.to_byte code) (header_bytes h ++ material)).
Proof.
  intros Hh Hf. unfold new_frame, new.
  destruct (creation_request_round_trip h ALL (zeros 4) [] Hh) as [Hl _]; [done..|].
  rewrite len_app, Hl. unfold fits in Hf. by rewrite (proj2 (Z.ltb_ge _ _)) by lia.
Qed.

(** What a frame of the client is for the device: its command, and its payload as
    one of the three kinds of creation request. *)
Definition carries `{Decode R} (frame : outcome string Frame) (code : CommandCode.CommandCode)
    (request : R) : Prop :=
  ∃ data, frame = Ok (mkFrame (CommandCode.to_byte code) data) ∧ decode R data = Ok request.

Section carried.
Context (id domains : Z) (label : bytes) (capabilities delegated : CapabilitySet)
  (algorithm : Algorithm).
Context (Hid : u16 id) (Hdomains : u16 domains) (Hlabel : len label ≤ 40).
Context (Hcaps : set8 capabilities) (Hdelegated : set8 delegated).

#[local] Abbreviation header l d a := (ObjectHeader_ id (padded l) d capabilities (Algorithm.to_byte a)).

Lemma carries_object code l d a material :
  len l ≤ 40 → u16 d → fits material →
  carries (new_frame code (object_header id l d capabilities a ++ material)) code
    (ObjectRequest_ (header l d a) material).
Proof.
  intros Hl Hd Hf. pose proof (header_ok_padded id l d capabilities (Algorithm.to_byte a) Hid Hl Hd Hcaps) as Hh.
  rewrite object_header_bytes by done. eexists. split; [by apply new_frame_ok|].
  by destruct (creation_request_round_trip _ ALL (zeros 4) material Hh) as (_ & ? & _).
Qed.

Lemma carries_delegated code l d a material :
  len l ≤ 40 → u16 d → fits (to_bytes delegated ++ material) →
  carries (new_frame code (object_header id l d capabilities a ++ to_bytes delegated ++ material)) code
    (DelegatedObjectRequest_ (header l d a) delegated material).
Proof.
  intros Hl Hd Hf. pose proof (header_ok_padded id l d capabilities (Algorithm.to_byte a) Hid Hl Hd Hcaps) as Hh.
  rewrite object_header_bytes by done. eexists. split; [by apply new_frame_ok|].
  by destruct (creation_request_round_trip _ delegated (zeros 4) material Hh) as (_ & _ & ? & _).
Qed.

Lemma carries_otp code l d a nonce material :
  len l ≤ 40 → u16 d → len nonce = 4 → fits (nonce ++ material) →
  carries (new_frame code (object_header id l d capabilities a ++ nonce ++ material)) code
    (OtpAeadKeyRequest_ (header l d a) nonce material).
Proof.
  intros Hl Hd Hn Hf. pose proof (header_ok_padded id l d capabilities (Algorithm.to_byte a) Hid Hl Hd Hcaps) as Hh.
  rewrite object_header_bytes by done. eexists. split; [by apply new_frame_ok|].
  by destruct (creation_request_round_trip _ ALL nonce material Hh) as (_ & _ & _ & ?).
Qed.

(** C38: the device reads what the client wrote. Every creation request of the
    client, with an identifier and domains of 16 bits, a label of at most forty
    bytes and material that fits a frame, is a frame whose payload the device
    decodes to the same fields, the label padded with zeros: for opaque objects and
    secret keys, for generated keys, for wrap keys and authentication keys with
    their delegated capabilities, and for OTP AEAD keys with the nonce in
    little-endian order. *)
Theorem client_requests_decode (command : CommandCode.CommandCode) (nonce_id : Z)
    (material : bytes) :
  len (to_bytes delegated) + len material + 53 ≤ MAX_DATA_LENGTH →
  carries (put_opaque id domains capabilities label material) CommandCode.PutOpaque
    (ObjectRequest_ (header label domains OpaqueData) material) ∧
  carries (put_secret_key command id capabilities algorithm material label) command
    (ObjectRequest_ (header label 1 algorithm) material) ∧
  carries (generate_asymmetric_key id capabilities algorithm label) CommandCode.GenerateAsymmetricKey
    (ObjectRequest_ (header label 1 algorithm) []) ∧
  carries (put_wrap_key id algorithm capabilities delegated material) CommandCode.PutWrapKey
    (DelegatedObjectRequest_ (header (ascii_bytes "qualification wrap") 1 algorithm) delegated material) ∧
  carries (generate_wrap_key id algorithm capabilities delegated label) CommandCode.GenerateWrapKey
    (DelegatedObjectRequest_ (header label 1 algorithm) delegated []) ∧
  carries (put_public_wrap_key id algorithm capabilities delegated material) CommandCode.PutPublicWrapKey
    (DelegatedObjectRequest_ (header (ascii_bytes "qualification public wrap") 1 algorithm) delegated material) ∧
  carries (put_named_authentication_key id label domains capabilities delegated material)
    CommandCode.PutAuthenticationKey
    (DelegatedObjectRequest_ (header label domains Aes128YubicoAuthentication) delegated material) ∧
  carries (put_asymmetric_authentication_key id domains capabilities delegated material)
    CommandCode.PutAuthenticationKey
    (DelegatedObjectRequest_ (header (ascii_bytes "qualification asymmetric auth") domains
       EcP256YubicoAuthentication) delegated material) ∧
  carries (put_otp_aead_key id capabilities nonce_id material) CommandCode.PutOtpAeadKey
    (OtpAeadKeyRequest_ (header (ascii_bytes "qualification otp") 1 Aes128YubicoOtp)
       (u32_to_le_bytes nonce_id) material).
Proof.
  intros Hm. pose proof (len_nonneg material). rewrite Hdelegated in Hm.
  assert (len (u32_to_le_bytes nonce_id) = 4) as Hn
    by (unfold u32_to_le_bytes, len; rewrite length_reverse; by apply (len_u32_to_be_bytes nonce_id)).
  assert (u16 1) by (unfold u16; lia).
  assert (fits material ∧ fits [] ∧ fits (to_bytes delegated ++ material) ∧
          fits (to_bytes delegated ++ []) ∧ fits (u32_to_le_bytes nonce_id ++ material)) as (? & ? & ? & ? & ?).
  { unfold fits. rewrite !len_app, Hdelegated, Hn. change (len (@nil Z)) with 0. lia. }
  unfold put_opaque, put_secret_key, generate_asymmetric_key, put_wrap_key, generate_wrap_key,
    put_public_wrap_key, put_named_authentication_key, put_asymmetric_authentication_key, put_otp_aead_key.
  pose proof (carries_object CommandCode.GenerateAsymmetricKey label 1 algorithm []) as Hgen.
  pose proof (carries_delegated CommandCode.GenerateWrapKey label 1 algorithm []) as Hwrap.
  rewrite !app_nil_r in *.
  repeat split; first [apply carries_object|apply Hgen|apply Hwrap|apply carries_delegated|apply carries_otp];
    done || by vm_compute.
Qed.
End carried.

(** ** Witness *)

Lemma client_requests_decode_witness :
  carries (put_opaque 7 1 ALL (ascii_bytes "qualification") [1; 2]) CommandCode.PutOpaque
    (ObjectRequest_ (ObjectHeader_ 7 (padded (ascii_bytes "qualification")) 1 ALL
       (Algorithm.to_byte OpaqueData)) [1; 2]).
Proof.
  refine (proj1 (client_requests_decode 7 1 (ascii_bytes "qualification") ALL ALL Aes128 _ _ _ _ _
    CommandCode.PutHmacKey 0 [1; 2] _)); by_computation.
Defined.
