(* ===== verification/Qualification.v ===== *)
(** * The read-only cases of the qualification suite
    (crates/yubihsm-qualification/src/lib.rs, lines 313-323, 395-524 and 2359-2377)

    The profiles and the report of the suite, the cases of every profile that need
    no credentials, over any transport, and the device in the same process that
    passes them. *)

From S2P Require Import Prelude Error Io Frame Firmware Algorithm Capability Protocol KeyCore.
From S2P Require Import Wire Objects Authorization SessionObjects Requests SecureChannel.
From S2P Require Import DeviceState ObjectStore ObjectCommands KeyUse Wrapping Attestation.
From S2P Require Import SessionObjectCommands Dispatch CommandEffects StoreProperties.
From S2P Require Import Sessions SessionSteps HostSession HostRequests InProcess Connector.

(** ** Transports and results *)

(** [FrameTransport::exchange] with its error; [to_string] gives its message. *)
Class Transport (T : Type) := transport_exchange : bytes → Eff T TransportError bytes.

#[export] Instance transport_frames `{Transport T} : FrameTransport T := λ request s,
  let '(r, s) := transport_exchange request s in
  (match r with
   | Ok reply => Ok reply
   | Err e => Err (message e)
   | Panic => Panic
   | Diverge => Diverge
   end, s).

Record QualificationError : Set := mkQualification { case : string; case_message : string }.

Record DeviceIdentity : Set := mkIdentity {
  identity_version : bytes;
  identity_serial : Z;
  identity_log_capacity : Z;
  identity_log_used : Z;
  identity_algorithms : bytes;
}.

Inductive Profile : Set := Smoke | Managed | Extensions | Ephemeral.

#[export] Instance Profile_eq_dec : EqDecision Profile.
Proof. solve_decision. Defined.

Record Report : Set := mkReport {
  target : string;
  profile : Profile;
  identity : DeviceIdentity;
  passed : list string;
  unsupported : list string;
}.

Section smoke.
Context {T : Type} `{Transport T}.

(** [run_case_value]: the message of a failed case gets the name of the case. *)
Definition run_case_value {A} (name : string) (passed : list string) (run : Eff T string A) :
    Eff T QualificationError (A * list string) := λ s,
  let '(r, s) := run s in
  (match r with
   | Ok value => Ok (value, passed ++ [name])
   | Err message => Err (mkQualification name message)
   | Panic => Panic
   | Diverge => Diverge
   end, s).

Definition run_case (name : string) (passed : list string) (run : Eff T string unit) :
    Eff T QualificationError (list string) :=
  '(_, passed) ← run_case_value name passed run; mret passed.

(** ** The cases *)

(** A frame whose length is wrong is refused by the device, or by a connector that
    looks at frames itself. *)
Definition malformed_frame : Eff T string unit := λ s,
  let '(answer, s) := transport_exchange [CommandCode.to_byte CommandCode.Echo; 0; 1] s in
  (match answer with
   | Ok encoded =>
       response ← parse_frame "invalid malformed-frame response" encoded;
       expect_device_error response WrongLength
   | Err e =>
       match transport_kind e with InvalidCommandFrame => Ok tt | OtherTransport => Err (message e) end
   | Panic => Panic
   | Diverge => Diverge
   end, s).

(** An exchange of a frame that is built from a command byte. *)
Definition plain (code : Z) (data : bytes) : Eff T string Frame :=
  request ← lift (expect (new code data)); exchange_frame request.

Definition plain_command (code : CommandCode.CommandCode) (data : bytes) : Eff T string bytes :=
  response ← plain (CommandCode.to_byte code) data;
  lift (expect_response response code).

Definition malformed_and_unknown_frames : Eff T string unit :=
  _ ← malformed_frame;
  response ← plain 0x02 [];
  lift (expect_device_error response InvalidCommand).

Definition echo_payload : bytes := ascii_bytes "yubihsm qualification echo".

Definition plain_echo : Eff T string unit :=
  data ← plain_command CommandCode.Echo echo_payload;
  lift (ensure (bool_decide (data = echo_payload)) "echo payload changed").

(** The fields of the device information. *)
Definition read_identity (data : bytes) : outcome string DeviceIdentity :=
  _ ← ensure (9 <=? len data) ("device info is only " +:+ decimal (len data) +:+ " bytes");
  version ← slice data 0 3;
  serial ← slice data 3 7;
  log_capacity ← index data 7;
  log_used ← index data 8;
  Ok (mkIdentity version (from_be_bytes serial) log_capacity log_used (zdrop 9 data)).

Definition device_identity : Eff T string DeviceIdentity :=
  data ← plain_command CommandCode.GetDeviceInfo [];
  lift (read_identity data).

Definition device_public_key : Eff T string unit :=
  data ← plain_command CommandCode.GetDevicePublicKey [];
  _ ← lift (ensure (len data =? 65) ("device public key is " +:+ decimal (len data) +:+ " bytes"));
  algorithm ← lift (index data 0);
  lift (ensure (algorithm =? Algorithm.to_byte EcP256YubicoAuthentication)
          ("unexpected device public-key algorithm 0x" +:+ hex_byte algorithm)).

Definition plain_session_boundary : Eff T string unit :=
  response ← plain (CommandCode.to_byte CommandCode.GetStorageInfo) [];
  lift (expect_device_error response InvalidCommand).

(** The part of [run] that every profile does. *)
Definition read_only_cases : Eff T QualificationError (DeviceIdentity * list string) :=
  passed ← run_case "malformed and unknown frames" [] malformed_and_unknown_frames;
  passed ← run_case "plain echo" passed plain_echo;
  '(identity, passed) ← run_case_value "device identity" passed device_identity;
  passed ← run_case "device public key" passed device_public_key;
  passed ← run_case "plain session boundary" passed plain_session_boundary;
  mret (identity, passed).

(** ** What the cases observe

    On the transport alone: a frame that is answered, and what the read-only cases
    owe when they pass. *)

Definition answered (request reply : Frame) (t t' : T) : Prop :=
  ∃ encoded, transport_exchange (encode request) t = (Ok encoded, t') ∧ parse encoded = Ok reply.

(** An echo that lacks its second byte of length is answered with the error for a
    wrong length, or refused by a transport that looks at frames. *)
Definition refused_malformed (t t' : T) : Prop :=
  ∃ answer, transport_exchange [0x01; 0; 1] t = (answer, t') ∧
    ((∃ encoded, answer = Ok encoded ∧ parse encoded = Ok (Frame.error WrongLength)) ∨
     (∃ e, answer = Err e ∧ transport_kind e = InvalidCommandFrame)).

Record observed (i : DeviceIdentity) (t t' : T) : Prop := {
  observed_frames : ∃ t1 t2 t3 t4 t5 serial point,
    refused_malformed t t1 ∧
    answered (mkFrame 0x02 []) (Frame.error InvalidCommand) t1 t2 ∧
    answered (mkFrame 0x01 (ascii_bytes "yubihsm qualification echo"))
      (mkFrame 0x81 (ascii_bytes "yubihsm qualification echo")) t2 t3 ∧
    answered (mkFrame 0x06 [])
      (mkFrame 0x86 (identity_version i ++ serial
                     ++ identity_log_capacity i :: identity_log_used i :: identity_algorithms i)) t3 t4 ∧
    len (identity_version i) = 3 ∧ len serial = 4 ∧ from_be_bytes serial = identity_serial i ∧
    answered (mkFrame 0x0a []) (mkFrame 0x8a (0x31 :: point)) t4 t5 ∧ len point = 64 ∧
    answered (mkFrame 0x41 []) (Frame.error InvalidCommand) t5 t';
}.

Lemma plain_answered code data t reply t' :
  plain code data t = (Ok reply, t') → answered (mkFrame code data) reply t t'.
Proof.
  unfold plain, exchange_frame, exchange_raw. intros (f & t1 & Hf & Hx)%eff_bind_ok.
  unfold lift in Hf. injection Hf as Hf <-. apply expect_ok, new_ok in Hf as [-> _].
  apply eff_bind_ok in Hx as (encoded & t2 & Hx & Hp). unfold lift in Hp. injection Hp as Hp <-.
  apply map_err_ok in Hp. exists encoded. split; [|done]. revert Hx.
  unfold exchange, transport_frames.
  destruct (transport_exchange (encode (mkFrame code data)) t) as [[|e| |] ?]; by intros [= <- <-].
Qed.

Lemma device_error_expected response expected u :
  expect_device_error response expected = Ok u → response = Frame.error expected.
Proof.
  unfold expect_device_error. intros He%ensure_ok. bool_prop. destruct response. cbn in *. by subst.
Qed.

Lemma plain_command_answered c data t answer t' :
  plain_command c data t = (Ok answer, t') →
  answered (mkFrame (CommandCode.to_byte c) data)
    (mkFrame (Z.lor (CommandCode.to_byte c) RESPONSE_BIT) answer) t t'.
Proof.
  unfold plain_command. intros (reply & t1 & Hp%plain_answered & Hr)%eff_bind_ok.
  unfold lift in Hr. injection Hr as Hr <-. unfold expect_response in Hr.
  destruct (_ =? ERROR_COMMAND); [done|]. apply outcome_bind_ok in Hr as (u & Hu%ensure_ok & [= <-]).
  bool_prop. destruct reply as [code body]. cbn in *. by subst.
Qed.

Lemma read_identity_ok data i :
  read_identity data = Ok i → ∃ serial,
    data = identity_version i ++ serial ++ identity_log_capacity i :: identity_log_used i :: identity_algorithms i ∧
    len (identity_version i) = 3 ∧ len serial = 4 ∧ from_be_bytes serial = identity_serial i.
Proof.
  unfold read_identity. intros (u & Hl%ensure_ok & Hr)%outcome_bind_ok. bool_prop. exists (ztake 4 (zdrop 3 data)).
  rewrite !slice_ok in Hr by lia. cbn [mbind outcome_bind] in Hr.
  destruct data as [|b0 [|b1 [|b2 [|b3 [|b4 [|b5 [|b6 [|b7 [|b8 rest]]]]]]]]];
    try (unfold len in Hl; cbn in Hl; lia).
  cbn in Hr. by injection Hr as <-.
Qed.

Lemma malformed_frame_refused t u t' : malformed_frame t = (Ok u, t') → refused_malformed t t'.
Proof.
  unfold malformed_frame, refused_malformed. change (CommandCode.to_byte CommandCode.Echo) with 0x01.
  destruct (transport_exchange [0x01; 0; 1] t) as [answer t1]. intros [= Ha <-].
  exists answer. split; [done|]. destruct answer as [encoded|e| |]; try done.
  - left. exists encoded. split; [done|].
    apply outcome_bind_ok in Ha as (response & Hp%map_err_ok & ->%device_error_expected). done.
  - right. exists e. split; [done|]. by destruct (transport_kind e).
Qed.

(** The five cases, one after the other. *)
Lemma read_only_observed i t t1 t2 t3 t4 t' u1 u2 u4 u5 :
  malformed_and_unknown_frames t = (Ok u1, t1) → plain_echo t1 = (Ok u2, t2) →
  device_identity t2 = (Ok i, t3) → device_public_key t3 = (Ok u4, t4) →
  plain_session_boundary t4 = (Ok u5, t') → observed i t t'.
Proof.
  intros (v1 & s1 & H1%malformed_frame_refused & (v2 & s2 & H2%plain_answered & Hu)%eff_bind_ok)%eff_bind_ok
    (v3 & s3 & H3%plain_command_answered & Hecho)%eff_bind_ok
    (v4 & s4 & H4%plain_command_answered & Hi)%eff_bind_ok
    (v5 & s5 & H5%plain_command_answered & (? & ? & Hl & (? & ? & Hx & Hk)%eff_bind_ok)%eff_bind_ok)%eff_bind_ok
    (v6 & s6 & H6%plain_answered & Hb)%eff_bind_ok.
  unfold lift in *. injection Hu as ->%device_error_expected <-. injection Hecho as He <-.
  injection Hi as Hi <-. injection Hb as ->%device_error_expected <-.
  injection Hl as Hl <-. injection Hx as Hx <-. injection Hk as Hk <-.
  apply ensure_ok in He, Hl, Hk. bool_prop. subst v3.
  apply read_identity_ok in Hi as (serial & -> & Hv & Hs & Hn).
  destruct v5 as [|algorithm point]; [done|]. cbn in Hx. injection Hx as ->. rewrite len_cons in Hl.
  subst x1. split. exists s1, s2, s3, s4, s5, serial, point.
  do 7 (split; [done|]). split; [done|]. split; [lia|done].
Qed.
End smoke.

(** ** The device in the same process *)

Section in_process_device.
Context `{Build} `{HX : X509} `{Der} `{Fuel}.

#[local] Existing Instance no_hooks.

#[local] Instance in_process_transport : Transport (Device * World) := λ request s,
  let '(reply, s) := handle_encoded request s in
  (match reply with
   | Ok reply => Ok reply
   | Err _ => Err (transport_error "the device does not return an error")
   | Panic => Panic
   | Diverge => Diverge
   end, s).

(** What the suite relies on: a version of three bytes, a serial number of 32 bits,
    a list of algorithms that fits the answer, and a static key on P-256. *)
Record qualifiable (d : Device) : Prop := {
  qualified_version : len (version (config d)) = 3;
  qualified_serial : 0 ≤ serial (config d) < 2 ^ 32;
  qualified_algorithms : 9 + len (algorithms (config d)) ≤ MAX_DATA_LENGTH;
  qualified_key : ∃ curve prefix point,
    public_key (device_static_private d) = PublicEc curve (prefix :: point) ∧ len point = 64;
}.

(** The identity that the device reports. *)
Definition identity_of (d : Device) : DeviceIdentity :=
  mkIdentity (version (config d)) (serial (config d)) (log_capacity (config d))
    (clamp_u8 (len (entries (audit d)))) (enabled_algorithms d).

(** A device whose sessions alone may differ. *)
Definition same_but_sessions (d d' : Device) : Prop := ∃ t, d' = set_sessions t d.

(** A frame on a device: the sessions that are not live at its time go, and the
    world has read the clock. *)
Definition tick (s s' : Device * World) : Prop :=
  ∃ time t, instant_now s.2 = (time, s'.2) ∧ live_part time (sessions s.1) t ∧ s'.1 = set_sessions t s.1.

Lemma tick_same d s s' : same_but_sessions d s.1 → tick s s' → same_but_sessions d s'.1.
Proof.
  destruct s as [d0 w], s' as [d1 w']. cbn. intros [t0 ->] (time & t & _ & _ & Ht). cbn in Ht. subst. by exists t.
Qed.

(** The answer to a plain frame depends on the device alone; its sessions expire. *)
Definition answers (d : Device) (code : Z) (data : bytes) (reply : Frame) : Prop :=
  ∀ t w, ∃ s', tick (set_sessions t d, w) s' ∧
    handle_frame_with_hooks (mkFrame code data) (set_sessions t d, w) = (Ok reply, s').

Lemma expire_tick d w time w' :
  instant_now w = (time, w') → tick (d, w) (expire_inactive_sessions time d, w').
Proof.
  intros Hw. exists time, (active_table time d). split; [done|]. split; [apply live_part_active|done].
Qed.

Lemma answers_plain d code c data reply :
  CommandCode.from_byte code = Some c →
  c = CommandCode.Echo ∨ c = CommandCode.GetDeviceInfo ∨ c = CommandCode.GetDevicePublicKey →
  (∀ t, execute_plain (set_sessions t d) (mkFrame code data) = Ok reply) →
  answers d code data reply.
Proof.
  intros Hc Hp Hr t w. unfold handle_frame_with_hooks, now.
  destruct (instant_now w) as [time w'] eqn:Hw.
  rewrite (world_run _ _ _ _ time w') by (by rewrite Hw). cbn [Frame.command]. rewrite Hc.
  eexists. split; [by apply expire_tick|]. unfold expire_inactive_sessions.
  unfold modify, get_left, mbind, eff_bind, lift. cbn [fst snd].
  change (set_sessions ?a (set_sessions ?b d)) with (set_sessions a d).
  by destruct Hp as [->|[->| ->]]; cbn [fst snd]; rewrite Hr.
Qed.

Lemma answers_invalid d code data :
  match CommandCode.from_byte code with
  | None | Some CommandCode.GetStorageInfo => True
  | _ => False
  end → answers d code data (Frame.error InvalidCommand).
Proof.
  intros Hc t w. unfold handle_frame_with_hooks, now.
  destruct (instant_now w) as [time w'] eqn:Hw.
  rewrite (world_run _ _ _ _ time w') by (by rewrite Hw). cbn [Frame.command].
  eexists. split; [by apply expire_tick|].
  unfold modify, mbind, eff_bind. cbn [fst snd].
  destruct (CommandCode.from_byte code) as [[]|]; done.
Qed.

(** One exchange of the client. *)
Lemma plain_exchange d d0 w code data reply :
  same_but_sessions d d0 → answers d code data reply →
  len data ≤ MAX_DATA_LENGTH → len (Frame.data reply) ≤ MAX_DATA_LENGTH →
  ∃ d' w', plain code data (d0, w) = (Ok reply, (d', w')) ∧ same_but_sessions d d' ∧ tick (d0, w) (d', w').
Proof.
  intros [t ->] Ha Hd Hr. destruct (Ha t w) as ([d' w'] & Hs & Hh).
  exists d', w'. split; [|split; [|done]].
  2: by apply (tick_same d (set_sessions t d, w) (d', w')); [exists t|exact Hs]. unfold plain. rewrite new_fits by done.
  cbn [expect]. rewrite lift_bind. unfold exchange_frame, exchange_raw, parse_frame.
  assert (exchange (encode (mkFrame code data)) (set_sessions t d, w) = (Ok (encode reply), (d', w'))) as Hx.
  { unfold exchange, transport_frames, transport_exchange, in_process_transport, handle_encoded,
      handle_encoded_hooks.
    rewrite encode_parse_ok by done. unfold mbind, eff_bind. by rewrite Hh. }
  rewrite (eff_run _ _ _ _ _ Hx). destruct reply. by rewrite encode_parse_ok.
Qed.

Lemma plain_command_exchange d d0 w code data answer :
  same_but_sessions d d0 →
  answers d (CommandCode.to_byte code) data (Frame.response (CommandCode.to_byte code) answer) →
  Z.lor (CommandCode.to_byte code) RESPONSE_BIT ≠ ERROR_COMMAND →
  len data ≤ MAX_DATA_LENGTH → len answer ≤ MAX_DATA_LENGTH →
  ∃ d' w', plain_command code data (d0, w) = (Ok answer, (d', w')) ∧ same_but_sessions d d' ∧
    tick (d0, w) (d', w').
Proof.
  intros Hd Ha Hne Hl Hr.
  destruct (plain_exchange d d0 w _ data _ Hd Ha Hl Hr) as (d' & w' & Hp & Hs).
  exists d', w'. split; [|done]. unfold plain_command. rewrite (eff_run _ _ _ _ _ Hp).
  unfold expect_response, Frame.response. cbn [Frame.command Frame.data].
  rewrite (proj2 (Z.eqb_neq _ _)), Z.eqb_refl by done. done.
Qed.

Lemma malformed_frame_passes d w : malformed_frame (d, w) = (Ok tt, (d, w)).
Proof. reflexivity. Qed.

(** The description of a device, as the client reads it. *)
Definition info_bytes (d : Device) : bytes :=
  version (config d) ++ u32_to_be_bytes (serial (config d)) ++
  [log_capacity (config d); clamp_u8 (len (entries (audit d)))] ++ enabled_algorithms d.

Lemma enabled_algorithms_len d : len (enabled_algorithms d) ≤ len (algorithms (config d)).
Proof.
  unfold enabled_algorithms. induction (algorithms (config d)) as [|x l IH]; [done|].
  cbn [List.filter]. destruct (algorithm_enabled d x); rewrite !len_cons in *; lia.
Qed.

Lemma info_bytes_len d :
  qualifiable d → len (info_bytes d) = 9 + len (enabled_algorithms d) ∧ len (info_bytes d) ≤ MAX_DATA_LENGTH.
Proof.
  intros [Hv _ Ha _]. unfold info_bytes. pose proof (enabled_algorithms_len d).
  rewrite !len_app, Hv, len_u32_to_be_bytes, !len_cons, len_nil. lia.
Qed.

Lemma read_info_bytes d : qualifiable d → read_identity (info_bytes d) = Ok (identity_of d).
Proof.
  intros Hq. destruct (info_bytes_len d Hq) as [Hl _]. destruct Hq as [Hv Hs _ _].
  unfold read_identity. pose proof (len_nonneg (enabled_algorithms d)).
  rewrite Hl, (proj2 (Z.leb_le _ _)) by lia. cbn [ensure mbind outcome_bind].
  unfold info_bytes, identity_of. pose proof (len_u32_to_be_bytes (serial (config d))) as Hn.
  assert (from_be_bytes (u32_to_be_bytes (serial (config d))) = serial (config d)) as Hf
    by (unfold u32_to_be_bytes; rewrite from_to_be_bytes; by apply Z.mod_small).
  destruct (version (config d)) as [|v0 [|v1 [|v2 [|? ?]]]]; try (unfold len in Hv; cbn in Hv; lia).
  destruct (u32_to_be_bytes (serial (config d))) as [|n0 [|n1 [|n2 [|n3 [|? ?]]]]] eqn:Hen;
    try (unfold len in Hn; cbn in Hn; lia).
  cbn [app] in *.
  set (l := v0 :: v1 :: v2 :: _). assert (9 ≤ len l) by (unfold l; rewrite !len_cons; lia).
  rewrite !slice_ok by lia. cbn [mbind outcome_bind].
  rewrite (index_ok l 7 (log_capacity (config d))), (index_ok l 8 (clamp_u8 (len (entries (audit d)))))
    by (lia || done).
  cbn [mbind outcome_bind]. do 2 f_equal. exact Hf.
Qed.


Lemma run_case_value_ok {T A} name passed (m : Eff T string A) s a s' :
  m s = (Ok a, s') → run_case_value name passed m s = (Ok (a, passed ++ [name]), s').
Proof. unfold run_case_value. by intros ->. Qed.

(** A case that passes, and the cases after it. *)
Lemma run_case_ok {T A} name passed (m : Eff T string unit) s s' (f : list string → Eff T _ A) :
  m s = (Ok tt, s') → (run_case name passed m ≫= f) s = f (passed ++ [name]) s'.
Proof.
  intros Hm. apply eff_run. unfold run_case.
  by rewrite (eff_run _ _ _ _ _ (run_case_value_ok name passed m s tt s' Hm)).
Qed.

(** The names of the cases, in the order of the report. *)
Definition read_only_names : list string :=
  ["malformed and unknown frames"; "plain echo"; "device identity"; "device public key";
   "plain session boundary"]%string.

(** The five cases pass on the device, and change nothing of it but that idle
    sessions expire. *)
Lemma read_only_cases_pass d w :
  qualifiable d →
  ∃ s', read_only_cases (d, w) = (Ok (identity_of d, read_only_names), s') ∧
    nsteps tick 5 (d, w) s'.
Proof.
  intros Hq. pose proof (info_bytes_len d Hq) as [_ Hinfo].
  destruct (qualified_key d Hq) as (curve & prefix & point & Hkey & Hpoint).
  destruct (plain_exchange d d w 0x02 [] (Frame.error InvalidCommand))
    as (d1 & w1 & X1 & S1 & T1); [by exists (sessions d); destruct d|by apply answers_invalid|by vm_compute..|].
  destruct (plain_command_exchange d d1 w1 CommandCode.Echo echo_payload echo_payload)
    as (d2 & w2 & X2 & S2 & T2); [done|by eapply answers_plain; [|left|]|by vm_compute..|].
  destruct (plain_command_exchange d d2 w2 CommandCode.GetDeviceInfo [] (info_bytes d))
    as (d3 & w3 & X3 & S3 & T3); [done|by eapply answers_plain; [|right; left|]|by vm_compute|by vm_compute|done|].
  destruct (plain_command_exchange d d3 w3 CommandCode.GetDevicePublicKey []
              (Algorithm.to_byte EcP256YubicoAuthentication :: point))
    as (d4 & w4 & X4 & S4 & T4); [done| |by vm_compute|by vm_compute|rewrite len_cons, Hpoint; by vm_compute|].
  { eapply answers_plain; [done|by right; right|]. intros t. 
    unfold execute_plain, execute_plain_or_authenticated. cbn. by rewrite Hkey. }
  destruct (plain_exchange d d4 w4 (CommandCode.to_byte CommandCode.GetStorageInfo) [] (Frame.error InvalidCommand))
    as (d5 & w5 & X5 & S5 & T5); [done|by apply answers_invalid|by vm_compute..|].
  exists (d5, w5). split; [|by eauto 10 using nsteps_O, nsteps_l]. unfold read_only_cases.
  assert (malformed_and_unknown_frames (d, w) = (Ok tt, (d1, w1))) as C1.
  { unfold malformed_and_unknown_frames. rewrite (eff_run _ _ _ _ _ (malformed_frame_passes d w)).
    rewrite (eff_run _ _ _ _ _ X1). by vm_compute. }
  assert (plain_echo (d1, w1) = (Ok tt, (d2, w2))) as C2.
  { unfold plain_echo. by rewrite (eff_run _ _ _ _ _ X2). }
  assert (device_identity (d2, w2) = (Ok (identity_of d), (d3, w3))) as C3.
  { unfold device_identity. rewrite (eff_run _ _ _ _ _ X3). unfold lift. by rewrite read_info_bytes. }
  assert (device_public_key (d3, w3) = (Ok tt, (d4, w4))) as C4.
  { unfold device_public_key. rewrite (eff_run _ _ _ _ _ X4). by rewrite len_cons, Hpoint. }
  assert (plain_session_boundary (d4, w4) = (Ok tt, (d5, w5))) as C5.
  { unfold plain_session_boundary. rewrite (eff_run _ _ _ _ _ X5). by vm_compute. }
  rewrite (run_case_ok _ _ _ _ _ _ C1), (run_case_ok _ _ _ _ _ _ C2).
  rewrite (eff_run _ _ _ _ _ (run_case_value_ok _ _ _ _ _ _ C3)).
  cbv beta iota. by rewrite (run_case_ok _ _ _ _ _ _ C4), (run_case_ok _ _ _ _ _ _ C5).
Qed.
End in_process_device.
