(* ===== verification/Credentials.v ===== *)
(** * Credentials of the qualification client
    (crates/yubihsm-qualification/src/lib.rs, lines 324-395 and 2442-2454, 2515-2585;
    crates/yubihsm-qualification/src/credentials.rs)

    A host authenticates with a symmetric key, or with an asymmetric credential
    that a provider holds: a key of the platform's key store, or a YubiHSM Auth
    applet behind a smart-card reader. The key store, the smart-card service, the
    applet's client library and the P-256 library are parameters. *)

From S2P Require Import Prelude Error Io Frame Firmware Algorithm Protocol KeyCore SecureChannel.
From S2P Require Import HostSession.

(** ** Credentials (lib.rs) *)

(** The receipt key is absent when the provider has verified the receipt. *)
Record AsymmetricSessionKeys : Set := mkSessionKeys {
  receipt_key : option bytes;
  encryption : bytes;
  mac : bytes;
  response_mac : bytes;
}.

(** The traits [AsymmetricCredentialProvider] and [AsymmetricCredentialAttempt] as
    one object: an attempt is used for one session. *)
Record AsymmetricCredentialProvider (T : Type) : Type := mkProvider {
  Attempt : Type;
  begin : Eff T string Attempt;
  description : string;
  host_public_key : Attempt → bytes;
  derive_session_keys : Attempt → bytes → bytes → bytes → Eff T string AsymmetricSessionKeys;
}.
Arguments Attempt {T}.
Arguments begin {T}.
Arguments description {T}.
Arguments host_public_key {T}.
Arguments derive_session_keys {T}.

Inductive CredentialMaterial (T : Type) : Type :=
| SymmetricCredential (static_keys : bytes)
| AsymmetricCredential (provider : AsymmetricCredentialProvider T).
Arguments SymmetricCredential {T}.
Arguments AsymmetricCredential {T}.

Record Credentials (T : Type) : Type := mkCredentials {
  authentication_key_id : Z;
  credential_material : CredentialMaterial T;
}.
Arguments mkCredentials {T}.
Arguments authentication_key_id {T}.
Arguments credential_material {T}.

(** The [p256] library: the secret scalar, its uncompressed public key, the
    encoding of points and the agreement. *)
Class P256Library := {
  P256Secret : Type;
  P256Point : Type;
  secret_from_slice : bytes → option P256Secret;
  secret_public_bytes : P256Secret → bytes;
  from_sec1_bytes : bytes → P256Point + string;
  diffie_hellman : P256Secret → P256Point → bytes;
}.

Section credentials.
Context `{SoftwareKeyCore} `{!P256Library} {T : Type} `{FrameTransport T}.

Definition from_password (id : Z) (password : bytes) : Credentials T :=
  mkCredentials id (SymmetricCredential (yubico_password_kdf password)).

Definition from_static_keys (id : Z) (static_keys : bytes) : Credentials T :=
  mkCredentials id (SymmetricCredential static_keys).

Definition from_asymmetric (id : Z) (provider : AsymmetricCredentialProvider T) : Credentials T :=
  mkCredentials id (AsymmetricCredential provider).

(** A point that must decode, with the error of the library. *)
Definition check_point (what : string) (encoded : bytes) : outcome string P256Point :=
  match from_sec1_bytes encoded with
  | inl point => Ok point
  | inr error => Err (what +:+ ": " +:+ error)
  end.

(** The receipt, when the provider leaves it to the caller. *)
Definition verify_receipt (keys : AsymmetricSessionKeys)
    (device_ephemeral host_public_key receipt : bytes) : outcome string unit :=
  match receipt_key keys with
  | Some key =>
      expected_receipt ← sum_or (aes_cmac key (device_ephemeral ++ host_public_key))
                           "asymmetric session receipt failed";
      ensure (bool_decide (expected_receipt = receipt)) "asymmetric session receipt did not verify"
  | None => Ok tt
  end.

Definition open_asymmetric (authentication_key_id : Z) (provider : AsymmetricCredentialProvider T) :
    Eff T string SymmetricSession :=
  attempt ← begin provider;
  let host_public_key := host_public_key provider attempt in
  _ ← lift (ensure ((len host_public_key =? 65) && bool_decide (head host_public_key = Some 0x04))
              (description provider +:+ " returned an invalid P-256 host public key"));
  let create_data := u16_to_be_bytes authentication_key_id ++ host_public_key in
  request ← lift (expect (new (CommandCode.to_byte CommandCode.CreateSession) create_data));
  response ← exchange_frame request;
  create ← lift (expect_response response CommandCode.CreateSession);
  _ ← lift (ensure (len create =? 82)
              ("asymmetric Create Session returned " +:+ decimal (len create) +:+ " bytes"));
  sid ← lift (index create 0);
  device_ephemeral ← lift (slice create 1 66);
  _ ← lift (check_point "invalid device ephemeral public key" device_ephemeral);
  let receipt := zdrop 66 create in
  request ← lift (expect (new (CommandCode.to_byte CommandCode.GetDevicePublicKey) []));
  response ← exchange_frame request;
  device_public ← lift (expect_response response CommandCode.GetDevicePublicKey);
  _ ← lift (ensure (len device_public =? 65)
              ("Get Device Public Key returned " +:+ decimal (len device_public) +:+ " bytes"));
  let device_public_key := 0x04 :: zdrop 1 device_public in
  _ ← lift (check_point "invalid device static public key" device_public_key);
  keys ← derive_session_keys provider attempt (host_public_key ++ device_ephemeral)
           device_public_key receipt;
  _ ← lift (verify_receipt keys device_ephemeral host_public_key receipt);
  mret (mkHost sid (encryption keys) (mac keys) (response_mac keys)
          (zeros (AES_BLOCK_SIZE - 1) ++ [1]) receipt).

(** [SymmetricSession::open]. *)
Definition open_host_session (credentials : Credentials T) : Eff T string SymmetricSession :=
  match credential_material credentials with
  | SymmetricCredential static_keys =>
      open_symmetric (authentication_key_id credentials) static_keys
  | AsymmetricCredential provider => open_asymmetric (authentication_key_id credentials) provider
  end.
End credentials.

(** The transport's state holds the host's world: providers draw randomness and
    talk to devices of their own. *)
Class HostWorld `{Platform} (T : Type) := over_world : ∀ {A}, Eff World string A → Eff T string A.

(** A library call that reports its error as text, with the text of the case. *)
Definition host_call {W A} (what : string) (f : W → (A + string) * W) : Eff W string A := λ w,
  let '(r, w) := f w in
  (match r with inl a => Ok a | inr error => Err (what +:+ error) end, w).

(** ** A key of the platform's key store (credentials.rs, [platform]) *)

Module Platform.

(** [platform_credential]: asymmetric credentials agree with a peer on a secret and
    derive keys from a prefix and that secret; symmetric ones do not. *)
Class PlatformCredentials `{Platform} := {
  PrefixedX963Credential : Type;
  resolve_platform_credential :
    string → World → (option PrefixedX963Credential + string) * World;
  derive_prefixed_x963 :
    PrefixedX963Credential → SoftwarePublicKey → HashAlgorithm → bytes → bytes → Z →
    World → (bytes + string) * World;
}.

Section platform.
Context `{SoftwareKeyCore} `{!P256Library} `{!PlatformCredentials} `{Fuel}.

Record Provider : Type := mkPlatform {
  name : string;
  credential : PrefixedX963Credential;
}.

(** The variants of [PlatformAuthenticationCredential]: asymmetric, or symmetric. *)
Definition resolve (name : string) : Eff World string Provider :=
  credential ← host_call "" (resolve_platform_credential name);
  match credential with
  | Some credential => mret (mkPlatform name credential)
  | None =>
      fail ("platform credential " +:+ debug name
            +:+ " is symmetric; asymmetric YubiHSM authentication requires P-256")
  end.

Record PlatformAttempt : Type := mkAttempt {
  attempt_credential : PrefixedX963Credential;
  secret : P256Secret;
  attempt_public_key : bytes;
}.

(** Draws until a scalar is in range. *)
Fixpoint fresh_secret (draws : nat) : Eff World string P256Secret :=
  match draws with
  | O => lift Diverge
  | S draws =>
      scalar ← (λ w, let '(r, w) := getrandom_fill 32 w in
                     (ok_or r "random generation failed"%string, w));
      match secret_from_slice scalar with
      | Some secret => mret secret
      | None => fresh_secret draws
      end
  end.

Definition begin_attempt (self : Provider) : Eff World string PlatformAttempt :=
  secret ← fresh_secret fuel;
  mret (mkAttempt (credential self) secret (secret_public_bytes secret)).

Definition split_session_keys (keys : bytes) : outcome string AsymmetricSessionKeys :=
  if negb (len keys =? 64) then
    Err ("session KDF returned " +:+ decimal (len keys) +:+ " bytes, expected 64")
  else
    receipt ← slice keys 0 16;
    encryption ← slice keys 16 32;
    mac ← slice keys 32 48;
    response_mac ← slice keys 48 64;
    Ok (mkSessionKeys (Some receipt) encryption mac response_mac).

Definition derive_keys (self : PlatformAttempt) (context device_public_key receipt : bytes) :
    Eff World string AsymmetricSessionKeys :=
  _ ← lift (ensure ((len context =? 130) && bool_decide (ztake 65 context = attempt_public_key self))
              "asymmetric session context changed the host public key");
  device_ephemeral ← lift (check_point "invalid device ephemeral key" (zdrop 65 context));
  let ephemeral_secret := diffie_hellman (secret self) device_ephemeral in
  keys ← host_call "platform session-key derivation failed: "
           (derive_prefixed_x963 (attempt_credential self) (PublicEc P256 device_public_key) Sha256
              ephemeral_secret [0x3c; 0x88; 0x10] 64);
  lift (split_session_keys keys).

Definition platform_provider {T} `{!HostWorld T} (self : Provider) : AsymmetricCredentialProvider T :=
  {| Attempt := PlatformAttempt;
     begin := over_world (begin_attempt self);
     description := "platform credential " +:+ debug (name self);
     host_public_key := attempt_public_key;
     derive_session_keys attempt context device_public_key receipt :=
       over_world (derive_keys attempt context device_public_key receipt); |}.
End platform.
End Platform.

(** [slice::chunks]: the chunks of a list, all of length [n] but the last. *)
Fixpoint chunks_within {A} (rounds : nat) (n : Z) (l : list A) : list (list A) :=
  match rounds, l with
  | S rounds, _ :: _ => ztake n l :: chunks_within rounds n (zdrop n l)
  | _, _ => []
  end.
Definition chunks {A} (n : Z) (l : list A) : list (list A) := chunks_within (List.length l) n l.

(** ** A YubiHSM Auth applet (credentials.rs, [hsmauth]) *)

Module HsmAuth.

(** [yubihsm_auth_client::Command] and [Response]. *)
Record Command : Set := mkCommand { cla : Z; instruction : Z; p1 : Z; p2 : Z; command_data : bytes }.
Record Response : Set := mkResponse { response_data : bytes; status : Z }.

(** A lock that is never held by a panicking thread is not poisoned. *)
Inductive PcscTransportError : Set :=
| PcscFailure (error : string)
| Poisoned
| MalformedResponse
| ChainingResponse.

Definition transport_error_text (self : PcscTransportError) : string :=
  match self with
  | PcscFailure error => error
  | Poisoned => "PC/SC card lock is poisoned"
  | MalformedResponse => "PC/SC response has no status word"
  | ChainingResponse => "invalid intermediate APDU chaining response"
  end.

(** [pcsc]: the smart-card service, and one exchange with a card. *)
Class Pcsc `{Platform} := {
  PcscContext : Type;
  Card : Type;
  establish : World → (PcscContext + string) * World;
  list_readers_owned : PcscContext → World → (list bytes + string) * World;
  connect : PcscContext → bytes → World → (Card + string) * World;
  card_transmit : Card → bytes → World → (bytes + string) * World;
}.

(** [yubihsm_auth_client::Client], over any exchange of commands. *)
Class HsmAuthClient `{Platform} := {
  client_select :
    (Command → Eff World PcscTransportError Response) → World → (unit + string) * World;
  client_get_challenge :
    (Command → Eff World PcscTransportError Response) → string → option bytes →
    World → (bytes + string) * World;
  calculate_session_keys_asymmetric :
    (Command → Eff World PcscTransportError Response) → string → bytes → bytes → bytes → bytes →
    World → ((bytes * bytes * bytes) + string) * World;
}.

Section hsmauth.
Context `{Platform} `{!Pcsc} `{!HsmAuthClient}.

(** The response without its status word. *)
Definition read_response (response : bytes) : outcome PcscTransportError Response :=
  if len response <? 2 then Err MalformedResponse
  else
    high ← index response (len response - 2);
    low ← index response (len response - 1);
    Ok (mkResponse (ztake (len response - 2) response) (from_be_bytes [high; low])).

Definition transmit (card : Card) (cla instruction p1 p2 : Z) (data : bytes) :
    Eff World PcscTransportError Response :=
  received ← (λ w,
    let '(r, w) := card_transmit card ([cla; instruction; p1; p2; len data mod 256] ++ data) w in
    (match r with inl received => Ok received | inr error => Err (PcscFailure error) end, w));
  lift (read_response received).

(** The loop over the chunks: all but the last are sent with the chaining bit. *)
Fixpoint exchange_chunks (card : Card) (command : Command) (chunks : list bytes) :
    Eff World PcscTransportError Response :=
  match chunks with
  | [] => lift Panic
  | chunk :: chunks =>
      let last := bool_decide (chunks = []) in
      response ← transmit card (if last then cla command else Z.lor (cla command) 0x10)
                   (instruction command) (p1 command) (p2 command) chunk;
      if last then mret response
      else if negb (status response =? 0x9000) || negb (bool_decide (response_data response = []))
      then fail ChainingResponse
      else exchange_chunks card command chunks
  end.

(** [Transport::exchange]. *)
Definition apdu_exchange (card : Card) (command : Command) : Eff World PcscTransportError Response :=
  if bool_decide (command_data command = []) then
    transmit card (cla command) (instruction command) (p1 command) (p2 command) []
  else exchange_chunks card command (chunks 255 (command_data command)).

Record Provider : Set := mkHsmAuth {
  label : string;
  password : bytes;
  reader_filter : option string;
}.

Record HsmAuthAttempt : Type := mkAttempt {
  attempt_card : Card;
  attempt_label : string;
  attempt_password : bytes;
  attempt_public_key : bytes;
}.

(** The challenge of the credential on a reader; a reader that fails is skipped. *)
Definition reader_challenge (self : Provider) (context : PcscContext) (reader : bytes) :
    World → option (Card * bytes) * World := λ w,
  let '(card, w) := connect context reader w in
  match card with
  | inr _ => (None, w)
  | inl card =>
      let '(selected, w) := client_select (apdu_exchange card) w in
      match selected with
      | inr _ => (None, w)
      | inl _ =>
          let '(challenge, w) :=
            client_get_challenge (apdu_exchange card) (label self) (Some (password self)) w in
          match challenge with
          | inr _ => (None, w)
          | inl challenge =>
              (if negb (len challenge =? 65) || negb (bool_decide (head challenge = Some 0x04))
               then None else Some (card, challenge), w)
          end
      end
  end.

Definition reader_excluded (self : Provider) (reader : bytes) : bool :=
  match reader_filter self with
  | Some filter => negb (contains_text (ascii_bytes filter) (from_utf8_lossy reader))
  | None => false
  end.

(** The loop over the readers: at most one may have the credential. *)
Fixpoint select_reader (self : Provider) (context : PcscContext) (readers : list bytes)
    (selected : option HsmAuthAttempt) : Eff World string (option HsmAuthAttempt) := λ w,
  match readers with
  | [] => (Ok selected, w)
  | reader :: readers =>
      if reader_excluded self reader then select_reader self context readers selected w
      else
        let '(found, w) := reader_challenge self context reader w in
        match found, selected with
        | None, _ => select_reader self context readers selected w
        | Some _, Some _ =>
            (Err ("YubiHSM Auth credential " +:+ debug (label self)
                  +:+ " is available on more than one reader; set YUBIHSM_QUALIFICATION_HSMAUTH_READER"), w)
        | Some (card, challenge), None =>
            select_reader self context readers
              (Some (mkAttempt card (label self) (password self) challenge)) w
        end
  end.

Definition begin_attempt (self : Provider) : Eff World string HsmAuthAttempt :=
  context ← host_call "PC/SC initialization failed: " establish;
  readers ← host_call "PC/SC reader enumeration failed: " (list_readers_owned context);
  selected ← select_reader self context readers None;
  lift (ok_or selected ("YubiHSM Auth credential " +:+ debug (label self)
                        +:+ " was not available on a matching PC/SC reader")).

(** The applet verifies the receipt itself. *)
Definition derive_keys (self : HsmAuthAttempt) (context device_public_key receipt : bytes) :
    Eff World string AsymmetricSessionKeys :=
  '(enc, mac, rmac) ← host_call "YubiHSM Auth calculation failed: "
    (calculate_session_keys_asymmetric (apdu_exchange (attempt_card self)) (attempt_label self)
       context device_public_key receipt (attempt_password self));
  mret (mkSessionKeys None enc mac rmac).

Definition hsmauth_provider {T} `{!HostWorld T} (self : Provider) : AsymmetricCredentialProvider T :=
  {| Attempt := HsmAuthAttempt;
     begin := over_world (begin_attempt self);
     description := "YubiHSM Auth credential " +:+ debug (label self);
     host_public_key := attempt_public_key;
     derive_session_keys attempt context device_public_key receipt :=
       over_world (derive_keys attempt context device_public_key receipt); |}.
End hsmauth.
End HsmAuth.

(** ** The credentials of the connector target *)

(** [std::env::var], for variables whose value is Unicode. *)
Class Environment := environment_variable : string → option string.

(** The Cargo features of the qualification crate. *)
Class CredentialFeatures := { native_hsmauth : bool; platform_credential : bool }.

Section connector.
Context `{SoftwareKeyCore} `{!P256Library} `{!Platform.PlatformCredentials} `{!HsmAuth.Pcsc}
  `{!HsmAuth.HsmAuthClient} `{Fuel} `{Environment} `{CredentialFeatures} {T : Type} `{!HostWorld T}.

Definition connector_credentials (authentication_key_id : Z) : Eff World string (Credentials T) :=
  match environment_variable "YUBIHSM_QUALIFICATION_HSMAUTH_LABEL" with
  | Some label =>
      if native_hsmauth then
        password ← lift (ok_or (environment_variable "YUBIHSM_QUALIFICATION_HSMAUTH_PASSWORD")
          "YubiHSM Auth qualification requires YUBIHSM_QUALIFICATION_HSMAUTH_PASSWORD"%string);
        let reader := environment_variable "YUBIHSM_QUALIFICATION_HSMAUTH_READER" in
        mret (from_asymmetric authentication_key_id
                (HsmAuth.hsmauth_provider (HsmAuth.mkHsmAuth label (ascii_bytes password) reader)))
      else fail "YubiHSM Auth qualification requires the native-hsmauth feature"%string
  | None =>
      match environment_variable "YUBIHSM_QUALIFICATION_PLATFORM_CREDENTIAL" with
      | Some name =>
          if platform_credential then
            provider ← Platform.resolve name;
            mret (from_asymmetric authentication_key_id (Platform.platform_provider provider))
          else fail "platform qualification requires the platform-credential feature"%string
      | None =>
          password ← lift (ok_or (environment_variable "YUBIHSM_QUALIFICATION_PASSWORD")
            ("authenticated qualification requires a YubiHSM Auth, platform, or direct symmetric credential")%string);
          mret (from_password authentication_key_id (ascii_bytes password))
      end
  end.
End connector.

(** ** Lemmas *)

Lemma chunks_within_concat {A} rounds n (l : list A) :
  0 < n → (List.length l ≤ rounds)%nat → concat (chunks_within rounds n l) = l.
Proof.
  intros Hn. revert l. induction rounds as [|rounds IH]; intros [|x l] Hl; cbn in Hl |- *; [done|lia|done|].
  rewrite IH, ztake_zdrop; [done|]. unfold zdrop. rewrite length_drop. cbn. lia.
Qed.

(** The chunks hold the whole list, and there is one unless it is empty. *)
Lemma chunks_concat {A} n (l : list A) : 0 < n → concat (chunks n l) = l.
Proof. intros Hn. by apply chunks_within_concat. Qed.

Lemma chunks_nil {A} n (l : list A) : chunks n l = [] → l = [].
Proof. by destruct l. Qed.

Section hsmauth_lemmas.
Context `{Platform} `{!HsmAuth.Pcsc}.

Lemma transmit_returns card c i p1 p2 data w :
  (HsmAuth.transmit card c i p1 p2 data w).1 ≠ Panic.
Proof.
  unfold HsmAuth.transmit, mbind, eff_bind. destruct (HsmAuth.card_transmit _ _ _) as [[r|e] w']; [|done].
  unfold lift, HsmAuth.read_response. cbn [fst]. destruct (len r <? 2) eqn:Hl; [done|]. apply Z.ltb_ge in Hl.
  destruct (index_lt (E := HsmAuth.PcscTransportError) r (len r - 2)) as [? ->]; [lia|].
  destruct (index_lt (E := HsmAuth.PcscTransportError) r (len r - 1)) as [? ->]; [lia|]. done.
Qed.

(** The [unreachable!] after the loop over the chunks is not reached. *)
Lemma apdu_exchange_returns card command w : (HsmAuth.apdu_exchange card command w).1 ≠ Panic.
Proof.
  unfold HsmAuth.apdu_exchange. case_bool_decide as Hd; [apply transmit_returns|].
  assert (chunks 255 (HsmAuth.command_data command) ≠ []) as Hne by by intros ?%chunks_nil.
  revert w. induction (chunks _ _) as [|chunk chunks IH]; intros w; [done|].
  cbn [HsmAuth.exchange_chunks]. unfold mbind, eff_bind.
  pose proof (transmit_returns card (if bool_decide (chunks = []) then HsmAuth.cla command
    else Z.lor (HsmAuth.cla command) 16) (HsmAuth.instruction command) (HsmAuth.p1 command)
    (HsmAuth.p2 command) chunk w) as Ht.
  destruct (HsmAuth.transmit _ _ _ _ _ _ _) as [[r|e| |] w']; try done.
  case_bool_decide as Hl; [done|]. destruct (_ || _); [done|]. by apply IH.
Qed.
End hsmauth_lemmas.
