(* ===== verification/AsymmetricHandshake.v ===== *)
(** * Sessions under an asymmetric credential

    The host of [Credentials] with a key of the platform's key store, and the
    device of [Sessions], over the in-process transport: both ends derive the same
    keys from two key agreements, and the session that opens is authenticated. *)

From S2P Require Import Prelude Error Io Frame Firmware Algorithm Capability Protocol KeyCore.
From S2P Require Import Wire Objects Authorization SessionObjects Requests SecureChannel.
From S2P Require Import DeviceState ObjectStore ObjectCommands KeyUse Wrapping Attestation.
From S2P Require Import SessionObjectCommands Dispatch CommandEffects StoreProperties.
From S2P Require Import Sessions SessionSteps HostSession InProcess Credentials.

Import Credentials.Platform.

(** ** What the client relies on

    Keys on P-256 have uncompressed points of 65 bytes that decode, and key
    agreement is symmetric: between two signing keys, between a scalar and a
    signing key, and in a credential, whose key is [credential_key]. *)
Class KeyAgreementLaws `{SoftwareKeyCore} `{!P256Library} `{!PlatformCredentials} := {
  credential_key : PrefixedX963Credential → SoftwareSigningKey;
  generated_point k w w' :
    generate_for_kind (KindEc P256) w = (Some k, w') →
    ∃ point, public_key k = PublicEc P256 (0x04 :: point) ∧ len point = 64;
  secret_point s : ∃ point, secret_public_bytes s = 0x04 :: point ∧ len point = 64;
  point_decodes k point :
    public_key k = PublicEc P256 (0x04 :: point) → len point = 64 →
    ∃ p, from_sec1_bytes (0x04 :: point) = inl p;
  agreement_commutes k1 k2 p1 p2 :
    public_key k1 = PublicEc P256 p1 → public_key k2 = PublicEc P256 p2 →
    derive_with_signing_key k1 p2 = derive_with_signing_key k2 p1;
  diffie_hellman_agrees s k encoded p :
    public_key k = PublicEc P256 encoded → from_sec1_bytes encoded = inl p →
    derive_with_signing_key k (secret_public_bytes s) = Some (diffie_hellman s p);
  credential_derives c peer prefix info n z keys w :
    derive_with_signing_key (credential_key c) peer = Some z →
    x963_kdf_sha256 (prefix ++ z) info n = Some keys →
    ∃ w', derive_prefixed_x963 c (PublicEc P256 peer) Sha256 prefix info n w = (inl keys, w');
}.

(** The host and the device draw from the same world. *)
#[export] Instance in_process_world `{SoftwareKeyCore} : HostWorld (Device * World) :=
  λ A m, on_world m.

Section handshake.
Context `{Build} `{HX : X509} `{Der} `{Fuel} `{!P256Library} `{!PlatformCredentials}.
Context `{!KeyAgreementLaws} `{!ChannelLaws}.

#[local] Existing Instance no_hooks.

(** ** The device *)

(** How the device's keys come about. *)
Lemma begin_asymmetric_ok sid key host_point host_ephemeral w s encoded receipt w' :
  begin_asymmetric sid key host_point host_ephemeral w = (Ok (s, encoded, receipt), w') →
  len host_point = 64 →
  ∃ k point ephemeral static keys,
    public_key k = PublicEc P256 encoded ∧ encoded = 0x04 :: point ∧ len point = 64 ∧
    derive_with_signing_key k host_ephemeral = Some ephemeral ∧
    derive_with_signing_key key (0x04 :: host_point) = Some static ∧
    x963_kdf_sha256 (ephemeral ++ static) SCP11_SHARED_INFO 64 = Some keys ∧ len keys = 64 ∧
    aes_cmac (ztake 16 keys) (encoded ++ host_ephemeral) = inl receipt ∧
    s = mkSecure sid (ztake 16 (zdrop 16 keys)) (ztake 16 (zdrop 32 keys)) (ztake 16 (zdrop 48 keys))
          (increment_counter (zeros BLOCK_SIZE)) receipt.
Proof.
  intros Hb Hhost. unfold begin_asymmetric in Hb.
  apply eff_bind_ok in Hb as ([] & w1 & Hr & Hb). apply eff_bind_ok in Hb as (normal & w2 & Hn & Hb).
  rewrite Hhost in Hn. injection Hn as <- <-.
  apply eff_bind_ok in Hb as (k & w3 & Hk & Hb). unfold random_secret_key, call in Hk.
  destruct (generate_for_kind _ _) as [[k'|] w4] eqn:Hg; [|done]. injection Hk as -> ->.
  destruct (generated_point _ _ _ Hg) as (point & Hpoint & Hlen). rewrite Hpoint in Hb.
  apply eff_bind_ok in Hb as (e & w5 & [= <- <-] & Hb).
  apply lift_bind_ok in Hb as ([] & _ & Hb).
  apply lift_bind_ok in Hb as (ephemeral & Hephemeral%ok_or_ok & Hb).
  apply lift_bind_ok in Hb as (static & Hstatic%ok_or_ok & Hb).
  apply lift_bind_ok in Hb as (keys & Hkeys & Hb). unfold x963_session_keys in Hkeys.
  apply outcome_bind_ok in Hkeys as (keys' & Hkdf%ok_or_ok & Hkeys).
  destruct (len keys' =? 64) eqn:H64; [injection Hkeys as ->|done]. apply Z.eqb_eq in H64.
  rewrite !slice_ok in Hb by lia.
  repeat (apply lift_bind_ok in Hb as (? & [= <-] & Hb)).
  apply lift_bind_ok in Hb as (receipt' & Hreceipt & Hb). unfold cmac, map_symmetric in Hreceipt.
  destruct (aes_cmac _ _) as [r|e'] eqn:Hcmac; [injection Hreceipt as ->|done].
  repeat (apply lift_bind_ok in Hb as (? & [= <-] & Hb)). injection Hb as <- <- <- <-.
  by exists k, point, ephemeral, static, keys.
Qed.

(** The device opens a session that is authenticated at once. *)
Lemma create_asymmetric_run d w0 id host_point auth sid host s encoded receipt w1 t1 w2 request :
  u16 id → len host = P256_PUBLIC_KEY_LENGTH → data request = u16_to_be_bytes id ++ host →
  session_authorization d id = Ok auth →
  authentication_key_material d id = Ok (Asymmetric host_point) → free_session_id d = Some sid →
  begin_asymmetric sid (device_static_private d) host_point host w0 = (Ok (s, encoded, receipt), w1) →
  instant_now w1 = (t1, w2) →
  ∃ d', create_session request (d, w0)
        = (Ok (response (CommandCode.to_byte CommandCode.CreateSession) (sid :: encoded ++ receipt)), (d', w2)) ∧
    sessions d' = <[sid := mkSessionEntry auth s None true t1 ∅]> (sessions d) ∧ only_sessions d d'.
Proof.
  intros Hid Hlen Hd Ha Hm Hs Hb Ht. set (entry := mkSessionEntry auth s None true t1 ∅).
  assert (open_session auth id host (d, w0)
    = (Ok (response (CommandCode.to_byte CommandCode.CreateSession) (sid :: encoded ++ receipt)),
       (record_unlogged_authentication_if_full (insert_session sid entry d), w2))) as Hopen.
  { unfold open_session. rewrite (eff_run _ _ _ d (d, w0)) by done. rewrite (lift_run _ _ _ _ Hm).
    rewrite (lift_run _ _ _ sid) by by rewrite Hs.
    unfold open_asymmetric_session. rewrite (lift_run _ _ _ tt) by by rewrite Hlen.
    rewrite (eff_run _ _ _ d (d, w0)) by done.
    rewrite (world_run _ _ _ _ _ _ Hb). by rewrite (world_run _ _ _ _ _ _ (now_run _ _ _ Ht)). }
  destruct (create_session_opens _ _ _ _ _ _ _ _ _ Hid Hd Ha Hopen) as (d' & Hrun & Hss & Ho).
  exists d'. split; [done|]. split.
  - by rewrite Hss, (same_sessions _ _ (record_unlogged_store _)).
  - eapply only_sessions_trans; [|exact Ho].
    eapply only_sessions_trans; [|apply only_sessions_store, record_unlogged_store].
    apply only_sessions_table.
Qed.

(** The device answers with its static key. *)
Lemma device_public_key_run d w t w1 prefix point :
  public_key (device_static_private d) = PublicEc P256 (prefix :: point) → instant_now w = (t, w1) →
  handle_frame (mkFrame (CommandCode.to_byte CommandCode.GetDevicePublicKey) []) (d, w)
  = (Ok (response (CommandCode.to_byte CommandCode.GetDevicePublicKey)
           (AUTHENTICATION_ALGORITHM_EC_P256 :: point)), (expire_inactive_sessions t d, w1)).
Proof.
  intros Hk Ht. unfold handle_frame, handle_frame_with_hooks.
  rewrite (world_run _ _ _ _ _ _ (now_run _ _ _ Ht)). cbn [Frame.command].
  change (CommandCode.from_byte _) with (Some CommandCode.GetDevicePublicKey). cbv beta iota.
  unfold modify, get_left, mbind, eff_bind, lift. cbn [fst snd].
  unfold execute_plain, execute_plain_or_authenticated, get_device_public_key. cbn. by rewrite Hk.
Qed.

(** ** The host *)

Lemma begin_attempt_ok p w attempt w' :
  begin_attempt p w = (Ok attempt, w') →
  ∃ s, attempt = mkAttempt (credential p) s (secret_public_bytes s).
Proof.
  unfold begin_attempt. intros (s & ? & _ & [= <- _])%eff_bind_ok. by exists s.
Qed.

(** The host derives the keys of the device's session. *)
Lemma host_session_keys p secret encoded device_point host_point ephemeral_key device_key
    ephemeral static keys receipt w :
  public_key ephemeral_key = PublicEc P256 encoded → len encoded = 65 →
  (∃ q, from_sec1_bytes encoded = inl q) →
  public_key device_key = PublicEc P256 device_point →
  public_key (credential_key (credential p)) = PublicEc P256 host_point →
  derive_with_signing_key ephemeral_key (secret_public_bytes secret) = Some ephemeral →
  derive_with_signing_key device_key host_point = Some static →
  x963_kdf_sha256 (ephemeral ++ static) SCP11_SHARED_INFO 64 = Some keys → len keys = 64 →
  ∃ w', derive_keys (mkAttempt (credential p) secret (secret_public_bytes secret))
          (secret_public_bytes secret ++ encoded) device_point receipt w
        = (Ok (mkSessionKeys (Some (ztake 16 keys)) (ztake 16 (zdrop 16 keys))
                 (ztake 16 (zdrop 32 keys)) (ztake 16 (zdrop 48 keys))), w').
Proof.
  intros Hek Hlen [q Hq] Hdk Hck He Hs Hkdf H64.
  destruct (secret_point secret) as (point & Hpoint & Hpl).
  assert (len (secret_public_bytes secret) = 65) as H65 by (rewrite Hpoint, len_cons; lia).
  assert (ephemeral = diffie_hellman secret q) as ->.
  { pose proof (diffie_hellman_agrees secret _ _ _ Hek Hq) as Hd. congruence. }
  assert (derive_with_signing_key (credential_key (credential p)) device_point = Some static) as Hstatic
    by by rewrite <- (agreement_commutes _ _ _ _ Hdk Hck).
  destruct (credential_derives _ _ _ _ _ _ _ w Hstatic Hkdf) as [w' Hw].
  exists w'. unfold derive_keys. cbn [attempt_public_key attempt_credential Platform.secret].
  rewrite len_app, Hlen, H65, ztake_app_eq, zdrop_app_eq, bool_decide_true by done.
  rewrite (lift_run _ _ _ tt) by done. unfold check_point. rewrite (lift_run _ _ _ q) by by rewrite Hq.
  rewrite (eff_run _ _ _ keys w'); [|unfold host_call; fold SCP11_SHARED_INFO; by rewrite Hw].
  unfold lift, split_session_keys. rewrite H64. cbn [negb Z.eqb].
  rewrite !slice_ok by lia. done.
Qed.

(** The host's side of the handshake, for any transport and any provider. *)
Lemma host_asymmetric_handshake `{FrameTransport T} (provider : AsymmetricCredentialProvider T)
    (id : Z) attempt host sid encoded receipt device_point keys r (t t0 t1 t2 t3 : T) :
  begin provider t = (Ok attempt, t0) → host_public_key provider attempt = 0x04 :: host →
  len host = 64 → len encoded = 65 → len receipt = 16 → len device_point = 64 →
  (∃ q, from_sec1_bytes encoded = inl q) → (∃ q, from_sec1_bytes (0x04 :: device_point) = inl q) →
  exchange_frame (mkFrame 3 (u16_to_be_bytes id ++ 0x04 :: host)) t0
  = (Ok (response (CommandCode.to_byte CommandCode.CreateSession) (sid :: encoded ++ receipt)), t1) →
  exchange_frame (mkFrame (CommandCode.to_byte CommandCode.GetDevicePublicKey) []) t1
  = (Ok (response (CommandCode.to_byte CommandCode.GetDevicePublicKey)
           (AUTHENTICATION_ALGORITHM_EC_P256 :: device_point)), t2) →
  derive_session_keys provider attempt ((0x04 :: host) ++ encoded) (0x04 :: device_point) receipt t2
  = (Ok keys, t3) →
  receipt_key keys = Some r → aes_cmac r (encoded ++ 0x04 :: host) = inl receipt →
  open_asymmetric id provider t
  = (Ok (mkHost sid (encryption keys) (mac keys) (response_mac keys)
           (zeros (AES_BLOCK_SIZE - 1) ++ [1]) receipt), t3).
Proof.
  intros Hbegin Hhost Hhl Hel Hrl Hdl [q Hq] [q' Hq'] Hex1 Hex2 Hkeys Hrk Hcmac.
  unfold open_asymmetric. rewrite (eff_run _ _ _ _ _ Hbegin). cbv zeta. rewrite Hhost.
  rewrite len_cons, Hhl. rewrite (lift_run _ _ _ tt) by done.
  rewrite (lift_run _ _ _ (mkFrame 3 (u16_to_be_bytes id ++ 0x04 :: host))).
  2:{ rewrite new_fits; [done|]. rewrite len_app, len_cons, Hhl, len_u16_to_be_bytes. done. }
  rewrite (eff_run _ _ _ _ _ Hex1). rewrite (lift_run _ _ _ (sid :: encoded ++ receipt)) by done.
  rewrite len_cons, len_app, Hel, Hrl. rewrite (lift_run _ _ _ tt) by done.
  rewrite (lift_run _ _ _ sid) by done.
  rewrite (lift_run _ _ _ encoded) by (apply (slice_mid [sid]); [done|by rewrite Hel]).
  assert (zdrop 66 (sid :: encoded ++ receipt) = receipt) as ->.
  { change (sid :: encoded ++ receipt) with ((sid :: encoded) ++ receipt). apply zdrop_app_eq.
    rewrite len_cons, Hel. done. }
  unfold check_point. rewrite Hq. rewrite (lift_run _ _ _ q) by done.
  rewrite (lift_run _ _ _ (mkFrame (CommandCode.to_byte CommandCode.GetDevicePublicKey) [])) by done.
  rewrite (eff_run _ _ _ _ _ Hex2).
  rewrite (lift_run _ _ _ (AUTHENTICATION_ALGORITHM_EC_P256 :: device_point)) by done.
  rewrite len_cons, Hdl. rewrite (lift_run _ _ _ tt) by done.
  change (zdrop 1 (AUTHENTICATION_ALGORITHM_EC_P256 :: device_point)) with device_point.
  rewrite Hq'. rewrite (lift_run _ _ _ q') by done.
  rewrite (eff_run _ _ _ _ _ Hkeys). unfold verify_receipt. rewrite Hrk, Hcmac.
  rewrite (lift_run _ _ _ tt); [done|]. cbn [sum_or mbind outcome_bind]. by rewrite bool_decide_true.
Qed.

(** The channel both ends hold afterwards. *)
Lemma asymmetric_channel sid keys receipt :
  0 ≤ sid < MAX_SESSIONS → len keys = 64 → len receipt = 16 →
  let s := mkSecure sid (ztake 16 (zdrop 16 keys)) (ztake 16 (zdrop 32 keys)) (ztake 16 (zdrop 48 keys))
             (increment_counter (zeros BLOCK_SIZE)) receipt in
  channel_ok s ∧
  synced s (mkHost sid (s_enc s) (s_mac s) (s_rmac s) (zeros (AES_BLOCK_SIZE - 1) ++ [1]) receipt).
Proof.
  intros Hsid H64 Hr s. unfold MAX_SESSIONS in Hsid.
  assert (∀ n, 0 ≤ n ≤ 48 → len (ztake 16 (zdrop n keys)) = 16) as Hpart.
  { intros n Hn. apply len_ztake. rewrite len_zdrop; lia. }
  split; split; cbn; try done; try (apply Hpart; lia).
  - unfold u8. lia.
  - split; by_computation.
Qed.

Lemma on_world_run {A} (m : Eff World string A) (d : Device) w a w' :
  m w = (Ok a, w') → on_world m (d, w) = (Ok a, (d, w')).
Proof. intros Hm. unfold on_world, reading. cbn. by rewrite Hm. Qed.

(** The two exchanges of the handshake. *)
Lemma asymmetric_exchanges d id host_point device_point auth sid host s encoded receipt
    t0 t1 t2 w0 w1 w2 w3 w4 :
  u16 id → len host = 65 → len encoded = 65 → len receipt = 16 → len device_point = 64 →
  session_authorization d id = Ok auth →
  authentication_key_material d id = Ok (Asymmetric host_point) →
  public_key (device_static_private d) = PublicEc P256 (0x04 :: device_point) →
  instant_now w0 = (t0, w1) → free_session_id (expire_inactive_sessions t0 d) = Some sid →
  begin_asymmetric sid (device_static_private d) host_point host w1 = (Ok (s, encoded, receipt), w2) →
  instant_now w2 = (t1, w3) → instant_now w3 = (t2, w4) →
  ∃ d1,
    exchange_frame (mkFrame 3 (u16_to_be_bytes id ++ host)) (d, w0)
    = (Ok (response (CommandCode.to_byte CommandCode.CreateSession) (sid :: encoded ++ receipt)), (d1, w3)) ∧
    exchange_frame (mkFrame (CommandCode.to_byte CommandCode.GetDevicePublicKey) []) (d1, w3)
    = (Ok (response (CommandCode.to_byte CommandCode.GetDevicePublicKey)
             (AUTHENTICATION_ALGORITHM_EC_P256 :: device_point)), (expire_inactive_sessions t2 d1, w4)) ∧
    sessions d1 = <[sid := mkSessionEntry auth s None true t1 ∅]> (sessions (expire_inactive_sessions t0 d)) ∧
    only_sessions d d1.
Proof.
  intros Hid Hhl Hel Hrl Hdp Hauth Hmat Hstatic Ht0 Hfree Hasym Ht1 Ht2.
  set (create := mkFrame 3 (u16_to_be_bytes id ++ host)).
  destruct (create_asymmetric_run (expire_inactive_sessions t0 d) w1 id host_point auth sid
    host s encoded receipt w2 t1 w3 create) as (d1 & Hcreate & Hss & Ho1); [done..|].
  exists d1. split; [|split; [|split; [done|]]].
  - apply exchange_frame_device.
    + unfold create. cbn [data]. by rewrite len_app, len_u16_to_be_bytes, Hhl.
    + cbn [data response]. by rewrite len_cons, len_app, Hel, Hrl.
    + by eapply (handle_session_frame create_session CommandCode.CreateSession).
  - apply exchange_frame_device; [done|cbn [data response]; by rewrite len_cons, Hdp|].
    assert (device_static_private d1 = device_static_private d) as Hkey
      by apply (same_static_private _ _ Ho1).
    eapply device_public_key_run; [|done]. by rewrite Hkey.
  - eapply only_sessions_trans; [|exact Ho1]. apply only_sessions_table.
Qed.

(** ** Property *)

(** C11: a host with a registered key pair gets a session. When the device stores the
    public key of the host's credential, its own static key is on P-256, a session
    number is free, and both ends draw their ephemeral keys, the asymmetric
    handshake succeeds: the receipt verifies, the host holds an authenticated
    session with the rights of that authentication key and no volatile objects,
    whose ends agree on every key, and the device has changed nothing else but its
    log: every other session stays under its number as it was, unless it was last
    used thirty seconds or more before one of the two frames of the handshake, and
    there is no other new one. *)
Theorem asymmetric_handshake_opens_a_session (d : Device) (w : World) (id : Z) (provider : Provider)
    (host_point device_point : bytes) (auth : SessionAuthorization) (attempt : PlatformAttempt)
    (sid : Z) (s : SecureSession) (encoded receipt : bytes) (t0 t1 t2 : Z) (w0 w1 w2 w3 w4 : World) :
  u16 id → session_authorization d id = Ok auth →
  authentication_key_material d id = Ok (Asymmetric host_point) → len host_point = 64 →
  public_key (credential_key (credential provider)) = PublicEc P256 (0x04 :: host_point) →
  public_key (device_static_private d) = PublicEc P256 (0x04 :: device_point) →
  len device_point = 64 →
  begin_attempt provider w = (Ok attempt, w0) →
  instant_now w0 = (t0, w1) → free_session_id (expire_inactive_sessions t0 d) = Some sid →
  begin_asymmetric sid (device_static_private d) host_point (attempt_public_key attempt) w1
  = (Ok (s, encoded, receipt), w2) →
  instant_now w2 = (t1, w3) → instant_now w3 = (t2, w4) → t2 - t1 < SESSION_INACTIVITY_TIMEOUT →
  ∃ h d' entry w',
    open_host_session (from_asymmetric id (platform_provider provider)) (d, w) = (Ok h, (d', w')) ∧
    connected d' h entry ∧ authorization entry = auth ∧ session_objects entry = ∅ ∧
    last_activity entry = t1 ∧ only_sessions d d' ∧ host_sid h = sid ∧ joins sid t0 t2 d d'.
Proof.
  intros Hid Hauth Hmat Hhp Hcred Hstatic Hdp Hbegin Ht0 Hfree Hasym Ht1 Ht2 Hfresh.
  apply free_session_id_spec in Hfree as Hsid. destruct Hsid as [Hsid Hnone].
  destruct (begin_attempt_ok _ _ _ _ Hbegin) as [secret ->]. cbn [attempt_public_key] in Hasym.
  destruct (secret_point secret) as (point & Hpoint & Hpl).
  destruct (begin_asymmetric_ok _ _ _ _ _ _ _ _ _ Hasym Hhp)
    as (k & epoint & ephemeral & static & keys & Hk & He & Hel & Hd1 & Hd2 & Hkdf & H64 & Hcmac & Hs).
  assert (len encoded = 65) as Hel' by (rewrite He, len_cons; lia).
  pose proof (aes_cmac_length _ _ _ Hcmac) as Hrl.
  destruct (asymmetric_exchanges d id host_point device_point auth sid (secret_public_bytes secret) s
    encoded receipt t0 t1 t2 w0 w1 w2 w3 w4) as (d1 & Hex1 & Hex2 & Hss & Ho);
    [done|by rewrite Hpoint, len_cons, Hpl|done..|].
  destruct (host_session_keys provider secret encoded (0x04 :: device_point) (0x04 :: host_point) k
    (device_static_private d) ephemeral static keys receipt w4) as [w' Hkeys]; try done.
  { rewrite He in *. by eapply point_decodes. }
  pose proof (asymmetric_channel sid keys receipt Hsid H64 Hrl) as Hchannel. rewrite <- Hs in Hchannel.
  exists (mkHost sid (s_enc s) (s_mac s) (s_rmac s) (zeros (AES_BLOCK_SIZE - 1) ++ [1]) receipt).
  set (entry := mkSessionEntry auth s None true t1 ∅) in *.
  exists (expire_inactive_sessions t2 d1), entry, w'. split; [|split; [|do 3 (split; [done|])]].
  - rewrite Hs. cbn [s_enc s_mac s_rmac].
    change (open_host_session _ ?x) with (open_asymmetric id (platform_provider provider) x).
    eapply (host_asymmetric_handshake (platform_provider provider) id _ point sid encoded receipt
      device_point (mkSessionKeys (Some (ztake 16 keys)) (ztake 16 (zdrop 16 keys))
        (ztake 16 (zdrop 32 keys)) (ztake 16 (zdrop 48 keys))));
      [apply on_world_run, Hbegin|exact Hpoint|done|done|done|done| |by eapply point_decodes
      |rewrite <- Hpoint; exact Hex1|exact Hex2|rewrite <- Hpoint; apply on_world_run, Hkeys|done
      |by rewrite <- Hpoint].
    rewrite He in *. by eapply point_decodes.
  - assert (still_active t2 entry = true) as Hact.
    { unfold still_active, entry. cbn [last_activity]. apply Z.ltb_lt.
      unfold SESSION_INACTIVITY_TIMEOUT in *. lia. }
    split; [|done| |].
    + cbn [host_sid]. apply lookup_active; [|done]. rewrite Hss. apply lookup_insert_eq.
    + apply Hchannel.
    + apply Hchannel.
  - split; [eapply only_sessions_trans; [exact Ho|apply only_sessions_table]|].
    split; [done|]. by eapply joins_tables.
Qed.
End handshake.

(** ** Witness *)

From S2P Require Import Toy.

#[local] Existing Instance default_build.
#[local] Existing Instance toy_fuel.

(** A scalar is a number, and its point repeats its 32 bytes. *)
Definition toy_point (scalar : Z) : bytes := to_be_bytes 32 scalar ++ to_be_bytes 32 scalar.

#[local] Instance toy_p256 : P256Library := {|
  P256Secret := Z;
  P256Point := bytes;
  secret_from_slice b := if from_be_bytes b =? 0 then None else Some (from_be_bytes b);
  secret_public_bytes s := 0x04 :: toy_point s;
  from_sec1_bytes b :=
    if (len b =? 65) && bool_decide (head b = Some 0x04) then inl (toy_coordinate b)
    else inr "invalid point"%string;
  diffie_hellman s p := toy_agreement (to_be_bytes 32 s) p;
|}.

(** A credential is a scalar, under a name. *)
#[local] Instance toy_credentials : PlatformCredentials := {|
  PrefixedX963Credential := Z;
  resolve_platform_credential name w := (inl (Some 7), w);
  derive_prefixed_x963 c peer h prefix info n w :=
    (match peer with
     | PublicEc _ p =>
         match x963_kdf_sha256 (prefix ++ toy_agreement (to_be_bytes 32 c) (toy_coordinate p)) info n with
         | Some keys => inl keys
         | None => inr "key derivation failed"%string
         end
     | _ => inr "wrong peer"%string
     end, w);
|}.

Lemma toy_coordinate_point k : toy_coordinate (0x04 :: k ++ k) = k.
Proof.
  unfold toy_coordinate. change (zdrop 1 (0x04 :: k ++ k)) with (k ++ k).
  apply ztake_app_eq. rewrite len_cons, len_app. replace (1 + (len k + len k) - 1) with (len k * 2) by lia.
  by apply Z.div_mul.
Qed.

Lemma toy_agreement_comm k p : toy_agreement k p = toy_agreement p k.
Proof. unfold toy_agreement. by rewrite Z.add_comm. Qed.

Lemma toy_point_len s : len (toy_point s) = 64.
Proof. unfold toy_point. by rewrite len_app, !len_to_be_bytes. Qed.

Lemma toy_public_p256 k p : toy_public k = PublicEc P256 p → p = 0x04 :: k.2 ++ k.2.
Proof. destruct k as [[] b]; try done. by intros [= _ <-]. Qed.

#[local] Instance toy_agreement_laws : KeyAgreementLaws.
Proof.
  split with (λ c, (KindEc P256, to_be_bytes 32 c)).
  - intros k w w' [= <- _]. eexists. split; [done|]. apply toy_point_len.
  - intros s. eexists. split; [done|]. apply toy_point_len.
  - intros k point _ Hl. cbn. rewrite len_cons, Hl. eauto.
  - intros k1 k2 p1 p2 ->%toy_public_p256 ->%toy_public_p256. cbn -[toy_coordinate toy_agreement].
    rewrite !toy_coordinate_point. by rewrite toy_agreement_comm.
  - intros s k encoded p ->%toy_public_p256. cbn -[toy_coordinate toy_agreement len].
    destruct (_ && _); [|done]. intros [= <-]. unfold toy_point.
    rewrite !toy_coordinate_point. by rewrite toy_agreement_comm.
  - intros c peer prefix info n z keys w. cbn -[toy_coordinate toy_agreement]. intros [= <-] [= <-]. eauto.
Defined.

(** The factory device with an asymmetric authentication key, for the scalar 7. *)
Definition example_asymmetric_record : ObjectRecord :=
  mkObjectRecord (set_algorithm AUTHENTICATION_ALGORITHM_EC_P256 factory_info)
    (Authentication (Asymmetric (toy_point 7))).

Definition example_asymmetric_device : Device :=
  set_objects {[mkObjectKey AuthenticationKey 1 := example_asymmetric_record]} example_device.

Definition example_provider : Provider :=
  @mkPlatform _ toy_credentials "key"%string (7 : Z).

Definition example_attempt : PlatformAttempt :=
  @mkAttempt _ toy_p256 toy_credentials (7 : Z) (42 : Z) (0x04 :: toy_point 42).

Lemma asymmetric_handshake_opens_a_session_witness :
  ∃ h d' entry w',
    open_host_session (from_asymmetric 1 (platform_provider example_provider))
      (example_asymmetric_device, toy_world) = (Ok h, (d', w')) ∧ connected d' h entry.
Proof.
  destruct (begin_asymmetric 0 (device_static_private example_asymmetric_device) (toy_point 7)
    (0x04 :: toy_point 42) (42, 1000)) as [[[[s encoded] receipt]|e| |] w2] eqn:Hb.
  2-4: exfalso; by vm_compute in Hb.
  assert (w2 = (43, 1000)) as -> by (by vm_compute in Hb; injection Hb as _ _ _ <-).
  destruct (asymmetric_handshake_opens_a_session example_asymmetric_device toy_world 1
    example_provider (toy_point 7) (zeros 64) (mkAuthorization 1 ALL ALL u16_max)
    example_attempt 0 s encoded receipt 1000 1000 1000
    (42, 1000) (42, 1000) (43, 1000) (43, 1000) (43, 1000)) as (h & d' & entry & w' & Ho & Hc & _).
  1-14: try reflexivity.
  - by_computation.
  - exact Hb.
  - exists h, d', entry, w'. split; [exact Ho|exact Hc].
Defined.
