(* ===== verification/Scenarios.v ===== *)
(** * Cases and maintenance of the qualification suite
    (crates/yubihsm-qualification/src/lib.rs, lines 560-665, 668-735, 796-848,
    1960-2043 and 2156-2226)

    What the suite does in authenticated sessions: the clean-up of its objects, the
    provisioning of the discovery credential, and the first cases of the managed
    profile. A case runs in [InSession], the transport's state with the session. *)

From S2P Require Import Prelude Error Io Frame Firmware Algorithm Capability Protocol KeyCore.
From S2P Require Import Wire Objects Requests SecureChannel HostSession HostRequests Credentials.

Section scenarios.
Context `{SoftwareKeyCore} `{!P256Library} {T : Type} `{FrameTransport T}.

#[local] Abbreviation InSession := (Eff (T * SymmetricSession) string).

(** Open a session, run in it, and forget it: the code closes it itself. *)
Definition run_session {A} (self : SymmetricSession) (body : InSession A) : Eff T string A := λ t,
  let '(r, (t, _)) := body (t, self) in (r, t).

Definition in_session {A} (credentials : Credentials T) (body : InSession A) : Eff T string A :=
  self ← open_host_session credentials; run_session self body.

(** Code that uses the transport while a session is held. *)
Definition on_transport {A} (m : Eff T string A) : InSession A := λ '(t, self),
  let '(r, t) := m t in (r, (t, self)).

(** The outcome of a part whose error is looked at later; a panic is not one. *)
Definition attempt_case {A} (m : InSession A) : InSession (outcome string A) := λ s,
  let '(r, s) := m s in
  match r with
  | Ok _ | Err _ => (Ok r, s)
  | Panic => (Panic, s)
  | Diverge => (Diverge, s)
  end.

Definition check (condition : bool) (message : string) : InSession unit :=
  lift (ensure condition message).

(** A request whose answer must succeed. *)
Definition expect_success (code : CommandCode.CommandCode) (request : outcome string Frame) :
    InSession bytes :=
  response ← exec_frame request; lift (expect_response response code).

(** A request that the device must refuse with an error. *)
Definition expect_refusal (request : outcome string Frame) (expected : DeviceError) : InSession unit :=
  response ← exec_frame request; lift (expect_device_error response expected).

(** ** Maintenance *)

Record CleanupReport : Set := mkCleanup { removed : Z; remaining : Z }.

(** [{:04x}]. *)
Definition hex4 (n : Z) : string := hex_byte (n / 256) +:+ hex_byte (n mod 256).

(** The order of [BTreeSet<(u16, ObjectType)>]. *)
Definition id_first (a b : ObjectKey) : Prop :=
  key_id a < key_id b ∨
  (key_id a = key_id b ∧ ObjectTypes.to_byte (key_type a) ≤ ObjectTypes.to_byte (key_type b)).
#[export] Instance id_first_dec : RelDecision id_first.
Proof. intros a b. unfold id_first. apply _. Defined.

Definition in_order (objects : gset ObjectKey) : list ObjectKey := merge_sort id_first (elements objects).

(** A label up to its first zero. *)
Fixpoint until_zero (label : bytes) : bytes :=
  match label with
  | [] => []
  | byte :: rest => if byte =? 0 then [] else byte :: until_zero rest
  end.

Definition owned_label (label : bytes) : bool :=
  starts_with (ascii_bytes "qualification") (until_zero label).

Definition cleanup_object (key : ObjectKey) : InSession bool :=
  data ← session_query CommandCode.GetObjectInfo (object_key (key_id key) (key_type key));
  _ ← check (len data =? 66)
        ("object info for " +:+ ObjectTypes.debug (key_type key) +:+ " " +:+ hex4 (key_id key)
         +:+ " is " +:+ decimal (len data) +:+ " bytes");
  label ← lift (slice data 18 58);
  if owned_label label then
    _ ← delete_object (key_id key) (key_type key); mret true
  else mret false.

Fixpoint cleanup_objects (objects : list ObjectKey) (removed : Z) : InSession Z :=
  match objects with
  | [] => mret removed
  | key :: objects =>
      deleted ← cleanup_object key;
      cleanup_objects objects (if deleted : bool then removed + 1 else removed)
  end.

Definition cleanup_session : InSession CleanupReport :=
  objects ← list_objects;
  let object_count := Z.of_nat (size objects) in
  removed ← cleanup_objects (in_order objects) 0;
  _ ← close_session;
  mret (mkCleanup removed (object_count - removed)).

Definition cleanup_qualification_objects (administrator : Credentials T) : Eff T string CleanupReport :=
  in_session administrator cleanup_session.

Definition DISCOVERY_ID : Z := 1.
Definition DISCOVERY_CAPABILITIES : bytes := [0x02; 0; 0; 0; 0; 0; 0; 0x01].

Fixpoint check_listed (objects : gset ObjectKey) (keys : list ObjectKey) : InSession unit :=
  match keys with
  | [] => mret tt
  | key :: keys =>
      _ ← check (bool_decide (key ∈ objects))
            ("discovery did not list " +:+ ObjectTypes.debug (key_type key) +:+ " " +:+ hex4 (key_id key));
      check_listed objects keys
  end.

Definition replace_discovery_key : InSession unit :=
  _ ← session_query CommandCode.DeleteObject (object_key DISCOVERY_ID AuthenticationKey);
  let static_keys := yubico_password_kdf (ascii_bytes "password") in
  data ← expect_success CommandCode.PutAuthenticationKey
    (put_named_authentication_key DISCOVERY_ID (ascii_bytes "pkcs11rs public discovery") u16_max
       (from_bytes DISCOVERY_CAPABILITIES) NONE static_keys);
  _ ← check (bool_decide (data = u16_to_be_bytes DISCOVERY_ID))
        "Put Authentication Key returned a different object ID";
  close_session.

Definition verify_discovery_key : InSession unit :=
  objects ← list_objects;
  _ ← check_listed objects (map (mkObjectKey AuthenticationKey) [1; 0x1001; 0x1002; 0x1003]);
  _ ← expect_refusal (new_frame CommandCode.GetPseudoRandom (u16_to_be_bytes 1)) InsufficientPermissions;
  close_session.

Definition replace_public_discovery_credential (administrator : Credentials T) : Eff T string unit :=
  _ ← in_session administrator replace_discovery_key;
  in_session (from_password DISCOVERY_ID (ascii_bytes "password")) verify_discovery_key.

(** ** Cases of the managed profile *)

(** [session.command(request)?] whose answer must equal the given bytes. *)
Definition expect_answer (code : CommandCode.CommandCode) (request : outcome string Frame)
    (expected : bytes) (message : string) : InSession unit :=
  data ← expect_success code request; check (bool_decide (data = expected)) message.

Definition expect_length (code : CommandCode.CommandCode) (request : outcome string Frame)
    (expected : Z) (message : string) : InSession unit :=
  data ← expect_success code request; check (len data =? expected) message.

Definition authenticated_secure_session (credentials : Credentials T) : Eff T string unit :=
  in_session credentials
    (_ ← expect_answer CommandCode.Echo (new_frame CommandCode.Echo (ascii_bytes "encrypted echo"))
           (ascii_bytes "encrypted echo") "encrypted echo payload changed";
     _ ← expect_length CommandCode.GetPseudoRandom
           (new_frame CommandCode.GetPseudoRandom (u16_to_be_bytes 32)) 32
           "random response has the wrong length";
     close_session).

(** The case after its session is open. *)
Definition opaque_object_case : InSession unit :=
  objects ← list_objects;
  id ← lift (unused_id objects Opaque 0x7e00);
  let payload := ascii_bytes "temporary qualification object" in
  let capabilities := from_capabilities [Capability.GetOpaque] in
  _ ← expect_answer CommandCode.PutOpaque
        (put_opaque id 1 capabilities (ascii_bytes "qualification") payload)
        (u16_to_be_bytes id) "Put Opaque returned a different object ID";
  _ ← expect_answer CommandCode.GetOpaque (new_frame CommandCode.GetOpaque (u16_to_be_bytes id))
        payload "Get Opaque returned different data";
  _ ← expect_length CommandCode.GetObjectInfo
        (new_frame CommandCode.GetObjectInfo (object_key id Opaque)) 66 "object info is not 66 bytes";
  listed ← list_objects;
  _ ← check (bool_decide (mkObjectKey Opaque id ∈ listed))
        "new opaque object is missing from List Objects";
  _ ← delete_object id Opaque;
  _ ← expect_refusal (new_frame CommandCode.GetOpaque (u16_to_be_bytes id)) ObjectNotFound;
  close_session.

Definition opaque_object_lifecycle (credentials : Credentials T) : Eff T string unit :=
  in_session credentials opaque_object_case.

(** [start..=end]. *)
Definition byte_range (first last : Z) : bytes :=
  map (λ n, first + Z.of_nat n) (seq 0 (Z.to_nat (last - first + 1))).

Definition EXAMPLE_OTP : bytes :=
  [0x2f; 0x5d; 0x71; 0xa4; 0x91; 0x5d; 0xec; 0x30; 0x4a; 0xa1; 0x3c; 0xcf; 0x97; 0xbb; 0x0d; 0xbb].

Definition otp_aead_scenario (credentials : Credentials T) : Eff T string unit :=
  in_session credentials
    (objects ← list_objects;
     id ← lift (unused_id objects OtpAeadKey 0x7b00);
     let capabilities := from_capabilities
       [Capability.CreateOtpAead; Capability.RandomizeOtpAead; Capability.DecryptOtp;
        Capability.RewrapFromOtpAeadKey; Capability.RewrapToOtpAeadKey] in
     _ ← expect_success CommandCode.PutOtpAeadKey
           (put_otp_aead_key id capabilities 0x12345678 (byte_range 0x80 0x8f));
     aead ← expect_success CommandCode.CreateOtpAead
           (new_frame CommandCode.CreateOtpAead
              (u16_to_be_bytes id ++ byte_range 0 15 ++ [1; 2; 3; 4; 5; 6]));
     _ ← check (len aead =? 36) "Create OTP AEAD did not return 36 bytes";
     _ ← expect_answer CommandCode.DecryptOtp
           (new_frame CommandCode.DecryptOtp (u16_to_be_bytes id ++ aead ++ EXAMPLE_OTP))
           [1; 0; 1; 1; 1; 0] "Decrypt OTP returned unexpected counters";
     _ ← expect_length CommandCode.RandomizeOtpAead
           (new_frame CommandCode.RandomizeOtpAead (u16_to_be_bytes id)) 36
           "Randomize OTP AEAD did not return 36 bytes";
     _ ← delete_object id OtpAeadKey;
     close_session).

(** [as_chunks::<2>().0]. *)
Fixpoint pairs (values : bytes) : list (Z * Z) :=
  match values with
  | a :: b :: values => (a, b) :: pairs values
  | _ => []
  end.

Inductive OptionShape : Set := ScalarShape | PairsShape.

Definition option_value_ok (shape : OptionShape) (value : bytes) : bool :=
  match shape with
  | ScalarShape => match value with [setting] => setting <=? 2 | _ => false end
  | PairsShape =>
      negb (bool_decide (value = [])) && (len value mod 2 =? 0) &&
      forallb (λ entry, entry.2 <=? 2) (pairs value)
  end.

Definition shape_message (shape : OptionShape) : string :=
  match shape with
  | ScalarShape => " is not a valid scalar"
  | PairsShape => " is not a valid pair list"
  end.

Definition OPTION_FORCE_AUDIT : Z := 0x01.
Definition OPTION_COMMAND_AUDIT : Z := 0x03.

Definition check_option (option : Z) (shape : OptionShape) : InSession unit :=
  value ← session_query CommandCode.GetOption [option];
  _ ← check (option_value_ok shape value) ("option 0x" +:+ hex_byte option +:+ shape_message shape);
  if option =? OPTION_COMMAND_AUDIT then
    check (match List.find (λ entry, entry.1 =? CommandCode.to_byte CommandCode.SessionMessage) (pairs value) with
           | Some entry => entry.2 =? 0
           | None => true
           end) "Session Message was enabled in the command-audit option"
  else mret tt.

Definition option_scenario (credentials : Credentials T) : Eff T string unit :=
  in_session credentials
    (_ ← check_option OPTION_FORCE_AUDIT ScalarShape;
     _ ← check_option OPTION_COMMAND_AUDIT PairsShape;
     _ ← check_option 0x04 PairsShape;
     _ ← check_option 0x05 ScalarShape;
     _ ← expect_refusal (new_frame CommandCode.GetOption [0xff]) InvalidData;
     close_session).

(** The refused commands of the matrix, with the name of the command in the message. *)
Definition refused_command (code : CommandCode.CommandCode) (data : bytes) (expected : DeviceError) :
    InSession unit :=
  response ← exec_frame (new_frame code data);
  lift (map_err (λ error, CommandCode.debug code +:+ ": " +:+ error)
          (expect_device_error response expected)).

Definition negative_command_scenario (credentials : Credentials T) : Eff T string unit :=
  in_session credentials
    (_ ← refused_command CommandCode.GetPseudoRandom [] WrongLength;
     _ ← refused_command CommandCode.GetOption [] WrongLength;
     _ ← refused_command CommandCode.ListObjects [1] InvalidData;
     _ ← refused_command CommandCode.GetObjectInfo [0; 1] WrongLength;
     close_session).

Definition restricted_session (opaque_id : Z) : InSession unit :=
  _ ← expect_success CommandCode.PutOpaque
        (put_opaque opaque_id 1 (from_capabilities [Capability.GetOpaque])
           (ascii_bytes "restricted") (ascii_bytes "visible"));
  _ ← expect_answer CommandCode.GetOpaque
        (new_frame CommandCode.GetOpaque (u16_to_be_bytes opaque_id)) (ascii_bytes "visible")
        "restricted session could not read its object";
  _ ← expect_refusal
        (put_opaque ((opaque_id + 1) mod 65536) 2 (from_capabilities [Capability.GetOpaque])
           (ascii_bytes "wrong-domain") (ascii_bytes "hidden")) InsufficientPermissions;
  _ ← expect_refusal
        (put_opaque ((opaque_id + 2) mod 65536) 1 (from_capabilities [Capability.SignHmac])
           (ascii_bytes "over-delegated") (ascii_bytes "denied")) InsufficientPermissions;
  close_session.

Definition authorization_scenario (credentials : Credentials T) : Eff T string unit :=
  in_session credentials
    (objects ← list_objects;
     authentication_id ← lift (unused_id objects AuthenticationKey 0x7e40);
     opaque_id ← lift (unused_id objects Opaque 0x7e80);
     let restricted_keys := replicate 32 0x42 in
     let capabilities := from_capabilities [Capability.GetOpaque; Capability.PutOpaque] in
     let delegated := from_capabilities [Capability.GetOpaque] in
     _ ← expect_success CommandCode.PutAuthenticationKey
           (put_authentication_key authentication_id 1 capabilities delegated restricted_keys);
     outcome ← attempt_case (on_transport
       (in_session (from_static_keys authentication_id restricted_keys) (restricted_session opaque_id)));
     cleanup_opaque ← attempt_case (delete_object opaque_id Opaque);
     cleanup_authentication ← attempt_case (delete_object authentication_id AuthenticationKey);
     close ← attempt_case close_session;
     _ ← lift outcome;
     _ ← lift cleanup_opaque;
     _ ← lift cleanup_authentication;
     lift close).
End scenarios.
