(* ===== verification/KeyScenarios.v ===== *)
(** * Cases that use keys
    (crates/yubihsm-qualification/src/lib.rs, lines 1686-1957 and 2228-2356)

    The HMAC, AES and wrapping cases of the managed profile, and the audit case of
    the ephemeral profile, in the notation of [Scenarios]. *)

From S2P Require Import Prelude Error Io Frame Firmware Algorithm Capability Protocol KeyCore.
From S2P Require Import Wire Objects Requests SecureChannel HostSession HostRequests Credentials.
From S2P Require Import Scenarios.

(** [*values.last_mut().unwrap() ^= 1]. *)
Fixpoint flip_last (values : bytes) : bytes :=
  match values with
  | [] => []
  | [last] => [Z.lxor last 1]
  | value :: values => value :: flip_last values
  end.

Section scenarios.
Context `{SoftwareKeyCore} `{!P256Library} {T : Type} `{FrameTransport T}.

#[local] Abbreviation InSession := (Eff (T * SymmetricSession) string).

Definition hmac_scenario (credentials : Credentials T) : Eff T string unit :=
  in_session credentials
    (objects ← list_objects;
     id ← lift (unused_id objects HmacKey 0x7d00);
     let capabilities := from_capabilities [Capability.SignHmac; Capability.VerifyHmac] in
     let key := replicate 20 0x0b in
     let message := ascii_bytes "Hi There" in
     _ ← expect_success CommandCode.PutHmacKey
           (put_secret_key CommandCode.PutHmacKey id capabilities HmacSha256 key
              (ascii_bytes "qualification hmac"));
     signature ← expect_success CommandCode.SignHmac
                   (new_frame CommandCode.SignHmac (u16_to_be_bytes id ++ message));
     expected ← lift (ok_or (hmac Sha256 key message) "local HMAC oracle failed"%string);
     _ ← check (bool_decide (signature = expected)) "HMAC-SHA-256 known answer mismatch";
     let verify_data := u16_to_be_bytes id ++ signature ++ message in
     _ ← expect_answer CommandCode.VerifyHmac (new_frame CommandCode.VerifyHmac verify_data) [1]
           "valid HMAC did not verify";
     _ ← expect_answer CommandCode.VerifyHmac (new_frame CommandCode.VerifyHmac (flip_last verify_data))
           [0] "tampered HMAC input verified";
     _ ← delete_object id HmacKey;
     close_session).

(** ** AES *)

Definition PLAINTEXT : bytes :=
  [0x00; 0x11; 0x22; 0x33; 0x44; 0x55; 0x66; 0x77; 0x88; 0x99; 0xaa; 0xbb; 0xcc; 0xdd; 0xee; 0xff].
Definition IV : bytes := reverse (byte_range 0 15).

Definition vectors : list (Algorithm * bytes * bytes) :=
  [(Aes128, byte_range 0x00 0x0f,
    [0x69; 0xc4; 0xe0; 0xd8; 0x6a; 0x7b; 0x04; 0x30; 0xd8; 0xcd; 0xb7; 0x80; 0x70; 0xb4; 0xc5; 0x5a]);
   (Aes192, byte_range 0x00 0x17,
    [0xdd; 0xa9; 0x7c; 0xa4; 0x86; 0x4c; 0xdf; 0xe0; 0x6e; 0xaf; 0x70; 0xa0; 0xec; 0x0d; 0x71; 0x91]);
   (Aes256, byte_range 0x00 0x1f,
    [0x8e; 0xa2; 0xb7; 0xca; 0x51; 0x67; 0x45; 0xbf; 0xea; 0xfc; 0x49; 0x90; 0x4b; 0x49; 0x60; 0x89])].

(** [{:?}] of the algorithms of the vectors. *)
Definition aes_name (algorithm : Algorithm) : string :=
  match algorithm with
  | Aes128 => "Aes128"
  | Aes192 => "Aes192"
  | _ => "Aes256"
  end.

Definition aes_vector (id : Z) (vector : Algorithm * bytes * bytes) : InSession unit :=
  let '(algorithm, key, expected_ecb) := vector in
  let capabilities := from_capabilities
    [Capability.EncryptEcb; Capability.DecryptEcb; Capability.EncryptCbc; Capability.DecryptCbc] in
  _ ← expect_success CommandCode.PutSymmetricKey
        (put_secret_key CommandCode.PutSymmetricKey id capabilities algorithm key
           (ascii_bytes "qualification aes"));
  ciphertext ← expect_success CommandCode.EncryptEcb
                 (new_frame CommandCode.EncryptEcb (u16_to_be_bytes id ++ PLAINTEXT));
  _ ← check (bool_decide (ciphertext = expected_ecb)) (aes_name algorithm +:+ " ECB known answer mismatch");
  _ ← expect_answer CommandCode.DecryptEcb
        (new_frame CommandCode.DecryptEcb (u16_to_be_bytes id ++ ciphertext)) PLAINTEXT
        (aes_name algorithm +:+ " ECB decrypt did not round trip");
  ciphertext ← expect_success CommandCode.EncryptCbc
                 (new_frame CommandCode.EncryptCbc (u16_to_be_bytes id ++ IV ++ PLAINTEXT));
  _ ← expect_answer CommandCode.DecryptCbc
        (new_frame CommandCode.DecryptCbc (u16_to_be_bytes id ++ IV ++ ciphertext)) PLAINTEXT
        (aes_name algorithm +:+ " CBC did not round trip");
  delete_object id SymmetricKey.

(** Each vector has an identifier of its own. *)
Fixpoint aes_vectors (objects : gset ObjectKey) (vectors : list (Algorithm * bytes * bytes)) :
    InSession unit :=
  match vectors with
  | [] => mret tt
  | vector :: vectors =>
      id ← lift (unused_id objects SymmetricKey 0x7d20);
      _ ← aes_vector id vector;
      aes_vectors ({[mkObjectKey SymmetricKey id]} ∪ objects) vectors
  end.

Definition aes_scenario (credentials : Credentials T) : Eff T string unit :=
  in_session credentials
    (objects ← list_objects;
     _ ← aes_vectors objects vectors;
     close_session).

(** ** Wrapping *)

Definition wrapped_data_case (wrap_id : Z) : InSession unit :=
  let plaintext := ascii_bytes "qualification authenticated wrap data" in
  wrapped_data ← expect_success CommandCode.WrapData
                   (new_frame CommandCode.WrapData (u16_to_be_bytes wrap_id ++ plaintext));
  _ ← check (len wrapped_data =? 1 + 13 + len plaintext + 16)
        "Wrap Data response has the wrong envelope length";
  let unwrap_data := u16_to_be_bytes wrap_id ++ wrapped_data in
  _ ← expect_answer CommandCode.UnwrapData (new_frame CommandCode.UnwrapData unwrap_data) plaintext
        "Unwrap Data did not recover the plaintext";
  expect_refusal (new_frame CommandCode.UnwrapData (flip_last unwrap_data)) InvalidData.

Definition wrapped_object_case (wrap_id opaque_id : Z) (target_capabilities : CapabilitySet) :
    InSession unit :=
  let object_payload := ascii_bytes "qualification wrapped object" in
  _ ← expect_success CommandCode.PutOpaque
        (put_opaque opaque_id 1 target_capabilities (ascii_bytes "wrapped-object") object_payload);
  wrapped_object ← expect_success CommandCode.ExportWrapped
    (new_frame CommandCode.ExportWrapped
       (u16_to_be_bytes wrap_id ++ [ObjectTypes.to_byte Opaque] ++ u16_to_be_bytes opaque_id));
  _ ← delete_object opaque_id Opaque;
  _ ← expect_answer CommandCode.ImportWrapped
        (new_frame CommandCode.ImportWrapped (u16_to_be_bytes wrap_id ++ wrapped_object))
        (ObjectTypes.to_byte Opaque :: u16_to_be_bytes opaque_id)
        "Import Wrapped returned a different object identity";
  _ ← expect_answer CommandCode.GetOpaque (new_frame CommandCode.GetOpaque (u16_to_be_bytes opaque_id))
        object_payload "wrapped object material changed across export/import";
  delete_object opaque_id Opaque.

Definition wrapping_scenario (credentials : Credentials T) : Eff T string unit :=
  in_session credentials
    (objects ← list_objects;
     wrap_id ← lift (unused_id objects WrapKey 0x7d60);
     opaque_id ← lift (unused_id objects Opaque 0x7da0);
     let target_capabilities :=
       from_capabilities [Capability.GetOpaque; Capability.ExportableUnderWrap] in
     let wrap_capabilities := from_capabilities
       [Capability.WrapData; Capability.UnwrapData; Capability.ExportWrapped; Capability.ImportWrapped] in
     _ ← expect_success CommandCode.PutWrapKey
           (put_wrap_key wrap_id Aes256CcmWrap wrap_capabilities target_capabilities (replicate 32 0x6d));
     _ ← wrapped_data_case wrap_id;
     _ ← wrapped_object_case wrap_id opaque_id target_capabilities;
     _ ← delete_object wrap_id WrapKey;
     close_session).

(** ** Audit *)

Definition OPTION_ON : Z := 1.

Definition set_option_case (data : bytes) : InSession unit :=
  _ ← session_query CommandCode.SetOption data; mret tt.

(** The log of a device that has audited one other session. *)
Definition check_session_log (log : bytes) : outcome string unit :=
  _ ← ensure (5 <=? len log) "audit response is shorter than its header";
  count ← index log 4;
  _ ← ensure (count =? 2) ("expected 2 audit entries, got " +:+ decimal count);
  _ ← ensure (len log =? 5 + count * 32) "audit entry length mismatch";
  first ← index log 7;
  second ← index log 39;
  ensure ((first =? CommandCode.to_byte CommandCode.CreateSession)
          && (second =? CommandCode.to_byte CommandCode.AuthenticateSession))
    "audit entries are not Create Session and Authenticate Session".

Definition audited_sessions_case (credentials : Credentials T) : Eff T string unit :=
  in_session credentials
    (_ ← set_option_case [OPTION_COMMAND_AUDIT; 0; 4;
            CommandCode.to_byte CommandCode.CreateSession; OPTION_ON;
            CommandCode.to_byte CommandCode.AuthenticateSession; OPTION_ON];
     _ ← on_transport (in_session credentials
           (_ ← session_query CommandCode.Echo (ascii_bytes "not a meta log entry");
            close_session));
     log ← session_query CommandCode.GetLogEntries [];
     _ ← lift (check_session_log log);
     _ ← expect_refusal (new_frame CommandCode.SetOption
            [OPTION_COMMAND_AUDIT; 0; 2; CommandCode.to_byte CommandCode.SessionMessage; OPTION_ON])
           InvalidData;
     close_session).

(** [for _ in used..capacity]. *)
Fixpoint audited_random (rounds : nat) : InSession unit :=
  match rounds with
  | O => mret tt
  | S rounds =>
      _ ← expect_length CommandCode.GetPseudoRandom
            (new_frame CommandCode.GetPseudoRandom (u16_to_be_bytes 1)) 1
            "audited random command returned the wrong length";
      audited_random rounds
  end.

Definition forced_audit_case (credentials : Credentials T) : Eff T string unit :=
  in_session credentials
    (_ ← set_option_case
           [OPTION_COMMAND_AUDIT; 0; 2; CommandCode.to_byte CommandCode.GetPseudoRandom; OPTION_ON];
     _ ← set_option_case [OPTION_FORCE_AUDIT; 0; 1; OPTION_ON];
     info ← session_query CommandCode.GetDeviceInfo [];
     _ ← check (9 <=? len info) "device info is too short for audit capacity";
     capacity ← lift (index info 7);
     used ← lift (index info 8);
     _ ← check (used <? capacity) "audit log was already full";
     _ ← audited_random (Z.to_nat (capacity - used));
     _ ← expect_refusal (new_frame CommandCode.GetPseudoRandom (u16_to_be_bytes 1)) LogFull;
     close_session).
End scenarios.
