(* ===== verification/PublicKeyScenarios.v ===== *)
(** * Cases that use public-key algorithms
    (crates/yubihsm-qualification/src/lib.rs, lines 850-1050 and 1236-1313)

    The attestation, elliptic-curve, RSA and Edwards cases of the managed profile,
    in the notation of [Scenarios]. The client checks what the device computes with
    the public half of the key library, which is a parameter like the rest of it:
    [HostCrypto]. The text of a library error is kept where the interface of
    [KeyCore] names one, and left out where it gives none. *)

From S2P Require Import Prelude Error Io Frame Firmware Algorithm Capability Protocol KeyCore.
From S2P Require Import Wire Objects Requests SecureChannel HostSession HostRequests Credentials.
From S2P Require Import Scenarios.

(** The verifying side of [software_key_core], and [x509_cert] as far as the client
    reads a certificate: its subject's public key. Errors are given as text. *)
Class HostCrypto `{Platform} := {
  signature_scheme : EcCurve → SignatureScheme;
  ecdsa_signature_from_der : bytes → Z → bytes + string;
  verify_prehash : SoftwarePublicKey → SignatureScheme → bytes → bytes → unit + string;
  verify_rsa_pss_prehash : SoftwarePublicKey → SignatureScheme → bytes → Z → bytes → unit + string;
  verify_message : SoftwarePublicKey → SignatureScheme → bytes → bytes → unit + string;
  certificate_public_key : bytes → bytes + string;
}.

(** [.map_err(|error| format!("what: {error}"))?]. *)
Definition library_result {A} (what : string) (r : A + string) : outcome string A :=
  match r with inl a => Ok a | inr error => Err (what +:+ ": " +:+ error)%string end.

Section scenarios.
Context `{SoftwareKeyCore} `{!P256Library} `{!HostCrypto} {T : Type} `{FrameTransport T}.
Context `{!HostWorld T}.

#[local] Abbreviation InSession := (Eff (T * SymmetricSession) string).

(** A library call of the client that draws randomness. *)
Definition draw {A} (what : string) (f : World → option A * World) : InSession A :=
  on_transport (over_world (λ w, let '(r, w) := f w in (ok_or r what, w))).

(** The objects of a case are deleted in the given order. *)
Fixpoint delete_objects (keys : list ObjectKey) : InSession unit :=
  match keys with
  | [] => mret tt
  | key :: keys => _ ← delete_object (key_id key) (key_type key); delete_objects keys
  end.

(** The generation of a key pair on the device. *)
Definition generate_case (id : Z) (capabilities : list Capability) (algorithm : Algorithm)
    (label : string) : InSession unit :=
  _ ← expect_success CommandCode.GenerateAsymmetricKey
        (generate_asymmetric_key id (from_capabilities capabilities) algorithm (ascii_bytes label));
  mret tt.

(** A public key of the expected length, which starts with its algorithm. *)
Definition check_public (public : bytes) (length : Z) (algorithm : Algorithm) (message : string) :
    InSession unit :=
  check ((len public =? length) && bool_decide (head public = Some (Algorithm.to_byte algorithm)))
    message.

(** ** Attestation *)

Definition attestation_scenario (credentials : Credentials T) : Eff T string unit :=
  in_session credentials
    (objects ← list_objects;
     id ← lift (unused_id objects AsymmetricKey 0x7b40);
     _ ← generate_case id [Capability.SignEcdsa] EcP256 "qualification attest";
     public ← get_public_key id AsymmetricKey;
     certificate ← expect_success CommandCode.SignAttestationCertificate
       (new_frame CommandCode.SignAttestationCertificate (u16_to_be_bytes id ++ u16_to_be_bytes 0));
     certificate_public ← lift (library_result "attestation is not a DER certificate"
                                  (certificate_public_key certificate));
     coordinates ← lift (slice public 1 (len public));
     _ ← check (bool_decide (certificate_public = 0x04 :: coordinates))
           "attestation certificate contains a different public key";
     _ ← delete_object id AsymmetricKey;
     close_session).

(** ** Signatures on elliptic curves *)

Definition curves : list (Algorithm * EcCurve * HashAlgorithm * Z) :=
  [(EcP224, P224, Sha224, 28); (EcP256, P256, Sha256, 32); (EcP384, P384, Sha384, 48);
   (EcP521, P521, Sha512, 66); (EcK256, Secp256k1, Sha256, 32);
   (EcBrainpoolP256, BrainpoolP256, Sha256, 32); (EcBrainpoolP384, BrainpoolP384, Sha384, 48);
   (EcBrainpoolP512, BrainpoolP512, Sha512, 64)].

(** [{:?}] of the algorithms of the curves. *)
Definition ec_name (algorithm : Algorithm) : string :=
  match algorithm with
  | EcP224 => "EcP224"
  | EcP256 => "EcP256"
  | EcP384 => "EcP384"
  | EcP521 => "EcP521"
  | EcK256 => "EcK256"
  | EcBrainpoolP256 => "EcBrainpoolP256"
  | EcBrainpoolP384 => "EcBrainpoolP384"
  | _ => "EcBrainpoolP512"
  end.

Definition ec_curve_case (id : Z) (entry : Algorithm * EcCurve * HashAlgorithm * Z) :
    InSession unit :=
  let '(algorithm, curve, hash, coordinate_length) := entry in
  _ ← generate_case id [Capability.SignEcdsa] algorithm "qualification ec";
  public ← get_public_key id AsymmetricKey;
  _ ← check_public public (1 + coordinate_length * 2) algorithm
        (ec_name algorithm +:+ " returned an invalid public key");
  let verifier := PublicEc curve (0x04 :: zdrop 1 public) in
  let digest := digest hash (ascii_bytes "YubiHSM EC qualification message") in
  der ← expect_success CommandCode.SignEcdsa
          (new_frame CommandCode.SignEcdsa (u16_to_be_bytes id ++ digest));
  signature ← lift (library_result (ec_name algorithm +:+ " returned invalid DER")
                      (ecdsa_signature_from_der der coordinate_length));
  _ ← lift (library_result (ec_name algorithm +:+ " signature did not verify")
              (verify_prehash verifier (signature_scheme curve) digest signature));
  delete_object id AsymmetricKey.

(** Each curve has an identifier of its own. *)
Fixpoint ec_curve_cases (objects : gset ObjectKey)
    (curves : list (Algorithm * EcCurve * HashAlgorithm * Z)) : InSession unit :=
  match curves with
  | [] => mret tt
  | curve :: curves =>
      id ← lift (unused_id objects AsymmetricKey 0x7c00);
      _ ← ec_curve_case id curve;
      ec_curve_cases ({[mkObjectKey AsymmetricKey id]} ∪ objects) curves
  end.

Definition ec_signing_scenario (credentials : Credentials T) : Eff T string unit :=
  in_session credentials
    (objects ← list_objects;
     _ ← ec_curve_cases objects curves;
     close_session).

(** ** RSA *)

Definition rsa_signatures (id : Z) (verifier : SoftwarePublicKey) : InSession unit :=
  let digest := digest Sha256 (ascii_bytes "YubiHSM RSA qualification message") in
  signature ← expect_success CommandCode.SignPkcs1
                (new_frame CommandCode.SignPkcs1 (u16_to_be_bytes id ++ digest));
  _ ← lift (library_result "RSA PKCS#1 signature did not verify"
              (verify_prehash verifier RsaPkcs1Sha256 digest signature));
  signature ← expect_success CommandCode.SignPss
                (new_frame CommandCode.SignPss
                   (u16_to_be_bytes id ++ [Algorithm.to_byte Mgf1Sha256] ++ u16_to_be_bytes 32 ++ digest));
  lift (library_result "RSA-PSS signature did not verify"
          (verify_rsa_pss_prehash verifier RsaPssSha256 digest 32 signature)).

Definition rsa_decryptions (id : Z) (verifier : SoftwarePublicKey) : InSession unit :=
  let plaintext := ascii_bytes "RSA qualification plaintext" in
  ciphertext ← draw "local RSA encryption failed" (encrypt_rsa_pkcs1v15 verifier plaintext);
  _ ← expect_answer CommandCode.DecryptPkcs1
        (new_frame CommandCode.DecryptPkcs1 (u16_to_be_bytes id ++ ciphertext)) plaintext
        "RSA PKCS#1 decryption did not recover the plaintext";
  let label_digest := digest Sha256 (ascii_bytes "qualification OAEP label") in
  ciphertext ← draw "local RSA-OAEP encryption failed"
                 (encrypt_rsa_oaep_digest verifier plaintext label_digest RsaSha384);
  expect_answer CommandCode.DecryptOaep
    (new_frame CommandCode.DecryptOaep
       (u16_to_be_bytes id ++ [Algorithm.to_byte Mgf1Sha384] ++ ciphertext ++ label_digest))
    plaintext "RSA-OAEP decryption did not recover the plaintext".

Definition rsa_scenario (credentials : Credentials T) : Eff T string unit :=
  in_session credentials
    (objects ← list_objects;
     id ← lift (unused_id objects AsymmetricKey 0x7c40);
     _ ← generate_case id
           [Capability.SignPkcs; Capability.SignPss; Capability.DecryptPkcs; Capability.DecryptOaep]
           Rsa2048 "qualification rsa";
     public ← get_public_key id AsymmetricKey;
     _ ← check_public public 257 Rsa2048 "RSA-2048 returned an invalid public key";
     let verifier := PublicRsa (zdrop 1 public) [1; 0; 1] in
     _ ← rsa_signatures id verifier;
     _ ← rsa_decryptions id verifier;
     _ ← delete_object id AsymmetricKey;
     close_session).

(** ** Ed25519 and agreement on P-256 *)

(** A message signed on an Edwards curve. *)
Definition edwards_case (id : Z) (curve : EdwardsCurve) (scheme : SignatureScheme) (public : bytes)
    (message what : string) : InSession unit :=
  let verifier := PublicEdwards curve (zdrop 1 public) in
  signature ← expect_success CommandCode.SignEddsa
                (new_frame CommandCode.SignEddsa (u16_to_be_bytes id ++ ascii_bytes message));
  lift (library_result what (verify_message verifier scheme (ascii_bytes message) signature)).

Definition ed25519_case (ed_id : Z) : InSession unit :=
  _ ← generate_case ed_id [Capability.SignEddsa] Ed25519 "qualification ed25519";
  public ← get_public_key ed_id AsymmetricKey;
  _ ← check_public public 33 Ed25519 "Ed25519 returned an invalid public key";
  edwards_case ed_id CurveEd25519 SchemeEd25519 public "YubiHSM Ed25519 qualification message"
    "Ed25519 signature did not verify".

(** Two keys of the device agree. A public key is at least its algorithm byte. *)
Definition ecdh_case (first_id second_id : Z) : InSession unit :=
  _ ← generate_case first_id [Capability.DeriveEcdh] EcP256 "qualification ecdh";
  _ ← generate_case second_id [Capability.DeriveEcdh] EcP256 "qualification ecdh";
  first_public ← get_public_key first_id AsymmetricKey;
  second_public ← get_public_key second_id AsymmetricKey;
  second_point ← lift (slice second_public 1 (len second_public));
  first_secret ← derive_ecdh first_id second_point;
  first_point ← lift (slice first_public 1 (len first_public));
  second_secret ← derive_ecdh second_id first_point;
  check (bool_decide (first_secret = second_secret) && (len first_secret =? 32))
    "P-256 ECDH peers derived different secrets".

Definition ed25519_and_ecdh_scenario (credentials : Credentials T) : Eff T string unit :=
  in_session credentials
    (objects ← list_objects;
     ed_id ← lift (unused_id objects AsymmetricKey 0x7c80);
     let objects := {[mkObjectKey AsymmetricKey ed_id]} ∪ objects in
     _ ← ed25519_case ed_id;
     first_id ← lift (unused_id objects AsymmetricKey 0x7c90);
     let objects := {[mkObjectKey AsymmetricKey first_id]} ∪ objects in
     second_id ← lift (unused_id objects AsymmetricKey 0x7c90);
     _ ← ecdh_case first_id second_id;
     _ ← delete_objects (map (mkObjectKey AsymmetricKey) [ed_id; first_id; second_id]);
     close_session).
End scenarios.
