(* ===== verification/RsaWrapScenarios.v ===== *)
(** * Cases that wrap with RSA
    (crates/yubihsm-qualification/src/lib.rs, lines 1052-1234 and 1362-1487)

    The RSA-AES wrapping case of the managed profile and the direct PKCS #1 case of
    the extensions, in the notation of [Scenarios]. Both generate a private wrap
    key, register its public half as a key of its own, and carry an object or its
    material from one to the other. *)

From S2P Require Import Prelude Error Io Frame Firmware Algorithm Capability Protocol KeyCore.
From S2P Require Import Wire Objects Requests SecureChannel HostSession HostRequests Credentials.
From S2P Require Import Scenarios PublicKeyScenarios.

Section scenarios.
Context `{SoftwareKeyCore} `{!P256Library} `{!HostCrypto} {T : Type} `{FrameTransport T}.

#[local] Abbreviation InSession := (Eff (T * SymmetricSession) string).

(** The bytes of an object's identity in requests and answers. *)
Definition type_and_id (object_type : ObjectType) (id : Z) : bytes :=
  ObjectTypes.to_byte object_type :: u16_to_be_bytes id.

(** The start of Put RSA Wrapped Key: both keys, the label, the domain and the
    capabilities of the new object. *)
Definition wrapped_key_header (wrap_id : Z) (object_type : ObjectType) (id : Z) (label : string)
    (capabilities : CapabilitySet) : bytes :=
  resize 45 (u16_to_be_bytes wrap_id ++ type_and_id object_type id ++ ascii_bytes label)
  ++ u16_to_be_bytes 1 ++ to_bytes capabilities.

Definition generate_private_wrap (id : Z) (delegated : CapabilitySet) (label : string) :
    InSession bytes :=
  _ ← expect_success CommandCode.GenerateWrapKey
        (generate_wrap_key id Rsa2048 (from_capabilities [Capability.ImportWrapped]) delegated
           (ascii_bytes label));
  get_public_key id WrapKey.

Definition register_public_wrap (id : Z) (delegated : CapabilitySet) (public : bytes) :
    InSession unit :=
  modulus ← lift (slice public 1 (len public));
  _ ← expect_success CommandCode.PutPublicWrapKey
        (put_public_wrap_key id Rsa2048 (from_capabilities [Capability.ExportWrapped]) delegated modulus);
  mret tt.

(** ** Under RSA-AES *)

Definition OAEP_MGF : bytes := [Algorithm.to_byte RsaOaepSha256; Algorithm.to_byte Mgf1Sha384].

Definition rsa_wrapped_object_case (public_wrap_id private_wrap_id opaque_id : Z)
    (capabilities : CapabilitySet) (label_digest : bytes) : InSession unit :=
  let payload := ascii_bytes "RSA wrapped qualification object" in
  _ ← expect_success CommandCode.PutOpaque
        (put_opaque opaque_id 1 capabilities (ascii_bytes "rsa-wrapped-object") payload);
  wrapped_object ← expect_success CommandCode.ExportRsaWrapped
    (new_frame CommandCode.ExportRsaWrapped
       (u16_to_be_bytes public_wrap_id ++ type_and_id Opaque opaque_id
        ++ [Algorithm.to_byte Aes256] ++ OAEP_MGF ++ label_digest));
  _ ← check (256 <? len wrapped_object) "RSA-wrapped object is too short";
  _ ← delete_object opaque_id Opaque;
  _ ← expect_answer CommandCode.ImportRsaWrapped
        (new_frame CommandCode.ImportRsaWrapped
           (u16_to_be_bytes private_wrap_id ++ OAEP_MGF ++ wrapped_object ++ label_digest))
        (type_and_id Opaque opaque_id) "Import RSA Wrapped returned a different object identity";
  expect_answer CommandCode.GetOpaque (new_frame CommandCode.GetOpaque (u16_to_be_bytes opaque_id))
    payload "RSA-wrapped object material changed".

(** The wrapped key is deleted, put back, and signs for its old public key. *)
Definition rsa_wrapped_key_case (public_wrap_id private_wrap_id ec_id : Z)
    (label_digest : bytes) : InSession unit :=
  let capabilities := from_capabilities [Capability.SignEcdsa; Capability.ExportableUnderWrap] in
  _ ← expect_success CommandCode.GenerateAsymmetricKey
        (generate_asymmetric_key ec_id capabilities EcP256 (ascii_bytes "wrapped ec key"));
  ec_public ← get_public_key ec_id AsymmetricKey;
  wrapped_key ← expect_success CommandCode.GetRsaWrappedKey
    (new_frame CommandCode.GetRsaWrappedKey
       (u16_to_be_bytes public_wrap_id ++ type_and_id AsymmetricKey ec_id
        ++ [Algorithm.to_byte Aes256] ++ OAEP_MGF ++ label_digest));
  _ ← delete_object ec_id AsymmetricKey;
  _ ← expect_success CommandCode.PutRsaWrappedKey
        (new_frame CommandCode.PutRsaWrappedKey
           (wrapped_key_header private_wrap_id AsymmetricKey ec_id "wrapped ec key" capabilities
            ++ [Algorithm.to_byte EcP256] ++ OAEP_MGF ++ wrapped_key ++ label_digest));
  let digest := digest Sha256 (ascii_bytes "restored RSA-wrapped EC key") in
  der ← expect_success CommandCode.SignEcdsa
          (new_frame CommandCode.SignEcdsa (u16_to_be_bytes ec_id ++ digest));
  signature ← lift (library_result "restored EC key returned invalid DER"
                      (ecdsa_signature_from_der der 32));
  coordinates ← lift (slice ec_public 1 (len ec_public));
  lift (library_result "restored RSA-wrapped EC key changed"
          (verify_prehash (PublicEc P256 (0x04 :: coordinates)) EcdsaP256Sha256 digest signature)).

Definition rsa_wrapping_scenario (credentials : Credentials T) : Eff T string unit :=
  in_session credentials
    (objects ← list_objects;
     private_wrap_id ← lift (unused_id objects WrapKey 0x7a00);
     let objects := {[mkObjectKey WrapKey private_wrap_id]} ∪ objects in
     public_wrap_id ← lift (unused_id objects PublicWrapKey 0x7a10);
     let objects := {[mkObjectKey PublicWrapKey public_wrap_id]} ∪ objects in
     opaque_id ← lift (unused_id objects Opaque 0x7a20);
     let objects := {[mkObjectKey Opaque opaque_id]} ∪ objects in
     ec_id ← lift (unused_id objects AsymmetricKey 0x7a30);
     let opaque_capabilities :=
       from_capabilities [Capability.GetOpaque; Capability.ExportableUnderWrap] in
     let delegated := from_capabilities
       [Capability.GetOpaque; Capability.SignEcdsa; Capability.ExportableUnderWrap] in
     private_public ← generate_private_wrap private_wrap_id delegated "qualification private wrap";
     _ ← check_public private_public 257 Rsa2048 "RSA private wrap key returned an invalid public key";
     _ ← register_public_wrap public_wrap_id delegated private_public;
     let label_digest := digest Sha256 (ascii_bytes "qualification RSA wrap label") in
     _ ← rsa_wrapped_object_case public_wrap_id private_wrap_id opaque_id opaque_capabilities
           label_digest;
     _ ← rsa_wrapped_key_case public_wrap_id private_wrap_id ec_id label_digest;
     _ ← delete_objects [mkObjectKey Opaque opaque_id; mkObjectKey AsymmetricKey ec_id;
                         mkObjectKey PublicWrapKey public_wrap_id;
                         mkObjectKey WrapKey private_wrap_id];
     close_session).

(** ** Direct PKCS #1 *)

(** The three zero bytes stand for no key-encryption algorithm. *)
Definition direct_wrap_case (public_wrap_id private_wrap_id source_id imported_id : Z)
    (capabilities : CapabilitySet) : InSession unit :=
  wrapped ← expect_success CommandCode.GetRsaWrappedKey
    (new_frame CommandCode.GetRsaWrappedKey
       (u16_to_be_bytes public_wrap_id ++ type_and_id SymmetricKey source_id ++ [0; 0; 0]));
  _ ← check (len wrapped =? 256) "direct RSA-wrapped key is not 256 bytes";
  expect_answer CommandCode.PutRsaWrappedKey
    (new_frame CommandCode.PutRsaWrappedKey
       (wrapped_key_header private_wrap_id SymmetricKey imported_id "direct imported" capabilities
        ++ [Algorithm.to_byte Aes128; 0; 0] ++ wrapped))
    (type_and_id SymmetricKey imported_id)
    "direct PKCS #1 import returned a different object identity".

(** Both keys encrypt alike; the answers are looked at after both commands. *)
Definition same_key_case (source_id imported_id : Z) : InSession unit :=
  let encrypt id := new_frame CommandCode.EncryptEcb (u16_to_be_bytes id ++ replicate 16 0x33) in
  source ← exec_frame (encrypt source_id);
  imported ← exec_frame (encrypt imported_id);
  first ← lift (expect_response source CommandCode.EncryptEcb);
  second ← lift (expect_response imported CommandCode.EncryptEcb);
  check (bool_decide (first = second)) "direct RSA-wrapped symmetric key changed".

Definition rsa_pkcs1_wrapping_scenario (credentials : Credentials T) : Eff T string unit :=
  in_session credentials
    (objects ← list_objects;
     private_wrap_id ← lift (unused_id objects WrapKey 0x7960);
     let objects := {[mkObjectKey WrapKey private_wrap_id]} ∪ objects in
     public_wrap_id ← lift (unused_id objects PublicWrapKey 0x7961);
     let objects := {[mkObjectKey PublicWrapKey public_wrap_id]} ∪ objects in
     source_id ← lift (unused_id objects SymmetricKey 0x7962);
     let objects := {[mkObjectKey SymmetricKey source_id]} ∪ objects in
     imported_id ← lift (unused_id objects SymmetricKey 0x7963);
     let key_capabilities :=
       from_capabilities [Capability.EncryptEcb; Capability.ExportableUnderWrap] in
     private_public ← generate_private_wrap private_wrap_id key_capabilities "direct private wrap";
     _ ← register_public_wrap public_wrap_id key_capabilities private_public;
     _ ← expect_success CommandCode.PutSymmetricKey
           (put_secret_key CommandCode.PutSymmetricKey source_id key_capabilities Aes128
              (replicate 16 0x5a) (ascii_bytes "direct source"));
     _ ← direct_wrap_case public_wrap_id private_wrap_id source_id imported_id key_capabilities;
     _ ← same_key_case source_id imported_id;
     _ ← delete_objects [mkObjectKey SymmetricKey source_id; mkObjectKey SymmetricKey imported_id;
                         mkObjectKey PublicWrapKey public_wrap_id;
                         mkObjectKey WrapKey private_wrap_id];
     close_session).
End scenarios.
