(* ===== verification/ExtensionScenarios.v ===== *)
(** * Cases of the extensions and of asymmetric authentication
    (crates/yubihsm-qualification/src/lib.rs, lines 1489-1684 and 2045-2154)

    The Montgomery, Ed448 and prefixed-agreement cases of the extensions profile,
    and the case that opens a session under an asymmetric authentication key while
    an administrator holds another, deletes that key, and goes on with the session. *)

From S2P Require Import Prelude Error Io Frame Firmware Algorithm Capability Protocol KeyCore.
From S2P Require Import Wire Objects Requests SecureChannel HostSession HostRequests Credentials.
From S2P Require Import Scenarios PublicKeyScenarios.

Section scenarios.
Context `{SoftwareKeyCore} `{!P256Library} `{!HostCrypto} {T : Type} `{FrameTransport T}.

#[local] Abbreviation InSession := (Eff (T * SymmetricSession) string).

(** ** Agreement on Montgomery curves *)

(** What distinguishes the two curves. *)
Record MontgomeryCase : Set := mkMontgomery {
  montgomery_algorithm : Algorithm;
  curve : MontgomeryCurve;
  key_length : Z;
  first_id : Z;
  curve_name : string;
  key_label : string;
}.

Definition x25519_case : MontgomeryCase :=
  mkMontgomery X25519 CurveX25519 32 0x7980 "X25519" "qualification x25519".
Definition x448_case : MontgomeryCase :=
  mkMontgomery X448 CurveX448 56 0x7981 "X448" "qualification x448".

(** The peer is a key of the host. *)
Definition montgomery_peer_case (case : MontgomeryCase) (id : Z) (public : bytes) : InSession unit :=
  peer ← lift (ok_or (montgomery_from_serialized (curve case)
                        (replicate (Z.to_nat (key_length case)) 0x33))
                 ("invalid " +:+ curve_name case +:+ " qualification peer")%string);
  device_secret ← derive_montgomery id (montgomery_public_key peer);
  peer_secret ← lift (ok_or (montgomery_derive peer (zdrop 1 public))
                        ("independent " +:+ curve_name case +:+ " derivation failed")%string);
  check (bool_decide (device_secret = peer_secret) && (len device_secret =? key_length case))
    (curve_name case +:+ " device and independent peer derived different secrets").

Definition montgomery_scenario (case : MontgomeryCase) (credentials : Credentials T) :
    Eff T string unit :=
  in_session credentials
    (objects ← list_objects;
     id ← lift (unused_id objects AsymmetricKey (first_id case));
     _ ← generate_case id [Capability.DeriveEcdh] (montgomery_algorithm case) (key_label case);
     public ← get_public_key id AsymmetricKey;
     _ ← check_public public (1 + key_length case) (montgomery_algorithm case)
           (curve_name case +:+ " returned an invalid public key");
     _ ← montgomery_peer_case case id public;
     _ ← delete_object id AsymmetricKey;
     close_session).

Definition x25519_scenario : Credentials T → Eff T string unit := montgomery_scenario x25519_case.
Definition x448_scenario : Credentials T → Eff T string unit := montgomery_scenario x448_case.

(** ** Ed448 *)

Definition ed448_scenario (credentials : Credentials T) : Eff T string unit :=
  in_session credentials
    (objects ← list_objects;
     id ← lift (unused_id objects AsymmetricKey 0x7982);
     _ ← generate_case id [Capability.SignEddsa] Ed448 "qualification ed448";
     public ← get_public_key id AsymmetricKey;
     _ ← check_public public 58 Ed448 "Ed448 returned an invalid public key";
     _ ← edwards_case id CurveEd448 SchemeEd448 public "YubiHSM Ed448 qualification message"
           "Ed448 signature did not verify";
     _ ← delete_object id AsymmetricKey;
     close_session).

(** ** Agreement with a prefixed derivation *)

Definition SHARED_INFO : bytes := [0x3c; 0x88; 0x10].

(** [u16::try_from(length)] of each input, with the error of the client. *)
Fixpoint input_lengths (lengths : list Z) : outcome string bytes :=
  match lengths with
  | [] => Ok []
  | length :: lengths =>
      first ← ok_or (u16_try_from length) "prefixed-ECDH input length overflow"%string;
      rest ← input_lengths lengths;
      Ok (u16_to_be_bytes first ++ rest)
  end.

(** What the client expects of the derivation, and the request for it. *)
Definition prefixed_expectation (public : bytes) : outcome string (bytes * bytes) :=
  peer ← ok_or (secret_from_slice (replicate 32 0x44)) "invalid prefixed-ECDH peer key"%string;
  device_public ← check_point "invalid prefixed-ECDH device public key" (0x04 :: zdrop 1 public);
  let raw_secret := diffie_hellman peer device_public in
  expected ← ok_or (x963_kdf_sha256 (replicate 32 0x41 ++ raw_secret) SHARED_INFO 64)
               "independent prefixed-ECDH KDF failed"%string;
  Ok (expected, secret_public_bytes peer).

Definition prefixed_request (id : Z) (peer_public : bytes) : outcome string Frame :=
  let prefix := replicate 32 0x41 in
  lengths ← input_lengths [len peer_public; len prefix; len SHARED_INFO];
  new_frame CommandCode.DeriveEcdhKdf
    (u16_to_be_bytes id ++ [3] ++ u16_to_be_bytes 64 ++ lengths ++ peer_public ++ prefix ++ SHARED_INFO).

(** A device without the command says so, and the case is then unsupported. *)
Definition prefixed_ecdh_kdf_case (id : Z) : InSession bool :=
  public ← get_public_key id AsymmetricKey;
  _ ← check_public public 65 EcP256 "prefixed ECDH key returned an invalid public key";
  '(expected, peer_public) ← lift (prefixed_expectation public);
  response ← exec_frame (prefixed_request id peer_public);
  if (Frame.command response =? ERROR_COMMAND)
     && bool_decide (data response = [Error.to_byte InvalidCommand])
  then mret false
  else
    derived ← lift (expect_response response CommandCode.DeriveEcdhKdf);
    _ ← check (bool_decide (derived = expected)) "prefixed ECDH returned a different KDF result";
    _ ← expect_refusal (new_frame CommandCode.DeriveEcdh (u16_to_be_bytes id ++ peer_public))
          InsufficientPermissions;
    mret true.

(** The key is deleted and the session closed whatever the outcome, which comes
    first. *)
Definition prefixed_ecdh_kdf_scenario (credentials : Credentials T) : Eff T string bool :=
  in_session credentials
    (objects ← list_objects;
     id ← lift (unused_id objects AsymmetricKey 0x79a0);
     _ ← generate_case id [Capability.DeriveEcdhKdf] EcP256 "qualification prefixed ecdh";
     outcome ← attempt_case (prefixed_ecdh_kdf_case id);
     cleanup ← attempt_case (delete_object id AsymmetricKey);
     close ← attempt_case close_session;
     supported ← lift outcome;
     _ ← lift cleanup;
     _ ← lift close;
     mret supported).

(** ** Asymmetric authentication *)

(** A plain exchange whose answer must succeed. *)
Definition exchange_success (code : CommandCode.CommandCode) (request : bytes) : InSession bytes :=
  request ← lift (new_frame code request);
  response ← on_transport (exchange_frame request);
  lift (expect_response response code).

(** The session keys that the two agreements give, checked against the receipt. *)
Definition asymmetric_session (sid : Z) (host_ephemeral host_static : P256Secret)
    (device_ephemeral_bytes receipt_sent device_public : bytes) (device_ephemeral : P256Point) :
    outcome string SymmetricSession :=
  let ephemeral_secret := diffie_hellman host_ephemeral device_ephemeral in
  device_static_encoded ← slice device_public 1 (len device_public);
  device_static ← check_point "invalid device static key" (0x04 :: device_static_encoded);
  let static_secret := diffie_hellman host_static device_static in
  session_keys ← ok_or (x963_kdf_sha256 (ephemeral_secret ++ static_secret) SHARED_INFO 64)
                   "asymmetric session KDF failed"%string;
  receipt_key ← slice session_keys 0 16;
  receipt ← sum_or (aes_cmac receipt_key (device_ephemeral_bytes ++ secret_public_bytes host_ephemeral))
              "asymmetric session receipt failed";
  _ ← ensure (bool_decide (receipt_sent = receipt)) "asymmetric session receipt did not verify";
  s_enc ← slice session_keys 16 32;
  s_mac ← slice session_keys 32 48;
  s_rmac ← slice session_keys 48 64;
  Ok (mkHost sid s_enc s_mac s_rmac (zeros (AES_BLOCK_SIZE - 1) ++ [1]) receipt).

(** The handshake under the new key, written out by the case itself. *)
Definition asymmetric_handshake_case (create : bytes) (host_ephemeral host_static : P256Secret) :
    InSession SymmetricSession :=
  create_response ← exchange_success CommandCode.CreateSession create;
  _ ← check (len create_response =? 82)
        ("asymmetric Create Session returned " +:+ decimal (len create_response) +:+ " bytes");
  sid ← lift (index create_response 0);
  device_ephemeral_bytes ← lift (slice create_response 1 66);
  device_ephemeral ← lift (check_point "invalid device ephemeral key" device_ephemeral_bytes);
  device_public ← exchange_success CommandCode.GetDevicePublicKey [];
  lift (asymmetric_session sid host_ephemeral host_static device_ephemeral_bytes
          (zdrop 66 create_response) device_public device_ephemeral).

(** A command in another session than the one that is held. *)
Definition random_in (self : SymmetricSession) (length : Z) (message : string) :
    InSession SymmetricSession :=
  request ← lift (new_frame CommandCode.GetPseudoRandom (u16_to_be_bytes length));
  '(response, self) ← on_transport (HostSession.command self request);
  data ← lift (expect_response response CommandCode.GetPseudoRandom);
  _ ← check (len data =? length) message;
  mret self.

Definition asymmetric_authentication_scenario (credentials : Credentials T) : Eff T string unit :=
  in_session credentials
    (objects ← list_objects;
     authentication_id ← lift (unused_id objects AuthenticationKey 0x79c0);
     host_static ← lift (ok_or (secret_from_slice (replicate 32 0x11))
                           "invalid static qualification key"%string);
     static_point ← lift (slice (secret_public_bytes host_static) 1
                            (len (secret_public_bytes host_static)));
     _ ← expect_success CommandCode.PutAuthenticationKey
           (put_asymmetric_authentication_key authentication_id 4
              (from_capabilities [Capability.GetPseudoRandom])
              (from_capabilities [Capability.PutOpaque]) static_point);
     host_ephemeral ← lift (ok_or (secret_from_slice (replicate 32 0x22))
                              "invalid ephemeral qualification key"%string);
     let create := u16_to_be_bytes authentication_id ++ secret_public_bytes host_ephemeral in
     asymmetric ← asymmetric_handshake_case create host_ephemeral host_static;
     asymmetric ← random_in asymmetric 16 "asymmetric session command returned the wrong length";
     _ ← delete_object authentication_id AuthenticationKey;
     asymmetric ← random_in asymmetric 8
       "established asymmetric session lost its authorization snapshot";
     request ← lift (new_frame CommandCode.CreateSession create);
     response ← on_transport (exchange_frame request);
     _ ← lift (expect_device_error response ObjectNotFound);
     _ ← on_transport (run_session asymmetric close_session);
     close_session).
End scenarios.
