(* ===== verification/Suite.v ===== *)
(** * The profiles of the qualification suite
    (crates/yubihsm-qualification/src/lib.rs, lines 451-554, 667-794, 1315-1360 and
    2228-2357)

    [run] puts the cases together: the read-only ones, then those of the managed
    profile in authenticated sessions, then the extensions or the audit cases. *)

From S2P Require Import Prelude Error Io Frame Firmware Algorithm Capability Protocol KeyCore.
From S2P Require Import Wire Objects Requests SecureChannel HostSession HostRequests Connector.
From S2P Require Import Qualification Credentials Scenarios KeyScenarios PublicKeyScenarios.
From S2P Require Import RsaWrapScenarios ExtensionScenarios.

(** [FrameTransport::description]. *)
Class Described (T : Type) := transport_description : T → string.

Section suite.
Context `{SoftwareKeyCore} `{!P256Library} `{!HostCrypto} {T : Type} `{Transport T} `{Described T}.
Context `{!HostWorld T}.

#[local] Abbreviation Suite := (Eff T QualificationError).

(** The cases of a profile, one after the other: the first that fails ends the run
    under its name. *)
Abbreviation Case := (string * (Credentials T → Eff T string unit))%type.

Fixpoint run_cases (credentials : Credentials T) (cases : list Case) (passed : list string) :
    Suite (list string) :=
  match cases with
  | [] => mret passed
  | (name, case) :: cases =>
      passed ← run_case name passed (case credentials);
      run_cases credentials cases passed
  end.

Definition managed_cases : list Case :=
  [("authenticated secure session"%string, authenticated_secure_session);
   ("opaque object lifecycle"%string, opaque_object_lifecycle);
   ("authorization capabilities, delegation, and domains"%string, authorization_scenario);
   ("asymmetric authentication and session snapshot"%string, asymmetric_authentication_scenario);
   ("option inventory and validation"%string, option_scenario);
   ("authenticated negative command matrix"%string, negative_command_scenario);
   ("HMAC-SHA-256 known answer and verification"%string, hmac_scenario);
   ("AES known answers and mode round trips"%string, aes_scenario);
   ("authenticated data and object wrapping"%string, wrapping_scenario);
   ("official EC curve signing matrix"%string, ec_signing_scenario);
   ("RSA signing and decryption"%string, rsa_scenario);
   ("RSA-AES wrapped objects and key material"%string, rsa_wrapping_scenario);
   ("Ed25519 signing and P-256 ECDH"%string, ed25519_and_ecdh_scenario);
   ("Yubico OTP AEAD known credential"%string, otp_aead_scenario);
   ("attestation binds the generated public key"%string, attestation_scenario)].

Definition run_managed (credentials : Credentials T) : list string → Suite (list string) :=
  run_cases credentials managed_cases.

Definition audit_cases : list Case :=
  [("audit logs inner commands but never Session Message"%string, audited_sessions_case);
   ("force audit rejects commands when the log is full"%string, forced_audit_case)].

Definition run_ephemeral_audit (credentials : Credentials T) : list string → Suite (list string) :=
  run_cases credentials audit_cases.

(** ** Extensions *)

Definition extension_cases : list Case :=
  [("X25519 key agreement"%string, x25519_scenario);
   ("X448 key agreement"%string, x448_scenario);
   ("Ed448 signing"%string, ed448_scenario)].

(** An algorithm that only the extensions have. *)
Definition extension_algorithm (byte : Z) : bool :=
  match Algorithm.from_byte byte with
  | Some (X25519 | X448 | Ed448 | MlDsa44 | MlDsa65 | MlDsa87 | MlKem512 | MlKem768 | MlKem1024) => true
  | _ => false
  end.

Definition PREFIXED : string := "prefixed ECDH KDF".
Definition DIRECT : string := "direct PKCS #1 secret-key wrapping".

(** The names of what passed, and of what the device does not support. *)
Definition run_prefixed (credentials : Credentials T) (passed unsupported : list string) :
    Suite (list string * list string) := λ t,
  let '(r, t) := prefixed_ecdh_kdf_scenario credentials t in
  (match r with
   | Ok true => Ok (passed ++ [PREFIXED], unsupported)
   | Ok false => Ok (passed, unsupported ++ [PREFIXED])
   | Err message => Err (mkQualification PREFIXED message)
   | Panic => Panic
   | Diverge => Diverge
   end, t).

Definition run_extensions (credentials : Credentials T) (algorithms : bytes)
    (passed unsupported : list string) : Suite (list string * list string) :=
  passed ← run_cases credentials extension_cases passed;
  '(passed, unsupported) ← run_prefixed credentials passed unsupported;
  if existsb extension_algorithm algorithms then
    passed ← run_case DIRECT passed (rsa_pkcs1_wrapping_scenario credentials);
    mret (passed, unsupported)
  else mret (passed, unsupported ++ [DIRECT]).

(** ** The run *)

Definition required_credentials (credentials : option (Credentials T)) : Suite (Credentials T) :=
  lift (ok_or credentials (mkQualification "credentials" "managed profiles require credentials")).

Definition run (profile : Profile) (credentials : option (Credentials T)) : Suite Report :=
  t ← get_state;
  let target := transport_description t in
  '(identity, passed) ← read_only_cases;
  passed ← (if bool_decide (profile ≠ Smoke)
            then credentials ← required_credentials credentials; run_managed credentials passed
            else mret passed);
  '(passed, unsupported) ←
    (if bool_decide (profile = Extensions)
     then credentials ← lift (unwrap credentials);
          run_extensions credentials (identity_algorithms identity) passed []
     else mret (passed, []));
  passed ← (if bool_decide (profile = Ephemeral)
            then credentials ← lift (unwrap credentials); run_ephemeral_audit credentials passed
            else mret passed);
  mret (mkReport target profile identity passed unsupported).

(** ** What a report means *)

Lemma run_case_value_spec {A} name passed (m : Eff T string A) s r s' :
  run_case_value name passed m s = (r, s') →
  match r with
  | Ok (a, names) => m s = (Ok a, s') ∧ names = passed ++ [name]
  | Err e => ∃ message, m s = (Err message, s') ∧ e = mkQualification name message
  | Panic => m s = (Panic, s')
  | Diverge => m s = (Diverge, s')
  end.
Proof.
  unfold run_case_value. destruct (m s) as [[a|e| |] s1]; intros [= <- <-]; eauto.
Qed.

(** Cases that all pass, from one state to the next. *)
Inductive all_pass (credentials : Credentials T) : list Case → T → T → Prop :=
| all_pass_nil t : all_pass credentials [] t t
| all_pass_cons name case cases t t1 t2 :
    case credentials t = (Ok tt, t1) → all_pass credentials cases t1 t2 →
    all_pass credentials ((name, case) :: cases) t t2.

(** What a run of cases returns: all passed, or the message of the first that
    failed, under its name. *)
Lemma run_cases_spec credentials cases : ∀ passed t r t',
  run_cases credentials cases passed t = (r, t') →
  match r with
  | Ok names => names = passed ++ cases.*1 ∧ all_pass credentials cases t t'
  | Err e => ∃ before name case after t1 message, cases = before ++ (name, case) :: after ∧
      all_pass credentials before t t1 ∧ case credentials t1 = (Err message, t') ∧
      e = mkQualification name message
  | _ => True
  end.
Proof.
  induction cases as [|[name case] cases IH]; intros passed t r t' Hr.
  { injection Hr as <- <-. split; [by rewrite app_nil_r|constructor]. }
  cbn [run_cases] in Hr. unfold mbind, eff_bind, run_case in Hr.
  destruct (run_case_value name passed (case credentials) t) as [r1 t1] eqn:Hc.
  unfold mbind, eff_bind in Hr. rewrite Hc in Hr. apply run_case_value_spec in Hc.
  destruct r1 as [[[] names]|e| |]; cbn in Hr.
  - destruct Hc as [Hc ->]. apply IH in Hr. destruct r as [names|e| |]; [| |done|done].
    + destruct Hr as [-> Hall]. split; [by rewrite <- app_assoc|by econstructor].
    + destruct Hr as (before & n & c & after & t2 & message & -> & Hall & He).
      exists ((name, case) :: before), n, c, after, t2, message. split; [done|]. split; [by econstructor|done].
  - injection Hr as <- <-. destruct Hc as (message & Hc & ->).
    exists [], name, case, cases, t, message. split; [done|]. split; [constructor|done].
  - by injection Hr as <- <-.
  - by injection Hr as <- <-.
Qed.

(** The read-only cases, by name. *)
Lemma run_case_value_bind {A B} name passed (m : Eff T string A) (f : A * list string → Suite B) t r t' :
  (run_case_value name passed m ≫= f) t = (r, t') →
  match r with
  | Err e => case e = name ∨ ∃ a t1, f (a, passed ++ [name]) t1 = (r, t')
  | Ok _ => ∃ a t1, m t = (Ok a, t1) ∧ f (a, passed ++ [name]) t1 = (r, t')
  | _ => True
  end.
Proof.
  unfold mbind, eff_bind. destruct (run_case_value name passed m t) as [r1 t1] eqn:Hc.
  apply run_case_value_spec in Hc. destruct r1 as [[a names]|e| |].
  - destruct Hc as [Hc ->]. intros Hr. destruct r; eauto.
  - destruct Hc as (message & _ & ->). intros [= <- <-]. by left.
  - by intros [= <- <-].
  - by intros [= <- <-].
Qed.

Lemma run_case_bind {B} name passed (m : Eff T string unit) (f : list string → Suite B) t r t' :
  (run_case name passed m ≫= f) t = (r, t') →
  match r with
  | Err e => case e = name ∨ ∃ t1, f (passed ++ [name]) t1 = (r, t')
  | Ok _ => ∃ t1, m t = (Ok tt, t1) ∧ f (passed ++ [name]) t1 = (r, t')
  | _ => True
  end.
Proof.
  intros Hr.
  assert ((run_case_value name passed m ≫= λ p, f p.2) t = (r, t')) as Hv.
  { revert Hr. unfold run_case, mbind, eff_bind.
    by destruct (run_case_value name passed m t) as [[[[] ?]|?| |] ?]. }
  apply run_case_value_bind in Hv. destruct r as [a|e| |]; [| |done|done].
  - destruct Hv as ([] & t1 & Hm & Hf). by exists t1.
  - destruct Hv as [|([] & t1 & Hf)]; [by left|]. right. by exists t1.
Qed.

Lemma read_only_spec t r t' :
  read_only_cases t = (r, t') →
  match r with
  | Ok (i, names) => names = read_only_names ∧ observed i t t'
  | Err e => case e ∈ read_only_names
  | _ => True
  end.
Proof.
  unfold read_only_cases. intros Hr. destruct r as [a|e| |]; [| |done|done].
  - apply run_case_bind in Hr as (t1 & H1' & Hr). apply run_case_bind in Hr as (t2 & H2' & Hr).
    apply run_case_value_bind in Hr as (i & t3 & H3' & Hr). cbv beta iota in Hr.
    apply run_case_bind in Hr as (t4 & H4' & Hr). apply run_case_bind in Hr as (t5 & H5' & Hr).
    injection Hr as <- <-. split; [done|]. by eapply read_only_observed.
  - unfold read_only_names.
    apply run_case_bind in Hr as [->|(t1 & Hr)]; [set_solver|].
    apply run_case_bind in Hr as [->|(t2 & Hr)]; [set_solver|].
    apply run_case_value_bind in Hr as [->|(i & t3 & Hr)]; [set_solver|]. cbv beta iota in Hr.
    apply run_case_bind in Hr as [->|(t4 & Hr)]; [set_solver|].
    by apply run_case_bind in Hr as [->|(t5 & Hr)]; [set_solver|].
Qed.

Lemma all_pass_app credentials before after t t1 t2 :
  all_pass credentials before t t1 → all_pass credentials after t1 t2 →
  all_pass credentials (before ++ after) t t2.
Proof. induction 1; cbn; [done|]. intros. econstructor; eauto. Qed.

(** The cases of a profile that need credentials, and the names of all its cases. *)
Definition profile_cases (profile : Profile) : list Case :=
  match profile with
  | Smoke => []
  | Managed => managed_cases
  | Extensions => managed_cases ++ extension_cases
  | Ephemeral => managed_cases ++ audit_cases
  end.

Definition optional_names (profile : Profile) : list string :=
  match profile with Extensions => [PREFIXED; DIRECT] | _ => [] end.

Definition profile_names (profile : Profile) : list string :=
  read_only_names ++ (profile_cases profile).*1 ++ optional_names profile.

(** The optional cases of the extensions: the prefixed agreement ran, and the direct
    wrapping passed where the algorithms of the device call for it. Each is reported
    once, by what came of it. *)
Definition optional_ran (credentials : Credentials T) (algorithms : bytes)
    (optional unsupported : list string) (t t' : T) : Prop :=
  let direct := existsb extension_algorithm algorithms in
  ∃ (supported : bool) t1,
    prefixed_ecdh_kdf_scenario credentials t = (Ok supported, t1) ∧
    (if direct then rsa_pkcs1_wrapping_scenario credentials t1 = (Ok tt, t') else t1 = t') ∧
    optional = (if supported then [PREFIXED] else []) ++ (if direct then [DIRECT] else []) ∧
    unsupported = (if supported then [] else [PREFIXED]) ++ (if direct then [] else [DIRECT]).

(** The part of a run that needs credentials, from one state to the last. *)
Definition credentialed (profile : Profile) (credentials : option (Credentials T)) (algorithms : bytes)
    (names unsupported : list string) (t t' : T) : Prop :=
  if bool_decide (profile = Smoke) then names = [] ∧ unsupported = [] ∧ t = t'
  else ∃ c t1 optional,
    credentials = Some c ∧ all_pass c (profile_cases profile) t t1 ∧
    names = (profile_cases profile).*1 ++ optional ∧
    if bool_decide (profile = Extensions) then optional_ran c algorithms optional unsupported t1 t'
    else optional = [] ∧ unsupported = [] ∧ t1 = t'.

(** What a run owes: the transport answered the five read-only cases as they must
    be answered, then all the cases of the profile passed, one after the other, and
    they are reported in order; what is not reported as
    passed is an optional case that is reported as unsupported. *)
Record earned (profile : Profile) (credentials : option (Credentials T)) (t : T) (report : Report)
    (t' : T) : Prop := {
  earned_target : target report = transport_description t;
  earned_profile : Qualification.profile report = profile;
  earned_passes : ∃ t1 names,
    observed (identity report) t t1 ∧
    passed report = read_only_names ++ names ∧
    credentialed profile credentials (identity_algorithms (identity report)) names
      (unsupported report) t1 t';
  earned_complete : passed report ++ unsupported report ≡ₚ profile_names profile;
}.

Lemma run_prefixed_spec credentials names t r t' :
  run_prefixed credentials names [] t = (r, t') →
  match r with
  | Ok (passed, unsupported) => ∃ supported : bool,
      prefixed_ecdh_kdf_scenario credentials t = (Ok supported, t') ∧
      passed = names ++ (if supported then [PREFIXED] else []) ∧
      unsupported = if supported then [] else [PREFIXED]
  | Err e => case e = PREFIXED
  | _ => True
  end.
Proof.
  unfold run_prefixed. destruct (prefixed_ecdh_kdf_scenario credentials t) as [[[]|e| |] t1];
    intros [= <- <-]; try done.
  - by exists true.
  - exists false. by rewrite app_nil_r.
Qed.

(** The outcomes of a sequence: the second part runs, or the first one failed. *)
Lemma suite_bind {A B} (m : Suite A) (f : A → Suite B) t r t' :
  (m ≫= f) t = (r, t') →
  (∃ a t1, m t = (Ok a, t1) ∧ f a t1 = (r, t')) ∨ (∃ e, m t = (Err e, t') ∧ r = Err e) ∨
  r = Panic ∨ r = Diverge.
Proof.
  unfold mbind, eff_bind. destruct (m t) as [[a|e| |] t1].
  - intros Hr. left. eauto.
  - intros [= <- <-]. eauto.
  - intros [= <- <-]. eauto.
  - intros [= <- <-]. eauto.
Qed.

(** The cases with credentials, in [run]. *)
Lemma run_cases_stage credentials cases names t r t' :
  run_cases credentials cases names t = (r, t') →
  match r with
  | Ok passed => passed = names ++ cases.*1 ∧ all_pass credentials cases t t'
  | Err e => case e ∈ cases.*1
  | _ => True
  end.
Proof.
  intros Hr%run_cases_spec. destruct r as [a|e| |]; try done.
  destruct Hr as (before & name & c & after & t2 & m & -> & _ & _ & ->).
  rewrite fmap_app, fmap_cons. set_solver.
Qed.

Lemma run_extensions_spec credentials algorithms names t r t' :
  run_extensions credentials algorithms names [] t = (r, t') →
  match r with
  | Ok (passed, unsupported) => ∃ t1 optional,
      all_pass credentials extension_cases t t1 ∧ passed = names ++ extension_cases.*1 ++ optional ∧
      optional_ran credentials algorithms optional unsupported t1 t'
  | Err e => case e ∈ extension_cases.*1 ++ [PREFIXED; DIRECT]
  | _ => True
  end.
Proof.
  unfold run_extensions. intros Hr.
  apply suite_bind in Hr as [(p1 & t1 & Hc & Hr)|[(e & Hc & ->)|[-> | ->]]]; try done;
    apply run_cases_stage in Hc; [destruct Hc as [-> Hall]|set_solver].
  apply suite_bind in Hr as [([p2 u] & t2 & Hp & Hr)|[(e & Hp & ->)|[-> | ->]]]; try done;
    apply run_prefixed_spec in Hp; [|rewrite Hp; set_solver].
  destruct Hp as (supported & Hp & -> & ->). cbv beta iota in Hr. unfold optional_ran.
  destruct (existsb extension_algorithm algorithms).
  - destruct r as [[p u]|e| |]; try done; [|by apply run_case_bind in Hr as [->|(t3 & ?)]; [set_solver|]].
    apply run_case_bind in Hr as (t3 & Hd & [= <- <- <-]).
    exists t1, ((if supported then [PREFIXED] else []) ++ [DIRECT]). split; [done|].
    split; [by rewrite <- !app_assoc|]. exists supported, t2. by rewrite app_nil_r.
  - injection Hr as <- <-. exists t1, (if supported then [PREFIXED] else []). split; [done|].
    split; [by rewrite <- !app_assoc|]. exists supported, t2. by rewrite app_nil_r.
Qed.

(** The managed cases, in [run]. *)
Lemma managed_stage profile credentials names t r t' :
  (if bool_decide (profile ≠ Smoke)
   then credentials ← required_credentials credentials; run_managed credentials names
   else mret names) t = (r, t') →
  match r with
  | Ok passed => (profile = Smoke ∧ passed = names ∧ t = t') ∨
      (profile ≠ Smoke ∧ passed = names ++ managed_cases.*1 ∧
       ∃ c, credentials = Some c ∧ all_pass c managed_cases t t')
  | Err e => profile ≠ Smoke ∧
      (case e ∈ managed_cases.*1 ∨ case e = "credentials"%string ∧ credentials = None)
  | _ => True
  end.
Proof.
  case_bool_decide as Hp.
  - unfold required_credentials. destruct credentials as [c|].
    + intros Hr%run_cases_stage. destruct r as [a|e| |]; try done; [|by split; [|left]].
      destruct Hr as [-> Hall]. right. eauto.
    + intros [= <- <-]. split; [done|]. by right.
  - intros [= <- <-]. left. split; [|done]. by destruct (decide (profile = Smoke)).
Qed.

(** What follows the managed cases, in [run]. *)
Definition after_managed (profile : Profile) (credentials : option (Credentials T))
    (algorithms : bytes) (names : list string) : Suite (list string * list string) :=
  '(passed, unsupported) ←
    (if bool_decide (profile = Extensions)
     then credentials ← lift (unwrap credentials); run_extensions credentials algorithms names []
     else mret (names, []));
  passed ← (if bool_decide (profile = Ephemeral)
            then credentials ← lift (unwrap credentials); run_ephemeral_audit credentials passed
            else mret passed);
  mret (passed, unsupported).

Lemma after_managed_spec profile c algorithms names t r t' t0 :
  profile ≠ Smoke → all_pass c managed_cases t0 t →
  after_managed profile (Some c) algorithms (names ++ managed_cases.*1) t = (r, t') →
  match r with
  | Ok (passed, unsupported) => ∃ rest, passed = names ++ rest ∧
      credentialed profile (Some c) algorithms rest unsupported t0 t'
  | Err e => case e ∈ (profile_cases profile).*1 ++ optional_names profile
  | _ => True
  end.
Proof.
  intros Hp Hall Hr. unfold after_managed in Hr. destruct profile; [done|..].
  - injection Hr as <- <-. exists managed_cases.*1. split; [done|].
    exists c, t, []. by rewrite app_nil_r.
  - rewrite (bool_decide_true (Extensions = Extensions)) in Hr by done. cbn [unwrap] in Hr.
    apply suite_bind in Hr as [([p u] & t1 & Hx & Hr)|[(e & Hx & ->)|[-> | ->]]]; try done;
      apply run_extensions_spec in Hx; [|cbn [profile_cases optional_names];
        rewrite fmap_app, <- app_assoc; set_solver].
    destruct Hx as (t2 & optional & Hx & -> & Hopt). injection Hr as <- <-.
    exists ((profile_cases Extensions).*1 ++ optional). cbn [profile_cases].
    split; [by rewrite fmap_app, <- !app_assoc|].
    exists c, t2, optional. split; [done|]. split; [by eapply all_pass_app|done].
  - rewrite (bool_decide_true (Ephemeral = Ephemeral)) in Hr by done. cbn [unwrap] in Hr.
    apply suite_bind in Hr as [([p u] & t1 & [= <- <- <-] & Hr)|[(e & Hx & ->)|[-> | ->]]]; try done.
    apply suite_bind in Hr as [(p & t1 & Hx & Hr)|[(e & Hx & ->)|[-> | ->]]]; try done;
      apply run_cases_stage in Hx; [|cbn [profile_cases]; rewrite fmap_app; set_solver].
    destruct Hx as [-> Hx]. injection Hr as <- <-.
    exists (profile_cases Ephemeral).*1. cbn [profile_cases].
    split; [by rewrite fmap_app, <- !app_assoc|].
    eexists c, _, []. split; [done|]. split; [by eapply all_pass_app|]. by rewrite app_nil_r.
Qed.

Lemma credentialed_names profile credentials algorithms names unsupported t t' :
  credentialed profile credentials algorithms names unsupported t t' →
  names ++ unsupported ≡ₚ (profile_cases profile).*1 ++ optional_names profile.
Proof.
  unfold credentialed. destruct profile.
  - by intros (-> & -> & _).
  - intros (c & t1 & optional & _ & _ & -> & -> & -> & _). by rewrite app_nil_r.
  - intros (c & t1 & optional & _ & _ & -> & supported & t2 & _ & _ & -> & ->).
    rewrite <- app_assoc. apply Permutation_app_head. cbn [optional_names].
    destruct supported, (existsb extension_algorithm algorithms); try done. apply Permutation_swap.
  - intros (c & t1 & optional & _ & _ & -> & -> & -> & _). by rewrite app_nil_r.
Qed.

Lemma run_stages profile credentials t :
  run profile credentials t =
  ('(identity, names) ← read_only_cases;
   names ← (if bool_decide (profile ≠ Smoke)
            then credentials ← required_credentials credentials; run_managed credentials names
            else mret names);
   '(passed, unsupported) ← after_managed profile credentials (identity_algorithms identity) names;
   mret (mkReport (transport_description t) profile identity passed unsupported)) t.
Proof.
  unfold run, after_managed. unfold mbind, eff_bind, get_state, mret, eff_ret, lift.
  by repeat (case_match; simplify_eq/=).
Qed.

(** C39: a report is earned. Over every transport, when the suite returns a report,
    the report has the profile and the target. First the transport answered the five
    read-only cases: a malformed echo and an unknown command are refused, an echo
    comes back as it was sent, the device information is the identity of the report,
    the device key has 65 bytes of the right algorithm, and a command of sessions is
    refused outside one. Then every case of the profile ran and passed, one after the
    other, up to the last state. The names reported as passed are those of these cases in order; an
    optional case is reported once, as passed exactly if it passed and as
    unsupported otherwise. When the suite returns an error, the error names a case
    of the profile, or the credentials that a managed profile was not given. *)
Theorem reports_are_earned (profile : Profile) (credentials : option (Credentials T)) (t : T)
    (r : outcome QualificationError Report) (t' : T) :
  run profile credentials t = (r, t') →
  match r with
  | Ok report => earned profile credentials t report t'
  | Err e => case e ∈ profile_names profile ∨
      (case e = "credentials"%string ∧ profile ≠ Smoke ∧ credentials = None)
  | _ => True
  end.
Proof.
  rewrite run_stages. intros Hr.
  apply suite_bind in Hr as [([id names] & t1 & Hro & Hr)|[(e & Hro & ->)|[-> | ->]]]; try done;
    pose proof (read_only_spec _ _ _ Hro) as Hnames; [|left; unfold profile_names; set_solver].
  cbv beta iota in Hr, Hnames. destruct Hnames as [-> Hobs].
  apply suite_bind in Hr as [(p1 & t2 & Hm & Hr)|[(e & Hm & ->)|[-> | ->]]]; try done;
    apply managed_stage in Hm.
  2:{ destruct Hm as [Hp [Hin|[He ->]]]; [left|by right]. unfold profile_names.
      destruct profile; cbn [profile_cases]; rewrite ?fmap_app; set_solver. }
  apply suite_bind in Hr as [([p u] & t3 & Hx & Hr)|Hx].
  - injection Hr as <- <-.
    assert (∃ rest, p = read_only_names ++ rest ∧
      credentialed profile credentials (identity_algorithms id) rest u t1 t3) as (rest & -> & Hrest).
    { destruct Hm as [(-> & -> & ->)|(Hp & -> & c & -> & Hall)].
      - injection Hx as <- <- <-. exists []. by rewrite app_nil_r.
      - by apply (after_managed_spec _ _ _ _ _ _ _ _ Hp Hall) in Hx. }
    split; [done|done|by exists t1, rest|]. cbn [passed unsupported]. unfold profile_names.
    rewrite <- app_assoc. by rewrite (credentialed_names _ _ _ _ _ _ _ Hrest).
  - destruct Hm as [(-> & -> & ->)|(Hp & -> & c & -> & Hall)];
      destruct Hx as [(e & Hx & ->)|[-> | ->]]; try done.
    apply (after_managed_spec _ _ _ _ _ _ _ _ Hp Hall) in Hx. left. unfold profile_names. set_solver.
Qed.
End suite.
