(* ===== verification/ClientRuns.v ===== *)
(** * What a client gets from the device

    A client that holds a session runs its commands over the in-process transport;
    what the dispatcher makes of a command is what the client gets back, and what
    the device becomes. The specification of a command is [handled]; the rules for
    the queries of [HostRequests] and the expectations of [Scenarios] follow. *)

From S2P Require Import Prelude Error Io Frame Firmware Algorithm Capability Protocol KeyCore.
From S2P Require Import Wire Objects Authorization SessionObjects Requests SecureChannel.
From S2P Require Import DeviceState ObjectStore ObjectCommands KeyUse Wrapping Attestation.
From S2P Require Import SessionObjectCommands Dispatch CommandEffects StoreProperties.
From S2P Require Import Sessions SessionSteps HostSession.
From S2P Require Import InProcess HostRequests Credentials Scenarios.

Section client_runs.
Context `{Build} `{HX : X509} `{Der} `{Fuel} `{!ChannelLaws}.

#[local] Existing Instance no_hooks.

(** ** A session that the device serves

    Both ends agree, the session is fresh, and no forced audit stands in the way. *)

Record serving (d : Device) (w : World) (h : SymmetricSession) (auth : SessionAuthorization) : Prop := {
  serving_entry : ∃ entry, connected d h entry ∧ authorization entry = auth ∧
    still_active (instant_now w).1 entry = true;
  serving_quiet : force_audit (options d) = OPTION_OFF;
}.

(** Two readings of the clock, one after the other, are less than the idle time
    apart. *)
Definition steady_clock : Prop := ∀ w,
  (instant_now (instant_now w).2).1 - (instant_now w).1 < SESSION_INACTIVITY_TIMEOUT.

Lemma only_sessions_objects d d' : only_sessions d d' → objects d' = objects d.
Proof. intros Hs. exact (same_objects _ _ Hs). Qed.
Lemma only_sessions_options d d' : only_sessions d d' → options d' = options d.
Proof. intros Hs. exact (same_options _ _ Hs). Qed.
Lemma only_sessions_history d d' : only_sessions d d' → sequence_history d' = sequence_history d.
Proof. intros Hs. exact (same_history _ _ Hs). Qed.
Lemma only_sessions_config d d' : only_sessions d d' → config d' = config d.
Proof. intros Hs. exact (same_config _ _ Hs). Qed.

(** The session has the capability that the command asks for. *)
Definition has_capability (auth : SessionAuthorization) (c : CommandCode.CommandCode) : Prop :=
  match CommandCode.required_session_capability c with
  | Some required => contains (session_capabilities auth) required = true
  | None => True
  end.

(** The authorization of the objects of a command, and the command. *)
Definition authorized_command (auth : SessionAuthorization) (c : CommandCode.CommandCode) (data : bytes) :
    Eff ((Device * World) * option SessionObjects) DeviceError bytes :=
  _ ← query (λ self, authorize_command_objects self auth c data); run_command auth c data.

(** A command that needs no randomness: its outcome, and what it makes of the
    device. *)
Record handled (d : Device) (auth : SessionAuthorization) (c : CommandCode.CommandCode)
    (data : bytes) (result : Result bytes) (f : Device → Device) : Prop := {
  handled_known : CommandCode.supported_by_firmware c = true;
  handled_secure : ∀ t, execute_plain_or_authenticated (set_sessions t d)
    (mkFrame (CommandCode.to_byte c) data) = None;
  handled_capability : has_capability auth c;
  handled_run : ∀ t w table, authorized_command auth c data ((set_sessions t d, w), table)
    = (result, ((set_sessions t (f d), w), table));
  handled_options : options (f d) = options d;
  handled_fits : len data ≤ 8172 ∧
    match result with Ok answer => len answer ≤ 8172 | Err _ => True | _ => False end;
}.

(** The frame that answers an outcome. *)
Definition reply_of (c : CommandCode.CommandCode) (result : Result bytes) : Frame :=
  match result with
  | Ok answer => response (CommandCode.to_byte c) answer
  | Err e => error e
  | _ => error StorageFailed
  end.

Lemma capable auth c data :
  has_capability auth c →
  authorization_error auth (mkFrame (CommandCode.to_byte c) data) = None ∧
  ∀ d : Device, authorize_command_request d auth c data = authorize_command_objects d auth c data.
Proof.
  unfold has_capability, authorization_error, authorize_command_request. cbn [Frame.command].
  rewrite CommandCode.command_from_to_byte. cbn [mbind option_bind].
  destruct (CommandCode.required_session_capability c) as [cap|]; [|done].
  intros Hc. apply require_capability_ok in Hc. rewrite Hc.
  split; [|done]. cbn [mbind option_bind]. by rewrite Hc.
Qed.

(** One run of a command, which may draw random bytes: its outcome, and the device
    and the world after it. *)
Record ran (d : Device) (w : World) (auth : SessionAuthorization) (c : CommandCode.CommandCode)
    (data : bytes) (result : Result bytes) (d' : Device) (w' : World) : Prop := {
  ran_known : CommandCode.supported_by_firmware c = true;
  ran_secure : execute_plain_or_authenticated d (mkFrame (CommandCode.to_byte c) data) = None;
  ran_capability : has_capability auth c;
  ran_run : ∀ table, authorized_command auth c data ((d, w), table) = (result, ((d', w'), table));
  ran_fits : len data ≤ 8172 ∧
    match result with Ok answer => len answer ≤ 8172 | Err _ => True | _ => False end;
}.

Lemma handled_ran d auth c data result f t w :
  handled d auth c data result f → ran (set_sessions t d) w auth c data result (set_sessions t (f d)) w.
Proof. intros []. by split. Qed.

(** The dispatcher runs the command, and the answer fits. *)
Lemma ran_inner d w auth c data result d' w' table :
  ran d w auth c data result d' w' →
  attempt (data ← execute_inner_result auth (mkFrame (CommandCode.to_byte c) data);
           _ ← lift (reject_if (negb (secure_response_data_fits (len data))) WrongLength);
           mret data) ((d, w), table)
  = (Ok result, ((d', w'), table)).
Proof.
  intros [Hk Hp Hc Hr [_ Hf]]. destruct (capable auth c data Hc) as [_ Hauth].
  assert (execute_inner_result auth (mkFrame (CommandCode.to_byte c) data) (d, w, table)
    = (result, ((d', w'), table))) as Hrun.
  { unfold execute_inner_result. cbn [fst snd]. rewrite Hp. cbn [Frame.command Frame.data].
    rewrite CommandCode.command_from_to_byte. rewrite (lift_run _ _ _ c) by done.
    rewrite (lift_run _ _ _ tt) by by rewrite Hk. rewrite <- Hr. unfold authorized_command.
    unfold mbind, eff_bind, query, read_device, on_device, reading, lift. cbn [fst snd].
    by rewrite Hauth. }
  unfold attempt, mbind, eff_bind. rewrite Hrun. destruct result as [answer|e| |]; try done.
  unfold lift. pose proof (len_nonneg answer).
  by rewrite (proj2 (secure_response_data_fits_spec (len answer) ltac:(lia)) Hf).
Qed.

(** The device answers, with the log extended at most. *)
Lemma session_answer_run d w auth c data result d' w' table :
  ran d w auth c data result d' w' → force_audit (options d) = OPTION_OFF →
  ∃ d2, session_answer auth (mkFrame (CommandCode.to_byte c) data) table (d, w)
        = (Ok (reply_of c result, table), (d2, w')) ∧ same_store d' d2.
Proof.
  intros Hh Hq. eexists. split; [|apply record_execution_store]. pose proof Hh as [Hk _ Hc _ [_ Hf]].
  unfold session_answer. destruct (capable auth c data Hc) as [-> _].
  unfold execute_in_session, execute_inner_with_session. cbn [fst snd].
  set (request := mkFrame (CommandCode.to_byte c) data).
  assert (known_command (Frame.command request) = Some c) as ->.
  { unfold known_command, request. cbn [Frame.command]. rewrite CommandCode.command_from_to_byte.
    cbn [mbind option_bind]. by rewrite Hk. }
  rewrite Hq, Z.eqb_refl, andb_false_r. cbn [andb].
  rewrite (eff_run _ _ _ _ _ (ran_inner _ _ _ _ _ _ _ _ (Some table) Hh)).
  by destruct result.
Qed.

(** The world after the device has looked at its clock for a message. *)
Definition clocked (w : World) : World := (instant_now (instant_now w).2).2.

(** The client gets the answer, and the device serves on when the command took
    less than the idle time. *)
Lemma exec_ran d w h auth c data result f w2 :
  serving d w h auth →
  (∀ t, ran (set_sessions t d) (clocked w) auth c data result (set_sessions t (f d)) w2) →
  ∃ h' d', exec (mkFrame (CommandCode.to_byte c) data) ((d, w), h)
      = (Ok (reply_of c result), ((d', w2), h')) ∧ only_sessions (f d) d' ∧
    (c ≠ CommandCode.CloseSession → c ≠ CommandCode.ResetDevice → options (f d) = options d →
     (instant_now w2).1 - (instant_now (instant_now w).2).1 < SESSION_INACTIVITY_TIMEOUT →
     serving d' w2 h' auth).
Proof.
  intros [(entry & Hcon & Ha & Hact) Hq] Hrun. unfold clocked in Hrun.
  destruct (instant_now w) as [t0 w0] eqn:Ht0. cbn [fst snd] in *.
  destruct (instant_now w0) as [t1 w1] eqn:Ht1. cbn [fst snd] in *.
  set (table := sessions (remove_session (host_sid h) (expire_inactive_sessions t0 d))).
  set (inner := mkFrame (CommandCode.to_byte c) data).
  destruct (session_answer_run _ _ _ _ _ _ _ _ (session_objects entry) (Hrun table) Hq)
    as (d2 & Hans & Hsame).
  destruct (command_run d h entry inner w t0 w0 t1 w1 (reply_of c result) (session_objects entry) d2 w2)
    as (h' & secure' & Hsync & Hok & Hsid & Hcmd);
    [done|apply (ran_fits _ _ _ _ _ _ _ _ (Hrun table))|done..|by rewrite Ha|].
  exists h'. eexists. split; [|split].
  - unfold exec. rewrite Hcmd. reflexivity.
  - apply (only_sessions_trans _ d2).
    + eapply only_sessions_trans; [apply (only_sessions_table table)|by apply only_sessions_store].
    + destruct (closes_session _ _ _); by split.
  - intros Hc1 Hc2 Hopt Htime. assert (closes_session inner (reply_of c result) false = false) as ->.
    { unfold closes_session, inner. cbn [Frame.command]. rewrite CommandCode.command_from_to_byte.
      by rewrite !bool_decide_false by congruence. }
    split; [|cbn; rewrite (same_options _ _ Hsame); cbn; by rewrite Hopt].
    exists (used_entry entry secure' t1 (session_objects entry)). split; [|split; [done|]].
    + split; [rewrite Hsid; apply lookup_insert_eq|done..].
    + unfold still_active, used_entry. cbn [last_activity]. apply Z.ltb_lt.
      unfold SESSION_INACTIVITY_TIMEOUT in *. lia.
Qed.

Lemma exec_handled d w h auth c data result f :
  steady_clock → serving d w h auth → handled d auth c data result f →
  ∃ h' d' w', exec (mkFrame (CommandCode.to_byte c) data) ((d, w), h)
      = (Ok (reply_of c result), ((d', w'), h')) ∧ only_sessions (f d) d' ∧
    (c ≠ CommandCode.CloseSession → c ≠ CommandCode.ResetDevice → serving d' w' h' auth).
Proof.
  intros Hclock Hs Hans. destruct (exec_ran d w h auth c data result f (clocked w) Hs)
    as (h' & d' & Hx & Ho & Hs'); [intros t; by apply handled_ran|].
  exists h', d', (clocked w). split; [done|]. split; [done|]. intros Hc1 Hc2.
  apply Hs'; [done..|apply (handled_options _ _ _ _ _ _ Hans)|apply Hclock].
Qed.

(** ** Queries and expectations *)

Lemma response_is_no_error c : (Z.lor (CommandCode.to_byte c) RESPONSE_BIT =? ERROR_COMMAND) = false.
Proof. by destruct c. Qed.

Lemma new_frame_fits c data :
  len data ≤ 8172 → new_frame c data = Ok (mkFrame (CommandCode.to_byte c) data).
Proof.
  intros Hd. unfold new_frame. rewrite new_fits; [done|].
  unfold MAX_DATA_LENGTH, MAX_FRAME_LENGTH, HEADER_LENGTH. lia.
Qed.

(** An expectation that must succeed. *)
Lemma exec_success c data answer request s s' :
  exec (mkFrame (CommandCode.to_byte c) data) s = (Ok (reply_of c (Ok answer)), s') →
  request = Ok (mkFrame (CommandCode.to_byte c) data) →
  expect_success c request s = (Ok answer, s').
Proof.
  intros Hx ->. unfold expect_success, exec_frame. unfold mbind, eff_bind, lift. rewrite Hx.
  unfold expect_response, reply_of, response. cbn [Frame.command Frame.data].
  by rewrite response_is_no_error, Z.eqb_refl.
Qed.

Lemma success_handled d w h auth c data answer f request :
  steady_clock → serving d w h auth → handled d auth c data (Ok answer) f →
  request = Ok (mkFrame (CommandCode.to_byte c) data) →
  ∃ h' d' w', expect_success c request ((d, w), h) = (Ok answer, ((d', w'), h')) ∧
    only_sessions (f d) d' ∧
    (c ≠ CommandCode.CloseSession → c ≠ CommandCode.ResetDevice → serving d' w' h' auth).
Proof.
  intros Hclock Hs Ha Hr. destruct (exec_handled _ _ _ _ _ _ _ _ Hclock Hs Ha)
    as (h' & d' & w' & Hx & Ho & Hs'). exists h', d', w'. split; [by eapply exec_success|done].
Qed.

(** An answer that must have a value, or a length. *)
Lemma answer_handled d w h auth c data answer f request message :
  steady_clock → serving d w h auth → handled d auth c data (Ok answer) f →
  request = Ok (mkFrame (CommandCode.to_byte c) data) →
  c ≠ CommandCode.CloseSession → c ≠ CommandCode.ResetDevice →
  ∃ h' d' w', expect_answer c request answer message ((d, w), h) = (Ok tt, ((d', w'), h')) ∧
    only_sessions (f d) d' ∧ serving d' w' h' auth.
Proof.
  intros Hclock Hs Ha Hr Hc Hreset. destruct (success_handled _ _ _ _ _ _ _ _ _ Hclock Hs Ha Hr)
    as (h' & d' & w' & Hx & Ho & Hs'). exists h', d', w'. split; [|by auto].
  unfold expect_answer. rewrite (eff_run _ _ _ _ _ Hx). unfold check. by rewrite bool_decide_true.
Qed.

Lemma length_handled d w h auth c data answer f request message :
  steady_clock → serving d w h auth → handled d auth c data (Ok answer) f →
  request = Ok (mkFrame (CommandCode.to_byte c) data) →
  c ≠ CommandCode.CloseSession → c ≠ CommandCode.ResetDevice →
  ∃ h' d' w', expect_length c request (len answer) message ((d, w), h) = (Ok tt, ((d', w'), h')) ∧
    only_sessions (f d) d' ∧ serving d' w' h' auth.
Proof.
  intros Hclock Hs Ha Hr Hc Hreset. destruct (success_handled _ _ _ _ _ _ _ _ _ Hclock Hs Ha Hr)
    as (h' & d' & w' & Hx & Ho & Hs'). exists h', d', w'. split; [|by auto].
  unfold expect_length. rewrite (eff_run _ _ _ _ _ Hx). unfold check. by rewrite Z.eqb_refl.
Qed.

Lemma query_handled d w h auth c data answer f :
  steady_clock → serving d w h auth → handled d auth c data (Ok answer) f →
  ∃ h' d' w', session_query c data ((d, w), h) = (Ok answer, ((d', w'), h')) ∧
    only_sessions (f d) d' ∧
    (c ≠ CommandCode.CloseSession → c ≠ CommandCode.ResetDevice → serving d' w' h' auth).
Proof.
  intros Hclock Hs Ha. eapply success_handled; [done..|]. apply new_frame_fits, Ha.
Qed.

(** An expectation that must be refused. *)
Lemma refusal_handled d w h auth c data e f request :
  steady_clock → serving d w h auth → handled d auth c data (Err e) f →
  request = Ok (mkFrame (CommandCode.to_byte c) data) →
  c ≠ CommandCode.CloseSession → c ≠ CommandCode.ResetDevice →
  ∃ h' d' w', expect_refusal request e ((d, w), h) = (Ok tt, ((d', w'), h')) ∧
    only_sessions (f d) d' ∧ serving d' w' h' auth.
Proof.
  intros Hclock Hs Ha -> Hc Hr. destruct (exec_handled _ _ _ _ _ _ _ _ Hclock Hs Ha)
    as (h' & d' & w' & Hx & Ho & Hs'). exists h', d', w'. split; [|by auto].
  unfold expect_refusal, exec_frame. unfold mbind, eff_bind, lift. rewrite Hx.
  unfold expect_device_error, reply_of, error. cbn [Frame.command Frame.data].
  by rewrite bool_decide_true.
Qed.
End client_runs.
