(* ===== verification/ClientCommands.v ===== *)
(** * Commands that clients use, on the device

    The specifications ([ClientRuns.handled]) of the commands that the clean-up and
    the life of an opaque object need. *)

From S2P Require Import Prelude Error Io Frame Firmware Algorithm Capability Protocol KeyCore.
From S2P Require Import Wire Objects Authorization SessionObjects Requests SecureChannel.
From S2P Require Import DeviceState ObjectStore ObjectCommands KeyUse Wrapping Attestation.
From S2P Require Import SessionObjectCommands Dispatch CommandEffects StoreProperties.
From S2P Require Import QueryProperties DeviceInvariant Sessions SessionSteps HostSession.
From S2P Require Import InProcess HostRequests Credentials Scenarios ClientRuns.

Section commands.
Context `{Build} `{HX : X509} `{Der} `{Fuel} `{!ChannelLaws}.

#[local] Existing Instance no_hooks.

(** A command that its objects allow, and that runs. *)
Lemma authorized_run auth c data (d : Device) w table r s :
  authorize_command_objects d auth c data = Ok tt →
  run_command auth c data ((d, w), table) = (r, s) →
  authorized_command auth c data ((d, w), table) = (r, s).
Proof.
  intros Ha Hr. unfold authorized_command, mbind, eff_bind, query, read_device, on_device, reading, lift.
  cbn [fst snd]. by rewrite Ha.
Qed.

Lemma authorized_refused auth c data (d : Device) w table e :
  authorize_command_objects d auth c data = Err e →
  authorized_command auth c data ((d, w), table) = (Err e, ((d, w), table)).
Proof.
  intros Ha. unfold authorized_command, mbind, eff_bind, query, read_device, on_device, reading, lift.
  cbn [fst snd]. by rewrite Ha.
Qed.

(** ** Queries *)

(** The objects the session can see, by their keys. *)
Definition visible (d : Device) (auth : SessionAuthorization) : gset ObjectKey :=
  dom (filter (λ p, can_see auth (info p.2) = true) (objects d)).

Lemma elem_of_visible d auth k :
  k ∈ visible d auth ↔ ∃ r, objects d !! k = Some r ∧ can_see auth (info r) = true.
Proof.
  unfold visible. rewrite elem_of_dom. split.
  - intros [r [Hl Hc]%map_lookup_filter_Some]. by exists r.
  - intros (r & Hl & Hc). exists r. by apply map_lookup_filter_Some.
Qed.

(** The objects of a device: under their own key, with fields of their width. *)
Definition typed_objects (d : Device) : Prop :=
  map_Forall (λ k r, object_ok k r ∧ info_ok (info r)) (objects d).

Lemma typed_keyed d : typed_objects d → keyed d.
Proof. intros Ht k r Hl. apply (Ht k r Hl). Qed.

Lemma object_entries_listed objs :
  Forall (λ r : ObjectRecord, u16 (id (info r))) objs →
  object_entries (concat (map list_entry objs)) = Ok (map (λ r, Info.key (info r)) objs).
Proof.
  induction 1 as [|r objs Hr _ IH]; [done|]. cbn [map concat]. unfold list_entry at 1.
  rewrite <- app_assoc. unfold u16_to_be_bytes. cbn [to_be_bytes app object_entries].
  rewrite ObjectTypes.object_type_from_to_byte. cbn [ok_or mbind outcome_bind]. rewrite IH.
  cbn [mbind outcome_bind]. do 2 f_equal. unfold Info.key. f_equal.
  exact (from_to_be_bytes_u16 _ Hr).
Qed.

Lemma len_list_entries objs : len (concat (map list_entry objs)) = 4 * Z.of_nat (List.length objs).
Proof.
  induction objs as [|r objs IH]; [done|]. cbn [map concat List.length]. rewrite len_app, IH.
  unfold list_entry. rewrite len_app, len_u16_to_be_bytes. change (len [_; _]) with 2. lia.
Qed.

Lemma handled_list d auth :
  typed_objects d → 4 * Z.of_nat (size (objects d)) ≤ 8172 →
  ∃ objs, handled d auth CommandCode.ListObjects [] (Ok (concat (map list_entry objs))) (λ d, d) ∧
    Forall (λ r : ObjectRecord, u16 (id (info r))) objs ∧
    list_to_set (map (λ r, Info.key (info r)) objs) = visible d auth.
Proof.
  intros Ht Hsize. destruct (DeviceState.list_objects d auth []) as [answer| | |] eqn:Hl; try done.
  destruct (list_objects_exact d auth [] answer default_filters (typed_keyed d Ht) eq_refl Hl)
    as (objs & -> & [_ Hnodup] & Hin).
  assert (list_to_set (map (λ r, Info.key (info r)) objs) = visible d auth) as Hset.
  { apply set_eq. intros k. rewrite elem_of_list_to_set, elem_of_visible. split.
    - intros (r & -> & Hr)%list_elem_of_fmap. apply Hin in Hr as (Hk & Hc & _). by exists r.
    - intros (r & Hk & Hc). apply list_elem_of_fmap. exists r.
      pose proof (typed_keyed d Ht _ _ Hk) as Hkey. split; [done|]. apply Hin. by rewrite Hkey. }
  exists objs. split; [|split; [|done]].
  - split; try done.
    + intros t w table. apply authorized_run; [done|].
      cbn. unfold query, read_device, on_device, reading, lift. cbn [fst snd].
      change (DeviceState.list_objects (set_sessions t d) auth []) with (DeviceState.list_objects d auth []).
      by rewrite Hl.
    + split; [done|]. rewrite len_list_entries.
      assert (List.length objs ≤ size (objects d))%nat; [|lia].
      rewrite <- (length_map (λ r, Info.key (info r)) objs).
      rewrite <- (size_list_to_set (C := gset ObjectKey)) by exact Hnodup. rewrite Hset.
      rewrite <- (size_dom (D := gset ObjectKey) (objects d)). apply subseteq_size.
      intros k (r & Hk & _)%elem_of_visible. by apply elem_of_dom_2 in Hk.
  - apply Forall_forall. intros r (Hk & _)%Hin. apply (Ht _ _ Hk).
Qed.

(** The client's list of objects. *)
Lemma list_objects_run d w h auth :
  steady_clock → serving d w h auth → typed_objects d → 4 * Z.of_nat (size (objects d)) ≤ 8172 →
  ∃ h' d' w', HostRequests.list_objects ((d, w), h) = (Ok (visible d auth), ((d', w'), h')) ∧
    only_sessions d d' ∧ serving d' w' h' auth.
Proof.
  intros Hclock Hs Ht Hsize. destruct (handled_list d auth Ht Hsize) as (objs & Ha & Hids & Hset).
  destruct (query_handled _ _ _ _ _ _ _ _ Hclock Hs Ha) as (h' & d' & w' & Hx & Ho & Hs').
  exists h', d', w'. split; [|split; [done|by apply Hs']]. unfold HostRequests.list_objects.
  rewrite (eff_run _ _ _ _ _ Hx). rewrite len_list_entries, Z.mul_comm, Z.mod_mul by done.
  rewrite (lift_run _ _ _ tt) by done. rewrite (lift_run _ _ _ _ (object_entries_listed _ Hids)).
  by rewrite Hset.
Qed.

Lemma decode_object_key_bytes k :
  u16 (key_id k) →
  decode ObjectKeyRequest (object_key (key_id k) (key_type k)) = Ok (ObjectKeyRequest_ k).
Proof.
  intros Hk. unfold object_key, decode, decode_fields, decode_object_key, decoder, mbind, eff_bind.
  rewrite read_u16_app by done. unfold read_object_type, mbind, eff_bind. rewrite read_u8_cons.
  unfold lift. rewrite ObjectTypes.object_type_from_to_byte. by destruct k.
Qed.

Lemma valid_label (r : ObjectRecord) : validate r = Ok tt → len (label (info r)) ≤ LABEL_LENGTH.
Proof. intros ([] & Hv & _)%outcome_bind_ok. by apply validate_ok in Hv as (_ & _ & _ & ?). Qed.

(** The description of an object, as the device encodes it. *)
Definition shown (i : ObjectInfo) : ObjectInfo :=
  set_capabilities (retain_firmware_supported (capabilities i))
    (retain_firmware_supported (delegated_capabilities i)) i.

Lemma handled_info d auth k r :
  typed_objects d → objects d !! k = Some r → can_see auth (info r) = true →
  handled d auth CommandCode.GetObjectInfo (object_key (key_id k) (key_type k))
    (Ok (info_layout (shown (info r)))) (λ d, d).
Proof.
  intros Ht Hk Hc. destruct (Ht _ _ Hk) as [[Hkey Hvalid] Hok].
  assert (u16 (key_id k)) as Hid by (rewrite <- Hkey; apply Hok).
  pose proof (decode_object_key_bytes k Hid) as Hd.
  assert (Info.encode (shown (info r)) = Ok (info_layout (shown (info r)))) as He.
  { apply encode_info; [apply retain_ok, (capabilities_ok _ Hok)|apply retain_ok, (delegated_ok _ Hok)|]. by apply valid_label. }
  split; try done.
  - intros t w table. apply authorized_run.
    { unfold authorize_command_objects, authorize_container_objects. rewrite Hd. cbn [mbind outcome_bind].
      unfold require_object_visible, require_visible. cbn [objects set_sessions]. rewrite Hk.
      cbn [ok_or mbind outcome_bind]. by rewrite Hc. }
    unfold run_command, query, read_device, on_device, reading, lift, get_object_info.
    cbn [fst snd]. rewrite Hd. cbn [mbind outcome_bind objects set_sessions]. rewrite Hk. cbn [ok_or mbind outcome_bind].
    unfold require_visible. rewrite Hc. cbn [mbind outcome_bind]. unfold shown in He. by rewrite He.
  - split; [done|]. rewrite len_info_layout; cbn; [done|apply retain_ok, (capabilities_ok _ Hok)
    |apply retain_ok, (delegated_ok _ Hok)|by apply valid_label].
Qed.

Lemma handled_delete d auth k r :
  typed_objects d → objects d !! k = Some r → can_see auth (info r) = true →
  contains (session_capabilities auth) (ObjectTypes.deletion_capability (key_type k)) = true →
  handled d auth CommandCode.DeleteObject (object_key (key_id k) (key_type k)) (Ok [])
    (λ d, set_objects (delete k (objects d)) d).
Proof.
  intros Ht Hk Hc Hcap. destruct (Ht _ _ Hk) as [[Hkey Hvalid] Hok].
  assert (u16 (key_id k)) as Hid by (rewrite <- Hkey; apply Hok).
  pose proof (decode_object_key_bytes k Hid) as Hd.
  split; try done.
  - intros t w table. apply authorized_run.
    { unfold authorize_command_objects, authorize_container_objects. rewrite Hd.
      cbn [mbind outcome_bind objects set_sessions]. rewrite Hk.
      cbn [ok_or mbind outcome_bind]. unfold authorize_delete, require_visible, require_capability. rewrite Hc.
      cbn [mbind outcome_bind]. assert (object_type (info r) = key_type k) as -> by by rewrite <- Hkey.
      by rewrite Hcap. }
    unfold run_command, on_device, Dispatch.delete_object.
    rewrite (lift_run _ _ _ _ Hd). reflexivity.
Qed.

(** ** Opaque objects *)

Lemma trim_label_padded l : Forall (λ b, b ≠ 0) l → trim_label (padded l) = l.
Proof.
  unfold padded. generalize (40 - len l) as n. intros n. induction 1 as [|b l Hb _ IH].
  - cbn. unfold zeros. by destruct (Z.to_nat n).
  - cbn [app trim_label]. rewrite (proj2 (Z.eqb_neq _ _) Hb). by rewrite IH.
Qed.

(** The object that a client's request creates. *)
Definition opaque_record (id domains : Z) (capabilities : CapabilitySet) (label payload : bytes) :
    ObjectRecord :=
  mkObjectRecord (mkObjectInfo capabilities id (len payload) domains Opaque (Algorithm.to_byte OpaqueData)
                    0 2 label NONE) (OpaqueMaterial payload).

(** What the fields of the request must be. *)
Record storable (id domains : Z) (capabilities : CapabilitySet) (label payload : bytes) : Prop := {
  storable_id : 0 < id < u16_max;
  storable_domains : u16 domains;
  storable_capabilities : len (to_bytes capabilities) = 8;
  storable_label : len label ≤ 40 ∧ Forall (λ b, b ≠ 0) label;
  storable_fits : 53 + len payload ≤ 8172;
}.

Lemma new_object_visible auth i :
  authorize_create auth i Capability.PutOpaque = Ok tt → u16 (domains i) → u16 (session_domains auth) →
  can_see auth i = true.
Proof.
  intros (_ & Hv & Hd & _)%authorize_create_ok Hi Ha. apply validate_ok in Hv as (_ & _ & Hz & _).
  apply land_not_domains in Hd; [|done]. rewrite <- (Z.land_diag (domains i)) in Hz.
  apply land_domains in Hz as (n & Hn & _); [|done..]. apply can_see_domains; [done..|]. exists n. set_solver.
Qed.

(** The command on a free identifier. *)
Lemma put_opaque_new (d : Device) w auth data id domains capabilities label payload :
  storable id domains capabilities label payload →
  decode PutOpaqueRequest data = Ok (ObjectRequest_
    (ObjectHeader_ id (padded label) domains capabilities (Algorithm.to_byte OpaqueData)) payload) →
  objects d !! mkObjectKey Opaque id = None →
  require_algorithm_enabled d (Algorithm.to_byte OpaqueData) = Ok tt →
  authorize_create auth (info (opaque_record id domains capabilities label payload)) Capability.PutOpaque = Ok tt →
  ObjectCommands.put_opaque auth data (d, w)
  = (Ok (u16_to_be_bytes id), (install_record (opaque_record id domains capabilities label payload) d, w)).
Proof.
  intros [Hid Hdom Hcaps [Hl Hz] Hfit] Hd Hnone Halg Hauth.
  set (record := opaque_record id domains capabilities label payload) in *.
  pose proof Hauth as (_ & Hval & _)%authorize_create_ok. pose proof (len_nonneg payload).
  assert (validate record = Ok tt) as Hv.
  { unfold validate. rewrite Hval. unfold record, opaque_record. cbn. by rewrite Z.eqb_refl. }
  assert ((id =? 0) = false) as Hzero by (apply Z.eqb_neq; lia).
  assert ((id =? u16_max) = false) as Hmax by (apply Z.eqb_neq; unfold u16_max in *; lia).
  assert (u16_try_from (len payload) = Some (len payload)) as Hlength.
  { unfold u16_try_from, u16_max in *. by rewrite !(proj2 (Z.leb_le _ _)) by lia. }
  assert (resolve_id d Opaque id w = (Ok id, w)) as Hresolve.
  { unfold resolve_id. rewrite (lift_run _ _ _ tt) by by rewrite Hmax. rewrite Hzero. cbn [negb].
    by rewrite (lift_run _ _ _ tt) by by rewrite Hnone. }
  unfold ObjectCommands.put_opaque. rewrite (lift_run _ _ _ _ Hd). cbv beta iota.
  unfold get_left. rewrite (eff_run _ _ _ d (d, w)) by done. cbv beta zeta.
  rewrite (lift_run _ _ _ _ Halg), trim_label_padded by done.
  rewrite (lift_run _ _ _ tt) by done. cbv beta. rewrite Hzero, Hnone.
  rewrite (eff_run _ _ _ id (d, w)).
  2:{ unfold on_world, reading. cbn [fst snd]. by rewrite Hresolve. }
  rewrite (lift_run _ _ _ (len payload)) by (unfold ok_or; by rewrite Hlength).
  rewrite (lift_run _ _ _ _ Hauth), (lift_run _ _ _ _ Hv).
  rewrite (eff_run _ _ _ tt (install_record record d, w)); [done|].
  unfold write_object. rewrite (lift_run _ _ _ record) by done.
  by rewrite (lift_run _ _ _ _ Hv).
Qed.

Lemma handled_put_opaque d auth id domains capabilities label payload :
  storable id domains capabilities label payload →
  objects d !! mkObjectKey Opaque id = None →
  require_algorithm_enabled d (Algorithm.to_byte OpaqueData) = Ok tt →
  authorize_create auth (info (opaque_record id domains capabilities label payload)) Capability.PutOpaque = Ok tt →
  handled d auth CommandCode.PutOpaque (object_header id label domains capabilities OpaqueData ++ payload)
    (Ok (u16_to_be_bytes id)) (install_record (opaque_record id domains capabilities label payload)).
Proof.
  intros Hst Hnone Halg Hauth. pose proof Hst as [Hid Hdom Hcaps [Hl Hz] Hfit].
  assert (u16 id) as Hu by (unfold u16, u16_max in *; lia).
  pose proof (header_ok_padded id label domains capabilities (Algorithm.to_byte OpaqueData) Hu Hl Hdom Hcaps) as Hh.
  rewrite object_header_bytes by done.
  destruct (creation_request_round_trip _ ALL (zeros 4) payload Hh) as (Hlen & Hd & _); [done..|].
  set (data := header_bytes _ ++ payload) in *.
  split; try done.
  - apply authorize_create_ok in Hauth as [Hc _]. exact Hc.
  - intros t w table. apply authorized_run.
    + unfold authorize_command_objects. rewrite Hd. cbn [mbind outcome_bind].
      change (objects (set_sessions t d)) with (objects d). rewrite Hnone. by rewrite andb_false_r.
    + unfold run_command, on_device. cbn [fst snd].
      by rewrite (put_opaque_new (set_sessions t d) w auth data id domains capabilities label payload).
  - split; [|done]. unfold data. rewrite len_app, Hlen. lia.
Qed.

Lemma decode_id id : u16 id → decode U16Request (u16_to_be_bytes id) = Ok (U16Request_ id).
Proof.
  intros Hid. rewrite <- (app_nil_r (u16_to_be_bytes id)).
  unfold decode, decode_fields, decode_u16_request, decoder, mbind, eff_bind.
  by rewrite read_u16_app.
Qed.

(** Reading it back, and reading what is not there. *)
Lemma handled_get_opaque d auth id r payload :
  u16 id → objects d !! mkObjectKey Opaque id = Some r → material r = OpaqueMaterial payload →
  can_see auth (info r) = true → contains (session_capabilities auth) Capability.GetOpaque = true →
  len payload ≤ 8172 →
  handled d auth CommandCode.GetOpaque (u16_to_be_bytes id) (Ok payload) (λ d, d).
Proof.
  intros Hid Hk Hm Hc Hcap Hfit. pose proof (decode_id id Hid) as Hd.
  split; try done.
  - intros t w table. apply authorized_run.
    + unfold authorize_command_objects. rewrite Hd. cbn [mbind outcome_bind].
      unfold require_object_visible, require_visible. cbn [objects set_sessions]. rewrite Hk.
      cbn [ok_or mbind outcome_bind]. by rewrite Hc.
    + unfold run_command, query, read_device, on_device, reading, lift, get_opaque. cbn [fst snd].
      rewrite Hd. cbn [mbind outcome_bind objects set_sessions]. rewrite Hk. cbn [ok_or mbind outcome_bind].
      by rewrite Hm.
Qed.

Lemma handled_get_missing d auth id :
  u16 id → objects d !! mkObjectKey Opaque id = None →
  contains (session_capabilities auth) Capability.GetOpaque = true →
  handled d auth CommandCode.GetOpaque (u16_to_be_bytes id) (Err ObjectNotFound) (λ d, d).
Proof.
  intros Hid Hk Hcap. pose proof (decode_id id Hid) as Hd. split; try done.
  intros t w table. apply authorized_refused. unfold authorize_command_objects. rewrite Hd.
  cbn [mbind outcome_bind]. unfold require_object_visible. cbn [objects set_sessions]. by rewrite Hk.
Qed.


Lemma handled_close d auth : handled d auth CommandCode.CloseSession [] (Ok []) (λ d, d).
Proof. by split. Qed.

(** *** As the client runs them *)

Lemma delete_object_run d w h auth k r :
  steady_clock → serving d w h auth → typed_objects d → objects d !! k = Some r →
  can_see auth (info r) = true →
  contains (session_capabilities auth) (ObjectTypes.deletion_capability (key_type k)) = true →
  ∃ h' d' w', HostRequests.delete_object (key_id k) (key_type k) ((d, w), h) = (Ok tt, ((d', w'), h')) ∧
    only_sessions (set_objects (delete k (objects d)) d) d' ∧ serving d' w' h' auth.
Proof.
  intros Hclock Hs Ht Hk Hc Hcap.
  destruct (query_handled _ _ _ _ _ _ _ _ Hclock Hs (handled_delete d auth k r Ht Hk Hc Hcap))
    as (h' & d' & w' & Hx & Ho & Hs'). exists h', d', w'. split; [|by auto].
  unfold HostRequests.delete_object. by rewrite (eff_run _ _ _ _ _ Hx).
Qed.

Lemma close_session_run d w h auth :
  steady_clock → serving d w h auth →
  ∃ h' d' w', close_session ((d, w), h) = (Ok tt, ((d', w'), h')) ∧ only_sessions d d'.
Proof.
  intros Hclock Hs. destruct (query_handled _ _ _ _ _ _ _ _ Hclock Hs (handled_close d auth))
    as (h' & d' & w' & Hx & Ho & _). exists h', d', w'. split; [|done].
  unfold close_session. by rewrite (eff_run _ _ _ _ _ Hx).
Qed.
End commands.
