(* ===== verification/Cleanup.v ===== *)
(** * The clean-up of the qualification client removes its own objects

    [Scenarios.cleanup_session] on the device of [Sessions], through the encrypted
    session: its commands are answered by the dispatcher, and when it is done the
    device holds exactly the objects that the client does not own. *)

From S2P Require Import Prelude Error Io Frame Firmware Algorithm Capability Protocol KeyCore.
From S2P Require Import Wire Objects Authorization SessionObjects Requests SecureChannel.
From S2P Require Import DeviceState ObjectStore ObjectCommands KeyUse Wrapping Attestation.
From S2P Require Import SessionObjectCommands Dispatch CommandEffects StoreProperties.
From S2P Require Import QueryProperties DeviceInvariant Sessions SessionSteps HostSession.
From S2P Require Import InProcess HostRequests Credentials Scenarios ClientRuns ClientCommands.

Section cleanup.
Context `{Build} `{HX : X509} `{Der} `{Fuel} `{!ChannelLaws}.

#[local] Existing Instance no_hooks.

(** ** The client *)

(** An object that the clean-up may see and takes for its own. *)
Definition owns (auth : SessionAuthorization) (r : ObjectRecord) : bool :=
  can_see auth (info r) && owned_label (label (info r)).

(** The rights it needs: to delete its own objects. *)
Definition may_delete (d : Device) (auth : SessionAuthorization) : Prop :=
  map_Forall (λ k r, owns auth r = true →
    contains (session_capabilities auth) (ObjectTypes.deletion_capability (key_type k)) = true) (objects d).

Lemma until_zero_zeros l n : until_zero (l ++ zeros n) = until_zero l.
Proof.
  induction l as [|b l IH]; cbn [app until_zero]; [|by rewrite IH].
  unfold zeros. by destruct (Z.to_nat n).
Qed.

(** The label of the description. *)
Lemma info_label i :
  info_ok i → len (label i) ≤ LABEL_LENGTH →
  ∃ padded, slice (E := string) (info_layout i) 18 58 = Ok padded ∧
    owned_label padded = owned_label (label i).
Proof.
  intros Hi Hl. exists (label i ++ zeros (LABEL_LENGTH - len (label i))). split.
  - eapply (slice_parts _ (to_bytes (capabilities i) ++ u16_to_be_bytes (id i) ++
      u16_to_be_bytes (length i) ++ u16_to_be_bytes (domains i) ++
      [ObjectTypes.to_byte (object_type i); algorithm i; sequence i; origin i]) _
      (to_bytes (delegated_capabilities i))).
    + unfold info_layout. by rewrite <- !app_assoc.
    + rewrite !len_app, len_to_bytes, !len_u16_to_be_bytes by apply Hi. done.
    + rewrite !len_app, len_to_bytes, !len_u16_to_be_bytes, len_zeros by (apply Hi || lia).
      change (len [_; _; _; _]) with 4. unfold LABEL_LENGTH in *. lia.
  - unfold owned_label. by rewrite until_zero_zeros.
Qed.

Lemma cleanup_object_run d w h auth k r :
  steady_clock → serving d w h auth → typed_objects d → may_delete d auth →
  objects d !! k = Some r → can_see auth (info r) = true →
  ∃ h' d' w', cleanup_object k ((d, w), h) = (Ok (owns auth r), ((d', w'), h')) ∧
    objects d' = (if owns auth r then delete k (objects d) else objects d) ∧ serving d' w' h' auth.
Proof.
  intros Hclock Hs Ht Hdel Hk Hc. destruct (Ht _ _ Hk) as [[Hkey Hvalid] Hok].
  destruct (query_handled _ _ _ _ _ _ _ _ Hclock Hs (handled_info d auth k r Ht Hk Hc))
    as (h1 & d1 & w1 & Hx1 & Ho1%only_sessions_objects & Hs1). specialize (Hs1 ltac:(done) ltac:(done)).
  assert (info_ok (shown (info r))) as Hshown.
  { destruct Hok. split; try done; by apply retain_ok. }
  destruct (info_label _ Hshown (valid_label _ Hvalid)) as (padded & Hslice & Howned).
  unfold cleanup_object. rewrite (eff_run _ _ _ _ _ Hx1).
  assert (len (info_layout (shown (info r))) = 66) as H66
    by (apply len_info_layout; [apply Hshown..|by apply valid_label]).
  rewrite (eff_run _ _ _ tt ((d1, w1), h1)) by (unfold check; by rewrite H66).
  rewrite (lift_run _ _ _ padded) by done. rewrite Howned.
  unfold owns. rewrite Hc. cbn [andb label shown set_capabilities].
  destruct (owned_label (label (info r))) eqn:Hl.
  - destruct (delete_object_run d1 w1 h1 auth k r) as (h2 & d2 & w2 & Hx2 & Ho2%only_sessions_objects & Hs2);
      [done..|by unfold typed_objects; rewrite Ho1|by rewrite Ho1|done| |].
    { apply (Hdel _ _ Hk). unfold owns. by rewrite Hc, Hl. }
    exists h2, d2, w2. split; [by rewrite (eff_run _ _ _ _ _ Hx2)|]. split; [|done].
    rewrite Ho2. cbn. by rewrite Ho1.
  - by exists h1, d1, w1.
Qed.

(** *** The loop *)

(** The objects among the given keys that the clean-up owns. *)
Definition owned_among (auth : SessionAuthorization) (keys : list ObjectKey)
    (objects : gmap ObjectKey ObjectRecord) : gmap ObjectKey ObjectRecord :=
  filter (λ p, p.1 ∈ keys ∧ owns auth p.2 = true) objects.
Definition others (auth : SessionAuthorization) (keys : list ObjectKey)
    (objects : gmap ObjectKey ObjectRecord) : gmap ObjectKey ObjectRecord :=
  filter (λ p, ¬ (p.1 ∈ keys ∧ owns auth p.2 = true)) objects.

Lemma others_owned auth k r keys o :
  o !! k = Some r → owns auth r = true → others auth (k :: keys) o = others auth keys (delete k o).
Proof.
  intros Hk Ho. apply map_eq. intros j. apply option_eq. intros r'. unfold others.
  rewrite !map_lookup_filter_Some, lookup_delete_Some. cbn [fst snd]. rewrite elem_of_cons.
  destruct (decide (j = k)) as [->|]; naive_solver.
Qed.

Lemma owned_kept auth k r keys (o : gmap ObjectKey ObjectRecord) j r' :
  o !! k = Some r → owns auth r = false → o !! j = Some r' →
  (j ∈ k :: keys ∧ owns auth r' = true) ↔ (j ∈ keys ∧ owns auth r' = true).
Proof.
  intros Hk Ho Hj. rewrite elem_of_cons. split; [|tauto].
  intros [[->|Hin] Hr]; [|done]. congruence.
Qed.

Lemma others_kept auth k r keys o :
  o !! k = Some r → owns auth r = false → others auth (k :: keys) o = others auth keys o.
Proof.
  intros Hk Ho. apply map_filter_ext. intros j r' Hj. cbn [fst snd].
  by rewrite (owned_kept _ _ _ keys _ _ _ Hk Ho Hj).
Qed.

Lemma size_owned auth k r keys o :
  o !! k = Some r → owns auth r = true → k ∉ keys →
  Z.of_nat (size (owned_among auth (k :: keys) o)) = 1 + Z.of_nat (size (owned_among auth keys (delete k o))).
Proof.
  intros Hk Ho Hn.
  assert (owned_among auth (k :: keys) o = <[k := r]> (owned_among auth keys (delete k o))) as ->.
  { apply map_eq. intros j. apply option_eq. intros r'. unfold owned_among.
    rewrite lookup_insert_Some, !map_lookup_filter_Some, lookup_delete_Some. cbn [fst snd].
    rewrite elem_of_cons. destruct (decide (j = k)) as [->|]; naive_solver. }
  rewrite map_size_insert_None; [lia|]. unfold owned_among. apply map_lookup_filter_None. left.
  apply lookup_delete_eq.
Qed.

Lemma size_kept auth k r keys o :
  o !! k = Some r → owns auth r = false →
  owned_among auth (k :: keys) o = owned_among auth keys o.
Proof.
  intros Hk Ho. apply map_filter_ext. intros j r' Hj. cbn [fst snd].
  by rewrite (owned_kept _ _ _ keys _ _ _ Hk Ho Hj).
Qed.

Lemma cleanup_objects_run keys auth : ∀ d w h n,
  steady_clock → serving d w h auth → typed_objects d → may_delete d auth → NoDup keys →
  (∀ k, k ∈ keys → k ∈ visible d auth) →
  ∃ h' d' w', cleanup_objects keys n ((d, w), h)
      = (Ok (n + Z.of_nat (size (owned_among auth keys (objects d)))), ((d', w'), h')) ∧
    objects d' = others auth keys (objects d) ∧ serving d' w' h' auth.
Proof.
  induction keys as [|k keys IH]; intros d w h n Hclock Hs Ht Hdel Hnodup Hvis.
  { exists h, d, w. split; [|split; [|done]].
    - assert (owned_among auth [] (objects d) = ∅) as ->.
      { apply map_empty_filter_2. intros j r _ [Hin _]. by apply elem_of_nil in Hin. }
      rewrite map_size_empty. change (Z.of_nat 0) with 0. by rewrite Z.add_0_r.
    - symmetry. apply map_filter_id. intros j r _ [Hin _]. by apply elem_of_nil in Hin. }
  apply NoDup_cons in Hnodup as [Hn Hnodup].
  destruct (proj1 (elem_of_visible d auth k) (Hvis k ltac:(apply list_elem_of_here))) as (r & Hk & Hc).
  destruct (cleanup_object_run d w h auth k r Hclock Hs Ht Hdel Hk Hc) as (h1 & d1 & w1 & Hx & Ho & Hs1).
  cbn [cleanup_objects]. rewrite (eff_run _ _ _ _ _ Hx).
  destruct (IH d1 w1 h1 (if owns auth r then n + 1 else n)) as (h' & d' & w' & Hx' & Ho' & Hs'); try done.
  - unfold typed_objects. rewrite Ho. destruct (owns auth r); [by apply map_Forall_delete|done].
  - unfold may_delete. rewrite Ho. destruct (owns auth r); [by apply map_Forall_delete|done].
  - intros j Hj. specialize (Hvis j ltac:(by apply list_elem_of_further)).
    apply elem_of_visible in Hvis as (r' & Hj' & Hc'). apply elem_of_visible. exists r'. split; [|done].
    rewrite Ho. destruct (owns auth r); [|done]. rewrite lookup_delete_ne; [done|congruence].
  - exists h', d', w'. rewrite Ho in Ho', Hx'. destruct (owns auth r) eqn:Hr.
    + rewrite (size_owned _ _ _ _ _ Hk Hr Hn), (others_owned _ _ _ _ _ Hk Hr).
      split; [|done]. rewrite Hx'. do 2 f_equal. lia.
    + by rewrite (size_kept _ _ _ _ _ Hk Hr), (others_kept _ _ _ _ _ Hk Hr).
Qed.

(** The objects of a device that the clean-up owns. *)
Definition owned_objects (d : Device) (auth : SessionAuthorization) : gmap ObjectKey ObjectRecord :=
  filter (λ p, owns auth p.2 = true) (objects d).

Lemma in_order_elements (ks : gset ObjectKey) k : k ∈ in_order ks ↔ k ∈ ks.
Proof. unfold in_order. by rewrite merge_sort_Permutation, elem_of_elements. Qed.

Lemma in_order_NoDup (ks : gset ObjectKey) : NoDup (in_order ks).
Proof. unfold in_order. rewrite merge_sort_Permutation. apply NoDup_elements. Qed.

Lemma owned_in_order d auth k r :
  objects d !! k = Some r → (k ∈ in_order (visible d auth) ∧ owns auth r = true) ↔ owns auth r = true.
Proof.
  intros Hk. rewrite in_order_elements, elem_of_visible. split; [tauto|]. intros Ho. split; [|done].
  exists r. split; [done|]. by apply andb_true_iff in Ho as [? _].
Qed.

Lemma cleanup_session_run d w h auth :
  steady_clock → serving d w h auth → typed_objects d → may_delete d auth →
  4 * Z.of_nat (size (objects d)) ≤ 8172 →
  ∃ h' d' w', cleanup_session ((d, w), h)
      = (Ok (mkCleanup (Z.of_nat (size (owned_objects d auth)))
               (Z.of_nat (size (visible d auth)) - Z.of_nat (size (owned_objects d auth)))),
         ((d', w'), h')) ∧
    ∀ k r, objects d' !! k = Some r ↔ objects d !! k = Some r ∧ owns auth r = false.
Proof.
  intros Hclock Hs Ht Hdel Hsize.
  destruct (list_objects_run d w h auth Hclock Hs Ht Hsize)
    as (h1 & d1 & w1 & Hx1 & Ho1%only_sessions_objects & Hs1).
  assert (visible d1 auth = visible d auth) as Hvis by (unfold visible; by rewrite Ho1).
  destruct (cleanup_objects_run (in_order (visible d auth)) auth d1 w1 h1 0 Hclock Hs1)
    as (h2 & d2 & w2 & Hx2 & Ho2 & Hs2);
    [by unfold typed_objects; rewrite Ho1|by unfold may_delete; rewrite Ho1|apply in_order_NoDup
    |intros k; by rewrite in_order_elements, Hvis|].
  destruct (close_session_run d2 w2 h2 auth Hclock Hs2) as (h3 & d3 & w3 & Hx3 & Ho3%only_sessions_objects).
  assert (owned_among auth (in_order (visible d auth)) (objects d1) = owned_objects d auth) as Hcount.
  { unfold owned_among, owned_objects. rewrite Ho1. apply map_filter_ext. intros k r Hk. by apply owned_in_order. }
  exists h3, d3, w3. split.
  - unfold cleanup_session. rewrite (eff_run _ _ _ _ _ Hx1).
    rewrite (eff_run _ _ _ _ _ Hx2). rewrite Hcount, Z.add_0_l.
    by rewrite (eff_run _ _ _ _ _ Hx3).
  - intros k r. rewrite Ho3, Ho2, Ho1. unfold others. rewrite map_lookup_filter_Some. cbn [fst snd].
    split; intros [Hk Hn]; (split; [done|]).
    + rewrite (owned_in_order d auth k r Hk) in Hn. by destruct (owns auth r).
    + rewrite (owned_in_order d auth k r Hk). by rewrite Hn.
Qed.

(** C12: the clean-up removes exactly its own objects. An administrator whose session
    is open, who may delete every object labelled "qualification..." that it sees,
    and who is not held up by forced audit or by a clock that jumps, runs the
    clean-up through the encrypted session to its end: of the objects of the device
    exactly those that it sees and whose label, up to the first zero, starts with
    the reserved prefix are gone, and the report counts them and the visible rest. *)
Theorem cleanup_removes_its_objects `{!P256Library} (credentials : Credentials (Device * World))
    (s0 : Device * World) (d : Device) (w : World) (h : SymmetricSession) (auth : SessionAuthorization) :
  open_host_session credentials s0 = (Ok h, (d, w)) →
  steady_clock → serving d w h auth → typed_objects d → may_delete d auth →
  4 * Z.of_nat (size (objects d)) ≤ 8172 →
  ∃ d' w', cleanup_qualification_objects credentials s0
      = (Ok (mkCleanup (Z.of_nat (size (owned_objects d auth)))
               (Z.of_nat (size (visible d auth)) - Z.of_nat (size (owned_objects d auth)))), (d', w')) ∧
    ∀ k r, objects d' !! k = Some r ↔ objects d !! k = Some r ∧ owns auth r = false.
Proof.
  intros Hopen Hclock Hs Ht Hdel Hsize.
  destruct (cleanup_session_run d w h auth Hclock Hs Ht Hdel Hsize) as (h' & d' & w' & Hrun & Ho).
  exists d', w'. split; [|done]. unfold cleanup_qualification_objects, in_session.
  rewrite (eff_run _ _ _ _ _ Hopen). unfold run_session. by rewrite Hrun.
Qed.
End cleanup.

(** ** Witness *)

From S2P Require Import Toy AsymmetricHandshake.

#[local] Existing Instance default_build.
#[local] Existing Instance toy_fuel.
#[local] Existing Instance toy_p256.

(** The factory device with an object of an interrupted run. *)
Definition leftover : ObjectRecord :=
  mkObjectRecord
    (mkObjectInfo NONE 5 3 1 Opaque (Algorithm.to_byte OpaqueData) 0 2
       (ascii_bytes "qualification wrap") NONE)
    (OpaqueMaterial [1; 2; 3]).

Definition leftover_device : Device :=
  set_objects (<[mkObjectKey Opaque 5 := leftover]> (objects example_device)) example_device.

Lemma leftover_typed : typed_objects leftover_device.
Proof.
  apply map_Forall_insert_2; [|apply map_Forall_insert_2; [|apply map_Forall_empty]].
  - split; [split; by vm_compute|]. split; by_computation.
  - split; [split; by vm_compute|]. split; by_computation.
Qed.

Lemma leftover_deletable :
  map_Forall (λ k r, owns (mkAuthorization 1 ALL ALL u16_max) r = true →
    contains ALL (ObjectTypes.deletion_capability (key_type k)) = true) (objects leftover_device).
Proof.
  by apply map_Forall_insert_2; [|apply map_Forall_insert_2; [|apply map_Forall_empty]].
Qed.

(** The administrator opens a session on any device with the factory key. *)
Lemma administrator_session objs :
  objs !! mkObjectKey AuthenticationKey 1 = objects example_device !! mkObjectKey AuthenticationKey 1 →
  ∃ h d w, open_symmetric 1 (yubico_password_kdf (ascii_bytes "password"))
        (set_objects objs example_device, toy_world) = (Ok h, (d, w)) ∧
    serving d w h (mkAuthorization 1 ALL ALL u16_max) ∧ only_sessions (set_objects objs example_device) d.
Proof.
  intros Hkey. set (keys := yubico_password_kdf (ascii_bytes "password")).
  set (card := to_be_bytes 8 42).
  destruct (begin_symmetric 0 keys host_challenge card) as [[[s cc] hc]|e| |] eqn:Hb.
  2-4: exfalso; by vm_compute in Hb.
  destruct (open_symmetric_run (set_objects objs example_device) toy_world 1 keys
    (mkAuthorization 1 ALL ALL u16_max) 0 card s cc hc 1000 toy_world (42, 1000) 1000
    (42, 1000) 1000 (42, 1000) 1000 (42, 1000)) as (h & d & entry & Ho & Hc & Ha & _ & Hl & Hs & _).
  1: by_computation.
  1: reflexivity.
  1-2: unfold session_authorization, authentication_key_material; cbn [objects set_objects]; rewrite Hkey; by vm_compute.
  1-3: reflexivity.
  1: exact Hb.
  1-4: reflexivity.
  exists h, d, (42, 1000). split; [exact Ho|]. pose proof (same_options _ _ Hs) as Hopt. cbn in Hopt.
  split; [|exact Hs]. split; [|by rewrite Hopt]. exists entry. split; [exact Hc|]. split; [exact Ha|].
  unfold still_active. by rewrite Hl.
Qed.

Lemma leftover_session :
  ∃ h d w, open_symmetric 1 (yubico_password_kdf (ascii_bytes "password")) (leftover_device, toy_world)
      = (Ok h, (d, w)) ∧ serving d w h (mkAuthorization 1 ALL ALL u16_max) ∧
    only_sessions leftover_device d.
Proof. by apply administrator_session. Qed.

Lemma cleanup_removes_its_objects_witness :
  ∃ d' w', cleanup_qualification_objects
      (from_password 1 (ascii_bytes "password")) (leftover_device, toy_world)
      = (Ok (mkCleanup 1 1), (d', w')) ∧
    objects d' !! mkObjectKey Opaque 5 = None.
Proof.
  destruct leftover_session as (h & d & w & Ho & Hs & Hobj%only_sessions_objects).
  destruct (cleanup_removes_its_objects (from_password 1 (ascii_bytes "password"))
    (leftover_device, toy_world) d w h (mkAuthorization 1 ALL ALL u16_max)) as (d' & w' & Hrun & Hd).
  - exact Ho.
  - intros w0. cbn. unfold SESSION_INACTIVITY_TIMEOUT. lia.
  - exact Hs.
  - unfold typed_objects. rewrite Hobj. apply leftover_typed.
  - unfold may_delete. rewrite Hobj. apply leftover_deletable.
  - rewrite Hobj. by vm_compute.
  - exists d', w'. split.
    + rewrite Hrun. unfold owned_objects, visible. rewrite Hobj.
      by do 2 f_equal.
    + apply eq_None_not_Some. intros [r [Hr Hown]%Hd]. rewrite Hobj in Hr.
      assert (objects leftover_device !! mkObjectKey Opaque 5 = Some leftover) as Hl by apply lookup_insert_eq.
      rewrite Hl in Hr. injection Hr as <-. discriminate Hown.
Defined.
