(* ===== verification/Backup.v ===== *)
(** * Moving an object from one device to another

    ExportWrapped on one device and ImportWrapped on another that holds the same
    AES-CCM wrap key, each through the encrypted session of its client: what the
    second device then stores, answers, and can export again. *)

From S2P Require Import Prelude Error Io Frame Firmware Algorithm Capability Protocol KeyCore.
From S2P Require Import Wire Objects Authorization SessionObjects Requests SecureChannel.
From S2P Require Import DeviceState ObjectStore ObjectCommands KeyUse Wrapping WrappingProperties.
From S2P Require Import KeyUseProperties Attestation SessionObjectCommands Dispatch CommandEffects.
From S2P Require Import StoreProperties DeviceInvariant Sessions SessionSteps HostSession InProcess.
From S2P Require Import HostRequests Credentials Scenarios ClientRuns ClientCommands.

Section backup.
Context `{Build} `{HX : X509} `{Der} `{Fuel}.
Context `{!ChannelLaws} `{!SealLaws} `{!CborLaws} `{!RandomLaws}.

#[local] Existing Instance no_hooks.

(** ** What is restored *)

(** The copy of an object that an import stores: the sequence number is that of
    the new generation, and the origin says that it was imported. *)
Definition restored (r : ObjectRecord) : ObjectRecord :=
  set_info (set_origin (Z.lor (Z.land (origin (info r)) 0x0f) 0x10) (set_sequence 0 (info r))) r.

(** The keys that the cryptographic library checks before an import stores them,
    with random bytes of its own. *)
Definition checked_on_import (r : ObjectRecord) : bool :=
  bool_decide (object_type (info r) = PublicWrapKey) ||
  match material r with SigningKey key => bool_decide (is_Some (signing_as_rsa key)) | _ => false end.

(** A restored object is exported as the original is. *)
Lemma encode_restored r : encode_wrapped_object (restored r) = encode_wrapped_object r.
Proof.
  unfold encode_wrapped_object.
  change (validate_wrapped_object (restored r)) with (validate_wrapped_object r).
  change (wrapped_material (restored r)) with (wrapped_material r).
  cbn [restored set_info info set_origin set_sequence origin].
  by rewrite Z.land_lor_distr_l, <- Z.land_assoc, Z.lor_0_r.
Qed.

Lemma encode_installed r n :
  encode_wrapped_object (set_info (set_sequence n (info (restored r))) (restored r))
  = encode_wrapped_object r.
Proof. exact (encode_restored r). Qed.

(** What can be exported is in its stored form already. *)
Lemma promote_wrappable r algorithm :
  Algorithm.from_byte (Objects.algorithm (info r)) = Some algorithm →
  wrappable algorithm r = true → promote_private_material (restored r) = Ok (restored r).
Proof.
  intros Ha Hw. unfold promote_private_material, holds_private_key.
  change (material (restored r)) with (material r).
  change (object_type (info (restored r))) with (object_type (info r)).
  change (Objects.algorithm (info (restored r))) with (Objects.algorithm (info r)).
  rewrite (is_rsa_algorithm_known _ _ Ha). unfold wrappable in Hw.
  destruct (object_type (info r)) eqn:Ht, (material r); try done. bool_prop.
  by match goal with Hd : _ ∨ _ ∨ _ |- _ => destruct Hd as [->|[->| ->]] end.
Qed.
(** ** Importing *)

Lemma ccm_wrap_key_found (d : Device) auth wrap_id wrap_key :
  ccm_wrap_key d auth wrap_id = Ok wrap_key →
  objects d !! mkObjectKey WrapKey wrap_id = Some wrap_key ∧ require_visible auth (info wrap_key) = Ok tt.
Proof.
  intros (o & Ho & Hwk)%outcome_bind_ok. apply outcome_bind_ok in Ho as (o' & Ho & Hv).
  apply ok_or_ok in Ho. apply outcome_bind_ok in Hv as ([] & Hv & He).
  apply outcome_bind_ok in He as ([] & _ & [= ->]).
  assert (o = wrap_key) as ->; [|done]. repeat (case_match; try done). all: by injection Hwk.
Qed.

Lemma install_copy (d : Device) w r algorithm :
  validate r = Ok tt → Algorithm.from_byte (Objects.algorithm (info r)) = Some algorithm →
  wrappable algorithm r = true → checked_on_import r = false →
  objects d !! Info.key (info r) = None →
  install_wrapped_object (wrapped_copy r) (d, w)
  = (Ok (ObjectTypes.to_byte (object_type (info r)) :: u16_to_be_bytes (id (info r))),
     (install_record (restored r) d, w)).
Proof.
  intros Hv Ha Hw Hc Hfree. pose proof (validate_id _ Hv) as [Hzero Hmax].
  pose proof (promote_wrappable _ _ Ha Hw) as Hp. apply orb_false_iff in Hc as [Hpublic Hsigning].
  assert (validate (restored r) = Ok tt) as Hv' by done.
  assert (resolve_id d (object_type (info r)) (id (info r)) w = (Ok (id (info r)), w)) as Hresolve.
  { unfold resolve_id. rewrite (lift_run _ _ _ tt) by by rewrite (proj2 (Z.eqb_neq _ _) Hmax).
    rewrite (proj2 (Z.eqb_neq _ _) Hzero). cbn [negb].
    change (mkObjectKey _ _) with (Info.key (info r)). by rewrite (lift_run _ _ _ tt) by by rewrite Hfree. }
  unfold install_wrapped_object, get_left. rewrite (eff_run _ _ _ d (d, w)) by done. cbv beta.
  rewrite (world_run _ _ _ _ _ _ Hresolve). cbv beta zeta.
  change (set_info _ (wrapped_copy r)) with (restored r).
  rewrite (lift_run _ _ _ _ Hv'). cbv beta.
  rewrite (eff_run _ _ _ tt (install_record (restored r) d, w)); [done|].
  assert (validate_imported_rsa (restored r) w = (Ok (restored r), w)) as Hrsa.
  { unfold validate_imported_rsa. change (material (restored r)) with (material r).
    destruct (material r); try done. bool_prop. destruct (signing_as_rsa _); [|done].
    by destruct Hsigning. }
  unfold write_imported_object, write_object. rewrite (lift_run _ _ _ _ Hp), (lift_run _ _ _ _ Hv').
  rewrite (world_run _ _ _ _ _ _ Hrsa), (lift_run _ _ _ _ Hp), (lift_run _ _ _ _ Hv').
  rewrite (world_run _ _ _ w tt w); [done|].
  unfold validate_public_wrap_key. change (object_type (info (restored r))) with (object_type (info r)).
  by rewrite Hpublic.
Qed.

(** A blob that the key opens. *)
Definition sealed (secret plaintext blob : bytes) : Prop :=
  ∃ nonce c, blob = 1 :: nonce ++ c ∧ len nonce = 13 ∧ len c = len plaintext + AES_CCM_TAG_SIZE ∧
    decrypt_aes_ccm secret nonce c = inl plaintext.

(** What lets a session import an object under a wrap key. *)
Record may_import (d : Device) (auth : SessionAuthorization) (wrap_id : Z) (wrap_key : ObjectRecord)
    (secret : bytes) (r : ObjectRecord) : Prop := {
  importing_key : ccm_wrap_key d auth wrap_id = Ok wrap_key;
  importing_secret : object_secret wrap_key = Ok secret;
  importing_use : contains (capabilities (info wrap_key)) Capability.ImportWrapped = true;
  importing_creation : authorize_wrapped_creation auth (info r) wrap_key = Ok tt;
  importing_free : objects d !! Info.key (info r) = None;
  importing_unchecked : checked_on_import r = false;
}.

Lemma decode_import_app id nonce c :
  u16 id → len nonce = 13 →
  decode ImportWrappedRequest (u16_to_be_bytes id ++ 1 :: nonce ++ c)
  = Ok (ImportWrappedRequest_ id 1 nonce c).
Proof.
  intros Hid Hn. unfold decode, decode_fields, decode_import_wrapped, decoder, mbind, eff_bind.
  rewrite read_u16_app by done. rewrite read_u8_cons. by rewrite (read_array_app 13).
Qed.

Lemma import_run (d : Device) w auth wrap_id wrap_key secret r plaintext blob :
  u16 wrap_id → may_import d auth wrap_id wrap_key secret r → sealed secret plaintext blob →
  info_ok (info r) → material_restores r → encode_wrapped_object r = Ok plaintext →
  import_wrapped auth (u16_to_be_bytes wrap_id ++ blob) (d, w)
  = (Ok (ObjectTypes.to_byte (object_type (info r)) :: u16_to_be_bytes (id (info r))),
     (install_record (restored r) d, w)).
Proof.
  intros Hid [Hk Hs _ Hauth Hfree Hc] (nonce & c & -> & Hn & Hlen & Hdec) Hi Hm He.
  destruct (encode_wrapped_object_ok _ _ He) as (algorithm & m & Hv & Ha & Hw & _).
  pose proof (wrapped_object_round_trip _ _ Hi Hm He) as Hd. pose proof (len_nonneg plaintext).
  unfold import_wrapped. rewrite (lift_run _ _ _ _ (decode_import_app wrap_id nonce c Hid Hn)). cbv beta iota.
  rewrite (lift_run _ _ _ tt).
  2:{ by rewrite Z.eqb_refl, (proj2 (Z.ltb_ge _ _)) by lia. }
  unfold get_left. rewrite (eff_run _ _ _ d (d, w)) by done. cbv beta.
  rewrite (lift_run _ _ _ _ Hk), (lift_run _ _ _ _ Hs). cbv beta.
  rewrite (lift_run _ _ _ plaintext) by by rewrite Hdec. rewrite (lift_run _ _ _ _ Hd).
  rewrite (lift_run _ _ _ tt) by done. by eapply install_copy.
Qed.
(** ** Exporting *)

(** What lets a session export an object under a wrap key, in a message that the
    other device can take. *)
Record may_export (d : Device) (auth : SessionAuthorization) (wrap_id : Z) (wrap_key : ObjectRecord)
    (secret : bytes) (k : ObjectKey) (r : ObjectRecord) (plaintext : bytes) : Prop := {
  exporting_object : objects d !! k = Some r;
  exporting_key : ccm_wrap_key d auth wrap_id = Ok wrap_key;
  exporting_secret : object_secret wrap_key = Ok secret;
  exporting_rights : authorize_wrapped_export auth r wrap_key = Ok tt;
  exporting_encoding : encode_wrapped_object r = Ok plaintext;
  exporting_fits : 2 + (1 + AES_CCM_NONCE_SIZE + (len plaintext + AES_CCM_TAG_SIZE)) ≤ 8172;
}.

(** The random source and the cipher do their work. *)
Record seals (secret plaintext : bytes) (w : World) : Prop := {
  seals_nonce : ∃ nonce w', getrandom_fill AES_CCM_NONCE_SIZE w = (Some nonce, w');
  seals_plaintext nonce : len nonce = AES_CCM_NONCE_SIZE →
    ∃ c, encrypt_aes_ccm secret nonce plaintext = inl c;
}.

Definition export_request (wrap_id : Z) (k : ObjectKey) : bytes :=
  u16_to_be_bytes wrap_id ++ [ObjectTypes.to_byte (key_type k)] ++ u16_to_be_bytes (key_id k).

Lemma decode_export_request id k :
  u16 id → u16 (key_id k) →
  decode ExportWrappedRequest (export_request id k) = Ok (ExportWrappedRequest_ id k None).
Proof.
  intros Hid Hk. unfold export_request, decode, decode_fields, decode_export_wrapped, decoder, mbind, eff_bind.
  rewrite read_u16_app by done. unfold read_object_type, mbind, eff_bind. cbn [app].
  rewrite read_u8_cons. unfold lift at 1. rewrite ObjectTypes.object_type_from_to_byte. cbn [ok_or].
  rewrite <- (app_nil_r (u16_to_be_bytes (key_id k))), read_u16_app by done. by destruct k.
Qed.

Lemma export_run (d : Device) w auth wrap_id wrap_key secret k r plaintext :
  u16 wrap_id → u16 (key_id k) → may_export d auth wrap_id wrap_key secret k r plaintext →
  seals secret plaintext w →
  ∃ blob w', export_wrapped d auth (export_request wrap_id k) w = (Ok blob, w') ∧
    sealed secret plaintext blob.
Proof.
  intros Hid Hkid [Hk Hwk Hs _ He _] [(nonce & w' & Hn) Hc].
  assert (0 ≤ AES_CCM_NONCE_SIZE) as Hsize by done.
  pose proof (getrandom_length _ _ _ _ Hsize Hn) as [Hlen _].
  destruct (Hc nonce Hlen) as [c Henc]. pose proof (decrypt_encrypt_ccm _ _ _ _ Henc) as [Hdec Hcl].
  exists (1 :: nonce ++ c), w'. split; [|by exists nonce, c].
  unfold export_wrapped. rewrite (lift_run _ _ _ _ (decode_export_request _ _ Hid Hkid)). cbv beta iota.
  rewrite (lift_run _ _ _ tt) by done. rewrite (lift_run _ _ _ _ Hwk). cbv beta.
  rewrite (lift_run _ _ _ r) by by rewrite Hk. rewrite (lift_run _ _ _ _ He). cbv beta.
  rewrite (eff_run _ _ _ _ _ (random_run _ _ _ _ Hn)). rewrite (lift_run _ _ _ _ Hs). cbv beta.
  by rewrite (lift_run _ _ _ c) by by rewrite Henc.
Qed.

Lemma len_sealed secret plaintext blob :
  sealed secret plaintext blob → len blob = 1 + AES_CCM_NONCE_SIZE + (len plaintext + AES_CCM_TAG_SIZE).
Proof. intros (nonce & c & -> & Hn & Hc & _). unfold AES_CCM_NONCE_SIZE, AES_CCM_TAG_SIZE in *. len_lia. Qed.

(** ** The commands, as the clients run them *)

Lemma ran_export (d : Device) w auth wrap_id wrap_key secret k r plaintext :
  u16 wrap_id → u16 (key_id k) → may_export d auth wrap_id wrap_key secret k r plaintext →
  seals secret plaintext w →
  ∃ blob w', sealed secret plaintext blob ∧
    ∀ t, ran (set_sessions t d) w auth CommandCode.ExportWrapped (export_request wrap_id k) (Ok blob)
           (set_sessions t d) w'.
Proof.
  intros Hid Hkid Hm Hw. destruct (export_run d w _ _ _ _ _ _ _ Hid Hkid Hm Hw) as (blob & w' & Hrun & Hb).
  exists blob, w'. split; [done|]. intros t. pose proof Hm as [Hk Hwk Hs Hr He Hfit].
  pose proof (len_sealed _ _ _ Hb) as Hlen.
  assert (authorize_use auth (info wrap_key) Capability.ExportWrapped Capability.ExportWrapped = Ok tt) as Huse
    by (by apply outcome_bind_ok in Hr as ([] & ? & _)).
  split; try done.
  - apply outcome_bind_ok in Huse as ([] & _ & Huse). apply outcome_bind_ok in Huse as ([] & Hcap & _).
    by apply require_capability_ok in Hcap.
  - intros table. apply authorized_run.
    + unfold authorize_command_objects, authorize_container_objects.
      rewrite (decode_export_request _ _ Hid Hkid). cbn [mbind outcome_bind].
      unfold authorize_wrapped_export_of. cbn [objects set_sessions].
      apply ccm_wrap_key_found in Hwk as [-> _]. by rewrite Hk.
    + unfold run_command, read_device, on_device, reading. cbn [fst snd].
      change (export_wrapped (set_sessions t d)) with (export_wrapped d). by rewrite Hrun.
  - split; [done|]. unfold AES_CCM_NONCE_SIZE, AES_CCM_TAG_SIZE in *. lia.
Qed.
Lemma handled_import (d : Device) auth wrap_id wrap_key secret r plaintext blob :
  u16 wrap_id → may_import d auth wrap_id wrap_key secret r → sealed secret plaintext blob →
  info_ok (info r) → material_restores r → encode_wrapped_object r = Ok plaintext →
  2 + len blob ≤ 8172 →
  handled d auth CommandCode.ImportWrapped (u16_to_be_bytes wrap_id ++ blob)
    (Ok (ObjectTypes.to_byte (object_type (info r)) :: u16_to_be_bytes (id (info r))))
    (install_record (restored r)).
Proof.
  intros Hid Hm Hb Hi Hr He Hfit. pose proof Hm as [Hwk Hs Huse Hauth _ _].
  apply outcome_bind_ok in Hauth as ([] & (Hcap & _)%authorize_create_ok & _).
  apply ccm_wrap_key_found in Hwk as [Hwk Hv].
  split; try done.
  - intros t w table. apply authorized_run.
    + pose proof Hb as (nonce & c & -> & Hn & _).
      unfold authorize_command_objects, authorize_container_objects.
      rewrite (decode_import_app _ _ _ Hid Hn). cbn [mbind outcome_bind].
      unfold authorize_id, authorize_object. cbn [objects set_sessions]. rewrite Hwk.
      cbn [ok_or mbind outcome_bind]. unfold authorize_use, require_capability.
      by rewrite Hv, Hcap, Huse.
    + unfold run_command, on_device. cbn [fst snd].
      assert (may_import (set_sessions t d) auth wrap_id wrap_key secret r) as Hm' by (destruct Hm; by split).
      by rewrite (import_run (set_sessions t d) w auth wrap_id wrap_key secret r plaintext blob Hid Hm' Hb Hi Hr He).
  - split; [|done]. rewrite len_app, len_u16_to_be_bytes. lia.
Qed.

(** C14: an object moves from one device to another. Two devices hold the same
    AES-CCM wrap key, under any identifiers. A client that may export an object of
    the first one does so through its session and gets a blob, with nothing but
    sessions changed there; a client of the second device, whose session may create
    the object and where its key is free, imports the blob and gets the type and the
    identifier of the object. The second device then differs in one object and the
    generation of its identifier: it holds the object with the same key material and
    the same description, marked as imported, and the stored object has the same
    wrapped form, so that it can be exported again. *)
Theorem object_moves_between_devices (source target : Device) (w w' : World) (h h' : SymmetricSession)
    (auth auth' : SessionAuthorization) (wrap_id wrap_id' : Z) (wrap_key wrap_key' r : ObjectRecord)
    (secret plaintext : bytes) (k : ObjectKey) :
  steady_clock → serving source w h auth → serving target w' h' auth' → typed_objects source →
  u16 wrap_id → u16 wrap_id' → may_export source auth wrap_id wrap_key secret k r plaintext →
  may_import target auth' wrap_id' wrap_key' secret r → material_restores r →
  seals secret plaintext (clocked w) →
  ∃ blob source' target' w1 w1' h1 h1' r',
    session_query CommandCode.ExportWrapped (export_request wrap_id k) ((source, w), h)
      = (Ok blob, ((source', w1), h1)) ∧ only_sessions source source' ∧
    session_query CommandCode.ImportWrapped (u16_to_be_bytes wrap_id' ++ blob) ((target, w'), h')
      = (Ok (ObjectTypes.to_byte (key_type k) :: u16_to_be_bytes (key_id k)), ((target', w1'), h1')) ∧
    only_sessions (install_record (restored r) target) target' ∧ serving target' w1' h1' auth' ∧
    objects target' = <[k := r']> (objects target) ∧ material r' = material r ∧
    info r' = set_origin (Z.lor (Z.land (origin (info r)) 0x0f) 0x10)
                (set_sequence (next_generation target (key_id k) mod 256) (info r)) ∧
    encode_wrapped_object r' = Ok plaintext.
Proof.
  intros Hclock Hs Hs' Ht Hid Hid' Hm Hm' Hr Hw. pose proof Hm as [Hk _ _ _ He Hfit].
  destruct (Ht _ _ Hk) as [[Hkey Hvalid] Hi].
  assert (u16 (key_id k)) as Hkid by (rewrite <- Hkey; apply Hi).
  destruct (ran_export source (clocked w) _ _ _ _ _ _ _ Hid Hkid Hm Hw) as (blob & w1 & Hb & Hrun).
  destruct (exec_ran source w h auth _ _ _ (λ d, d) w1 Hs Hrun) as (h1 & source' & Hx & Ho & _).
  pose proof (len_sealed _ _ _ Hb) as Hlen.
  assert (2 + len blob ≤ 8172) as Hblob by lia.
  destruct (query_handled _ _ _ _ _ _ _ _ Hclock Hs'
    (handled_import target auth' wrap_id' wrap_key' secret r plaintext blob Hid' Hm' Hb Hi Hr He Hblob))
    as (h1' & target' & w1' & Hq & Ho' & Hserve).
  exists blob, source', target', w1, w1', h1, h1'.
  exists (set_info (set_sequence (next_generation target (key_id k) mod 256) (info (restored r))) (restored r)).
  split; [exact (exec_success _ _ _ _ _ _ Hx (new_frame_fits _ _ (proj1 (ran_fits _ _ _ _ _ _ _ _ (Hrun ∅)))))|]. split; [done|].
  split; [by rewrite Hq, <- Hkey|]. split; [done|]. split; [by apply Hserve|].
  split; [rewrite (only_sessions_objects _ _ Ho'), <- Hkey; done|]. split; [done|]. split; [done|].
  rewrite <- He. apply encode_installed.
Qed.
End backup.

(** ** Witness *)

From S2P Require Import Toy AsymmetricHandshake Cleanup.

#[local] Existing Instance default_build.
#[local] Existing Instance toy_fuel.

(** An AES-128 CCM wrap key, which the two devices hold under different identifiers. *)
Definition example_wrap_key (id : Z) : ObjectRecord :=
  mkObjectRecord
    (mkObjectInfo ALL id 24 u16_max WrapKey (Algorithm.to_byte Aes128CcmWrap) 0 2 (ascii_bytes "wrap") ALL)
    (Secret (zeros 16)).

Definition backup_source : Device :=
  set_objects (<[mkObjectKey Opaque 9 := example_opaque]>
    (<[mkObjectKey WrapKey 2 := example_wrap_key 2]> (objects example_device))) example_device.

Definition backup_target : Device :=
  set_objects (<[mkObjectKey WrapKey 7 := example_wrap_key 7]> (objects example_device)) example_device.

Lemma backup_source_typed : typed_objects backup_source.
Proof.
  do 3 (apply map_Forall_insert_2; [split; [split; by vm_compute|split; by_computation]|]).
  apply map_Forall_empty.
Qed.

Lemma object_moves_between_devices_witness :
  ∃ source target w w' h h' blob source' target' w1 w1' h1 h1' r',
    objects source = objects backup_source ∧ objects target = objects backup_target ∧
    session_query CommandCode.ExportWrapped (export_request 2 (mkObjectKey Opaque 9)) ((source, w), h)
      = (Ok blob, ((source', w1), h1)) ∧
    session_query CommandCode.ImportWrapped (u16_to_be_bytes 7 ++ blob) ((target, w'), h')
      = (Ok [1; 0; 9], ((target', w1'), h1')) ∧
    objects target' = <[mkObjectKey Opaque 9 := r']> (objects backup_target) ∧
    material r' = material example_opaque.
Proof.
  destruct (administrator_session (objects backup_source) eq_refl) as (h & source & w & _ & Hs & Ho).
  destruct (administrator_session (objects backup_target) eq_refl) as (h' & target & w' & _ & Hs' & Ho').
  pose proof (only_sessions_objects _ _ Ho) as Hobj. pose proof (only_sessions_objects _ _ Ho') as Hobj'.
  cbn [objects set_objects] in Hobj, Hobj'.
  destruct (encode_wrapped_object example_opaque) as [plaintext| | |] eqn:He.
  2-4: exfalso; by vm_compute in He.
  assert (Hplain : len plaintext ≤ 100).
  { injection He as <-. by vm_compute. }
  destruct (object_moves_between_devices source target w w' h h' (mkAuthorization 1 ALL ALL u16_max)
    (mkAuthorization 1 ALL ALL u16_max) 2 7 (example_wrap_key 2) (example_wrap_key 7) example_opaque
    (zeros 16) plaintext (mkObjectKey Opaque 9))
    as (blob & source' & target' & w1 & w1' & h1 & h1' & r' & Hx & _ & Hi & _ & _ & Hobjs & Hmat & _).
  - intros w0. cbn. unfold SESSION_INACTIVITY_TIMEOUT. lia.
  - exact Hs.
  - exact Hs'.
  - unfold typed_objects. rewrite Hobj. apply backup_source_typed.
  - done.
  - done.
  - split; [by rewrite Hobj| |done|by vm_compute|exact He|].
    + unfold ccm_wrap_key, visible_enabled. rewrite Hobj. unfold require_algorithm_enabled, algorithm_enabled.
      rewrite (only_sessions_config _ _ Ho), (only_sessions_options _ _ Ho). reflexivity.
    + unfold AES_CCM_NONCE_SIZE, AES_CCM_TAG_SIZE. lia.
  - split; [|done|by vm_compute|by vm_compute|by rewrite Hobj'|by vm_compute].
    unfold ccm_wrap_key, visible_enabled. rewrite Hobj'. unfold require_algorithm_enabled, algorithm_enabled.
    rewrite (only_sessions_config _ _ Ho'), (only_sessions_options _ _ Ho'). reflexivity.
  - by split.
  - split; [by do 2 eexists|]. intros nonce _. by eexists.
  - exists source, target, w, w', h, h', blob, source', target', w1, w1', h1, h1', r'.
    split; [exact Hobj|]. split; [exact Hobj'|]. split; [exact Hx|]. split; [exact Hi|].
    split; [by rewrite Hobjs, Hobj'|exact Hmat].
Defined.
