(* ===== verification/Isolation.v ===== *)
(** * What a session can learn about the objects it cannot see

    Two devices that differ only in objects outside the domains of a session give
    that session the same answers: every handler is followed on both devices at
    once. What may differ is which identifiers are in use, for a command that
    creates an object, and how many objects there are, for the storage report. *)

From S2P Require Import Prelude Error Frame Firmware Algorithm Capability Protocol KeyCore Toy.
From S2P Require Import Wire Objects Authorization SessionObjects Requests SecureChannel.
From S2P Require Import DeviceState ObjectStore ObjectCommands KeyUse Wrapping Attestation.
From S2P Require Import SessionObjectCommands Dispatch CommandEffects StoreProperties QueryProperties.

Section isolation.
Context `{Build} `{HX : X509} `{Der} `{Fuel}.

(** Strictly, two runs must have the same outcome; otherwise the same outcome when
    both succeed. *)
Context (strict : bool).

(** ** Two runs *)

Definition failing {E A} (r1 r2 : outcome E A) : Prop :=
  strict = false ∧ is_ok r1 && is_ok r2 = false.

Definition agree {E A} (r1 r2 : outcome E A) : Prop := r1 = r2 ∨ failing r1 r2.

(** Two runs from given states: the same outcome, and related states. *)
Definition runs {S1 S2 E A} (R : S1 → S2 → Prop) (m1 : Eff S1 E A) (m2 : Eff S2 E A) (s1 : S1) (s2 : S2) : Prop :=
  ((m1 s1).1 = (m2 s2).1 ∧ R (m1 s1).2 (m2 s2).2) ∨ failing (m1 s1).1 (m2 s2).1.

Definition related {S E A} (R : relation S) (m1 m2 : Eff S E A) : Prop :=
  ∀ s1 s2, R s1 s2 → runs R m1 m2 s1 s2.

Lemma agree_refl {E A} (r : outcome E A) : agree r r.
Proof. by left. Qed.

Lemma agree_bind {E A B} (r1 r2 : outcome E A) (f1 f2 : A → outcome E B) :
  agree r1 r2 → (∀ a, r1 = Ok a → r2 = Ok a → agree (f1 a) (f2 a)) → agree (r1 ≫= f1) (r2 ≫= f2).
Proof.
  intros [->|[Hs Hr]] Hf.
  - destruct r2 as [a|e| |]; [by apply Hf|by left..].
  - right. split; [done|]. destruct r1, r2; cbn in *; by rewrite ?andb_false_r.
Qed.

(** A check without a value. *)
Lemma agree_unit {E} (r1 r2 : outcome E unit) : (strict = true → r1 = r2) → agree r1 r2.
Proof.
  intros Heq. destruct strict eqn:Hs; [left; by apply Heq|].
  destruct r1 as [[]|e| |]; [|by right..]. destruct r2 as [[]|e| |]; [by left|by right..].
Qed.

Lemma runs_mono {S1 S2 E A} (R R' : S1 → S2 → Prop) (m1 : Eff S1 E A) (m2 : Eff S2 E A) s1 s2 :
  (∀ t1 t2, R t1 t2 → R' t1 t2) → runs R m1 m2 s1 s2 → runs R' m1 m2 s1 s2.
Proof. intros HR [[He Hs]|Hf]; [left; by auto|by right]. Qed.

Lemma runs_bind {S1 S2 E A B} (R R' : S1 → S2 → Prop) (m1 : Eff S1 E A) (m2 : Eff S2 E A)
    (f1 : A → Eff S1 E B) (f2 : A → Eff S2 E B) s1 s2 :
  runs R m1 m2 s1 s2 → (∀ t1 t2, R t1 t2 → R' t1 t2) →
  (∀ a t1 t2, m1 s1 = (Ok a, t1) → m2 s2 = (Ok a, t2) → R t1 t2 → runs R' (f1 a) (f2 a) t1 t2) →
  runs R' (m1 ≫= f1) (m2 ≫= f2) s1 s2.
Proof.
  intros Hm HR Hf. unfold runs, mbind, eff_bind in *.
  destruct (m1 s1) as [r1 t1], (m2 s2) as [r2 t2]. cbn [fst snd] in Hm.
  destruct Hm as [[-> Ht]|[Hs Hr]].
  - destruct r2 as [a|e| |]; [by apply (Hf a t1 t2)|left; by auto..].
  - right. split; [done|]. destruct r1 as [a1|e1| |], r2 as [a2|e2| |]; cbn in *; by rewrite ?andb_false_r.
Qed.

Section related_rules.
Context {S E : Type} (R : relation S).

Lemma related_bind {A B} (m1 m2 : Eff S E A) (f1 f2 : A → Eff S E B) :
  related R m1 m2 → (∀ a, related R (f1 a) (f2 a)) → related R (m1 ≫= f1) (m2 ≫= f2).
Proof.
  intros Hm Hf s1 s2 HR. eapply runs_bind; [by apply Hm|done|]. intros a t1 t2 _ _. apply Hf.
Qed.

Lemma related_lift {A} (r1 r2 : outcome E A) : agree r1 r2 → related R (lift r1) (lift r2).
Proof. intros [->|Hf] s1 s2 HR; [by left|by right]. Qed.

Lemma related_lift_bind {A B} (r1 r2 : outcome E A) (f1 f2 : A → Eff S E B) :
  agree r1 r2 → (∀ a, r1 = Ok a → r2 = Ok a → related R (f1 a) (f2 a)) →
  related R (lift r1 ≫= f1) (lift r2 ≫= f2).
Proof.
  intros Hr Hf s1 s2 HR. eapply (runs_bind R); [by apply related_lift|done|].
  intros a t1 t2 [= H1' <-] [= H2' <-]. by apply Hf.
Qed.

Lemma related_lift_ok {A B} (a1 a2 : A) (f1 f2 : A → Eff S E B) :
  related R (f1 a1) (f2 a2) → related R (lift (Ok a1) ≫= f1) (lift (Ok a2) ≫= f2).
Proof. done. Qed.

Lemma related_ret {A} (a : A) : related R (mret a : Eff S E A) (mret a).
Proof. intros s1 s2 HR. by left. Qed.

Lemma related_fail {A} e : related R (fail e : Eff S E A) (fail e).
Proof. intros s1 s2 HR. by left. Qed.
End related_rules.

Lemma related_eq {S E A} (m : Eff S E A) : related eq m m.
Proof. intros s1 s2 <-. by left. Qed.

(** ** Two devices that look the same *)

Context (auth : SessionAuthorization).

(** The objects that the session sees. *)
Definition seen (o : gmap ObjectKey ObjectRecord) : gmap ObjectKey ObjectRecord :=
  filter (λ p, can_see auth (info p.2) = true) o.

(** The stores differ in hidden objects only; strictly, in their contents only. *)
Record looks_same (o1 o2 : gmap ObjectKey ObjectRecord) : Prop := {
  looks_seen : seen o1 = seen o2;
  looks_keys : strict = true → dom o1 = dom o2;
}.

Record same_view (d1 d2 : Device) : Prop := {
  view_objects : looks_same (objects d1) (objects d2);
  view_rest : set_objects ∅ d1 = set_objects ∅ d2;
}.

(** The identifiers in use, by hidden objects also. *)
Definition same_identifiers (d1 d2 : Device) : Prop :=
  ∀ k, (∃ ty, is_Some (objects d1 !! mkObjectKey ty k)) ↔ (∃ ty, is_Some (objects d2 !! mkObjectKey ty k)).

Lemma view_device d1 d2 : same_view d1 d2 → d2 = set_objects (objects d2) d1.
Proof. intros [_ Hr]. destruct d1, d2. unfold set_objects in *. cbn in *. congruence. Qed.

Lemma seen_lookup o k r : seen o !! k = Some r ↔ o !! k = Some r ∧ can_see auth (info r) = true.
Proof. unfold seen. by rewrite map_lookup_filter_Some. Qed.

Definition hidden_at (o : gmap ObjectKey ObjectRecord) (k : ObjectKey) : Prop :=
  ∀ r, o !! k = Some r → can_see auth (info r) = false.

(** *** Lookup *)

Section handlers.
Context (d : Device) (o1 o2 : gmap ObjectKey ObjectRecord) (Hview : looks_same o1 o2).

#[local] Abbreviation d1 := (set_objects o1 d).
#[local] Abbreviation d2 := (set_objects o2 d).

Lemma lookup_agree_iff k r :
  o1 !! k = Some r ∧ can_see auth (info r) = true ↔ o2 !! k = Some r ∧ can_see auth (info r) = true.
Proof. by rewrite <- !seen_lookup, (looks_seen _ _ Hview). Qed.

(** An object is visible and the same on both sides, or on neither. *)
Lemma looks_cases k :
  (∃ r, o1 !! k = Some r ∧ o2 !! k = Some r ∧ can_see auth (info r) = true) ∨
  (hidden_at o1 k ∧ hidden_at o2 k ∧ (strict = true → is_Some (o1 !! k) ↔ is_Some (o2 !! k))).
Proof.
  pose proof (lookup_agree_iff k) as Hiff.
  destruct (seen o1 !! k) as [r|] eqn:Hs.
  - apply seen_lookup in Hs as Hr. pose proof (proj1 (Hiff r) Hr). left. exists r. naive_solver.
  - assert (hidden_at o1 k) as Hh.
    { intros r Hr. apply not_true_iff_false. intros Hc.
      by rewrite (proj2 (seen_lookup o1 k r) (conj Hr Hc)) in Hs. }
    right. split; [done|]. split.
    + intros r Hr. apply not_true_iff_false. intros Hc.
      destruct (proj2 (Hiff r) (conj Hr Hc)) as [Hr1 _]. apply Hh in Hr1. congruence.
    + intros Hst. pose proof (looks_keys _ _ Hview Hst) as Hd. by rewrite <- !elem_of_dom, Hd.
Qed.

Lemma hidden_refused {A} o k (f : ObjectRecord → Result A) : hidden_at o k →
  (r ← ok_or (o !! k) ObjectNotFound; _ ← require_visible auth (info r); f r) = Err ObjectNotFound.
Proof.
  intros Hh. destruct (o !! k) as [r|] eqn:Hk; [|done]. cbn. unfold require_visible. by rewrite (Hh r Hk).
Qed.

(** A hidden object is answered like a missing one. *)
Lemma visible_same {A} k (f : ObjectRecord → Result A) :
  (r ← ok_or (o1 !! k) ObjectNotFound; _ ← require_visible auth (info r); f r)
  = (r ← ok_or (o2 !! k) ObjectNotFound; _ ← require_visible auth (info r); f r).
Proof.
  destruct (looks_cases k) as [(r & -> & -> & _)|(Hh1 & Hh2 & _)]; [done|]. by rewrite !hidden_refused.
Qed.

Lemma visible_agree {A} k (f : ObjectRecord → Result A) :
  agree (r ← ok_or (o1 !! k) ObjectNotFound; _ ← require_visible auth (info r); f r)
        (r ← ok_or (o2 !! k) ObjectNotFound; _ ← require_visible auth (info r); f r).
Proof. left. apply visible_same. Qed.

(** An object that may be missing: a hidden one is refused. *)
Lemma optional_agree {A} k (a : A) (f : ObjectRecord → Result A) :
  agree (match o1 !! k with None => Ok a | Some r => _ ← require_visible auth (info r); f r end)
        (match o2 !! k with None => Ok a | Some r => _ ← require_visible auth (info r); f r end).
Proof.
  destruct (looks_cases k) as [(r & -> & -> & _)|(Hh1 & Hh2 & Hst)]; [apply agree_refl|].
  destruct (o1 !! k) as [r1|] eqn:Hk1, (o2 !! k) as [r2|] eqn:Hk2; unfold require_visible;
    rewrite ?(Hh1 r1 Hk1), ?(Hh2 r2 Hk2); [by left| | |by left];
    (destruct strict eqn:Hs; [exfalso; apply (is_Some_None (A := ObjectRecord)); apply Hst; [done|by eexists]|right; by rewrite ?andb_false_r]).
Qed.

Lemma visible_enabled_agree ty id : agree (visible_enabled d1 auth ty id) (visible_enabled d2 auth ty id).
Proof. apply visible_agree. Qed.

Lemma enabled_agree a : agree (require_algorithm_enabled d1 a) (require_algorithm_enabled d2 a).
Proof. apply agree_refl. Qed.

#[local] Ltac found := apply agree_bind; [apply visible_enabled_agree|intros; apply agree_refl].

Lemma rsa_private_wrap_key_agree id : agree (rsa_private_wrap_key d1 auth id) (rsa_private_wrap_key d2 auth id).
Proof. unfold rsa_private_wrap_key. found. Qed.

Lemma ccm_wrap_key_agree id : agree (ccm_wrap_key d1 auth id) (ccm_wrap_key d2 auth id).
Proof. unfold ccm_wrap_key. found. Qed.

Lemma symmetric_object_agree id : agree (symmetric_object d1 auth id) (symmetric_object d2 auth id).
Proof. unfold symmetric_object. found. Qed.

(** Follow two runs of a handler: a lookup agrees, what comes from the rest of the
    device is the same, and the two continue alike. *)
#[local] Ltac follow_step :=
  cbv zeta;
  match goal with
  | |- agree (match ?x with _ => _ end) (match ?x with _ => _ end) => destruct x
  | |- related _ (match ?x with _ => _ end) (match ?x with _ => _ end) => destruct x
  | |- agree ?x ?x => apply agree_refl
  | |- related eq ?x ?x => apply related_eq
  | |- agree (visible_enabled _ _ _ _) _ => apply visible_enabled_agree
  | |- agree (asymmetric_object _ _ _) _ => apply visible_enabled_agree
  | |- agree (otp_aead_key _ _ _) _ => apply visible_enabled_agree
  | |- agree (hmac_object _ _ _) _ => apply visible_enabled_agree
  | |- agree (rsa_public_wrap_key _ _ _) _ => apply visible_enabled_agree
  | |- agree (rsa_private_wrap_key _ _ _) _ => apply rsa_private_wrap_key_agree
  | |- agree (ccm_wrap_key _ _ _) _ => apply ccm_wrap_key_agree
  | |- agree (symmetric_object _ _ _) _ => apply symmetric_object_agree
  | |- agree (require_algorithm_enabled _ _) _ => apply enabled_agree
  | |- agree (Ok _ ≫= _) (Ok _ ≫= _) => cbn [mbind outcome_bind]
  | |- related _ (lift (Ok _) ≫= _) (lift (Ok _) ≫= _) => apply related_lift_ok
  | |- agree (ok_or (objects _ !! _) _ ≫= _) _ => apply visible_agree
  | |- agree (_ ≫= _) (_ ≫= _) => apply agree_bind; [|intros ? _ _]
  | |- related _ (lift _ ≫= _) (lift _ ≫= _) => apply related_lift_bind; [|intros ? _ _]
  | |- related _ (lift _) (lift _) => apply related_lift
  | |- related _ (_ ≫= _) (_ ≫= _) => apply related_bind; [|intros ?]
  end.
#[local] Ltac follow := repeat follow_step.

Lemma sign_pkcs1_related data : related eq (sign_pkcs1 d1 auth data) (sign_pkcs1 d2 auth data).
Proof. unfold sign_pkcs1. follow. Qed.
Lemma sign_pss_related data : related eq (sign_pss d1 auth data) (sign_pss d2 auth data).
Proof. unfold sign_pss. follow. Qed.
Lemma sign_ecdsa_related data : related eq (sign_ecdsa d1 auth data) (sign_ecdsa d2 auth data).
Proof. unfold sign_ecdsa. follow. Qed.
Lemma sign_eddsa_related data : related eq (sign_eddsa d1 auth data) (sign_eddsa d2 auth data).
Proof. unfold sign_eddsa. follow. Qed.
Lemma sign_ml_dsa_related data : related eq (sign_ml_dsa d1 auth data) (sign_ml_dsa d2 auth data).
Proof. unfold sign_ml_dsa. follow. Qed.
Lemma encapsulate_ml_kem_related data : related eq (encapsulate_ml_kem d1 auth data) (encapsulate_ml_kem d2 auth data).
Proof. unfold encapsulate_ml_kem. follow. Qed.
Lemma decapsulate_ml_kem_related data : related eq (decapsulate_ml_kem d1 auth data) (decapsulate_ml_kem d2 auth data).
Proof. unfold decapsulate_ml_kem. follow. Qed.
Lemma encapsulate_hybrid_kem_related data : related eq (encapsulate_hybrid_kem d1 auth data) (encapsulate_hybrid_kem d2 auth data).
Proof. unfold encapsulate_hybrid_kem. follow. Qed.
Lemma decapsulate_hybrid_kem_related data : related eq (decapsulate_hybrid_kem d1 auth data) (decapsulate_hybrid_kem d2 auth data).
Proof. unfold decapsulate_hybrid_kem. follow. Qed.
Lemma decrypt_pkcs1_related data : related eq (decrypt_pkcs1 d1 auth data) (decrypt_pkcs1 d2 auth data).
Proof. unfold decrypt_pkcs1. follow. Qed.
Lemma decrypt_oaep_related data : related eq (decrypt_oaep d1 auth data) (decrypt_oaep d2 auth data).
Proof. unfold decrypt_oaep. follow. Qed.
Lemma create_otp_aead_related data : related eq (create_otp_aead d1 auth data) (create_otp_aead d2 auth data).
Proof. unfold create_otp_aead. follow. Qed.
Lemma randomize_otp_aead_related data : related eq (randomize_otp_aead d1 auth data) (randomize_otp_aead d2 auth data).
Proof. unfold randomize_otp_aead. follow. Qed.
Lemma rewrap_otp_aead_related data : related eq (rewrap_otp_aead d1 auth data) (rewrap_otp_aead d2 auth data).
Proof. unfold rewrap_otp_aead. follow. Qed.
Lemma wrap_data_related data : related eq (wrap_data d1 auth data) (wrap_data d2 auth data).
Proof. unfold wrap_data. follow. Qed.
Lemma derive_ecdh_agree data : agree (derive_ecdh d1 auth data) (derive_ecdh d2 auth data).
Proof. unfold derive_ecdh. follow. Qed.
Lemma derive_ecdh_kdf_agree data : agree (derive_ecdh_kdf d1 auth data) (derive_ecdh_kdf d2 auth data).
Proof. unfold derive_ecdh_kdf. follow. Qed.
Lemma sign_hmac_agree data : agree (sign_hmac d1 auth data) (sign_hmac d2 auth data).
Proof. unfold sign_hmac. follow. Qed.
Lemma verify_hmac_agree data : agree (verify_hmac d1 auth data) (verify_hmac d2 auth data).
Proof. unfold verify_hmac. follow. Qed.
Lemma decrypt_otp_agree data : agree (decrypt_otp d1 auth data) (decrypt_otp d2 auth data).
Proof. unfold decrypt_otp. follow. Qed.
Lemma unwrap_data_agree data : agree (unwrap_data d1 auth data) (unwrap_data d2 auth data).
Proof. unfold unwrap_data. follow. Qed.
Lemma crypt_aes_ecb_agree data b : agree (crypt_aes_ecb d1 auth data b) (crypt_aes_ecb d2 auth data b).
Proof. unfold crypt_aes_ecb. follow. Qed.
Lemma crypt_aes_cbc_agree data b : agree (crypt_aes_cbc d1 auth data b) (crypt_aes_cbc d2 auth data b).
Proof. unfold crypt_aes_cbc. follow. Qed.
Lemma get_object_info_agree data : agree (get_object_info d1 auth data) (get_object_info d2 auth data).
Proof. unfold get_object_info. follow. Qed.
Lemma get_public_key_agree data : agree (get_public_key d1 auth data) (get_public_key d2 auth data).
Proof. unfold get_public_key. follow. Qed.

(** *** Attestation *)

Lemma attestation_target_agree id : agree (attestation_target d1 auth id) (attestation_target d2 auth id).
Proof. unfold attestation_target. cbn [device_static_private set_objects]. follow. Qed.
Lemma attestation_signer_agree id : agree (attestation_signer d1 auth id) (attestation_signer d2 auth id).
Proof. unfold attestation_signer. cbn [device_static_private config set_objects]. follow. Qed.

Lemma attestation_template_agree id :
  agree (attestation_template d1 auth id) (attestation_template d2 auth id).
Proof.
  unfold attestation_template. destruct (id =? 0); [apply agree_refl|]. cbn [objects set_objects].
  apply optional_agree.
Qed.

Lemma sign_attestation_certificate_related data :
  related eq (sign_attestation_certificate d1 auth data) (sign_attestation_certificate d2 auth data).
Proof.
  unfold sign_attestation_certificate. cbn [config set_objects]. follow.
  - apply attestation_target_agree.
  - apply attestation_signer_agree.
  - apply attestation_template_agree.
Qed.

(** *** Session objects *)

Lemma ecdh_source_key_agree table source :
  agree (ecdh_source_key d1 auth table source) (ecdh_source_key d2 auth table source).
Proof. unfold ecdh_source_key. follow. Qed.

Lemma kdf_source_key_agree table source :
  agree (kdf_source_key d1 auth table source) (kdf_source_key d2 auth table source).
Proof. unfold kdf_source_key. follow. Qed.

Lemma derive_session_value_agree table operation payload :
  agree (derive_session_value d1 auth table operation payload)
        (derive_session_value d2 auth table operation payload).
Proof.
  unfold derive_session_value. follow; first [apply ecdh_source_key_agree|apply kdf_source_key_agree].
Qed.

Lemma session_object_command_related data :
  related eq (session_object_command d1 auth data) (session_object_command d2 auth data).
Proof. unfold session_object_command. follow. all: apply derive_session_value_agree. Qed.

(** *** Commands that rely on the check before them *)

(** The check of a command has found the object visible. *)
Definition permitted (k : ObjectKey) : Prop :=
  require_object_visible d1 auth k = Ok tt ∧ require_object_visible d2 auth k = Ok tt.

Lemma authorize_object_visible (self : Device) k c :
  authorize_object self auth k c = Ok tt → require_object_visible self auth k = Ok tt.
Proof.
  unfold authorize_object, require_object_visible. intros (r & Hk & Hu)%outcome_bind_ok.
  apply outcome_bind_ok in Hu as ([] & Hv & _). rewrite Hk. exact Hv.
Qed.

Lemma authorize_export_visible (self : Device) ty id k :
  authorize_wrapped_export_of self auth ty id k = Ok tt → require_object_visible self auth k = Ok tt.
Proof.
  unfold authorize_wrapped_export_of, require_object_visible.
  intros (w & _ & (r & Hk & Hu)%outcome_bind_ok)%outcome_bind_ok.
  apply outcome_bind_ok in Hu as ([] & _ & Hu). apply outcome_bind_ok in Hu as ([] & Hv & _).
  rewrite Hk. exact Hv.
Qed.

Lemma permitted_lookup k : permitted k →
  agree (ok_or (objects d1 !! k) ObjectNotFound) (ok_or (objects d2 !! k) ObjectNotFound).
Proof.
  unfold permitted, require_object_visible. cbn [objects set_objects]. intros [Hp _].
  destruct (looks_cases k) as [(r & -> & -> & _)|(Hh & _)]; [apply agree_refl|].
  destruct (o1 !! k) as [r|] eqn:Hk; [|done]. cbn in Hp. unfold require_visible in Hp. by rewrite (Hh r Hk) in Hp.
Qed.

(** *** The check of a command *)

Lemma authorize_object_same k c : authorize_object d1 auth k c = authorize_object d2 auth k c.
Proof. apply visible_same. Qed.

Lemma require_object_visible_same k : require_object_visible d1 auth k = require_object_visible d2 auth k.
Proof.
  unfold require_object_visible. cbn [objects set_objects].
  destruct (looks_cases k) as [(r & -> & -> & _)|(Hh1 & Hh2 & _)]; [done|].
  assert (∀ o, hidden_at o k → (r ← ok_or (o !! k) ObjectNotFound; require_visible auth (info r)) = Err ObjectNotFound)
    as Hrefused; [|by rewrite !Hrefused].
  intros o Hh. destruct (o !! k) as [r|] eqn:Hk; [|done]. cbn. unfold require_visible. by rewrite (Hh r Hk).
Qed.

Lemma authorize_delete_same k :
  (r ← ok_or (o1 !! k) ObjectNotFound; authorize_delete auth (info r))
  = (r ← ok_or (o2 !! k) ObjectNotFound; authorize_delete auth (info r)).
Proof. exact (visible_same k (λ r, require_capability auth (ObjectTypes.deletion_capability (object_type (info r))))). Qed.

Lemma present_same k : strict = true → bool_decide (is_Some (o1 !! k)) = bool_decide (is_Some (o2 !! k)).
Proof. intros Hs. apply bool_decide_ext. by rewrite <- !elem_of_dom, (looks_keys _ _ Hview Hs). Qed.

(** The right to export is checked after both objects are found. *)
Lemma authorize_export_same ty id k : strict = true →
  authorize_wrapped_export_of d1 auth ty id k = authorize_wrapped_export_of d2 auth ty id k.
Proof.
  intros Hs. unfold authorize_wrapped_export_of, authorize_wrapped_export, authorize_use.
  cbn [objects set_objects].
  destruct (looks_cases (mkObjectKey ty id)) as [(w & -> & -> & _)|(Hw1 & Hw2 & Hw)];
    destruct (looks_cases k) as [(r & Hr1 & Hr2 & _)|(Hh1 & Hh2 & Hh)]; rewrite ?Hr1, ?Hr2; cbn; [done| | |].
  - destruct (o1 !! k) as [r1|] eqn:Hk1, (o2 !! k) as [r2|] eqn:Hk2; try done; cbn.
    + unfold require_visible. by rewrite (Hh1 r1 Hk1), (Hh2 r2 Hk2).
    + exfalso. apply (is_Some_None (A := ObjectRecord)). apply Hh; [done|by eexists].
    + exfalso. apply (is_Some_None (A := ObjectRecord)). apply Hh; [done|by eexists].
  - unfold require_visible. destruct (o1 !! mkObjectKey ty id) as [w1|] eqn:Hk1, (o2 !! mkObjectKey ty id) as [w2|] eqn:Hk2;
      cbn; rewrite ?(Hw1 w1 Hk1), ?(Hw2 w2 Hk2); done.
  - unfold require_visible. destruct (o1 !! mkObjectKey ty id) as [w1|] eqn:Hk1, (o2 !! mkObjectKey ty id) as [w2|] eqn:Hk2;
      cbn; [| | |done]; destruct (o1 !! k), (o2 !! k); cbn; by rewrite ?(Hw1 w1 Hk1), ?(Hw2 w2 Hk2).
Qed.

Lemma authorize_attestation_same target attesting : strict = true →
  authorize_attestation d1 auth target attesting = authorize_attestation d2 auth target attesting.
Proof.
  intros Hs. unfold authorize_attestation, authorize_id. cbn [objects set_objects].
  rewrite (present_same _ Hs), !require_object_visible_same, !authorize_object_same. done.
Qed.

Lemma authorize_command_same c data : strict = true →
  authorize_command_request d1 auth c data = authorize_command_request d2 auth c data.
Proof.
  intros Hs. unfold authorize_command_request. destruct (match _ with Some _ => _ | None => _ end); try done.
  cbn [mbind outcome_bind]. unfold authorize_command_objects, authorize_container_objects, authorize_id.
  cbn [objects set_objects].
  destruct c; try done; (match goal with |- context [decode ?T data] => destruct (decode T data) as [[]| | |] end);
    try done; cbn [mbind outcome_bind]; rewrite ?authorize_object_same, ?require_object_visible_same; try done.
  - destruct header as [id padded domains capabilities algorithm].
    by rewrite (present_same _ Hs), authorize_object_same.
  - by apply authorize_export_same.
  - apply authorize_delete_same.
  - by apply authorize_attestation_same.
  - by apply authorize_export_same.
  - by apply authorize_export_same.
Qed.

(** Both devices have checked the command. *)
Definition both_authorized (c : CommandCode.CommandCode) (data : bytes) : Prop :=
  authorize_command_objects d1 auth c data = Ok tt ∧ authorize_command_objects d2 auth c data = Ok tt.

#[local] Ltac follow_permitted := repeat first [follow_step | by apply permitted_lookup].

Lemma get_opaque_agree data :
  both_authorized CommandCode.GetOpaque data → agree (get_opaque d1 data) (get_opaque d2 data).
Proof.
  unfold both_authorized, authorize_command_objects, get_opaque. intros Ha.
  destruct (decode GetOpaqueRequest data) as [[id]| | |]; [|by destruct Ha..].
  assert (permitted (mkObjectKey Opaque id)) as Hp by exact Ha. follow_permitted.
Qed.

Lemma get_template_agree data :
  both_authorized CommandCode.GetTemplate data → agree (get_template d1 data) (get_template d2 data).
Proof.
  unfold both_authorized, authorize_command_objects, get_template. intros Ha.
  destruct (decode GetTemplateRequest data) as [[id]| | |]; [|by destruct Ha..].
  assert (permitted (mkObjectKey Template id)) as Hp
    by (destruct Ha as [?%authorize_object_visible ?%authorize_object_visible]; by split).
  follow_permitted.
Qed.

Lemma export_wrapped_related data :
  both_authorized CommandCode.ExportWrapped data →
  related eq (export_wrapped d1 auth data) (export_wrapped d2 auth data).
Proof.
  unfold both_authorized, authorize_command_objects, authorize_container_objects, export_wrapped. intros Ha.
  destruct (decode ExportWrappedRequest data) as [[wrap_id k format]| | |]; [|by destruct Ha..].
  assert (permitted k) as Hp
    by (destruct Ha as [?%authorize_export_visible ?%authorize_export_visible]; by split).
  follow_permitted.
Qed.

Lemma export_rsa_wrapped_related data (only : bool) :
  both_authorized (if only then CommandCode.GetRsaWrappedKey else CommandCode.ExportRsaWrapped) data →
  related eq (export_rsa_wrapped d1 auth data only) (export_rsa_wrapped d2 auth data only).
Proof.
  unfold both_authorized, authorize_command_objects, authorize_container_objects, export_rsa_wrapped.
  destruct only; intros Ha;
    (match goal with |- context [decode ?T data] =>
       destruct (decode T data) as [[wrap_id k aes oaep mgf label]| | |]; [|by destruct Ha..] end);
    (assert (permitted k) as Hp
       by (destruct Ha as [?%authorize_export_visible ?%authorize_export_visible]; by split));
    cbn [options set_objects]; follow_permitted.
Qed.

(** *** The listing *)

(** The entry of a key, which is empty for a hidden object. *)
Definition key_entry (filters : ObjectFilters) (o : gmap ObjectKey ObjectRecord) (k : ObjectKey) : bytes :=
  match o !! k with
  | Some r => if can_see auth (info r) && matches filters (info r) then list_entry r else []
  | None => []
  end.

Lemma listing_by_key filters (o : gmap ObjectKey ObjectRecord) :
  concat (map (λ r, if can_see auth (info r) && matches filters (info r) then list_entry r else [])
            (object_values o))
  = concat (map (key_entry filters o) (ordered_keys o)).
Proof.
  unfold object_values. change (merge_sort key_le (map_to_list o).*1) with (ordered_keys o).
  assert (∀ k, k ∈ ordered_keys o → is_Some (o !! k)) as Hk by (intros k; apply elem_of_ordered_keys).
  induction (ordered_keys o) as [|k ks IH]; [done|].
  destruct (Hk k) as [r Hr]; [apply list_elem_of_here|]. cbn. unfold key_entry at 1. rewrite Hr. cbn. f_equal.
  apply IH. intros k' Hk'. apply Hk. by apply list_elem_of_further.
Qed.

(** Only the keys of visible objects count. *)
Lemma concat_visible filters (o : gmap ObjectKey ObjectRecord) ks :
  concat (map (key_entry filters o) ks)
  = concat (map (key_entry filters o) (filter (λ k, is_Some (seen o !! k)) ks)).
Proof.
  induction ks as [|k ks IH]; [done|]. rewrite filter_cons. cbn [map concat]. rewrite IH.
  case_decide as Hs; [done|]. replace (key_entry filters o k) with (@nil Z); [done|].
  unfold key_entry. destruct (o !! k) as [r|] eqn:Hr; [|done].
  destruct (can_see auth (info r)) eqn:Hc; [|done]. destruct Hs. exists r. by apply seen_lookup.
Qed.

Lemma sorted_filter (P : ObjectKey → Prop) `{!∀ k, Decision (P k)} ks :
  StronglySorted key_le ks → StronglySorted key_le (filter P ks).
Proof.
  induction 1 as [|k ks _ IH Hk]; [constructor|]. rewrite filter_cons. case_decide; [|done].
  constructor; [done|]. apply Forall_forall. intros k' [_ Hk']%list_elem_of_filter.
  by rewrite Forall_forall in Hk; apply Hk.
Qed.

Lemma visible_keys_same :
  filter (λ k, is_Some (seen o1 !! k)) (ordered_keys o1) = filter (λ k, is_Some (seen o2 !! k)) (ordered_keys o2).
Proof.
  apply (StronglySorted_unique key_le).
  - apply sorted_filter, ordered_keys_sorted.
  - apply sorted_filter, ordered_keys_sorted.
  - apply NoDup_Permutation; [apply NoDup_filter, ordered_keys_NoDup..|]. intros k.
    rewrite !list_elem_of_filter, !elem_of_ordered_keys, <- (looks_seen _ _ Hview).
    assert (∀ r, seen o1 !! k = Some r → is_Some (o1 !! k) ∧ is_Some (o2 !! k)) as Hk.
    2:{ split; intros [[r Hr] _]; (split; [by exists r|apply (Hk r Hr)]). }
    intros r Hr. apply seen_lookup in Hr as Hr1. apply lookup_agree_iff in Hr1 as [Hr2 _].
    apply seen_lookup in Hr as [Hr1 _]. by split; eexists.
Qed.

Lemma list_objects_agree data : agree (list_objects d1 auth data) (list_objects d2 auth data).
Proof.
  unfold list_objects. apply agree_bind; [apply agree_refl|]. intros [filters] _ _. left. f_equal.
  cbn [objects set_objects]. change (concat (map _ (object_values ?o))) with
    (concat (map (λ r, if can_see auth (info r) && matches filters (info r) then list_entry r else [])
              (object_values o))).
  rewrite !listing_by_key, (concat_visible _ o1), (concat_visible _ o2), visible_keys_same.
  f_equal. apply map_ext_in. intros k [Hs _]%list_elem_of_In%list_elem_of_filter.
  destruct Hs as [r Hr]. rewrite <- (looks_seen _ _ Hview) in Hr. apply seen_lookup in Hr as Hr1.
  apply lookup_agree_iff in Hr1 as [Hr2 _]. apply seen_lookup in Hr as [Hr1 _].
  unfold key_entry. by rewrite Hr1, Hr2.
Qed.
End handlers.

(** ** Handlers that change the device *)

(** States of the device and the world that look the same, and, for a command that
    creates an object, use the same identifiers. *)
Definition alike (creates : bool) : relation (Device * World) := λ s1 s2,
  s1.2 = s2.2 ∧ same_view s1.1 s2.1 ∧ (creates = true → same_identifiers s1.1 s2.1).

Lemma view_objects_device (d1 d2 : Device) :
  same_view d1 d2 → ∃ o1 o2, d1 = set_objects o1 d1 ∧ d2 = set_objects o2 d1 ∧ looks_same o1 o2.
Proof.
  intros Hv. exists (objects d1), (objects d2). split; [by destruct d1|]. split; [by apply view_device|].
  apply Hv.
Qed.

Section changes.
Context (b : bool).

#[local] Abbreviation Related := (related (E := DeviceError) (alike b)).

Lemma related_get {A} (f1 f2 : Device → Dev A) :
  (∀ d o1 o2, looks_same o1 o2 →
     (b = true → same_identifiers (set_objects o1 d) (set_objects o2 d)) →
     Related (f1 (set_objects o1 d)) (f2 (set_objects o2 d))) →
  Related (get_left ≫= f1) (get_left ≫= f2).
Proof.
  intros Hf [d1 w1] [d2 w2] HR. pose proof HR as (_ & Hv & Hid). cbn [fst snd] in Hv, Hid.
  destruct (view_objects_device _ _ Hv) as (o1 & o2 & Hd1 & Hd2 & Ho).
  specialize (Hf d1 o1 o2 Ho). rewrite <- Hd1, <- Hd2 in Hf. exact (Hf Hid _ _ HR).
Qed.

Lemma related_world {A} (m1 m2 : Eff World DeviceError A) :
  related eq m1 m2 → Related (on_world m1) (on_world m2).
Proof.
  intros Hm [d1 w1] [d2 w2] (Hw & HR). cbn in Hw. subst w2. specialize (Hm w1 w1 eq_refl).
  unfold runs, on_world, reading in *. cbn [fst snd].
  destruct (m1 w1) as [r1 w1'], (m2 w1) as [r2 w2']. cbn [fst snd] in *.
  destruct Hm as [[-> ->]|Hf]; [by left|by right].
Qed.

Lemma related_modify (f : Device → Device) :
  (∀ d1 d2, same_view d1 d2 → (b = true → same_identifiers d1 d2) →
     same_view (f d1) (f d2) ∧ (b = true → same_identifiers (f d1) (f d2))) →
  Related (modify f) (modify f).
Proof.
  intros Hf [d1 w1] [d2 w2] (Hw & Hv & Hi). left. split; [done|]. cbn in *.
  destruct (Hf _ _ Hv Hi). done.
Qed.

Lemma looks_insert o1 o2 k r : looks_same o1 o2 → looks_same (<[k := r]> o1) (<[k := r]> o2).
Proof.
  intros Ho. split.
  - apply map_eq. intros k'. apply option_eq. intros r'. rewrite !seen_lookup.
    destruct (decide (k' = k)) as [->|Hne]; [by rewrite !lookup_insert_eq|].
    rewrite !lookup_insert_ne by done. by apply lookup_agree_iff.
  - intros Hs. by rewrite !dom_insert_L, (looks_keys _ _ Ho Hs).
Qed.

Lemma same_identifiers_insert (d : Device) o1 o2 k r :
  same_identifiers (set_objects o1 d) (set_objects o2 d) →
  same_identifiers (set_objects (<[k := r]> o1) d) (set_objects (<[k := r]> o2) d).
Proof.
  intros Hi n. cbn [objects set_objects].
  assert (∀ o : gmap ObjectKey ObjectRecord,
    (∃ ty, is_Some (<[k := r]> o !! mkObjectKey ty n)) ↔ n = key_id k ∨ ∃ ty, is_Some (o !! mkObjectKey ty n)) as Hins.
  { intros o. split.
    - intros (ty & Hl). destruct (decide (mkObjectKey ty n = k)) as [<-|Hne]; [by left|].
      rewrite lookup_insert_ne in Hl by congruence. right. by exists ty.
    - intros [->|(ty & Hl)].
      + exists (key_type k). replace (mkObjectKey _ _) with k by by destruct k.
        rewrite lookup_insert_eq. by eexists.
      + exists ty. destruct (decide (k = mkObjectKey ty n)) as [->|Hne]; [rewrite lookup_insert_eq; by eexists|].
        by rewrite lookup_insert_ne. }
  rewrite !Hins. specialize (Hi n). cbn [objects set_objects] in Hi. tauto.
Qed.

Lemma install_alike record d1 d2 :
  same_view d1 d2 → (b = true → same_identifiers d1 d2) →
  same_view (install_record record d1) (install_record record d2) ∧
  (b = true → same_identifiers (install_record record d1) (install_record record d2)).
Proof.
  intros Hv Hi. destruct (view_objects_device _ _ Hv) as (o1 & o2 & Hd1 & Hd2 & Ho).
  rewrite Hd1, Hd2 in Hi. rewrite Hd1, Hd2. split; [split|].
  - by apply looks_insert.
  - done.
  - intros Hb. unfold install_record. cbn [objects set_objects sequence_history].
    exact (same_identifiers_insert (set_history _ d1) o1 o2 _ _ (Hi Hb)).
Qed.

Lemma write_object_related record : Related (write_object record) (write_object record).
Proof.
  unfold write_object. apply related_lift_bind; [apply agree_refl|intros r _ _].
  apply related_lift_bind; [apply agree_refl|intros [] _ _].
  apply related_bind; [apply related_world, related_eq|intros []].
  apply related_modify, install_alike.
Qed.

Lemma write_imported_object_related record :
  Related (write_imported_object record) (write_imported_object record).
Proof.
  unfold write_imported_object. apply related_lift_bind; [apply agree_refl|intros r _ _].
  apply related_lift_bind; [apply agree_refl|intros [] _ _].
  apply related_bind; [apply related_world, related_eq|intros r']. apply write_object_related.
Qed.
End changes.

(** *** Identifiers *)

Lemma id_taken_spec (d : Device) k :
  id_taken d k = true ↔ ∃ ty, is_Some (objects d !! mkObjectKey ty k).
Proof.
  unfold id_taken. rewrite existsb_exists. split.
  - intros (key & Hin & Hk). apply Z.eqb_eq in Hk as <-.
    apply list_elem_of_In, list_elem_of_fmap in Hin as ([key' r] & -> & Hl).
    apply elem_of_map_to_list in Hl. exists (key_type key'). cbn. destruct key'. by exists r.
  - intros (ty & r & Hl). exists (mkObjectKey ty k). split; [|apply Z.eqb_refl].
    apply list_elem_of_In, list_elem_of_fmap. exists (mkObjectKey ty k, r).
    by rewrite elem_of_map_to_list.
Qed.

Lemma same_identifiers_taken d1 d2 k : same_identifiers d1 d2 → id_taken d1 k = id_taken d2 k.
Proof. intros Hi. apply eq_bool_prop_intro. rewrite !Is_true_true, !id_taken_spec. apply Hi. Qed.

Lemma random_id_related d1 d2 n next : same_identifiers d1 d2 →
  related eq (random_available_id_with n d1 next) (random_available_id_with n d2 next).
Proof.
  intros Hi. induction n as [|n IH]; [apply related_eq|]. cbn [random_available_id_with].
  apply related_bind; [apply related_eq|intros k]. rewrite (same_identifiers_taken _ _ _ Hi).
  by destruct (_ && _); [apply related_eq|].
Qed.

Lemma resolve_id_related d o1 o2 ty k : looks_same o1 o2 →
  same_identifiers (set_objects o1 d) (set_objects o2 d) →
  related eq (resolve_id (set_objects o1 d) ty k) (resolve_id (set_objects o2 d) ty k).
Proof.
  intros Ho Hi. unfold resolve_id. apply related_lift_bind; [apply agree_refl|intros [] _ _].
  destruct (negb _); [|by apply random_id_related].
  apply related_lift_bind; [|intros [] _ _; apply related_eq]. apply agree_unit. intros Hs.
  cbn [objects set_objects]. f_equal. apply bool_decide_ext. by rewrite <- !elem_of_dom, (looks_keys _ _ Ho Hs).
Qed.

Lemma fresh_agree d o1 o2 : looks_same o1 o2 →
  agree (require_fresh_device_for_algorithm_options (set_objects o1 d))
        (require_fresh_device_for_algorithm_options (set_objects o2 d)).
Proof.
  intros Ho. apply agree_unit. intros Hs. unfold require_fresh_device_for_algorithm_options.
  cbn [objects set_objects]. rewrite <- !(size_dom (D := gset ObjectKey)), (looks_keys _ _ Ho Hs).
  by rewrite (bool_decide_ext (is_Some (o1 !! factory_key)) (is_Some (o2 !! factory_key)))
    by by rewrite <- !elem_of_dom, (looks_keys _ _ Ho Hs).
Qed.

(** *** Creation *)

#[local] Abbreviation Created := (related (E := DeviceError) (alike true)).

#[local] Ltac follow_step :=
  cbv zeta;
  match goal with
  | |- related _ (match ?x with _ => _ end) (match ?x with _ => _ end) => destruct x
  | |- related _ (get_left ≫= _) (get_left ≫= _) => apply related_get; intros d o1 o2 Hview Hids
  | |- related _ (lift _ ≫= _) (lift _ ≫= _) =>
      apply related_lift_bind;
      [first [ apply agree_refl | by apply fresh_agree | by apply ccm_wrap_key_agree | by apply rsa_private_wrap_key_agree ]
      |intros ? _ _]
  | |- related _ (on_world ?m) (on_world ?m) => apply related_world, related_eq
  | |- related _ (on_world (unwrap_rsa_key _ _ _ _ _ _ _)) _ => apply related_world, related_eq
  | |- related _ (on_world (resolve_id _ _ _)) _ => apply related_world, resolve_id_related; by auto
  | |- related _ (write_object _) _ => apply write_object_related
  | |- related _ (write_imported_object _) _ => apply write_imported_object_related
  | |- related _ (mret _) (mret _) => apply related_ret
  | |- related _ (_ ≫= _) (_ ≫= _) => apply related_bind; [|intros ?]
  end.
#[local] Ltac follow := repeat follow_step.

Lemma put_authentication_key_related data :
  Created (put_authentication_key auth data) (put_authentication_key auth data).
Proof. unfold put_authentication_key. follow. Qed.
Lemma put_asymmetric_key_related data g :
  Created (put_asymmetric_key auth data g) (put_asymmetric_key auth data g).
Proof. unfold put_asymmetric_key. follow. Qed.
Lemma put_hmac_key_related data g : Created (put_hmac_key auth data g) (put_hmac_key auth data g).
Proof. unfold put_hmac_key. follow. Qed.
Lemma put_symmetric_key_related data g :
  Created (put_symmetric_key auth data g) (put_symmetric_key auth data g).
Proof. unfold put_symmetric_key. follow. Qed.
Lemma put_wrap_key_related data g : Created (put_wrap_key auth data g) (put_wrap_key auth data g).
Proof. unfold put_wrap_key. follow. Qed.
Lemma put_public_wrap_key_related data :
  Created (put_public_wrap_key auth data) (put_public_wrap_key auth data).
Proof. unfold put_public_wrap_key. follow. Qed.
Lemma put_otp_aead_key_related data g :
  Created (put_otp_aead_key auth data g) (put_otp_aead_key auth data g).
Proof. unfold put_otp_aead_key. follow. Qed.
Lemma put_template_related data : Created (put_template auth data) (put_template auth data).
Proof. unfold put_template. follow. Qed.
Lemma install_wrapped_related record :
  Created (install_wrapped_object record) (install_wrapped_object record).
Proof. unfold install_wrapped_object. follow. Qed.
Lemma import_wrapped_related data : Created (import_wrapped auth data) (import_wrapped auth data).
Proof. unfold import_wrapped. follow. apply install_wrapped_related. Qed.
Lemma import_rsa_wrapped_related data :
  Created (import_rsa_wrapped auth data) (import_rsa_wrapped auth data).
Proof. unfold import_rsa_wrapped. follow. apply install_wrapped_related. Qed.
Lemma put_rsa_wrapped_key_related data :
  Created (put_rsa_wrapped_key auth data) (put_rsa_wrapped_key auth data).
Proof. unfold put_rsa_wrapped_key. follow. Qed.

(** *** Other changes *)

#[local] Abbreviation Changed := (related (E := DeviceError) (alike false)).

Lemma set_log_index_related data : Changed (set_log_index data) (set_log_index data).
Proof.
  unfold set_log_index. follow. apply related_modify. intros d1 d2 Hv _. split; [|done].
  destruct (view_objects_device _ _ Hv) as (o1 & o2 & -> & -> & Ho). by split.
Qed.

Lemma view_options o d1 d2 : same_view d1 d2 → same_view (set_options o d1) (set_options o d2).
Proof. intros Hv. destruct (view_objects_device _ _ Hv) as (o1 & o2 & Hd1 & -> & Ho). rewrite Hd1. by split. Qed.

Lemma set_option_related data : Changed (set_option data) (set_option data).
Proof.
  unfold set_option. follow; cbn [options set_objects];
    repeat first [follow_step | by apply related_modify; intros; split; [by apply view_options|]
      | apply related_fail].
Qed.

Lemma looks_delete o1 o2 k : looks_same o1 o2 → looks_same (delete k o1) (delete k o2).
Proof.
  intros Ho. split.
  - apply map_eq. intros k'. apply option_eq. intros r'. rewrite !seen_lookup.
    destruct (decide (k' = k)) as [->|Hne]; [by rewrite !lookup_delete_eq|].
    rewrite !lookup_delete_ne by done. by apply lookup_agree_iff.
  - intros Hs. by rewrite !dom_delete_L, (looks_keys _ _ Ho Hs).
Qed.

Lemma delete_object_related data : Changed (delete_object data) (delete_object data).
Proof.
  unfold delete_object. follow. apply related_modify. intros d1 d2 Hv _. split; [|done].
  destruct (view_objects_device _ _ Hv) as (o1 & o2 & Hd1 & -> & Ho). rewrite Hd1.
  split; [by apply looks_delete|done].
Qed.

Lemma reset_device_related data : Changed (reset_device data) (reset_device data).
Proof.
  unfold reset_device. follow. apply related_modify. intros d1 d2 Hv _. split; [|done].
  destruct (view_objects_device _ _ Hv) as (o1 & o2 & Hd1 & -> & Ho). by rewrite Hd1.
Qed.

(** *** Changes of an object that the check has found *)

(** A handler that reads the device first. *)
Lemma runs_get {A} b (f : Device → Dev A) d o1 o2 w :
  alike b (set_objects o1 d, w) (set_objects o2 d, w) →
  related (alike b) (f (set_objects o1 d)) (f (set_objects o2 d)) →
  runs (alike b) (get_left ≫= f) (get_left ≫= f) (set_objects o1 d, w) (set_objects o2 d, w).
Proof. intros HR Hf. exact (Hf _ _ HR). Qed.

#[local] Ltac follow_found Hview :=
  repeat first
    [ apply related_lift_bind; [by apply (permitted_lookup _ _ _ Hview)|intros ? _ _] | follow_step ].

Lemma change_authentication_key_runs data d o1 o2 w :
  looks_same o1 o2 → both_authorized d o1 o2 CommandCode.ChangeAuthenticationKey data →
  runs (alike false) (change_authentication_key data) (change_authentication_key data)
    (set_objects o1 d, w) (set_objects o2 d, w).
Proof.
  intros Hview. unfold both_authorized, authorize_command_objects, change_authentication_key.
  destruct (decode ChangeAuthenticationKeyRequest data) as [[id algorithm material]| | |];
    [|by intros []..]. cbn [mbind outcome_bind].
  intros [(_ & _ & Hp1%authorize_object_visible)%outcome_bind_ok
          (_ & _ & Hp2%authorize_object_visible)%outcome_bind_ok].
  assert (permitted d o1 o2 (mkObjectKey AuthenticationKey id)) as Hp by by split.
  apply runs_get; [by split|]. follow_found Hview.
Qed.

Lemma found_alike d o1 o2 id :
  let check o := if negb (id =? 0) && bool_decide (is_Some (o !! mkObjectKey Opaque id))
                 then authorize_id (set_objects o d) auth Opaque id Capability.PutOpaque else Ok tt in
  looks_same o1 o2 → check o1 = Ok tt → check o2 = Ok tt →
  (if id =? 0 then None else o1 !! mkObjectKey Opaque id)
  = (if id =? 0 then None else o2 !! mkObjectKey Opaque id).
Proof.
  intros check Hview. unfold check. destruct (id =? 0); [done|]. cbn [negb andb].
  destruct (looks_cases o1 o2 Hview (mkObjectKey Opaque id)) as [(r & -> & -> & _)|(Hh1 & Hh2 & _)]; [done|].
  assert (∀ o, hidden_at o (mkObjectKey Opaque id) →
    (if bool_decide (is_Some (o !! mkObjectKey Opaque id))
     then authorize_id (set_objects o d) auth Opaque id Capability.PutOpaque else Ok tt) = Ok tt →
    o !! mkObjectKey Opaque id = None) as Hnone; [|by intros Hp1 Hp2; rewrite (Hnone o1 Hh1 Hp1), (Hnone o2 Hh2 Hp2)].
  intros o Hh. case_bool_decide as Hs; [|by intros _; apply eq_None_not_Some].
  intros Ha%authorize_object_visible. unfold require_object_visible in Ha. cbn [objects set_objects] in Ha.
  destruct (o !! _) as [r|] eqn:Hr; [|done]. apply require_visible_ok in Ha. rewrite (Hh r Hr) in Ha. done.
Qed.

(** An opaque object is replaced when it exists, and created otherwise. *)
Lemma put_opaque_runs data d o1 o2 w :
  looks_same o1 o2 → same_identifiers (set_objects o1 d) (set_objects o2 d) →
  both_authorized d o1 o2 CommandCode.PutOpaque data →
  runs (alike true) (put_opaque auth data) (put_opaque auth data) (set_objects o1 d, w) (set_objects o2 d, w).
Proof.
  intros Hview Hids. unfold both_authorized, authorize_command_objects, put_opaque.
  destruct (decode PutOpaqueRequest data) as [[[id padded domains capabilities algorithm] payload]| | |];
    [|by intros []..]. cbn [mbind outcome_bind].
  intros [Hp1 Hp2]. apply runs_get; [by split|].
  pose proof (found_alike d o1 o2 id Hview Hp1 Hp2) as Hfound. cbn [objects set_objects].
  rewrite Hfound. follow.
Qed.
End isolation.
