(* ===== verification/IsolationProperties.v ===== *)
(** * Objects outside the domains of a session do not matter to it

    The dispatcher on two devices that look the same to a session: the answers to
    single requests, when hidden objects may be missing on one side, and whole
    conversations, when only their contents differ. *)

From S2P Require Import Prelude Error Frame Firmware Algorithm Capability Protocol KeyCore Toy.
From S2P Require Import Wire Objects Authorization SessionObjects Requests SecureChannel.
From S2P Require Import DeviceState ObjectStore ObjectCommands KeyUse Wrapping Attestation.
From S2P Require Import SessionObjectCommands Dispatch CommandEffects StoreProperties DeviceInvariant.
From S2P Require Import Sessions Persistence ToyState PersistenceProperties Isolation.

(** ** Commands *)

Section commands.
Context `{Build} `{HX : X509} `{Der} `{Fuel}.
Context (strict : bool) (auth : SessionAuthorization).

#[local] Abbreviation Exec := (Eff ((Device * World) * option SessionObjects) DeviceError).

(** States of the dispatcher that look the same. *)
Definition same_state (s1 s2 : (Device * World) * option SessionObjects) : Prop :=
  s1.1.2 = s2.1.2 ∧ s1.2 = s2.2 ∧ same_view strict auth s1.1.1 s2.1.1.

Section runs.
Context (d : Device) (o1 o2 : gmap ObjectKey ObjectRecord) (Hview : looks_same strict auth o1 o2).

(** Two runs of a command on devices that look the same. *)
Definition runs_agree {A} (m1 m2 : Exec A) : Prop := ∀ w t,
  runs strict same_state m1 m2 ((set_objects o1 d, w), t) ((set_objects o2 d, w), t).

Lemma same_objects_state w t : same_state ((set_objects o1 d, w), t) ((set_objects o2 d, w), t).
Proof. split; [done|]. split; [done|]. by split. Qed.

Lemma runs_read {A} (f : Device → Eff World DeviceError A) :
  related strict eq (f (set_objects o1 d)) (f (set_objects o2 d)) →
  runs_agree (read_device f) (read_device f).
Proof.
  intros Hf w t. specialize (Hf w w eq_refl). unfold runs, read_device, on_device, reading in *. cbn [fst snd].
  destruct (f (set_objects o1 d) w) as [r1 x1], (f (set_objects o2 d) w) as [r2 x2]. cbn [fst snd] in *.
  destruct Hf as [[-> ->]|Hf]; [left|by right]. split; [done|]. apply same_objects_state.
Qed.

Lemma runs_query {A} (f : Device → Result A) :
  agree strict (f (set_objects o1 d)) (f (set_objects o2 d)) → runs_agree (query f) (query f).
Proof. intros Hf. apply runs_read. by apply related_lift. Qed.

Lemma runs_device {A} b (m : Dev A) :
  (∀ w, runs strict (alike strict auth b) m m (set_objects o1 d, w) (set_objects o2 d, w)) →
  runs_agree (on_device m) (on_device m).
Proof.
  intros Hm w t. specialize (Hm w). unfold runs, on_device in *. cbn [fst snd].
  destruct (m (set_objects o1 d, w)) as [r1 s1], (m (set_objects o2 d, w)) as [r2 s2]. cbn [fst snd] in *.
  destruct Hm as [[-> (Hw & Hv & _)]|Hf]; [by left|by right].
Qed.

Lemma runs_changed {A} b (m : Dev A) :
  (b = true → same_identifiers (set_objects o1 d) (set_objects o2 d)) →
  related strict (alike strict auth b) m m → runs_agree (on_device m) (on_device m).
Proof. intros Hi Hm. apply (runs_device b). intros w. apply Hm. by split. Qed.

Lemma runs_table {A} (f : Device → Eff (SessionObjects * World) DeviceError A) :
  related strict eq (f (set_objects o1 d)) (f (set_objects o2 d)) →
  runs_agree (on_table f) (on_table f).
Proof.
  intros Hf w [t|]; [|left; split; [done|]; apply same_objects_state]. specialize (Hf (t, w) (t, w) eq_refl).
  unfold runs, on_table in *. cbn [fst snd].
  destruct (f (set_objects o1 d) (t, w)) as [r1 [x1 y1]], (f (set_objects o2 d) (t, w)) as [r2 [x2 y2]].
  cbn [fst snd] in *. destruct Hf as [[-> [= -> ->]]|Hf]; [left|by right]. split; [done|]. apply same_objects_state.
Qed.

Lemma runs_fail {A} e : runs_agree (fail e : Exec A) (fail e).
Proof. intros w t. left. split; [done|]. apply same_objects_state. Qed.

(** *** The handlers *)

Create HintDb yhsm_isolation discriminated.
#[local] Hint Resolve sign_pkcs1_related sign_pss_related sign_ecdsa_related sign_eddsa_related
  sign_ml_dsa_related encapsulate_ml_kem_related decapsulate_ml_kem_related
  encapsulate_hybrid_kem_related decapsulate_hybrid_kem_related decrypt_pkcs1_related
  decrypt_oaep_related create_otp_aead_related randomize_otp_aead_related rewrap_otp_aead_related
  wrap_data_related derive_ecdh_agree derive_ecdh_kdf_agree sign_hmac_agree verify_hmac_agree
  decrypt_otp_agree unwrap_data_agree crypt_aes_ecb_agree crypt_aes_cbc_agree get_object_info_agree
  get_public_key_agree sign_attestation_certificate_related session_object_command_related
  get_opaque_agree get_template_agree export_wrapped_related list_objects_agree : yhsm_isolation.
#[local] Hint Resolve put_authentication_key_related put_asymmetric_key_related put_hmac_key_related
  put_symmetric_key_related put_wrap_key_related put_public_wrap_key_related
  put_otp_aead_key_related put_template_related import_wrapped_related import_rsa_wrapped_related
  put_rsa_wrapped_key_related set_log_index_related set_option_related delete_object_related
  reset_device_related : yhsm_isolation.

(** What a command may learn about hidden objects: the identifiers in use, when it
    creates an object, and the number of objects, when it reports the storage. *)
Record comparable (c : CommandCode.CommandCode) : Prop := {
  comparable_identifiers :
    creating_command c = true → same_identifiers (set_objects o1 d) (set_objects o2 d);
  comparable_size : c = CommandCode.GetStorageInfo → size o1 = size o2;
}.

Lemma run_command_agree c data :
  comparable c → both_authorized auth d o1 o2 c data →
  runs_agree (run_command auth c data) (run_command auth c data).
Proof.
  intros [Hi Hs] Ha.
  destruct c; cbn [run_command];
    first
      [ apply runs_query; by eauto with yhsm_isolation
      | apply runs_read; by eauto with yhsm_isolation
      | apply runs_table; by eauto with yhsm_isolation
      | apply (runs_changed true); [by intros _; apply Hi|by eauto with yhsm_isolation]
      | apply (runs_changed false); [done|by eauto with yhsm_isolation]
      | apply runs_query, agree_refl
      | apply runs_read, related_eq
      | apply runs_fail
      | idtac ].
  - apply runs_query. unfold get_storage_info. cbn [objects set_objects].
    rewrite (Hs eq_refl). apply agree_refl.
  - apply (runs_device true). intros w. by apply put_opaque_runs, Ha; [|apply Hi].
  - apply (runs_device false). intros w. by apply change_authentication_key_runs.
  - apply runs_read. by apply (export_rsa_wrapped_related _ _ _ _ _ Hview data true).
  - apply runs_read. by apply (export_rsa_wrapped_related _ _ _ _ _ Hview data false).
Qed.

(** *** The dispatcher *)

(** The check of a command looks at the device and changes nothing. *)
Lemma authorized_query c data (self : Device) w (t : option SessionObjects) u s :
  query (λ self, authorize_command_request self auth c data) ((self, w), t) = (Ok u, s) →
  authorize_command_objects self auth c data = Ok tt ∧ s = ((self, w), t).
Proof.
  unfold query, read_device, on_device, reading, lift. cbn [fst snd]. intros [= Hu <-]. split; [|done].
  unfold authorize_command_request in Hu. apply outcome_bind_ok in Hu as (_ & _ & Hu). by destruct u.
Qed.

Lemma execute_agree request :
  (∀ c, CommandCode.from_byte (command request) = Some c → comparable c) →
  runs_agree (execute_inner_result auth request) (execute_inner_result auth request).
Proof.
  intros Hc w t. unfold runs, execute_inner_result. cbn [fst snd].
  change (execute_plain_or_authenticated (set_objects o2 d)) with
    (execute_plain_or_authenticated (set_objects o1 d)).
  destruct (execute_plain_or_authenticated _ request) as [plain|].
  { left. split; [done|]. apply same_objects_state. }
  destruct (CommandCode.from_byte (command request)) as [c|].
  2:{ left. split; [done|]. apply same_objects_state. }
  specialize (Hc c eq_refl). rewrite !(lift_run (ok_or (Some c) _) _ _ c) by done.
  destruct (CommandCode.supported_by_firmware c).
  2:{ left. split; [done|]. apply same_objects_state. }
  rewrite !(lift_run (reject_if (negb true) _) _ _ tt) by done.
  apply (runs_bind strict same_state); [|done|].
  - apply runs_query, agree_unit. by apply authorize_command_same.
  - intros [] s1 s2 Hp1 Hp2 _. apply authorized_query in Hp1 as [Ha1 ->].
    apply authorized_query in Hp2 as [Ha2 ->]. by apply (run_command_agree c).
Qed.

(** Strictly, every command may be compared. *)
Lemma strict_comparable c : strict = true → comparable c.
Proof.
  intros Hs. pose proof (looks_keys _ _ _ _ Hview Hs) as Hd. split.
  - intros _ k. cbn [objects set_objects]. apply exist_proper. intros ty. by rewrite <- !elem_of_dom, Hd.
  - intros _. by rewrite <- !(size_dom (D := gset ObjectKey)), Hd.
Qed.
End runs.

(** What is recorded of a command does not depend on the objects. *)
Lemma record_execution_objects request audited result o (d : Device) :
  record_execution auth request audited result (set_objects o d)
  = set_objects o (record_execution auth request audited result d).
Proof.
  unfold record_execution. destruct (known_command _) as [c|]; [|done]. cbv zeta.
  assert (append_audit_entry (set_objects o d) auth c request (result_code result)
    = set_objects o (append_audit_entry d auth c request (result_code result))) as Ha.
  { unfold append_audit_entry, log_full. cbn [audit config set_objects]. by destruct (_ <=? _). }
  destruct audited, (_ && _); by rewrite ?Ha.
Qed.

Lemma view_record request audited result d1 d2 :
  same_view strict auth d1 d2 →
  same_view strict auth (record_execution auth request audited result d1)
    (record_execution auth request audited result d2).
Proof.
  intros Hv. destruct (view_objects_device _ _ _ _ Hv) as (o1 & o2 & Hd1 & Hd2 & Ho).
  rewrite Hd1, Hd2, !record_execution_objects. by split.
Qed.

Lemma runs_attempt {A} (R : relation _) (m1 m2 : Exec A) s1 s2 :
  strict = true → runs strict R m1 m2 s1 s2 → runs strict R (attempt m1) (attempt m2) s1 s2.
Proof.
  intros Hs [[He Hr]|[Hf _]]; [|congruence]. left. unfold attempt.
  destruct (m1 s1) as [r1 t1], (m2 s2) as [r2 t2]. cbn [fst snd] in *. subst r2. by destruct r1.
Qed.

(** One request with its guard, its audit and its answer. *)
Lemma respond_objects request d o1 o2 :
  strict = true → looks_same strict auth o1 o2 →
  runs_agree d o1 o2 (execute_inner_with_session auth request) (execute_inner_with_session auth request).
Proof.
  intros Hs Hview w t. unfold runs, execute_inner_with_session. cbn [fst snd options set_objects].
  change (log_full (set_objects ?o d)) with (log_full d).
  change (should_audit (set_objects ?o d)) with (should_audit d).
  destruct (_ && log_full d); [left; split; [done|]; by apply same_objects_state|].
  apply (runs_bind strict same_state); [|done|].
  - apply runs_attempt; [done|]. apply (runs_bind strict same_state); [|done|].
    + apply execute_agree; [done|]. intros c _. by apply strict_comparable.
    + intros data s1 s2 _ _ Hr. apply related_bind; [apply related_lift, agree_refl| |done].
      intros []. apply related_ret.
  - intros result s1 s2 _ _ Hr. apply related_bind; [|intros []; apply related_ret|done].
    intros [[d1 w1] t1] [[d2 w2] t2] (Hw & Ht & Hv). left. split; [done|]. split; [done|]. split; [done|].
    by apply view_record.
Qed.

Lemma respond_same request s1 s2 :
  strict = true → same_state s1 s2 →
  runs strict same_state (execute_inner_with_session auth request) (execute_inner_with_session auth request) s1 s2.
Proof.
  intros Hs Hsame. destruct s1 as [[d1 w1] t1], s2 as [[d2 w2] t2]. destruct Hsame as (Hw & Ht & Hv).
  cbn [fst snd] in *. subst w2 t2.
  destruct (view_objects_device _ _ _ _ Hv) as (o1 & o2 & Hd1 & Hd2 & Ho). rewrite Hd1, Hd2.
  by apply respond_objects.
Qed.

(** *** Conversations *)

(** The answers to a list of requests of one session, in order. *)
Fixpoint conversation (requests : list Frame) : Exec (list Frame) :=
  match requests with
  | [] => mret []
  | request :: requests =>
      answer ← execute_inner_with_session auth request;
      answers ← conversation requests;
      mret (answer :: answers)
  end.

Lemma conversation_same requests s1 s2 :
  strict = true → same_state s1 s2 →
  runs strict same_state (conversation requests) (conversation requests) s1 s2.
Proof.
  intros Hs. revert s1 s2. induction requests as [|request requests IH]; intros s1 s2 Hsame; [by left|].
  apply (runs_bind strict same_state); [by apply respond_same|done|]. intros answer t1 t2 _ _ Ht.
  apply (runs_bind strict same_state); [by apply IH|done|]. intros answers u1 u2 _ _ Hu. by left.
Qed.
End commands.

(** ** What a session can change *)

Section changes.
Context `{Build} `{HX : X509} `{Der} `{Fuel} `{!KdfLaws}.
Context (auth : SessionAuthorization).

Lemma install_elsewhere record (d : Device) k r :
  objects d !! k = Some r → k ≠ Info.key (info record) → objects (install_record record d) !! k = Some r.
Proof. intros Hk Hne. cbn. by rewrite lookup_insert_ne. Qed.

Lemma effect_untouched data d d' c k r :
  keyed d → command_effect auth data d d' c → c ≠ CommandCode.ResetDevice →
  objects d !! k = Some r → can_see auth (info r) = false → objects d' !! k = Some r.
Proof.
  intros Hkeyed He Hc Hk Hr.
  assert (∀ k' old cap, objects d !! k' = Some old → authorize_use auth (info old) cap cap = Ok tt → k ≠ k') as Hsee.
  { intros k' old cap Ho ([] & Hv%require_visible_ok & _)%outcome_bind_ok ->. congruence. }
  assert (∀ k' old cap, objects d !! k' = Some old → authorize_use auth (info old) cap cap = Ok tt →
    replaces_at k' d d' → objects d' !! k = Some r) as Hreplaced.
  { intros k' old cap Ho Ha (old' & record & Ho' & [_ Hkey _ _ _] & ->). apply install_elsewhere; [done|].
    rewrite Hkey, (Hkeyed _ _ Ho'). exact (Hsee _ _ _ Ho Ha). }
  destruct He as [c _ ->|c _ (record & [_ Hf _ _] & ->)|id old ? ? Ho Ha Hre|old ? Ho Ha Hre|key old ? Ho Ha ->|o _ ->|i ? ->|key ->];
    try done; [|exact (Hreplaced _ _ _ Ho Ha Hre)..|].
  - apply install_elsewhere; [done|]. intros ->. congruence.
  - cbn. rewrite lookup_delete_ne; [done|]. intros ->.
    apply outcome_bind_ok in Ha as ([] & Hv%require_visible_ok & _). congruence.
Qed.

(** No answer of a conversation without a reset touches a hidden object. *)
Definition resets (request : Frame) : Prop :=
  known_command (command request) = Some CommandCode.ResetDevice.

Lemma respond_untouched request d w t k r :
  device_ok d → ¬ resets request → objects d !! k = Some r → can_see auth (info r) = false →
  wp (execute_inner_with_session auth request)
    (λ _ s', device_ok s'.1.1 ∧ objects s'.1.1 !! k = Some r) ((d, w), t).
Proof.
  intros Hd Hreset Hk Hr. eapply wp_mono; [apply execute_inner_outcome|]. intros a s' Ho. cbv beta in Ho |- *.
  split; [exact (inner_outcome_ok _ _ _ _ _ Hd Ho)|]. revert Ho. generalize s'.1.1 as d'. intros d' Ho.
  destruct Ho as [|result d1 He _|]; [done| |done].
  rewrite (same_objects _ _ (record_execution_store auth request _ result d1)).
  destruct result as [answer|e| |]; [|cbn in He; by subst..].
  destruct He as (c & Hc & _ & He & _). eapply effect_untouched; [by apply device_ok_keyed|done| |done..].
  intros ->. by apply Hreset.
Qed.

Lemma conversation_untouched requests d w t k r :
  device_ok d → Forall (λ request, ¬ resets request) requests →
  objects d !! k = Some r → can_see auth (info r) = false →
  wp (conversation auth requests) (λ _ s', device_ok s'.1.1 ∧ objects s'.1.1 !! k = Some r) ((d, w), t).
Proof.
  intros Hd Hq Hk Hr. revert d w t Hd Hk. induction Hq as [|request requests Hq _ IH]; intros d w t Hd Hk; [done|].
  cbn [conversation]. apply wp_bind. eapply wp_mono; [by apply respond_untouched|].
  intros [answer|e| |] [[d' w'] t'] [Hd' Hk']; try done. cbn [fst snd] in *.
  apply wp_bind. eapply wp_mono; [by apply IH|]. by intros [answers|e| |] s' Hs.
Qed.

Lemma conversation_ok requests d w t :
  device_ok d → wp (conversation auth requests) (λ _ s', device_ok s'.1.1) ((d, w), t).
Proof.
  revert d w t. induction requests as [|request requests IH]; intros d w t Hd; [done|].
  cbn [conversation]. apply wp_bind. eapply wp_mono; [apply execute_inner_outcome|].
  intros r [[d' w'] t'] Ho. apply inner_outcome_ok in Ho; [|done]. destruct r as [answer|e| |]; try done.
  apply wp_bind. eapply wp_mono; [by apply IH|]. by intros [answers|e| |] s' Hs.
Qed.
End changes.

(** ** What a session can learn *)

Section properties.
Context `{Build} `{HX : X509} `{Der} `{Fuel}.

(** C4: what hidden objects contain never matters to a session. Take two devices
    that differ only in the contents of objects outside the domains of the session:
    their material, rights, labels, algorithms and domains. Whatever list of requests
    the session sends, both devices give the same answers, errors included, they use
    the world in the same way, and they end with the same volatile objects and in
    states that again differ only in the contents of hidden objects. *)
Theorem hidden_contents_do_not_matter (auth : SessionAuthorization) (requests : list Frame)
    (d1 d2 : Device) (w : World) (t : option SessionObjects) :
  same_view true auth d1 d2 →
  (conversation auth requests ((d1, w), t)).1 = (conversation auth requests ((d2, w), t)).1 ∧
  same_state true auth (conversation auth requests ((d1, w), t)).2
    (conversation auth requests ((d2, w), t)).2.
Proof.
  intros Hv. destruct (conversation_same true auth requests ((d1, w), t) ((d2, w), t)) as [?|[]]; done.
Qed.

(** C5: nor does the existence of hidden objects, to a request that succeeds. Take
    two devices that differ only in objects that the session cannot see, which may be
    missing on one of them. A request of the session that succeeds on both gets the
    same answer from both, uses the world in the same way, leaves the same volatile
    objects, and leaves devices that again differ in hidden objects only. A command
    that creates an object must find the same identifiers in use, since it may have
    to choose one, and the storage report the same number of objects. *)
Theorem hidden_objects_are_unobservable (auth : SessionAuthorization) (request : Frame)
    (d : Device) (o1 o2 : gmap ObjectKey ObjectRecord) (w : World) (t : option SessionObjects)
    (a1 a2 : bytes) (s1 s2 : (Device * World) * option SessionObjects) :
  looks_same false auth o1 o2 →
  (∀ c, CommandCode.from_byte (command request) = Some c → comparable d o1 o2 c) →
  execute_inner_result auth request ((set_objects o1 d, w), t) = (Ok a1, s1) →
  execute_inner_result auth request ((set_objects o2 d, w), t) = (Ok a2, s2) →
  a1 = a2 ∧ same_state false auth s1 s2.
Proof.
  intros Ho Hc Hx1 Hx2. pose proof (execute_agree false auth d o1 o2 Ho request Hc w t) as Hr.
  unfold runs in Hr. rewrite Hx1, Hx2 in Hr. cbn [fst snd] in Hr.
  destruct Hr as [[[= ->] Hs]|[_ Hf]]; [done|]. discriminate Hf.
Qed.

Context `{!KdfLaws}.

(** C6: a session does not touch what it cannot see. Whatever list of requests a
    session sends to a device that satisfies its invariant, with no reset among
    them, every object outside the domains of the session is afterwards stored as
    it was: it is not changed, moved, replaced or deleted, whether the requests
    succeed or fail; and the device keeps its invariant. *)
Theorem hidden_objects_are_untouched (auth : SessionAuthorization) (requests : list Frame)
    (d : Device) (w : World) (t : option SessionObjects) :
  device_ok d → Forall (λ request, ¬ resets request) requests →
  let d' := (conversation auth requests ((d, w), t)).2.1.1 in
  device_ok d' ∧
  ∀ k r, objects d !! k = Some r → can_see auth (info r) = false → objects d' !! k = Some r.
Proof.
  intros Hd Hq. split.
  - apply conversation_ok. done.
  - intros k r Hk Hr. by destruct (conversation_untouched auth requests d w t k r Hd Hq Hk Hr).
Qed.
End properties.

(** ** Witnesses *)

#[local] Existing Instance default_build.
#[local] Existing Instance toy_fuel.

(** Two hidden objects under one key are as good as each other, and as none. *)
Lemma hidden_contents (auth : SessionAuthorization) (o : gmap ObjectKey ObjectRecord) k r1 r2 :
  can_see auth (info r1) = false → can_see auth (info r2) = false →
  looks_same true auth (<[k := r1]> o) (<[k := r2]> o).
Proof.
  intros Hr1 Hr2. split; [|by rewrite !dom_insert_L].
  apply map_eq. intros k'. apply option_eq. intros r. rewrite !seen_lookup.
  destruct (decide (k' = k)) as [->|Hne]; [rewrite !lookup_insert_eq; split; intros [[= <-] ?]; congruence|].
  by rewrite !lookup_insert_ne.
Qed.

Lemma hidden_existence (auth : SessionAuthorization) (o : gmap ObjectKey ObjectRecord) k r :
  o !! k = None → can_see auth (info r) = false → looks_same false auth (<[k := r]> o) o.
Proof.
  intros Hk Hr. split; [|done]. apply map_eq. intros k'. apply option_eq. intros r'. rewrite !seen_lookup.
  destruct (decide (k' = k)) as [->|Hne]; [rewrite lookup_insert_eq, Hk; split; [intros [[= <-] ?]; congruence|by intros [? _]]|].
  by rewrite !lookup_insert_ne.
Qed.

(** A session of the first domain, and an object of the second. *)
Definition first_domain : SessionAuthorization := mkAuthorization 1 ALL ALL 1.

Definition second_domain_object (payload : bytes) : ObjectRecord :=
  mkObjectRecord
    (mkObjectInfo ALL 9 (len payload) 2 Opaque (Algorithm.to_byte OpaqueData) 0 2 (ascii_bytes "hidden") NONE)
    (OpaqueMaterial payload).

Definition with_hidden (payload : bytes) : Device :=
  set_objects (<[mkObjectKey Opaque 9 := second_domain_object payload]> (objects example_device)) example_device.

(** List the objects, read the hidden one, and delete it. *)
Definition prying : list Frame :=
  [mkFrame 0x48 []; mkFrame 0x43 [0; 9]; mkFrame 0x4e [0; 9; 1; 1; 1]; mkFrame 0x58 [0; 9; 1]].

Lemma hidden_contents_do_not_matter_witness :
  (conversation first_domain prying ((with_hidden [1; 2], toy_world), None)).1
  = (conversation first_domain prying ((with_hidden [3], toy_world), None)).1.
Proof.
  apply (hidden_contents_do_not_matter first_domain prying (with_hidden [1; 2]) (with_hidden [3]) toy_world None).
  split; [|done]. by apply hidden_contents.
Defined.

Lemma hidden_objects_are_unobservable_witness :
  ∃ answer s1 s2,
    execute_inner_result first_domain (mkFrame 0x48 []) ((with_hidden [1; 2], toy_world), None) = (Ok answer, s1) ∧
    execute_inner_result first_domain (mkFrame 0x48 []) ((example_device, toy_world), None) = (Ok answer, s2).
Proof.
  assert (is_ok (execute_inner_result first_domain (mkFrame 0x48 []) ((with_hidden [1; 2], toy_world), None)).1
    = true) as Hok1 by by vm_compute.
  assert (is_ok (execute_inner_result first_domain (mkFrame 0x48 []) ((example_device, toy_world), None)).1
    = true) as Hok2 by by vm_compute.
  destruct (execute_inner_result first_domain (mkFrame 0x48 []) ((with_hidden [1; 2], toy_world), None))
    as [[a1|e1| |] s1] eqn:Hx1; [|discriminate Hok1..].
  destruct (execute_inner_result first_domain (mkFrame 0x48 []) ((example_device, toy_world), None))
    as [[a2|e2| |] s2] eqn:Hx2; [|discriminate Hok2..]. clear Hok1 Hok2.
  destruct (hidden_objects_are_unobservable first_domain (mkFrame 0x48 []) example_device
    (<[mkObjectKey Opaque 9 := second_domain_object [1; 2]]> (objects example_device)) (objects example_device)
    toy_world None a1 a2 s1 s2) as [<- _].
  - by apply hidden_existence.
  - intros c [= <-]. by split.
  - exact Hx1.
  - exact Hx2.
  - by exists a1, s1, s2.
Defined.

(** The object with its generation, which the session cannot reach. *)
Lemma hidden_objects_are_untouched_witness :
  let d := install_record (second_domain_object [1; 2]) example_device in
  ∃ r, objects d !! mkObjectKey Opaque 9 = Some r ∧
    objects (conversation first_domain prying ((d, toy_world), None)).2.1.1 !! mkObjectKey Opaque 9 = Some r.
Proof.
  intros d.
  exists (set_info (set_sequence 0 (info (second_domain_object [1; 2]))) (second_domain_object [1; 2])).
  assert (objects d !! mkObjectKey Opaque 9
    = Some (set_info (set_sequence 0 (info (second_domain_object [1; 2]))) (second_domain_object [1; 2]))) as Hk
    by reflexivity.
  split; [exact Hk|].
  apply (hidden_objects_are_untouched first_domain prying d toy_world None); [| |exact Hk|reflexivity].
  - apply install_record_ok; [by vm_compute|apply example_device_ok].
  - by repeat constructor.
Defined.

(** ** What a refusal tells

    The export checks the rights on the wrap key after it has found the object: with
    a wrap key that may not export, a hidden object is refused in another way than a
    missing one. *)

Definition idle_wrap_key : ObjectRecord :=
  mkObjectRecord
    (mkObjectInfo NONE 2 24 1 WrapKey (Algorithm.to_byte Aes128CcmWrap) 0 2 (ascii_bytes "wrap") ALL)
    (Secret (zeros 16)).

Definition with_wrap_key (self : Device) : Device :=
  set_objects (<[mkObjectKey WrapKey 2 := idle_wrap_key]> (objects self)) self.

Lemma hidden_target_is_told_apart :
  let export := mkFrame 0x4a [0; 2; 1; 0; 9] in
  (execute_inner_result first_domain export ((with_wrap_key (with_hidden [1; 2]), toy_world), None)).1
    = Err InsufficientPermissions ∧
  (execute_inner_result first_domain export ((with_wrap_key example_device, toy_world), None)).1
    = Err ObjectNotFound.
Proof. by vm_compute. Qed.
