(* ===== verification/Lifecycle.v ===== *)
(** * The life of an opaque object, from the client to the store and back

    [Scenarios.opaque_object_lifecycle] on the device of [Sessions], through the
    encrypted session: an object is stored under a free identifier, read, described,
    listed, deleted and missed, and the device is as before but for one generation. *)

From S2P Require Import Prelude Error Io Frame Firmware Algorithm Capability Protocol KeyCore.
From S2P Require Import Wire Objects Authorization SessionObjects Requests SecureChannel.
From S2P Require Import DeviceState ObjectStore ObjectCommands KeyUse Wrapping Attestation.
From S2P Require Import SessionObjectCommands Dispatch CommandEffects StoreProperties.
From S2P Require Import QueryProperties DeviceInvariant Sessions SessionSteps HostSession.
From S2P Require Import InProcess HostRequests Credentials Scenarios ClientRuns ClientCommands.

Section lifecycle.
Context `{Build} `{HX : X509} `{Der} `{Fuel} `{!ChannelLaws}.

#[local] Existing Instance no_hooks.

(** ** The object *)

Definition PAYLOAD : bytes := ascii_bytes "temporary qualification object".
Definition LABEL : bytes := ascii_bytes "qualification".
Definition READABLE : CapabilitySet := from_capabilities [Capability.GetOpaque].

Definition temporary (id : Z) : ObjectRecord := opaque_record id 1 READABLE LABEL PAYLOAD.

(** The record in the store carries its generation. *)
Definition stored (d : Device) (id : Z) : ObjectRecord :=
  set_info (set_sequence (next_generation d id mod 256) (info (temporary id))) (temporary id).

(** The rights that the case needs, and the algorithm. *)
Record may_store (d : Device) (auth : SessionAuthorization) : Prop := {
  storing_enabled : require_algorithm_enabled d (Algorithm.to_byte OpaqueData) = Ok tt;
  storing_session : authorization_ok auth;
  storing_capabilities : ∀ c, c ∈ [Capability.PutOpaque; Capability.GetOpaque; Capability.DeleteOpaque] →
    contains (session_capabilities auth) c = true;
  storing_delegation : contains (session_delegated_capabilities auth) Capability.GetOpaque = true;
  storing_domain : 0 ∈ domain_set (session_domains auth);
}.

Lemma temporary_storable id : 0 < id < u16_max → storable id 1 READABLE LABEL PAYLOAD.
Proof. intros Hid. split; [done|by vm_compute|by vm_compute| |by vm_compute]. by_computation. Qed.

Lemma READABLE_ok : set_ok READABLE.
Proof. by_computation. Qed.

Lemma LABEL_ok : bytes_ok LABEL.
Proof. by_computation. Qed.

Lemma temporary_info_ok id : 0 < id < u16_max → info_ok (info (temporary id)).
Proof.
  intros Hid. split; [apply READABLE_ok| |done..|apply LABEL_ok|apply NONE_ok].
  unfold u16, u16_max in *. cbn. lia.
Qed.

Lemma temporary_authorized d auth id :
  may_store d auth → 0 < id < u16_max →
  authorize_create auth (info (temporary id)) Capability.PutOpaque = Ok tt.
Proof.
  intros [_ Hok Hcaps Hdel Hdom] Hid. apply authorize_create_ok.
  split; [apply Hcaps; set_solver|]. split; [apply validate_ok; cbn; unfold u16_max in *; split_and!; [lia|lia|lia|done]|].
  apply (granted_within auth (info (temporary id)) Hok (temporary_info_ok id Hid)). split.
  - assert (domain_set 1 = {[0]}) as Hone by by_computation.
    change (domains (info (temporary id))) with 1. rewrite Hone. set_solver.
  - assert (bits READABLE = {[to_bit Capability.GetOpaque]}) as Hbits by by_computation.
    change (capabilities (info (temporary id))) with READABLE. rewrite Hbits. apply contains_bits in Hdel. set_solver.
  - assert (bits NONE = ∅) as Hbits by by_computation.
    change (delegated_capabilities (info (temporary id))) with NONE. rewrite Hbits. set_solver.
Qed.

(** ** The store *)

(** The device after the object is stored, and after it is deleted. *)
Definition with_object (d : Device) (id : Z) : Device := install_record (temporary id) d.
Definition without_object (d : Device) (id : Z) : Device :=
  set_history (<[id := next_generation d id]> (sequence_history d)) d.

Lemma stored_lookup d id : objects (with_object d id) !! mkObjectKey Opaque id = Some (stored d id).
Proof. apply lookup_insert_eq. Qed.

Lemma stored_typed d id :
  typed_objects d → 0 < id < u16_max → typed_objects (with_object d id).
Proof.
  intros Ht Hid. apply map_Forall_insert_2; [|done].
  pose proof (temporary_info_ok id Hid) as Hok.
  split; [split; [done|]|].
  - unfold validate. assert (Info.validate (info (stored d id)) = Ok tt) as Hv.
    { apply validate_ok. cbn. unfold u16_max in *. split_and!; [lia|lia|lia|done]. }
    change (info (set_info _ (temporary id))) with (info (stored d id)). by rewrite Hv.
  - destruct Hok. split; try done. cbn. unfold u8. apply Z.mod_pos_bound. lia.
Qed.

Lemma stored_visible d auth id :
  may_store d auth → 0 < id < u16_max → can_see auth (info (stored d id)) = true.
Proof.
  intros Hm Hid. apply (new_object_visible auth (info (temporary id))).
  - by eapply temporary_authorized.
  - by vm_compute.
  - apply Hm.
Qed.

Lemma only_sessions_objects_history d d' o h :
  only_sessions d d' → only_sessions (set_objects o (set_history h d)) (set_objects o (set_history h d')).
Proof. intros []. by split. Qed.

Lemma with_object_sessions d d' id :
  only_sessions d d' → only_sessions (with_object d id) (with_object d' id).
Proof.
  intros Hs. unfold with_object, install_record, next_generation.
  rewrite (only_sessions_objects _ _ Hs), (only_sessions_history _ _ Hs).
  by apply only_sessions_objects_history.
Qed.

(** Deleting the object again leaves the history alone. *)
Lemma object_deleted d d' id :
  objects d !! mkObjectKey Opaque id = None → only_sessions (with_object d id) d' →
  only_sessions (without_object d id) (set_objects (delete (mkObjectKey Opaque id) (objects d')) d').
Proof.
  intros Hnone Hs. rewrite (only_sessions_objects _ _ Hs). cbn [objects with_object install_record set_objects].
  change (Info.key (info (temporary id))) with (mkObjectKey Opaque id).
  rewrite delete_insert_eq, delete_id by done. destruct Hs. by split.
Qed.
(** ** The case *)

(** A device that serves the session and differs from the expected one in its
    sessions only: the state between two commands of the case. *)
Definition at_device (expected d : Device) (w : World) (h : SymmetricSession)
    (auth : SessionAuthorization) : Prop := only_sessions expected d ∧ serving d w h auth.

Lemma stored_step d w h auth expected id message :
  steady_clock → at_device expected d w h auth → typed_objects expected → may_store expected auth →
  0 < id < u16_max → objects expected !! mkObjectKey Opaque id = None →
  ∃ h' d' w', expect_answer CommandCode.PutOpaque (put_opaque id 1 READABLE LABEL PAYLOAD)
      (u16_to_be_bytes id) message ((d, w), h) = (Ok tt, ((d', w'), h')) ∧
    at_device (with_object expected id) d' w' h' auth.
Proof.
  intros Hclock [He Hs] Ht Hm Hid Hnone.
  assert (handled d auth CommandCode.PutOpaque (object_header id LABEL 1 READABLE OpaqueData ++ PAYLOAD)
    (Ok (u16_to_be_bytes id)) (λ d, with_object d id)) as Hh.
  { apply handled_put_opaque; [by apply temporary_storable|by rewrite (only_sessions_objects _ _ He)| |].
    - pose proof (storing_enabled _ _ Hm) as Hen. revert Hen.
      unfold require_algorithm_enabled, algorithm_enabled.
      by rewrite (only_sessions_config _ _ He), (only_sessions_options _ _ He).
    - by eapply temporary_authorized. }
  destruct (answer_handled _ _ _ _ _ _ _ _ (put_opaque id 1 READABLE LABEL PAYLOAD) message Hclock Hs Hh)
    as (h' & d' & w' & Hx & Ho & Hs'); [apply new_frame_fits, Hh|done..|].
  exists h', d', w'. split; [done|]. split; [|done].
  eapply only_sessions_trans; [by apply with_object_sessions|done].
Qed.
(** The queries on the stored object. *)
Lemma read_step d w h auth expected id message :
  steady_clock → at_device (with_object expected id) d w h auth → may_store expected auth →
  0 < id < u16_max →
  ∃ h' d' w', expect_answer CommandCode.GetOpaque (new_frame CommandCode.GetOpaque (u16_to_be_bytes id))
      PAYLOAD message ((d, w), h) = (Ok tt, ((d', w'), h')) ∧
    at_device (with_object expected id) d' w' h' auth.
Proof.
  intros Hclock [He Hs] Hm Hid.
  assert (handled d auth CommandCode.GetOpaque (u16_to_be_bytes id) (Ok PAYLOAD) (λ d, d)) as Hh.
  { apply (handled_get_opaque d auth id (stored expected id)); try done.
    - unfold u16, u16_max in *. lia.
    - rewrite (only_sessions_objects _ _ He). apply stored_lookup.
    - by apply stored_visible.
    - apply (storing_capabilities _ _ Hm). set_solver. }
  destruct (answer_handled _ _ _ _ _ _ _ _ (new_frame CommandCode.GetOpaque (u16_to_be_bytes id)) message Hclock Hs Hh)
    as (h' & d' & w' & Hx & Ho & Hs'); [apply new_frame_fits, Hh|done..|].
  exists h', d', w'. split; [done|]. split; [|done]. by eapply only_sessions_trans.
Qed.

Lemma info_step d w h auth expected id message :
  steady_clock → at_device (with_object expected id) d w h auth → typed_objects expected →
  may_store expected auth → 0 < id < u16_max →
  ∃ h' d' w', expect_length CommandCode.GetObjectInfo (new_frame CommandCode.GetObjectInfo (object_key id Opaque))
      66 message ((d, w), h) = (Ok tt, ((d', w'), h')) ∧
    at_device (with_object expected id) d' w' h' auth.
Proof.
  intros Hclock [He Hs] Ht Hm Hid.
  assert (typed_objects d) as Htd.
  { unfold typed_objects. rewrite (only_sessions_objects _ _ He). by apply stored_typed. }
  assert (objects d !! mkObjectKey Opaque id = Some (stored expected id)) as Hk
    by (rewrite (only_sessions_objects _ _ He); apply stored_lookup).
  pose proof (handled_info d auth _ _ Htd Hk (stored_visible _ _ _ Hm Hid)) as Hh.
  destruct (length_handled _ _ _ _ _ _ _ _ (new_frame CommandCode.GetObjectInfo (object_key id Opaque)) message Hclock Hs Hh)
    as (h' & d' & w' & Hx & Ho & Hs'); [apply new_frame_fits, Hh|done..|].
  rewrite len_info_layout in Hx by (done || apply retain_ok, READABLE_ok || apply retain_ok, NONE_ok).
  exists h', d', w'. split; [done|]. split; [|done]. by eapply only_sessions_trans.
Qed.

Lemma delete_step d w h auth expected id :
  steady_clock → at_device (with_object expected id) d w h auth → typed_objects expected →
  may_store expected auth → 0 < id < u16_max → objects expected !! mkObjectKey Opaque id = None →
  ∃ h' d' w', HostRequests.delete_object id Opaque ((d, w), h) = (Ok tt, ((d', w'), h')) ∧
    at_device (without_object expected id) d' w' h' auth.
Proof.
  intros Hclock [He Hs] Ht Hm Hid Hnone.
  assert (typed_objects d) as Htd.
  { unfold typed_objects. rewrite (only_sessions_objects _ _ He). by apply stored_typed. }
  destruct (delete_object_run d w h auth (mkObjectKey Opaque id) (stored expected id))
    as (h' & d' & w' & Hx & Ho & Hs'); [done..| |by apply stored_visible| |].
  - rewrite (only_sessions_objects _ _ He). apply stored_lookup.
  - apply (storing_capabilities _ _ Hm). set_solver.
  - exists h', d', w'. split; [done|]. split; [|done].
    eapply only_sessions_trans; [by apply object_deleted|done].
Qed.

Lemma missing_step d w h auth expected id :
  steady_clock → at_device (without_object expected id) d w h auth → may_store expected auth →
  0 < id < u16_max → objects expected !! mkObjectKey Opaque id = None →
  ∃ h' d' w', expect_refusal (new_frame CommandCode.GetOpaque (u16_to_be_bytes id)) ObjectNotFound ((d, w), h)
      = (Ok tt, ((d', w'), h')) ∧ at_device (without_object expected id) d' w' h' auth.
Proof.
  intros Hclock [He Hs] Hm Hid Hnone.
  assert (handled d auth CommandCode.GetOpaque (u16_to_be_bytes id) (Err ObjectNotFound) (λ d, d)) as Hh.
  { apply handled_get_missing; [unfold u16, u16_max in *; lia|by rewrite (only_sessions_objects _ _ He)|].
    apply (storing_capabilities _ _ Hm). set_solver. }
  destruct (refusal_handled _ _ _ _ _ _ _ _ (new_frame CommandCode.GetOpaque (u16_to_be_bytes id)) Hclock Hs Hh)
    as (h' & d' & w' & Hx & Ho & Hs'); [apply new_frame_fits, Hh|done..|].
  exists h', d', w'. split; [done|]. split; [|done]. by eapply only_sessions_trans.
Qed.

Lemma list_step d w h auth expected :
  steady_clock → at_device expected d w h auth → typed_objects expected →
  4 * Z.of_nat (size (objects expected)) ≤ 8172 →
  ∃ h' d' w', HostRequests.list_objects ((d, w), h) = (Ok (visible expected auth), ((d', w'), h')) ∧
    at_device expected d' w' h' auth.
Proof.
  intros Hclock [He Hs] Ht Hsize. destruct (list_objects_run d w h auth Hclock Hs) as (h' & d' & w' & Hx & Ho & Hs').
  - unfold typed_objects. by rewrite (only_sessions_objects _ _ He).
  - by rewrite (only_sessions_objects _ _ He).
  - exists h', d', w'. split; [|split; [by eapply only_sessions_trans|done]].
    rewrite Hx. unfold visible. by rewrite (only_sessions_objects _ _ He).
Qed.

(** Every opaque object of the device is one that the session sees. *)
Definition opaque_visible (d : Device) (auth : SessionAuthorization) : Prop :=
  map_Forall (λ k r, key_type k = Opaque → can_see auth (info r) = true) (objects d).

Lemma free_identifier d auth :
  opaque_visible d auth → 4 * Z.of_nat (size (objects d)) ≤ 8172 →
  ∃ id, unused_id (visible d auth) Opaque 0x7e00 = Ok id ∧ 0x7e00 ≤ id < u16_max ∧
    objects d !! mkObjectKey Opaque id = None.
Proof.
  intros Hvis Hsize. destruct (unused_id_found (visible d auth) Opaque 0x7e00) as (id & Hid & Hb & Hfree).
  - assert (size (visible d auth) ≤ size (objects d))%nat; [|unfold u16_max; lia].
    rewrite <- (size_dom (D := gset ObjectKey) (objects d)). apply subseteq_size.
    intros k (r & Hk & _)%elem_of_visible. by apply elem_of_dom_2 in Hk.
  - exists id. split; [done|]. split; [done|]. apply eq_None_not_Some. intros [r Hk].
    apply Hfree, elem_of_visible. exists r. split; [done|]. by apply (Hvis _ _ Hk).
Qed.

Lemma opaque_object_case_run d w h auth :
  steady_clock → serving d w h auth → typed_objects d → may_store d auth → opaque_visible d auth →
  4 * (Z.of_nat (size (objects d)) + 1) ≤ 8172 →
  ∃ id h' d' w', opaque_object_case ((d, w), h) = (Ok tt, ((d', w'), h')) ∧
    0x7e00 ≤ id < u16_max ∧ objects d !! mkObjectKey Opaque id = None ∧
    only_sessions (without_object d id) d'.
Proof.
  intros Hclock Hs Ht Hm Hvis Hsize. assert (at_device d d w h auth) as Hat by by split.
  destruct (list_step _ _ _ _ _ Hclock Hat Ht) as (h1 & d1 & w1 & Hx1 & Hat1); [lia|].
  destruct (free_identifier d auth Hvis) as (id & Hid & Hb & Hnone); [lia|].
  assert (0 < id < u16_max) as Hr by lia.
  destruct (stored_step _ _ _ _ _ id "Put Opaque returned a different object ID" Hclock Hat1 Ht Hm Hr Hnone)
    as (h2 & d2 & w2 & Hx2 & Hat2).
  destruct (read_step _ _ _ _ _ _ "Get Opaque returned different data" Hclock Hat2 Hm Hr)
    as (h3 & d3 & w3 & Hx3 & Hat3).
  destruct (info_step _ _ _ _ _ _ "object info is not 66 bytes" Hclock Hat3 Ht Hm Hr)
    as (h4 & d4 & w4 & Hx4 & Hat4).
  destruct (list_step _ _ _ _ _ Hclock Hat4) as (h5 & d5 & w5 & Hx5 & Hat5); [by apply stored_typed| |].
  { cbn. rewrite map_size_insert_None by done. lia. }
  destruct (delete_step _ _ _ _ _ _ Hclock Hat5 Ht Hm Hr Hnone) as (h6 & d6 & w6 & Hx6 & Hat6).
  destruct (missing_step _ _ _ _ _ _ Hclock Hat6 Hm Hr Hnone) as (h7 & d7 & w7 & Hx7 & [He7 Hs7]).
  destruct (close_session_run _ _ _ _ Hclock Hs7) as (h8 & d8 & w8 & Hx8 & Ho8).
  exists id, h8, d8, w8. split; [|split; [done|split; [done|by eapply only_sessions_trans]]].
  unfold opaque_object_case. rewrite (eff_run _ _ _ _ _ Hx1). rewrite (lift_run _ _ _ _ Hid).
  cbv zeta. rewrite (eff_run _ _ _ _ _ Hx2), (eff_run _ _ _ _ _ Hx3), (eff_run _ _ _ _ _ Hx4),
    (eff_run _ _ _ _ _ Hx5).
  rewrite (eff_run _ _ _ tt ((d5, w5), h5)).
  - by rewrite (eff_run _ _ _ _ _ Hx6), (eff_run _ _ _ _ _ Hx7).
  - unfold check. rewrite bool_decide_true; [done|]. apply elem_of_visible. exists (stored d id).
    split; [apply stored_lookup|by apply stored_visible].
Qed.

(** C13: the life of an object, from end to end. An administrator whose session is
    open, who may store, read and delete opaque objects in the first domain and
    sees every opaque object, and who is not held up by forced audit or by a clock
    that jumps, runs the case through the encrypted session to its end: it passes,
    and afterwards the device has the objects, the options and the identity it had,
    and the history of generations advanced at one identifier that was free. *)
Theorem opaque_object_lifecycle_passes `{!P256Library} (credentials : Credentials (Device * World))
    (s0 : Device * World) (d : Device) (w : World) (h : SymmetricSession) (auth : SessionAuthorization) :
  open_host_session credentials s0 = (Ok h, (d, w)) →
  steady_clock → serving d w h auth → typed_objects d → may_store d auth → opaque_visible d auth →
  4 * (Z.of_nat (size (objects d)) + 1) ≤ 8172 →
  ∃ id d' w', opaque_object_lifecycle credentials s0 = (Ok tt, (d', w')) ∧
    0x7e00 ≤ id < u16_max ∧ objects d !! mkObjectKey Opaque id = None ∧
    objects d' = objects d ∧ options d' = options d ∧
    device_static_private d' = device_static_private d ∧
    sequence_history d' = <[id := next_generation d id]> (sequence_history d).
Proof.
  intros Hopen Hclock Hs Ht Hm Hvis Hsize.
  destruct (opaque_object_case_run d w h auth Hclock Hs Ht Hm Hvis Hsize)
    as (id & h' & d' & w' & Hrun & Hid & Hnone & []).
  exists id, d', w'. split; [|done]. unfold opaque_object_lifecycle, in_session.
  rewrite (eff_run _ _ _ _ _ Hopen). unfold run_session. by rewrite Hrun.
Qed.
End lifecycle.

(** ** Witness *)

From S2P Require Import Toy AsymmetricHandshake Cleanup.

#[local] Existing Instance default_build.
#[local] Existing Instance toy_fuel.
#[local] Existing Instance toy_p256.

Lemma opaque_object_lifecycle_passes_witness :
  ∃ id d' w', opaque_object_lifecycle (from_password 1 (ascii_bytes "password")) (leftover_device, toy_world)
      = (Ok tt, (d', w')) ∧ 0x7e00 ≤ id ∧ objects d' = objects leftover_device.
Proof.
  destruct leftover_session as (h & d & w & Ho & Hs & Hd).
  pose proof (only_sessions_objects _ _ Hd) as Hobj.
  destruct (opaque_object_lifecycle_passes (from_password 1 (ascii_bytes "password"))
    (leftover_device, toy_world) d w h (mkAuthorization 1 ALL ALL u16_max))
    as (id & d' & w' & Hrun & Hid & _ & Hd' & _).
  - exact Ho.
  - intros w0. cbn. unfold SESSION_INACTIVITY_TIMEOUT. lia.
  - exact Hs.
  - unfold typed_objects. rewrite Hobj. apply leftover_typed.
  - split.
    + unfold require_algorithm_enabled, algorithm_enabled.
      rewrite (only_sessions_config _ _ Hd), (only_sessions_options _ _ Hd). by vm_compute.
    + split; by_computation.
    + intros c _. by destruct c.
    + by vm_compute.
    + by_computation.
  - unfold opaque_visible. rewrite Hobj.
    by apply map_Forall_insert_2; [|apply map_Forall_insert_2; [|apply map_Forall_empty]].
  - rewrite Hobj. by vm_compute.
  - exists id, d', w'. split; [exact Hrun|]. split; [lia|]. by rewrite Hd', Hobj.
Defined.
