(* ===== verification/QualificationTool.v ===== *)
(** * The qualification tool (crates/yubihsm-qualification/src/main.rs)

    What a command line asks for, with which transport and which credentials, and
    the whole program: the task is run over its transport, and the lines that the
    tool prints are its result. *)

From S2P Require Import Prelude Error Io Frame Firmware Algorithm Capability Protocol KeyCore.
From S2P Require Import Wire Objects Authorization SessionObjects Requests SecureChannel.
From S2P Require Import DeviceState ObjectStore ObjectCommands KeyUse Wrapping Attestation.
From S2P Require Import SessionObjectCommands Dispatch Sessions HostSession InProcess Connector.
From S2P Require Import Qualification Credentials AsymmetricHandshake Scenarios.
From S2P Require Import PublicKeyScenarios Suite.

(** The text after [Usage:] is printed as it is. *)
Definition NEWLINE : string := text [10].
Definition lines (l : list string) : string := String.concat NEWLINE l.

Definition USAGE : string := lines
  ["Usage:"%string;
   "  yubihsm-qualification core [smoke|managed|extensions|ephemeral]"%string;
   "  yubihsm-qualification connector URL SERIAL [smoke|managed|extensions]"%string;
   "  yubihsm-qualification provision-discovery URL SERIAL"%string;
   "  yubihsm-qualification cleanup URL SERIAL"%string;
   ""%string;
   "Managed connector qualification uses one of these credential sources:"%string;
   "  YUBIHSM_QUALIFICATION_HSMAUTH_LABEL and YUBIHSM_QUALIFICATION_HSMAUTH_PASSWORD"%string;
   "  YUBIHSM_QUALIFICATION_PLATFORM_CREDENTIAL"%string;
   "  YUBIHSM_QUALIFICATION_PASSWORD (direct symmetric authentication)"%string;
   "The optional YUBIHSM_QUALIFICATION_AUTH_KEY_ID defaults to 1. The ephemeral profile is"%string;
   "intentionally limited to a fresh in-process core because it changes audit"%string;
   "configuration and leaves audit entries behind."%string].

Definition parse_profile (value : string) (core : bool) : outcome string Profile :=
  if bool_decide (value = "smoke"%string) then Ok Smoke
  else if bool_decide (value = "managed"%string) then Ok Managed
  else if bool_decide (value = "extensions"%string) then Ok Extensions
  else if bool_decide (value = "ephemeral"%string) then
    if core then Ok Ephemeral
    else Err "the ephemeral profile is limited to a fresh in-process core; use managed for a connector"%string
  else Err USAGE.

(** What [execute] is asked to do. *)
Inductive Task : Set :=
| ProvisionDiscovery (transport : ConnectorHttpTransport)
| Cleanup (transport : ConnectorHttpTransport)
| QualifyCore (profile : Profile)
| QualifyConnector (transport : ConnectorHttpTransport) (profile : Profile).

(** [ConnectorHttpTransport::new] with the text of its error. *)
Definition connector_target (url serial : string) : outcome string ConnectorHttpTransport :=
  map_err message (new_connector (ascii_bytes url) (ascii_bytes serial)).

Definition select_task (arguments : list string) : outcome string Task :=
  match arguments with
  | [target] =>
      if bool_decide (target = "core"%string) then Ok (QualifyCore Ephemeral) else Err USAGE
  | [target; profile] =>
      if bool_decide (target = "core"%string)
      then profile ← parse_profile profile true; Ok (QualifyCore profile)
      else Err USAGE
  | [operation; url; serial] =>
      if bool_decide (operation = "provision-discovery"%string)
      then transport ← connector_target url serial; Ok (ProvisionDiscovery transport)
      else if bool_decide (operation = "cleanup"%string)
      then transport ← connector_target url serial; Ok (Cleanup transport)
      else if bool_decide (operation = "connector"%string)
      then transport ← connector_target url serial; Ok (QualifyConnector transport Smoke)
      else Err USAGE
  | [target; url; serial; profile] =>
      if bool_decide (target = "connector"%string)
      then profile ← parse_profile profile false;
           transport ← connector_target url serial; Ok (QualifyConnector transport profile)
      else Err USAGE
  | _ => Err USAGE
  end.

Section credentials.
Context `{SoftwareKeyCore} `{!P256Library} `{!Platform.PlatformCredentials} `{!HsmAuth.Pcsc}
  `{!HsmAuth.HsmAuthClient} `{Fuel} `{Environment} `{CredentialFeatures} {T : Type} `{!HostWorld T}.

(** [value.parse::<u16>()]: an absent variable is key 1. *)
Definition authentication_key_id : outcome string Z :=
  match environment_variable "YUBIHSM_QUALIFICATION_AUTH_KEY_ID" with
  | Some value =>
      ok_or (from_str_radix 10 (2 ^ 16) (ascii_bytes value))
        "YUBIHSM_QUALIFICATION_AUTH_KEY_ID must be a u16"%string
  | None => Ok 1
  end.

Definition external_credentials : Eff World string (Credentials T) :=
  id ← lift authentication_key_id; connector_credentials id.

(** The credentials of a task; the read-only profile needs none. *)
Definition task_credentials (task : Task) : Eff World string (option (Credentials T)) :=
  match task with
  | ProvisionDiscovery _ | Cleanup _ => credentials ← external_credentials; mret (Some credentials)
  | QualifyCore Smoke | QualifyConnector _ Smoke => mret None
  | QualifyCore _ | QualifyConnector _ Ephemeral =>
      mret (Some (from_password 1 (ascii_bytes "password")))
  | QualifyConnector _ (Managed | Extensions) =>
      credentials ← external_credentials; mret (Some credentials)
  end.
End credentials.

(** ** Running a task *)

Section execute.
Context `{Build} `{HX : X509} `{Der} `{!P256Library} `{!HostCrypto} `{!TcpStream}.
Context `{!Platform.PlatformCredentials} `{!HsmAuth.Pcsc} `{!HsmAuth.HsmAuthClient} `{Fuel}.
Context `{Environment} `{CredentialFeatures}.

#[local] Existing Instance in_process_transport.

#[local] Instance world_itself : HostWorld World := λ A m, m.
#[local] Instance in_process_description : Described (Device * World) :=
  λ _, "in-process virtual-yubihsm-core"%string.

(** A transport over a connector, which keeps nothing between exchanges. *)
Definition connector_description (self : ConnectorHttpTransport) : string :=
  "connector http://" +:+ text (host self) +:+ ":" +:+ decimal (port self)
  +:+ " serial " +:+ text (connector_serial self).

(** [QualificationError::fmt]. *)
Definition error_line (self : QualificationError) : string := case self +:+ ": " +:+ case_message self.

Definition with_error_line {S A} (m : Eff S QualificationError A) : Eff S string A := λ s,
  let '(r, s) := m s in (map_err error_line r, s).

(** The lines of a report. *)
Definition report_lines (report : Report) : list string :=
  ("qualified " +:+ target report +:+ " (serial " +:+ decimal (identity_serial (identity report)) +:+ ")")%string
  :: map (λ case, "  PASS " +:+ case)%string (passed report)
  ++ map (λ case, "  UNSUPPORTED " +:+ case)%string (unsupported report).

(** A run over a device of the same process, which is dropped at the end. *)
Definition run_in_process {A} (device : Device) (m : Eff (Device * World) string A) : Eff World string A :=
  λ w, let '(r, (_, w)) := m (device, w) in (r, w).

Definition qualify_core (device : Device) (profile : Profile) : Eff World string (list string) :=
  credentials ← task_credentials (QualifyCore profile);
  report ← run_in_process device (with_error_line (run profile credentials));
  mret (report_lines report).

Section connector.
Context (self : ConnectorHttpTransport).

#[local] Instance connector_transport : Transport World := connector_exchange self.
#[local] Instance connector_described : Described World := λ _, connector_description self.

Definition qualify_connector (profile : Profile) : Eff World string (list string) :=
  credentials ← task_credentials (QualifyConnector self profile);
  report ← with_error_line (run profile credentials);
  mret (report_lines report).

Definition provision_discovery : Eff World string (list string) :=
  credentials ← external_credentials;
  _ ← replace_public_discovery_credential credentials;
  mret [("provisioned restricted public discovery credential on " +:+ connector_description self)%string].

Definition cleanup : Eff World string (list string) :=
  credentials ← external_credentials;
  report ← cleanup_qualification_objects credentials;
  mret [("removed " +:+ decimal (removed report) +:+ " temporary qualification object(s) from "
         +:+ connector_description self +:+ "; " +:+ decimal (remaining report)
         +:+ " object(s) remain")%string].
End connector.

(** [InProcessTransport::factory_default], before the rest of the command line is
    looked at. *)
Definition core_device (arguments : list string) : Eff World string (option Device) :=
  match arguments with
  | [target] | [target; _] =>
      if bool_decide (target = "core"%string) then λ w,
        let '(device, w) := factory_default default_config w in
        (match device with
         | Ok device => Ok (Some device)
         | Diverge => Diverge
         | _ => Panic
         end, w)
      else mret None
  | _ => mret None
  end.

Definition execute (arguments : list string) : Eff World string (list string) :=
  device ← core_device arguments;
  task ← lift (select_task arguments);
  match task with
  | ProvisionDiscovery transport => provision_discovery transport
  | Cleanup transport => cleanup transport
  | QualifyCore profile => device ← lift (unwrap device); qualify_core device profile
  | QualifyConnector transport profile => qualify_connector transport profile
  end.

(** What the process leaves: its output, or its error message. *)
Inductive ExitCode : Set :=
| Success (stdout : list string)
| Failure (stderr : string).

Definition main (arguments : list string) : Eff World string ExitCode := λ w,
  let '(r, w) := execute arguments w in
  (match r with
   | Ok lines => Ok (Success lines)
   | Err error => Ok (Failure ("qualification failed: " +:+ error))
   | Panic => Panic
   | Diverge => Diverge
   end, w).
End execute.

(** ** Lemmas *)

(** The profile that changes the audit configuration never meets a connector, as the
    usage text says. *)
Lemma ephemeral_is_in_process arguments transport profile :
  select_task arguments = Ok (QualifyConnector transport profile) → profile ≠ Ephemeral.
Proof.
  unfold select_task, parse_profile.
  repeat (case_match; try done); intros Ht; inv_ok; try done.
  all: repeat (apply outcome_bind_ok in Ht as (? & ? & Ht)); inv_ok; try done.
Qed.

(** The well-known password is used on a connector by no profile. *)
Lemma connector_passwords_are_external `{SoftwareKeyCore} `{!P256Library}
    `{!Platform.PlatformCredentials} `{!HsmAuth.Pcsc} `{!HsmAuth.HsmAuthClient} `{Fuel} `{Environment}
    `{CredentialFeatures} {T : Type} `{!HostWorld T} arguments transport profile w c w' :
  select_task arguments = Ok (QualifyConnector transport profile) →
  task_credentials (T := T) (QualifyConnector transport profile) w = (Ok (Some c), w') →
  external_credentials w = (Ok c, w').
Proof.
  intros Hp%ephemeral_is_in_process Hc. destruct profile; [done| | |done];
    apply eff_bind_ok in Hc as (c' & w1 & Hx & [= <- <-]); exact Hx.
Qed.
