(* ===== verification/ScenarioRuns.v ===== *)
(** * The suite on the device

    The profiles of [Suite] run on a factory device over the in-process transport,
    with the small libraries of [Toy]: their block cipher knows the published
    vectors, and their signatures are checked by the public half defined here. *)

From S2P Require Import Prelude Error Io Frame Firmware Algorithm Capability Protocol KeyCore.
From S2P Require Import Wire Objects Authorization SessionObjects Requests SecureChannel.
From S2P Require Import DeviceState ObjectStore ObjectCommands KeyUse Wrapping Attestation.
From S2P Require Import SessionObjectCommands Dispatch CommandEffects StoreProperties Sessions.
From S2P Require Import HostSession HostRequests InProcess Qualification Credentials.
From S2P Require Import AsymmetricHandshake PublicKeyScenarios Suite Connector QualificationTool Toy.

#[export] Instance in_process_description `{Platform} {D} : Described (D * World) :=
  λ _, "in-process virtual-yubihsm-core"%string.

(** ** The smoke profile, on any device *)

Section smoke.
Context `{Build} `{HX : X509} `{Der} `{Fuel} `{!P256Library} `{!HostCrypto}.

#[local] Existing Instance in_process_transport.

(** C40: the smoke profile passes on the device. On every device with a three-byte
    version, a 32-bit serial number, an algorithm list that fits the answer and a
    static P-256 key, [run] with the smoke profile reports the five read-only cases
    and the identity of the device over the in-process transport, with or without
    credentials. The device is left as it was, but that the clock was read five
    times, and each time the sessions went that were last used thirty seconds before
    or earlier; every other session stays as it was. *)
Theorem smoke_profile_passes (d : Device) (w : World) (credentials : option (Credentials (Device * World))) :
  qualifiable d →
  ∃ s', run Smoke credentials (d, w)
        = (Ok (mkReport "in-process virtual-yubihsm-core" Smoke (identity_of d)
                 ["malformed and unknown frames"; "plain echo"; "device identity";
                  "device public key"; "plain session boundary"]%string []), s') ∧
    nsteps tick 5 (d, w) s'.
Proof.
  intros Hq. destruct (read_only_cases_pass d w Hq) as (s' & Hrun & Hs). exists s'. split; [|done].
  unfold run. rewrite (eff_run _ _ _ (d, w) (d, w)) by done. rewrite (eff_run _ _ _ _ _ Hrun).
  reflexivity.
Qed.
End smoke.

(** ** The factory device *)

#[local] Existing Instance default_build.
#[local] Existing Instance toy_fuel.
#[local] Existing Instance toy_p256.
#[local] Existing Instance in_process_transport.

Lemma example_qualifiable : qualifiable example_device.
Proof.
  split; [done|by vm_compute|by vm_compute|].
  exists P256, 4. eexists. split; [reflexivity|by vm_compute].
Qed.

(** The private key behind a public one: a point repeats it, other keys are it. *)
Definition toy_private (k : SoftwarePublicKey) : bytes :=
  match k with
  | PublicEc _ p => toy_coordinate p
  | PublicEdwards _ b | PublicRsa b _ | PublicMlDsa _ b => b
  end.

Definition toy_verify (k : SoftwarePublicKey) (message signature : bytes) : unit + string :=
  if bool_decide (signature = toy_mac (toy_private k) message) then inl tt else inr "mismatch"%string.

#[export] Instance toy_host_crypto : HostCrypto := {|
  signature_scheme c := EcdsaP256Sha256;
  ecdsa_signature_from_der b n := inl b;
  verify_prehash k s d g := toy_verify k d g;
  verify_rsa_pss_prehash k s d n g := toy_verify k d g;
  verify_message k s d g := toy_verify k d g;
  certificate_public_key b := inl b;
|}.

Definition administrator : Credentials (Device * World) := from_password 1 (ascii_bytes "password").

(** What the repository's own tests of the suite look at: the identity, the number
    of cases that passed, those that are not supported, and the sessions left. *)
Definition suite_summary (profile : Profile) (credentials : option (Credentials (Device * World))) :
    outcome QualificationError (Z * Z * list string) * Z :=
  let '(r, (d, _)) := run profile credentials (example_device, toy_world) in
  (match r with
   | Ok report => Ok (identity_serial (identity report), len (passed report), unsupported report)
   | Err e => Err e
   | Panic => Panic
   | Diverge => Diverge
   end, Z.of_nat (size (sessions d))).

Lemma factory_core_passes_the_complete_ephemeral_profile :
  suite_summary Ephemeral (Some administrator) = (Ok (12345678, 22, []), 0).
Proof. vm_compute. reflexivity. Qed.

Lemma factory_core_passes_the_extension_profile :
  suite_summary Extensions (Some administrator) = (Ok (12345678, 25, []), 0).
Proof. vm_compute. reflexivity. Qed.

Lemma smoke_profile_needs_no_credentials_and_does_not_open_a_session :
  suite_summary Smoke None = (Ok (12345678, 5, []), 0).
Proof. vm_compute. reflexivity. Qed.

(** Without credentials, a managed profile stops after the read-only cases. *)
Lemma managed_profile_needs_credentials :
  suite_summary Managed None
  = (Err (mkQualification "credentials" "managed profiles require credentials"), 0).
Proof. vm_compute. reflexivity. Qed.

(** ** Witnesses *)

Lemma smoke_profile_passes_witness :
  ∃ s', run Smoke None (example_device, toy_world)
        = (Ok (mkReport "in-process virtual-yubihsm-core" Smoke (identity_of example_device)
                 ["malformed and unknown frames"; "plain echo"; "device identity";
                  "device public key"; "plain session boundary"]%string []), s') ∧
    nsteps tick 5 (example_device, toy_world) s'.
Proof. apply (smoke_profile_passes example_device toy_world None). exact example_qualifiable. Defined.

Lemma reports_are_earned_witness :
  ∃ report t', run Extensions (Some administrator) (example_device, toy_world) = (Ok report, t') ∧
    earned Extensions (Some administrator) (example_device, toy_world) report t'.
Proof.
  destruct (run Extensions (Some administrator) (example_device, toy_world)) as [r t'] eqn:Hr.
  pose proof (f_equal (λ x, is_ok x.1) Hr) as Hok. cbn [fst] in Hok.
  destruct r as [report|e| |].
  - exists report, t'. split; [reflexivity|].
    exact (reports_are_earned Extensions (Some administrator) (example_device, toy_world) (Ok report) t' Hr).
  - exfalso. clear Hr. vm_compute in Hok. discriminate Hok.
  - exfalso. clear Hr. vm_compute in Hok. discriminate Hok.
  - exfalso. clear Hr. vm_compute in Hok. discriminate Hok.
Defined.

(** ** The whole tool

    The program itself, with no connector, no smart card and no environment: it
    creates a factory device, runs every case on it and prints the report. *)

#[local] Existing Instance toy_credentials.
#[local] Instance no_tcp : TcpStream := {|
  tcp_connect h p w := (Some "no network"%string, w);
  tcp_set_read_timeout w := (None, w);
  tcp_set_write_timeout w := (None, w);
  tcp_write_all b w := (None, w);
  tcp_read_to_end w := (inl [], w);
|}.
#[local] Instance no_pcsc : HsmAuth.Pcsc := {|
  HsmAuth.PcscContext := unit;
  HsmAuth.Card := unit;
  HsmAuth.establish w := (inr "no smart-card service"%string, w);
  HsmAuth.list_readers_owned c w := (inl [], w);
  HsmAuth.connect c r w := (inr "no card"%string, w);
  HsmAuth.card_transmit c b w := (inr "no card"%string, w);
|}.
#[local] Instance no_applet : HsmAuth.HsmAuthClient := {|
  HsmAuth.client_select x w := (inr "no applet"%string, w);
  HsmAuth.client_get_challenge x l p w := (inr "no applet"%string, w);
  HsmAuth.calculate_session_keys_asymmetric x l a b c d w := (inr "no applet"%string, w);
|}.
#[local] Instance no_environment : Environment := λ _, None.
#[local] Instance no_features : CredentialFeatures := {| native_hsmauth := false; platform_credential := false |}.

Lemma core_smoke_prints_its_report :
  (main ["core"; "smoke"]%string toy_world).1
  = Ok (Success ["qualified in-process virtual-yubihsm-core (serial 12345678)";
                 "  PASS malformed and unknown frames"; "  PASS plain echo"; "  PASS device identity";
                 "  PASS device public key"; "  PASS plain session boundary"]%string).
Proof. vm_compute. reflexivity. Qed.

Lemma core_runs_every_case :
  match (main ["core"; "extensions"]%string toy_world).1 with
  | Ok (Success lines) => List.length lines = 26%nat
  | _ => False
  end.
Proof. vm_compute. reflexivity. Qed.

(** A connector that cannot be reached ends the run in its first case. *)
Lemma unreachable_connector_fails :
  (main ["connector"; "http://localhost"; "1"]%string toy_world).1
  = Ok (Failure ("qualification failed: malformed and unknown frames: "
                 +:+ "connector connection failed: no network")).
Proof. vm_compute. reflexivity. Qed.
